(* ===== verification/_CoqProject ===== *)
-Q . S2P
Prelude.v
Unicode.v
GoStrings.v
JSON.v
XML.v
Glob.v
NetIP.v
Policy.v
PolicyFacts.v
GoError.v
Dialect.v
DialectFacts.v
Crypto.v
GoNet.v
GoTime.v
Signer.v
Canonical.v
Verifier.v
VerifierFacts.v
Checksum.v
Chunked.v
ChunkedFacts.v
PostPolicy.v
PostPolicyFacts.v
Cors.v
Store.v
Authorize.v
AuthorizeFacts.v
Breaker.v
Clients.v
ClientsFacts.v
Catalog.v
OpGen.v
OpGenFacts.v
Config.v
ConfigFacts.v
Headers.v
Body.v
BodyFacts.v
Addressing.v
Routing.v
RoutingFacts.v
S3XML.v
Sdk.v
Proxy.v
ListingFacts.v
Multipart.v
Objects.v
ServeFacts.v
EndToEnd.v
PostObject.v
PostObjectFacts.v
Pipeline.v
PipelineFacts.v
Telemetry.v
TelemetryFacts.v
Server.v
ErrorText.v
ChecksumGen.v
Gateway.v
GatewayFacts.v
Service.v
Harness.v
HarnessFacts.v
