(* ===== verification/Prelude.v ===== *)
(** * s3rp: a verified model of a multi-tenant S3 gateway

    s3rp is a reverse proxy that speaks the S3 API.  A request is verified
    against the front-side access key of a tenant's user (AWS Signature V4),
    authorized against the user's policy and the bucket's, and re-executed with
    the backend's own credentials; the response is rewritten so that nothing of
    the backend shows.  This library models the Go program under src/ and
    proves what a deployment relies on: who may reach what, that bodies are the
    ones signed, that tenants are kept apart, how errors and panics are
    answered and recorded.

    ** How a request goes through the program, and the files that model it

    - The wire: [Unicode], [GoStrings], [GoNet], [GoTime], [NetIP], [JSON],
      [XML] and [Crypto] hold what the program uses of Go's standard library,
      as executable functions on byte strings.
    - Signatures (src/sigv4): [Signer] is the cache of derived keys
      (signer.go), [Canonical] the canonical request (canonical.go), [Verifier]
      header and presigned authentication (sigv4.go, authfailure.go),
      [PostPolicy] signed forms (postpolicy.go), [Chunked] the aws-chunked
      reader (chunked.go).  [Checksum] is src/checksum.
    - Policies (src/policy): [Glob] is the matcher, [Policy] evaluation and
      validation (policy.go, condition.go), [Dialect] reading and writing
      documents (dialect.go and the JSON methods).
    - Definitions: [Store] is the interface a store implements (src/store), a
      record of operations with the class of its laws; [Config] is the static
      configuration and the store built from it (config.go, store.go), an
      instance of those laws.  [Cors] is src/cors, [Catalog] the table of
      operations and actions (src/s3op), [OpGen] its generator
      (src/s3op/internal/s3opgen).
    - The gateway (src/s3gw): [Authorize] (auth.go, bucketpolicy.go,
      denyreason.go), [Headers] (headers.go, sse.go, acl.go, checksums.go),
      [Body] (the readers of proxy.go and postobject.go), [Addressing]
      (addressing.go), [Routing] (handler.go, copy.go): route tables, dispatch,
      and [handleRequest] up to the operation that runs.  The operations are
      [Proxy] (proxy.go, checksums_gen.go), [Multipart] (multipart.go,
      copy.go) and [Objects] (the other operation files), over [Sdk], the
      calls of the backend client, and [S3XML], the XML bodies (src/s3xml).
      [PostObject] is browser uploads (postobject.go).  [Pipeline] is the
      request boundary, pacing and hooks (handler.go, intercept.go, observe.go,
      panic.go); [GoError] is errors and error answers (src/s3err).  [Clients]
      is the backend clients and their cache (gateway.go, gateway_api.go,
      backend.go), [Breaker] the circuit breaker (breaker.go).
    - All of it together: [Gateway] is Handler, handleRequest and
      handlePostObject as one program over the connection and the backend, the
      ServeMux in front, the hooks and the record included; [Service] is New,
      the options of a service and the requests it serves over its life.
    - The process: [Telemetry] is metrics and the access log
      (otelmetric, semconv, metrics.go, s3rp.go), [Server] the goroutines of
      the server from its start to its exit (s3rp.go, cmd/s3rp), [ErrorText] the
      texts of errors for the operator.  [ChecksumGen] is the generator of the
      checksum conversions (src/s3gw/internal/checksumgen), [Harness] the
      control plane of the conformance tests (src/s3tests/harness).

    Each [XFacts] file holds the theorems about the file [X]; [ServeFacts] is
    about the operations of [Proxy], [Multipart] and [Objects] together, and
    [ListingFacts] about the listing of buckets.  The other components have
    their theorems in the same file.  [EndToEnd] composes routing,
    authorization and the handlers; [GatewayFacts] builds on it.

    ** How the code is translated

    A Go function keeps its name, in a Module named after its package or file.
    A function that returns an error returns [result]; a method that changes a
    receiver returns the changed record; a nil pointer is [None]; a byte string
    is a [string]; int64 and uint64 arithmetic that can wrap is written with
    [wrap64] or a modulus.  A handler is a tree of the backend calls it makes
    ([Sdk]), a hook or an interceptor a program over the connection
    ([Pipeline]) into which the tree of an operation is embedded ([Gateway]); a reader is a class with every short read possible ([Body],
    [Chunked]).  What runs concurrently is a step relation: requests racing for
    clients ([Clients]), the control plane ([Harness]), the breaker's locked
    sections ([Breaker]), the goroutines of the process ([Server]).  Where two slices share an array the array is
    explicit ([Telemetry]).  Writing a status outside 100..999 panics, as in
    net/http, and a second status line is dropped ([Pipeline]).  Maps a Go loop ranges over are taken in a fixed
    order, which decides only which of several errors is reported.

    ** What the theorems show

    - Who may reach what: every backend call the handler makes, whatever the
      hooks, the client and the backend do, is on the bucket and key the
      request addresses, with each permission the code asks for it granted,
      and the undo of an upload deletes only the version just put
      ([GatewayFacts], [EndToEnd], [RoutingFacts], [AuthorizeFacts],
      [ServeFacts], [PostObjectFacts]); the record names only what was proven
      ([GatewayFacts]); policies decide as documented, and their pre-matched
      evaluators agree ([PolicyFacts], [Glob]); a document is confined to its
      bucket and survives a round trip ([DialectFacts]).
    - What is signed is what is used: the three kinds of authentication
      ([VerifierFacts], [PostPolicyFacts]), the key cache ([Signer]), over the
      whole life of a service ([Service]), streamed
      and hashed bodies ([ChunkedFacts], [BodyFacts]), sizes of uploads
      ([PostObjectFacts]).
    - Tenants and backends are kept apart: loaded configurations and the store
      they give ([ConfigFacts]), clients ([ClientsFacts]), responses that hide
      the backend ([ServeFacts], [GoError]), the control plane
      ([HarnessFacts]).
    - Behaviour under failure: at most one answer and one record per request,
      and exactly when there is none; bodies sent only after a granted wait,
      ordered hooks ([PipelineFacts]); measurements and log lines
      ([TelemetryFacts]); the breaker never wedges ([Breaker]); paging ends
      with every bucket listed ([ListingFacts]); the process ends in order
      ([Server]).
    - Generated code: the catalog is the one generated from operations.json
      ([OpGenFacts]), the checksum conversions those of the table of algorithms
      ([ChecksumGen]).

    Some theorems state where the code falls short of what it means to do:
    [Glob.Match_misses_asterisk_key], [presign_expiry_wraps],
    [readXMLBody_beyond_limit], [demo_shared_respelled],
    [control_plane_race], [panic_stack_lost], [failure_unrecorded],
    [copy_version_masked] (a copy source whose version is hidden from the
    check by an empty first versionId), [wrapHandler_single_answer] (an error
    whose status net/http refuses is neither answered nor recorded),
    [Handler_redirects] (keys the mux in front of the gateway never lets
    through), [Serve_does_not_drain].

    ** Fuel and bounds

    Loops that are not structural take fuel: the glob loop the product of the
    lengths ([matchRunes_loop_total]), the JSON parser two steps per rune
    ([parse_fuel]), the trailers of a chunked body the length of the input
    ([trailers_total]), [waitBandwidth] and [write_loop] the bytes to send,
    paging any number above that of the buckets ([list_pages_complete], where
    running out is [None]).  Each of these measures decreases at
    every iteration of the Go loop, and the theorems are stated with that fuel,
    not for some fuel.

    ** Parameters

    Code outside the repository is an argument of the definitions that use it:
    xml.Unmarshal into the request types and http.ParseTime ([Proxy.ctx]),
    mime/multipart's reader and the printing of a redirect target
    ([PostObject]), the answers of the SDK client ([Sdk.call]), the LRU
    ([Clients.LRU], with the laws it documents), LoadDefaultConfig, the
    OpenTelemetry SDK, strconv.Quote, hash/maphash's seed, clocks, random ids,
    and how much a read or write transfers.

    ** Not modelled

    The network server itself, command-line parsing and the log handler of the
    process (cli.go, the mains under cmd/ but for the exit code); the YAML
    decoder and environment expansion of configuration files; the text of
    generated files, which are modelled as declarations; the benchmark; the
    message of a formatted error that wraps another, and the JSON form of a
    request record; locks, where a locked section is one step.  In [Gateway]
    the body of a request is what it brings, read by the operation's own
    readers ([Body]); that reading is paced is shown of the connection
    ([PipelineFacts]), not of the embedded operation.  No security property of
    a hash function is assumed: the theorems speak about the functions
    themselves.

    ** This file

    Results, loops with early return, formatted messages, the automation and
    the generic lemmas the components share. *)

From stdpp Require Export base numbers list gmap strings sorting.
From Stdlib Require Export ZArith Lia Ascii.

(** ** Results of fallible operations

    A Go function returning [(T, error)] or [*s3err.Error] is modelled by
    [result E T].  Sequencing is stdpp's monadic [←]. *)
Inductive result (E A : Type) : Type :=
| Ok (a : A)
| Err (e : E).

Arguments Ok {E A} a.
Arguments Err {E A} e.

#[export] Instance result_ret {E} : MRet (result E) := fun A a => Ok a.

#[export] Instance result_bind {E} : MBind (result E) :=
  fun A B f m => match m with Ok a => f a | Err e => Err e end.

#[export] Instance result_eq_dec `{EqDecision E, EqDecision A} : EqDecision (result E A).
Proof. solve_decision. Defined.

Definition is_ok {E A} (r : result E A) : bool :=
  match r with Ok _ => true | Err _ => false end.

Definition result_to_option {E A} (r : result E A) : option A :=
  match r with Ok a => Some a | Err _ => None end.

(** [guard c e]: Go's [if !c { return e }]. *)
Definition guard {E} (c : bool) (e : E) : result E unit :=
  if c then Ok tt else Err e.

(** [each f l]: a Go [for] loop whose body may return an error early. *)
Fixpoint each {E A} (f : A -> result E unit) (l : list A) : result E unit :=
  match l with
  | [] => Ok tt
  | x :: l => match f x with Ok _ => each f l | Err e => Err e end
  end.

(** [each_i f i l]: the same loop with the index. *)
Fixpoint each_i {E A} (f : nat -> A -> result E unit) (i : nat) (l : list A) : result E unit :=
  match l with
  | [] => Ok tt
  | x :: l => match f i x with Ok _ => each_i f (S i) l | Err e => Err e end
  end.

(** [foldM]: a loop that carries a state and may fail. *)
Fixpoint foldM {E A S} (f : S -> A -> result E S) (s : S) (l : list A) : result E S :=
  match l with
  | [] => Ok s
  | x :: l => match f s x with Ok s' => foldM f s' l | Err e => Err e end
  end.

(** ** Formatted messages

    The text a [fmt.Sprintf] or [fmt.Errorf] builds, kept as its fragments: a
    literal or [%s] argument, a quoted [%q] argument, a [%d] argument.  The
    program never inspects a message it has formatted. *)
Inductive frag := FS (s : string) | FQ (s : string) | FD (n : Z).
Definition message := list frag.

#[export] Instance frag_eq_dec : EqDecision frag.
Proof. solve_decision. Defined.

(** ** Automation *)

Create HintDb s3rp.

(** Splits a successful monadic computation in the hypotheses into its steps. *)
Ltac res_step :=
  match goal with
  | H : _ ≫= _ = Ok _ |- _ => unfold mbind, result_bind in H
  | H : mret _ = Ok _ |- _ => unfold mret, result_ret in H
  | H : guard ?c _ = Ok _ |- _ => unfold guard in H
  | H : (if ?c then _ else _) = Ok _ |- _ => destruct c eqn:?; try discriminate H
  | H : (match ?c with _ => _ end) = Ok _ |- _ => destruct c eqn:?; try discriminate H
  | H : Ok _ = Ok _ |- _ => injection H as H; subst
  end.
Ltac res_inv := repeat (res_step; simpl in * ).

(** Turns boolean tests in the hypotheses into propositions. *)
Ltac bools :=
  repeat match goal with
  | H : _ && _ = true |- _ => apply andb_true_iff in H as [? ?]
  | H : _ || _ = false |- _ => apply orb_false_iff in H as [? ?]
  | H : negb _ = true |- _ => apply negb_true_iff in H
  | H : negb _ = false |- _ => apply negb_false_iff in H
  | H : bool_decide _ = true |- _ => apply bool_decide_eq_true in H
  | H : bool_decide _ = false |- _ => apply bool_decide_eq_false in H
  | H : (_ <? _)%Z = true |- _ => apply Z.ltb_lt in H
  | H : (_ <? _)%Z = false |- _ => apply Z.ltb_ge in H
  | H : (_ <=? _)%Z = true |- _ => apply Z.leb_le in H
  | H : (_ <=? _)%Z = false |- _ => apply Z.leb_gt in H
  | H : (_ =? _)%Z = true |- _ => apply Z.eqb_eq in H
  | H : (_ =? _)%Z = false |- _ => apply Z.eqb_neq in H
  | H : (_ <? _)%nat = true |- _ => apply Nat.ltb_lt in H
  | H : (_ <? _)%nat = false |- _ => apply Nat.ltb_ge in H
  | H : (_ <=? _)%nat = true |- _ => apply Nat.leb_le in H
  | H : (_ <=? _)%nat = false |- _ => apply Nat.leb_gt in H
  | H : (_ =? _)%nat = true |- _ => apply Nat.eqb_eq in H
  | H : (_ =? _)%nat = false |- _ => apply Nat.eqb_neq in H
  end.

Ltac vm_refl := vm_compute; reflexivity.

(** ** Loops that may fail *)

Lemma each_ok {E A} (f : A -> result E unit) l :
  each f l = Ok tt <-> Forall (fun x => f x = Ok tt) l.
Proof.
  induction l as [|x l IH]; simpl; [by split|].
  rewrite Forall_cons. destruct (f x) as [[]|e]; naive_solver.
Qed.

Lemma each_i_ok {E A} (f : nat -> A -> result E unit) l i :
  each_i f i l = Ok tt <-> forall j x, l !! j = Some x -> f (i + j) x = Ok tt.
Proof.
  revert i; induction l as [|x l IH]; intros i; simpl; [by split|].
  split.
  - destruct (f i x) as [[]|e] eqn:Hx; [|done]. intros H [|j] y Hy; simplify_eq/=.
    + by rewrite Nat.add_0_r.
    + rewrite Nat.add_succ_r, <- Nat.add_succ_l. by apply IH.
  - intros H. assert (f i x = Ok tt) as ->.
    { rewrite <- (Nat.add_0_r i). by apply (H 0). }
    apply IH. intros j y Hy. rewrite Nat.add_succ_l, <- Nat.add_succ_r. by apply (H (S j)).
Qed.

(** A loop with an invariant: the state always satisfies it. *)
Lemma foldM_inv {E A S} (P : S -> Prop) (f : S -> A -> result E S) l s s' :
  (forall s x s', P s -> f s x = Ok s' -> P s') -> P s -> foldM f s l = Ok s' -> P s'.
Proof.
  intros Hf. revert s; induction l as [|x l IH]; intros s HP H; simpl in H; [by injection H as <-|].
  destruct (f s x) eqn:?; [|done]. eauto.
Qed.

Lemma foldM_app {E A S} (f : S -> A -> result E S) l1 l2 s :
  foldM f s (l1 ++ l2) = match foldM f s l1 with Ok s' => foldM f s' l2 | Err e => Err e end.
Proof. revert s; induction l1 as [|x l1 IH]; intros s; simpl; [done|]. destruct (f s x); auto. Qed.

(** ** The index of the first element satisfying a test

    Go's [for i, x := range l { if f(x) { return i } } return -1]. *)
Fixpoint find_index {A} (f : A -> bool) (l : list A) : option nat :=
  match l with
  | [] => None
  | x :: l => if f x then Some 0 else S <$> find_index f l
  end.

(** Go's encoding of "no index" as -1. *)
Definition index_or_neg (o : option nat) : Z :=
  match o with Some i => Z.of_nat i | None => -1 end.

Lemma find_index_Some {A} (f : A -> bool) l i :
  find_index f l = Some i <->
  (exists x, l !! i = Some x /\ f x = true) /\ (forall j y, j < i -> l !! j = Some y -> f y = false).
Proof.
  revert i; induction l as [|x l IH]; intros i; simpl.
  { split; [done|]. intros [[y [Hy _]] _]. done. }
  destruct (f x) eqn:Hx; split.
  - intros [= <-]. split; [by exists x|lia].
  - intros [_ H]. destruct i as [|i]; [done|]. specialize (H 0 x ltac:(lia) eq_refl). congruence.
  - intros (i' & Hi & ->)%fmap_Some. apply IH in Hi as [[y [Hy Hfy]] Hlt].
    split; [by exists y|]. intros [|j] z Hj Hz; simplify_eq/=; [done|]. apply (Hlt j); [lia|done].
  - intros [[y [Hy Hfy]] Hlt]. destruct i as [|i]; [simplify_eq/=; congruence|].
    assert (find_index f l = Some i) as ->; [|done]. apply IH. split; [by exists y|].
    intros j z Hj Hz. apply (Hlt (S j)); [lia|done].
Qed.

Lemma find_index_None {A} (f : A -> bool) l :
  find_index f l = None <-> forall x, x ∈ l -> f x = false.
Proof.
  induction l as [|x l IH]; simpl.
  { split; [|done]. intros _ x Hx. by apply not_elem_of_nil in Hx. }
  destruct (f x) eqn:Hx; split; try done.
  - intros H. specialize (H x ltac:(left)). congruence.
  - intros H%fmap_None y [->|Hy]%elem_of_cons; [done|]. by apply IH.
  - intros H. apply fmap_None, IH. intros y Hy. apply H. by right.
Qed.

Lemma find_index_is_Some {A} (f : A -> bool) l :
  is_Some (find_index f l) <-> existsb f l = true.
Proof.
  induction l as [|x l IH]; simpl; [split; [by intros []|done]|].
  destruct (f x); simpl; [by split; eauto|]. rewrite <- IH, fmap_is_Some. done.
Qed.

Lemma find_index_app {A} (f : A -> bool) l1 l2 :
  find_index f (l1 ++ l2) =
  match find_index f l1 with
  | Some k => Some k
  | None => (fun k => length l1 + k) <$> find_index f l2
  end.
Proof.
  induction l1 as [|x l1 IH]; simpl; [by destruct (find_index f l2)|].
  destruct (f x); [done|]. rewrite IH. destruct (find_index f l1); [done|]. by destruct (find_index f l2).
Qed.

Lemma find_index_ext {A} (f g : A -> bool) l :
  (forall x, x ∈ l -> f x = g x) -> find_index f l = find_index g l.
Proof.
  induction l as [|x l IH]; intros H; simpl; [done|].
  rewrite (H x), IH; [done| |left]. intros y Hy. apply H. by right.
Qed.

Lemma omap_nil {A B} (f : A -> option B) l : omap f l = [] <-> forall x, x ∈ l -> f x = None.
Proof.
  induction l as [|x l IH]; simpl.
  { split; [|done]. intros _ x Hx. by apply not_elem_of_nil in Hx. }
  setoid_rewrite elem_of_cons. destruct (f x) as [y|] eqn:Hx.
  - split; [done|]. intros H. specialize (H x (or_introl eq_refl)). congruence.
  - rewrite IH. naive_solver.
Qed.

Lemma existsb_elem {A} (f : A -> bool) l : existsb f l = true <-> exists x, x ∈ l /\ f x = true.
Proof. rewrite existsb_exists. setoid_rewrite <- list_elem_of_In. done. Qed.

Lemma forallb_elem {A} (f : A -> bool) l : forallb f l = true <-> forall x, x ∈ l -> f x = true.
Proof. rewrite forallb_forall. setoid_rewrite <- list_elem_of_In. done. Qed.

(** ** Maps filled by a loop *)

Lemma fold_insert_lookup {A} (m : list (string * A)) (acc : gmap string A) k v :
  NoDup m.*1 -> (k, v) ∈ m -> fold_left (fun acc e => <[e.1 := e.2]> acc) m acc !! k = Some v.
Proof.
  revert acc. induction m as [|[k' v'] m IH]; intros acc Hn Hin; [by apply not_elem_of_nil in Hin|]. simpl in *.
  apply NoDup_cons in Hn as [Hk Hn]. apply elem_of_cons in Hin as [[= <- <-]|Hin]; [|by apply IH].
  assert (forall acc : gmap string A, acc !! k = Some v -> fold_left (fun acc e => <[e.1 := e.2]> acc) m acc !! k = Some v) as Hkeep.
  { clear -Hk. induction m as [|[k1 v1] m IH]; intros acc Ha; simpl; [done|]. simpl in Hk. apply not_elem_of_cons in Hk as [Hk1 Hk].
    apply IH; [done|]. by rewrite lookup_insert_ne by done. }
  apply Hkeep. by rewrite lookup_insert_eq.
Qed.

Lemma fold_insert_None {A} (m : list (string * A)) (acc : gmap string A) k :
  k ∉ m.*1 -> fold_left (fun acc e => <[e.1 := e.2]> acc) m acc !! k = acc !! k.
Proof.
  revert acc. induction m as [|[k' v'] m IH]; intros acc Hk; simpl; [done|]. simpl in Hk. apply not_elem_of_cons in Hk as [Hk1 Hk].
  rewrite IH by done. by rewrite lookup_insert_ne by done.
Qed.

(** ** Machine integers *)

Definition int64_min : Z := - 2 ^ 63.
Definition int64_max : Z := 2 ^ 63 - 1.

(** Wrap-around of a signed 64-bit computation. *)
Definition wrap64 (z : Z) : Z := (z + 2 ^ 63) `mod` 2 ^ 64 - 2 ^ 63.

(** Saturation to the int64 range, as [time.Time.Sub] does. *)
Definition sat64 (z : Z) : Z := Z.max int64_min (Z.min int64_max z).

Lemma wrap64_id z : (int64_min ≤ z ≤ int64_max)%Z -> wrap64 z = z.
Proof. unfold int64_min, int64_max, wrap64. intros H. rewrite Z.mod_small; lia. Qed.

Lemma wrap64_le z : (0 ≤ z)%Z -> (wrap64 z ≤ z)%Z.
Proof. intros H. unfold wrap64. pose proof (Z.mod_le (z + 2 ^ 63) (2 ^ 64)). lia. Qed.

Lemma wrap64_range z : (int64_min ≤ wrap64 z ≤ int64_max)%Z.
Proof.
  unfold int64_min, int64_max, wrap64.
  pose proof (Z.mod_pos_bound (z + 2 ^ 63) (2 ^ 64) ltac:(lia)). lia.
Qed.

Lemma sat64_range z : (int64_min ≤ sat64 z ≤ int64_max)%Z.
Proof. unfold sat64, int64_min, int64_max. lia. Qed.

#[export] Hint Resolve wrap64_range sat64_range : s3rp.
