(* ===== verification/GoStrings.v ===== *)
(** * Go's [strings], [strconv], [encoding/hex] and [net/url] helpers

    The standard-library functions the gateway calls, on byte strings.  Each
    keeps its Go name; where Go returns [(before, after, found)] the model
    returns the same triple. *)

From S2P Require Import Prelude Unicode.

Open Scope Z_scope.

(** Character constants that cannot be written in a literal. *)
Definition dquote : string := String (of_byte 34) "".
Definition lf : string := String (of_byte 10) "".
Definition cr : string := String (of_byte 13) "".
Definition tab : ascii := of_byte 9.
Definition nul : string := String (of_byte 0) "".

Module strings.

Definition length (s : string) : nat := Strings.String.length s.

Fixpoint drop (n : nat) (s : string) : string :=
  match n, s with
  | O, _ => s
  | S n, String _ s => drop n s
  | S _, EmptyString => EmptyString
  end.

Fixpoint take (n : nat) (s : string) : string :=
  match n, s with
  | S n, String c s => String c (take n s)
  | _, _ => EmptyString
  end.

Fixpoint CutPrefix (s p : string) {struct p} : option string :=
  match p, s with
  | EmptyString, _ => Some s
  | String c p, String d s => if ascii_dec c d then CutPrefix s p else None
  | String _ _, EmptyString => None
  end.

Definition HasPrefix (s p : string) : bool := if CutPrefix s p then true else false.

Definition TrimPrefix (s p : string) : string := default s (CutPrefix s p).

Fixpoint rev_app (s acc : string) : string :=
  match s with EmptyString => acc | String c s => rev_app s (String c acc) end.
Definition rev (s : string) : string := rev_app s EmptyString.

Definition CutSuffix (s p : string) : option string := rev <$> CutPrefix (rev s) (rev p).
Definition HasSuffix (s p : string) : bool := if CutSuffix s p then true else false.
Definition TrimSuffix (s p : string) : string := default s (CutSuffix s p).

(** [strings.Cut]: around the first occurrence of [sep]. *)
Fixpoint cut_at (s sep : string) : option (string * string) :=
  match CutPrefix s sep with
  | Some rest => Some (EmptyString, rest)
  | None =>
    match s with
    | EmptyString => None
    | String c s => match cut_at s sep with Some (a, b) => Some (String c a, b) | None => None end
    end
  end.

Definition Cut (s sep : string) : string * string * bool :=
  match cut_at s sep with Some (a, b) => (a, b, true) | None => (s, EmptyString, false) end.

Definition Contains (s sub : string) : bool := if cut_at s sub then true else false.

(** [strings.Split] and [strings.SplitSeq] with a one-byte separator, the
    only kind the program uses. *)
Fixpoint Split (s : string) (sep : ascii) : list string :=
  match s with
  | EmptyString => [EmptyString]
  | String c s =>
    if ascii_dec c sep then EmptyString :: Split s sep
    else match Split s sep with
         | [] => [String c EmptyString]
         | h :: t => String c h :: t
         end
  end.

Fixpoint Join (l : list string) (sep : string) : string :=
  match l with
  | [] => EmptyString
  | [x] => x
  | x :: l => x +:+ sep +:+ Join l sep
  end.

(** [strings.ReplaceAll], [skip] counting the bytes of a match still to pass. *)
Fixpoint replace_from (skip : nat) (s old new : string) : string :=
  match s with
  | EmptyString => EmptyString
  | String c s' =>
    match skip with
    | S k => replace_from k s' old new
    | O => if HasPrefix s old then new +:+ replace_from (length old - 1) s' old new
           else String c (replace_from 0 s' old new)
    end
  end.
Definition ReplaceAll (s old new : string) : string := replace_from 0 s old new.

Definition ToLower (s : string) : string := encode (map rune_lower (runes s)).
Definition ToUpper (s : string) : string := encode (map rune_upper (runes s)).
Definition EqualFold (s t : string) : bool :=
  bool_decide (map rune_fold (runes s) = map rune_fold (runes t)).

(** [strings.TrimSpace]: white space is dropped rune by rune at both ends. *)
Fixpoint drop_space (l : list (Z * string)) : list (Z * string) :=
  match l with
  | (r, b) :: l' => if is_space r then drop_space l' else l
  | [] => []
  end.
Definition concat_chunks (l : list (Z * string)) : string := foldr (fun p acc => p.2 +:+ acc) EmptyString l.
Definition TrimSpace (s : string) : string :=
  concat_chunks (reverse (drop_space (reverse (drop_space (decode_chunks s))))).

(** [strings.TrimRight] with a cutset of ASCII bytes. *)
Fixpoint drop_in (cutset : list ascii) (s : string) : string :=
  match s with
  | String c s' => if existsb (fun d => if ascii_dec c d then true else false) cutset then drop_in cutset s' else s
  | EmptyString => EmptyString
  end.
Definition TrimRight (s : string) (cutset : list ascii) : string := rev (drop_in cutset (rev s)).
Definition Trim (s : string) (cutset : list ascii) : string := TrimRight (drop_in cutset s) cutset.

(** Byte-wise order, Go's [<] on strings. *)
Definition ltb (s t : string) : bool := Strings.String.ltb s t.
Definition leb (s t : string) : bool := Strings.String.leb s t.

(** [sort.Strings]. *)
Definition Sort (l : list string) : list string := merge_sort String.le l.

End strings.


Module strconv.

Definition digit_val (c : ascii) : option Z :=
  let b := byte_of c in
  if in_range b 48 57 then Some (b - 48)
  else if in_range b 97 122 then Some (b - 87)
  else if in_range b 65 90 then Some (b - 55)
  else None.

Fixpoint digits (base : Z) (acc : Z) (s : string) : option Z :=
  match s with
  | EmptyString => Some acc
  | String c s =>
    match digit_val c with
    | Some d => if d <? base then digits base (acc * base + d) s else None
    | None => None
    end
  end.

Definition parse_unsigned (base : Z) (s : string) : option Z :=
  match s with EmptyString => None | _ => digits base 0 s end.

(** [strconv.ParseInt(s, base, bits)]: an optional sign, then digits only,
    the value within the signed range of [bits] bits. *)
Definition ParseInt (s : string) (base bits : Z) : option Z :=
  let v := match s with
    | String c r =>
      if ascii_dec c "-" then Z.opp <$> parse_unsigned base r
      else if ascii_dec c "+" then parse_unsigned base r
      else parse_unsigned base s
    | EmptyString => None
    end in
  match v with
  | Some n => if (- 2 ^ (bits - 1) <=? n) && (n <? 2 ^ (bits - 1)) then Some n else None
  | None => None
  end.

(** [strconv.FormatInt(n, 10)], with fuel for the digits: 20 covers int64. *)
Fixpoint dec_digits (fuel : nat) (n : Z) (acc : string) : string :=
  match fuel with
  | O => acc
  | S f => let acc := String (of_byte (48 + n mod 10)) acc in
           if n / 10 =? 0 then acc else dec_digits f (n / 10) acc
  end.
Definition FormatInt (n : Z) : string :=
  if n <? 0 then "-" +:+ dec_digits 20 (- n) "" else dec_digits 20 n "".

End strconv.

Module hex.

Definition digit (v : Z) : ascii := of_byte (if v <? 10 then 48 + v else 87 + v).

Fixpoint EncodeToString (s : string) : string :=
  match s with
  | EmptyString => EmptyString
  | String c s => String (digit (byte_of c / 16)) (String (digit (byte_of c mod 16)) (EncodeToString s))
  end.

End hex.

(** ** Laws of the string helpers *)

Lemma append_cons c s t : String c s +:+ t = String c (s +:+ t).
Proof. done. Qed.

Lemma append_nil_l t : "" +:+ t = t.
Proof. done. Qed.

Lemma append_nil_r s : s +:+ "" = s.
Proof. induction s as [|c s IH]; [done|]. by rewrite append_cons, IH. Qed.

Lemma append_assoc s t u : (s +:+ t) +:+ u = s +:+ (t +:+ u).
Proof. induction s as [|c s IH]; [done|]. by rewrite !append_cons, IH. Qed.

Lemma append_inj_l s t u : s +:+ t = s +:+ u -> t = u.
Proof. induction s as [|c s IH]; [done|]. rewrite !append_cons. intros [= H]. auto. Qed.

Lemma length_append s t : strings.length (s +:+ t) = (strings.length s + strings.length t)%nat.
Proof. induction s as [|c s IH]; [done|]. rewrite append_cons. unfold strings.length in *. simpl. by rewrite IH. Qed.

Lemma append_inv_length s t s' t' :
  strings.length s = strings.length s' -> s +:+ t = s' +:+ t' -> s = s' /\ t = t'.
Proof.
  revert s'; induction s as [|c s IH]; intros [|c' s'] Hl H; try done.
  rewrite !append_cons in H. injection H as -> H. injection Hl as Hl.
  destruct (IH _ Hl H) as [-> ->]. done.
Qed.

Lemma append_eq_nil s t : s +:+ t = "" -> s = "" /\ t = "".
Proof. destruct s; [done|]. rewrite append_cons. discriminate. Qed.

Lemma CutPrefix_Some s p r : strings.CutPrefix s p = Some r <-> s = p +:+ r.
Proof.
  revert s; induction p as [|c p IH]; intros s.
  - simpl. rewrite append_nil_l. split; congruence.
  - destruct s as [|d s]; simpl; rewrite append_cons; [split; discriminate|].
    destruct (ascii_dec c d) as [<-|Hne]; [rewrite IH|]; split; congruence.
Qed.

Lemma HasPrefix_true s p : strings.HasPrefix s p = true <-> exists r, s = p +:+ r.
Proof.
  unfold strings.HasPrefix. destruct (strings.CutPrefix s p) as [r|] eqn:H; split; try done.
  - intros _. exists r. by apply CutPrefix_Some.
  - intros [r Hr%CutPrefix_Some]. congruence.
Qed.

Lemma HasPrefix_append p r : strings.HasPrefix (p +:+ r) p = true.
Proof. apply HasPrefix_true. by exists r. Qed.

Lemma TrimPrefix_append p r : strings.TrimPrefix (p +:+ r) p = r.
Proof. unfold strings.TrimPrefix. by rewrite (proj2 (CutPrefix_Some (p +:+ r) p r)). Qed.

Lemma rev_app_append s acc : strings.rev_app s acc = strings.rev s +:+ acc.
Proof.
  unfold strings.rev. revert acc; induction s as [|c s IH]; intros acc; [done|].
  simpl. rewrite (IH (String c acc)), (IH (String c "")), append_assoc. done.
Qed.

Lemma rev_append s t : strings.rev (s +:+ t) = strings.rev t +:+ strings.rev s.
Proof.
  induction s as [|c s IH]; [by rewrite append_nil_l, append_nil_r|].
  rewrite append_cons. unfold strings.rev at 1. simpl.
  rewrite rev_app_append, IH, append_assoc. f_equal.
  unfold strings.rev at 2. simpl. by rewrite rev_app_append.
Qed.

Lemma rev_involutive s : strings.rev (strings.rev s) = s.
Proof.
  induction s as [|c s IH]; [done|].
  unfold strings.rev at 2. simpl. rewrite rev_app_append, rev_append, IH. done.
Qed.

Lemma CutSuffix_Some s p r : strings.CutSuffix s p = Some r <-> s = r +:+ p.
Proof.
  unfold strings.CutSuffix. rewrite fmap_Some. setoid_rewrite CutPrefix_Some. split.
  - intros (x & Hs & ->). rewrite <- (rev_involutive s), Hs, rev_append, rev_involutive. done.
  - intros ->. exists (strings.rev r). by rewrite rev_append, rev_involutive.
Qed.

Lemma HasSuffix_true s p : strings.HasSuffix s p = true <-> exists r, s = r +:+ p.
Proof.
  unfold strings.HasSuffix. destruct (strings.CutSuffix s p) as [r|] eqn:H; split; try done.
  - intros _. exists r. by apply CutSuffix_Some.
  - intros [r Hr%CutSuffix_Some]. congruence.
Qed.

(** The characters of a string, and strings free of one. *)
Fixpoint no_char (c : ascii) (s : string) : bool :=
  match s with EmptyString => true | String d s => (if ascii_dec d c then false else true) && no_char c s end.

Lemma no_char_append c s t : no_char c (s +:+ t) = no_char c s && no_char c t.
Proof.
  induction s as [|d s IH]; [done|]. rewrite append_cons. simpl. rewrite IH. by rewrite andb_assoc.
Qed.

Lemma Split_no_char c s : no_char c s = true -> strings.Split s c = [s].
Proof.
  induction s as [|d s IH]; simpl; [done|].
  destruct (ascii_dec d c); [done|]. intros H. by rewrite IH.
Qed.

Lemma Split_append c s t :
  no_char c s = true -> strings.Split (s +:+ String c t) c = s :: strings.Split t c.
Proof.
  induction s as [|d s IH]; intros Hs.
  - rewrite append_nil_l. simpl. by destruct (ascii_dec c c).
  - rewrite append_cons. simpl in *. destruct (ascii_dec d c); [done|]. by rewrite IH.
Qed.

Lemma Split_not_nil c s : strings.Split s c <> [].
Proof. destruct s as [|d s]; simpl; [done|]. destruct (ascii_dec d c); [done|]. by destruct (strings.Split s c). Qed.

(** Splitting and joining with the same separator is the identity. *)
Lemma Join_Split c s : strings.Join (strings.Split s c) (String c "") = s.
Proof.
  induction s as [|d s IH]; [done|]. simpl.
  pose proof (Split_not_nil c s) as Hn.
  destruct (ascii_dec d c) as [->|Hne].
  - destruct (strings.Split s c) as [|h t]; [done|]. simpl in *. rewrite <- IH. done.
  - destruct (strings.Split s c) as [|h t]; [done|]. simpl in *. rewrite <- IH. by destruct t.
Qed.

Lemma Split_Join c (l : list string) :
  l <> [] -> Forall (fun x => no_char c x = true) l -> strings.Split (strings.Join l (String c "")) c = l.
Proof.
  induction l as [|x l IH]; [done|]. intros _ [Hx Hl]%Forall_cons.
  destruct l as [|y l]; [by apply Split_no_char|].
  change (strings.Join (x :: y :: l) (String c "")) with (x +:+ String c (strings.Join (y :: l) (String c ""))).
  rewrite Split_append by done. by rewrite IH.
Qed.

(** [cut_at] at a one-byte separator. *)
Lemma cut_at_char c s t : no_char c s = true -> strings.cut_at (s +:+ String c t) (String c "") = Some (s, t).
Proof.
  induction s as [|d s IH]; intros Hs.
  - rewrite append_nil_l. simpl. by destruct (ascii_dec c c).
  - rewrite append_cons. simpl in *. destruct (ascii_dec d c), (ascii_dec c d); try done; try congruence.
    by rewrite IH.
Qed.

Lemma cut_at_Some s sep a b : strings.cut_at s sep = Some (a, b) -> s = a +:+ sep +:+ b.
Proof.
  revert a b; induction s as [|c s IH]; intros a b; simpl.
  - destruct (strings.CutPrefix "" sep) as [r|] eqn:H; [|done]. intros [= <- <-].
    rewrite append_nil_l. by apply CutPrefix_Some.
  - destruct (strings.CutPrefix (String c s) sep) as [r|] eqn:H.
    + intros [= <- <-]. rewrite append_nil_l. by apply CutPrefix_Some.
    + destruct (strings.cut_at s sep) as [[a' b']|] eqn:Hs; [|done]. intros [= <- <-].
      rewrite append_cons. f_equal. by apply IH.
Qed.

Lemma ToLower_ascii s : is_ascii s = true -> strings.ToLower s = ascii_lower s.
Proof.
  intros H. unfold strings.ToLower. rewrite runes_ascii by done.
  induction s as [|c s IH]; [done|]. simpl in *. apply andb_true_iff in H as [Hc Hs].
  apply Z.ltb_lt in Hc. pose proof (byte_of_range c).
  rewrite rune_lower_ascii, encode_rune_ascii by (try apply ascii_lower_byte_range; lia).
  rewrite append_cons, append_nil_l. by rewrite IH.
Qed.
