(* ===== verification/JSON.v ===== *)
(** * JSON documents (Go's [encoding/json])

    What the policy documents are read with and written by: the grammar of the
    decoder, with its unescaping, its nesting limit and its replacement of
    invalid UTF-8, and the encoder's quoting.  The decoder works on runes: every
    character with a role in the grammar is ASCII, and a byte that is not UTF-8
    is an error outside a string and U+FFFD inside one, which is what decoding
    the text first gives. *)

From S2P Require Import Prelude Unicode GoStrings.

Open Scope Z_scope.

Module json.

(** An object keeps its members in order, repeated names included. *)
Inductive value :=
| Null
| Bool (b : bool)
| Number (lit : string)
| Str (s : string)
| Array (l : list value)
| Object (l : list (string * value)).

(** ** Decoding *)

Definition maxNestingDepth : Z := 10000.

Definition is_ws (r : Z) : bool := (r =? 32) || (r =? 9) || (r =? 13) || (r =? 10).

Fixpoint skip_ws (l : list Z) : list Z :=
  match l with
  | [] => []
  | r :: l' => if is_ws r then skip_ws l' else l
  end.

Definition hex_val (r : Z) : option Z :=
  if in_range r 48 57 then Some (r - 48)
  else if in_range r 97 102 then Some (r - 87)
  else if in_range r 65 70 then Some (r - 55)
  else None.

Definition hex4 (a b c d : Z) : option Z :=
  a ← hex_val a; b ← hex_val b; c ← hex_val c; d ← hex_val d; Some (((a * 16 + b) * 16 + c) * 16 + d).

(** [utf16.DecodeRune]; [None] is its replacement character. *)
Definition utf16_decode (u v : Z) : option Z :=
  if in_range u 55296 56319 && in_range v 56320 57343 then Some ((u - 55296) * 1024 + (v - 56320) + 65536) else None.

Definition simple_escape (e : Z) : option Z :=
  if e =? 34 then Some 34 else if e =? 92 then Some 92 else if e =? 47 then Some 47
  else if e =? 98 then Some 8 else if e =? 102 then Some 12 else if e =? 110 then Some 10
  else if e =? 114 then Some 13 else if e =? 116 then Some 9 else None.

(** The runes of a string literal after its opening quote, and what follows
    the closing one. *)
Fixpoint unquote (l : list Z) : option (list Z * list Z) :=
  match l with
  | [] => None
  | c :: r =>
    if c =? 34 then Some ([], r)
    else if c =? 92 then
      match r with
      | [] => None
      | e :: r =>
        if e =? 117 then
          match r with
          | a :: b :: c :: d :: r =>
            u ← hex4 a b c d;
            if in_range u 55296 57343 then
              let alone (_ : unit) := '(s, rest) ← unquote r; Some (rune_error :: s, rest) in
              match r with
              | x :: y :: a :: b :: c :: d :: r' =>
                if (x =? 92) && (y =? 117) then
                  match hex4 a b c d ≫= utf16_decode u with
                  | Some p => '(s, rest) ← unquote r'; Some (p :: s, rest)
                  | None => alone tt
                  end
                else alone tt
              | _ => alone tt
              end
            else '(s, rest) ← unquote r; Some (u :: s, rest)
          | _ => None
          end
        else x ← simple_escape e; '(s, rest) ← unquote r; Some (x :: s, rest)
      end
    else if c <? 32 then None
    else '(s, rest) ← unquote r; Some (c :: s, rest)
  end.

Definition is_digit (r : Z) : bool := in_range r 48 57.

Fixpoint span_digits (l : list Z) : list Z * list Z :=
  match l with
  | [] => ([], [])
  | r :: l' => if is_digit r then let '(a, b) := span_digits l' in (r :: a, b) else ([], l)
  end.

(** One or more digits. *)
Definition digits1 (l : list Z) : option (list Z * list Z) :=
  match span_digits l with ([], _) => None | p => Some p end.

Definition int_part (l : list Z) : option (list Z * list Z) :=
  match l with
  | r :: l' => if r =? 48 then Some ([48], l') else digits1 l
  | [] => None
  end.

Definition frac_part (l : list Z) : option (list Z * list Z) :=
  match l with
  | r :: l' => if r =? 46 then '(d, rest) ← digits1 l'; Some (46 :: d, rest) else Some ([], l)
  | [] => Some ([], [])
  end.

Definition exp_part (l : list Z) : option (list Z * list Z) :=
  match l with
  | r :: l' =>
    if (r =? 101) || (r =? 69) then
      let '(sign, l'') := match l' with
        | s :: l'' => if (s =? 43) || (s =? 45) then ([s], l'') else ([], l')
        | [] => ([], []) end in
      '(d, rest) ← digits1 l''; Some (r :: sign ++ d, rest)
    else Some ([], l)
  | [] => Some ([], [])
  end.

Definition number (l : list Z) : option (list Z * list Z) :=
  let '(sign, l) := match l with r :: l' => if r =? 45 then ([45], l') else ([], l) | [] => ([], []) end in
  '(i, l) ← int_part l; '(f, l) ← frac_part l; '(e, l) ← exp_part l; Some (sign ++ i ++ f ++ e, l).

Fixpoint keyword (w l : list Z) : option (list Z) :=
  match w, l with
  | [], _ => Some l
  | x :: w, y :: l => if x =? y then keyword w l else None
  | _ :: _, [] => None
  end.

Definition scalar (l : list Z) : option (value * list Z) :=
  match l with
  | [] => None
  | c :: r =>
    if c =? 34 then '(s, r) ← unquote r; Some (Str (encode s), r)
    else if c =? 116 then r ← keyword [116; 114; 117; 101] l; Some (Bool true, r)
    else if c =? 102 then r ← keyword [102; 97; 108; 115; 101] l; Some (Bool false, r)
    else if c =? 110 then r ← keyword [110; 117; 108; 108] l; Some (Null, r)
    else '(n, r) ← number l; Some (Number (encode n), r)
  end.

(** A value, the elements of an array after its bracket, the members of an
    object after its brace.  [d] is the nesting still allowed. *)
Fixpoint pvalue (f : nat) (d : Z) (l : list Z) : option (value * list Z) :=
  match f with
  | O => None
  | S f =>
    match skip_ws l with
    | [] => None
    | c :: r =>
      if c =? 91 then
        if d <=? 0 then None
        else match skip_ws r with
             | c' :: r' => if c' =? 93 then Some (Array [], r')
                           else '(vs, r) ← pelems f (d - 1) r; Some (Array vs, r)
             | [] => None
             end
      else if c =? 123 then
        if d <=? 0 then None
        else match skip_ws r with
             | c' :: r' => if c' =? 125 then Some (Object [], r')
                           else '(ms, r) ← pmembers f (d - 1) r; Some (Object ms, r)
             | [] => None
             end
      else scalar (c :: r)
    end
  end
with pelems (f : nat) (d : Z) (l : list Z) : option (list value * list Z) :=
  match f with
  | O => None
  | S f =>
    '(v, r) ← pvalue f d l;
    match skip_ws r with
    | c :: r => if c =? 44 then '(vs, r) ← pelems f d r; Some (v :: vs, r)
                else if c =? 93 then Some ([v], r) else None
    | [] => None
    end
  end
with pmembers (f : nat) (d : Z) (l : list Z) : option (list (string * value) * list Z) :=
  match f with
  | O => None
  | S f =>
    match skip_ws l with
    | q :: r =>
      if q =? 34 then
        '(k, r) ← unquote r;
        match skip_ws r with
        | c :: r =>
          if c =? 58 then
            '(v, r) ← pvalue f d r;
            match skip_ws r with
            | c :: r => if c =? 44 then '(ms, r) ← pmembers f d r; Some ((encode k, v) :: ms, r)
                        else if c =? 125 then Some ([(encode k, v)], r) else None
            | [] => None
            end
          else None
        | [] => None
        end
      else None
    | [] => None
    end
  end.

(** Two steps per rune are enough ([parse_fuel]). *)
Definition fuel_for (l : list Z) : nat := 2 * length l + 2.

Definition parse_runes (l : list Z) : option value :=
  '(v, r) ← pvalue (fuel_for l) maxNestingDepth l;
  match skip_ws r with [] => Some v | _ => None end.

(** The syntax of [json.Unmarshal]; [None] is its syntax error. *)
Definition parse (text : string) : option value := parse_runes (runes text).

(** ** Encoding *)

Definition hex_digit (v : Z) : Z := if v <? 10 then 48 + v else 87 + v.

Definition u_escape (r : Z) : list Z :=
  [92; 117; hex_digit (r / 4096); hex_digit (r / 256 mod 16); hex_digit (r / 16 mod 16); hex_digit (r mod 16)].

(** [appendString] with HTML escaping; an invalid byte is written as an escape. *)
Definition quote_chunk (p : Z * string) : list Z :=
  let '(r, chunk) := p in
  if (r =? 34) || (r =? 92) then [92; r]
  else if r =? 8 then [92; 98] else if r =? 12 then [92; 102] else if r =? 10 then [92; 110]
  else if r =? 13 then [92; 114] else if r =? 9 then [92; 116]
  else if (r <? 32) || (r =? 60) || (r =? 62) || (r =? 38) || (r =? 8232) || (r =? 8233) then u_escape r
  else if (r =? rune_error) && (strings.length chunk =? 1)%nat then u_escape r
  else [r].

Definition quote (s : string) : list Z := 34 :: concat (map quote_chunk (decode_chunks s)) ++ [34].

Fixpoint sep_by (l : list (list Z)) : list Z :=
  match l with
  | [] => []
  | [x] => x
  | x :: l => x ++ 44 :: sep_by l
  end.

Fixpoint print (v : value) : list Z :=
  match v with
  | Null => runes "null"
  | Bool true => runes "true"
  | Bool false => runes "false"
  | Number lit => runes lit
  | Str s => quote s
  | Array l => 91 :: sep_by (map print l) ++ [93]
  | Object l => 123 :: sep_by (map (fun '(k, v) => quote k ++ 58 :: print v) l) ++ [125]
  end.

Definition Marshal (v : value) : string := encode (print v).

(** Test documents are written with single quotes. *)
Definition text_of (s : string) : string := strings.ReplaceAll s "'" dquote.

Example parse_1 : parse (text_of "{ 'a' : [1.5e3, null, '\u00e9\ud83d\ude00\ud83d x'], 'a':true}") =
  Some (Object [("a", Array [Number "1.5e3"; Null; Str (encode [233; 128512; 65533; 32; 120])]); ("a", Bool true)]).
Proof. vm_refl. Qed.
Example parse_2 : map parse (map text_of ["01"; "[1,]"; "{'a':1,}"; "'\x'"; "nul"; "1 2"; "-"; "[1}"; ""]) = replicate 9 None.
Proof. vm_refl. Qed.
Example print_1 : Marshal (Object [("k<", Array [Str (text_of "a'\b"); Null])]) = text_of "{'k\u003c':['a\'\\b',null]}".
Proof. vm_refl. Qed.

(** ** The decoder reads back what the encoder writes *)

Definition valid_utf8 (s : string) : bool := bool_decide (encode (runes s) = s).

(** Values the encoder is given here: text is UTF-8 and there is no number. *)
Fixpoint well_formed (v : value) : bool :=
  match v with
  | Number _ => false
  | Str s => valid_utf8 s
  | Array l => forallb well_formed l
  | Object l => forallb (fun '(k, v) => valid_utf8 k && well_formed v) l
  | _ => true
  end.

Definition max_of (l : list Z) : Z := foldr Z.max 0 l.

Fixpoint depth (v : value) : Z :=
  match v with
  | Array l => 1 + max_of (map depth l)
  | Object l => 1 + max_of (map (fun '(_, v) => depth v) l)
  | _ => 0
  end.

Section ind.
Context (P : value -> Prop) (HN : P Null) (HB : forall b, P (Bool b)) (HD : forall n, P (Number n)) (HS : forall s, P (Str s)).
Context (HA : forall l, Forall P l -> P (Array l)) (HO : forall l, Forall (fun m => P m.2) l -> P (Object l)).

Fixpoint value_nested_ind (v : value) : P v :=
  match v with
  | Null => HN
  | Bool b => HB b
  | Number n => HD n
  | Str s => HS s
  | Array l => HA l ((fix go l := match l return Forall P l with
                       | [] => Forall_nil_2 _ | v :: l => Forall_cons_2 _ _ _ (value_nested_ind v) (go l) end) l)
  | Object l => HO l ((fix go l := match l return Forall (fun m => P m.2) l with
                        | [] => Forall_nil_2 _ | m :: l => Forall_cons_2 _ _ _ (value_nested_ind m.2) (go l) end) l)
  end.
End ind.

Lemma decoded_scalar s : forallb scalar_rune (runes s) = true.
Proof.
  unfold runes. assert (forall n s, (String.length s <= n)%nat -> forallb scalar_rune (decode_chunks s).*1 = true) as H; [|by eapply H].
  clear s. induction n as [|n IH]; intros s Hn; (destruct s as [|c0 s1]; [done|]); cbn in Hn; [lia|].
  assert (forallb scalar_rune (decode_chunks s1).*1 = true) as H1 by (apply IH; lia).
  pose proof (byte_of_range c0). cbn [decode_chunks].
  assert (forallb scalar_rune ((rune_error, String c0 "") :: decode_chunks s1).*1 = true) as Hbad by (cbn; by rewrite H1).
  destruct (Z.ltb_spec (byte_of c0) 128).
  { cbn -[scalar_rune]. rewrite H1, andb_true_r. unfold scalar_rune, in_range. lia. }
  destruct (lead (byte_of c0)) as [[[m lo] hi]|] eqn:Hl; [|done].
  destruct s1 as [|c1 s2]; [done|]. destruct (in_range (byte_of c1) lo hi) eqn:Hc1; cbn [negb]; [|done].
  assert ((m =? 2)%nat = true /\ 194 <= byte_of c0 <= 223 /\ lo = 128 /\ hi = 191 \/
          (m =? 2)%nat = false /\ (m =? 3)%nat = true /\ 224 <= byte_of c0 <= 239 /\ 128 <= lo /\ hi <= 191 /\
            (byte_of c0 = 224 -> lo = 160) /\ (byte_of c0 = 237 -> hi = 159) \/
          (m =? 2)%nat = false /\ (m =? 3)%nat = false /\ 240 <= byte_of c0 <= 244 /\ 128 <= lo /\ hi <= 191 /\
            (byte_of c0 = 240 -> lo = 144) /\ (byte_of c0 = 244 -> hi = 143)) as Hm.
  { unfold lead in Hl. repeat (case_match; [simplify_eq/=; bools; intuition lia|]); try done. }
  unfold in_range in Hc1. bools.
  destruct Hm as [(-> & ? & -> & ->)|[(-> & Hm & ? & ? & ? & ? & ?)|(-> & Hm & ? & ? & ? & ? & ?)]].
  { cbn -[scalar_rune]. rewrite IH by (cbn in Hn; lia). rewrite andb_true_r. unfold scalar_rune, in_range. lia. }
  all: destruct s2 as [|c2 s3]; [done|]; destruct (is_cont (byte_of c2)) eqn:Hc2; cbn [negb]; [|done];
    rewrite Hm; unfold is_cont, in_range in Hc2; bools.
  { cbn -[scalar_rune]. rewrite IH by (cbn in Hn; lia). rewrite andb_true_r. unfold scalar_rune, in_range. lia. }
  destruct s3 as [|c3 s4]; [done|]. destruct (is_cont (byte_of c3)) eqn:Hc3; cbn [negb]; [|done].
  unfold is_cont, in_range in Hc3. bools.
  cbn -[scalar_rune]. rewrite IH by (cbn in Hn; lia). rewrite andb_true_r. unfold scalar_rune, in_range. lia.
Qed.

Lemma hex_val_digit v : 0 <= v < 16 -> hex_val (hex_digit v) = Some v.
Proof.
  intros H. unfold hex_val, hex_digit, in_range.
  destruct (Z.ltb_spec v 10); repeat (match goal with |- context [(?a <=? ?b)] => destruct (Z.leb_spec a b); try lia end); cbn; f_equal; lia.
Qed.

Lemma hex4_digits r : 0 <= r < 65536 ->
  hex4 (hex_digit (r / 4096)) (hex_digit (r / 256 mod 16)) (hex_digit (r / 16 mod 16)) (hex_digit (r mod 16)) = Some r.
Proof.
  intros H. unfold hex4. pose proof (Z.mod_pos_bound (r / 256) 16). pose proof (Z.mod_pos_bound (r / 16) 16). pose proof (Z.mod_pos_bound r 16).
  assert (0 <= r / 4096 < 16) by (split; [apply Z.div_pos; lia|apply Z.div_lt_upper_bound; lia]).
  rewrite !hex_val_digit by lia. cbn. f_equal.
  pose proof (Z.div_mod r 16). pose proof (Z.div_mod (r / 16) 16). pose proof (Z.div_mod (r / 256) 16).
  assert (r / 16 / 16 = r / 256) by (rewrite Z.div_div by lia; done).
  assert (r / 256 / 16 = r / 4096) by (rewrite Z.div_div by lia; done). lia.
Qed.

Lemma unquote_u_escape r l : 0 <= r < 65536 -> scalar_rune r = true ->
  unquote (u_escape r ++ l) = '(s, rest) ← unquote l; Some (r :: s, rest).
Proof.
  intros H Hs. unfold u_escape. cbn [app unquote]. change (92 =? 34) with false. change (92 =? 92) with true. change (117 =? 117) with true.
  cbn iota. rewrite hex4_digits by done. cbn. unfold scalar_rune, in_range in *.
  destruct (Z.leb_spec 55296 r), (Z.leb_spec r 57343); cbn; try done. lia.
Qed.

Lemma unquote_chunk p l : scalar_rune p.1 = true ->
  unquote (quote_chunk p ++ l) = '(s, rest) ← unquote l; Some (p.1 :: s, rest).
Proof.
  destruct p as [r chunk]. cbn [fst]. intros Hr. unfold quote_chunk.
  destruct (Z.eqb_spec r 34) as [->|]; [done|]. destruct (Z.eqb_spec r 92) as [->|]; [done|]. cbn [orb].
  destruct (Z.eqb_spec r 8) as [->|]; [done|]. destruct (Z.eqb_spec r 12) as [->|]; [done|].
  destruct (Z.eqb_spec r 10) as [->|]; [done|]. destruct (Z.eqb_spec r 13) as [->|]; [done|]. destruct (Z.eqb_spec r 9) as [->|]; [done|].
  assert (0 <= r <= 1114111) as Hrange by (unfold scalar_rune, in_range in Hr; lia).
  destruct ((r <? 32) || _ || _ || _ || _ || _) eqn:Hesc; [rewrite unquote_u_escape; [done|lia|done]|].
  destruct ((r =? rune_error) && _) eqn:Herr; [apply andb_true_iff in Herr as [Herr _]; unfold rune_error in Herr; rewrite unquote_u_escape; [done|lia|done]|].
  cbn [app unquote]. destruct (Z.eqb_spec r 34); [lia|]. destruct (Z.eqb_spec r 92); [lia|]. destruct (Z.ltb_spec r 32); [lia|done].
Qed.

Lemma unquote_quote s rest : unquote (concat (map quote_chunk (decode_chunks s)) ++ 34 :: rest) = Some (runes s, rest).
Proof.
  pose proof (decoded_scalar s) as Hs. unfold runes in *.
  induction (decode_chunks s) as [|p l IH]; [done|]. cbn [map concat fmap list_fmap forallb] in *. apply andb_true_iff in Hs as [Hp Hs].
  rewrite <- app_assoc, unquote_chunk by done. by rewrite IH.
Qed.

Lemma quote_app s rest : quote s ++ rest = 34 :: concat (map quote_chunk (decode_chunks s)) ++ 34 :: rest.
Proof. unfold quote. cbn [app]. by rewrite <- app_assoc. Qed.

Lemma valid_runes s : valid_utf8 s = true -> encode (runes s) = s.
Proof. apply bool_decide_eq_true. Qed.

(** *** Separated lists *)

Lemma sep_by_cons x y l : sep_by (x :: y :: l) = x ++ 44 :: sep_by (y :: l).
Proof. done. Qed.

Lemma pelems_print d l rest : l <> [] ->
  Forall (fun v => forall f rest, (2 * length (print v) + 1 <= f)%nat -> pvalue f d (print v ++ rest) = Some (v, rest)) l ->
  forall f, (2 * length (sep_by (map print l)) + 2 <= f)%nat -> pelems f d (sep_by (map print l) ++ 93 :: rest) = Some (l, rest).
Proof.
  induction l as [|v l IH]; [done|]. intros _ [Hv Hl]%Forall_cons f Hf. destruct f as [|f]; [lia|]. cbn [pelems].
  destruct l as [|v' l].
  - cbn [map sep_by] in *. rewrite Hv by lia. done.
  - cbn [map] in *. rewrite sep_by_cons in *. set (tl := sep_by _) in *. rewrite length_app in Hf. cbn [length] in Hf.
    rewrite <- app_assoc. rewrite Hv by lia. cbn. rewrite (IH ltac:(done) Hl) by lia. done.
Qed.

Definition print_member (m : string * value) : list Z := quote m.1 ++ 58 :: print m.2.

Lemma print_Object l : print (Object l) = 123 :: sep_by (map print_member l) ++ [125].
Proof.
  cbn [print]. do 2 f_equal. f_equal. induction l as [|[k v] l IH]; [done|]. cbn [map]. by rewrite IH.
Qed.

Lemma pmembers_print d l rest : l <> [] ->
  Forall (fun m : string * value => valid_utf8 m.1 = true /\
    forall f rest, (2 * length (print m.2) + 1 <= f)%nat -> pvalue f d (print m.2 ++ rest) = Some (m.2, rest)) l ->
  forall f, (2 * length (sep_by (map print_member l)) + 2 <= f)%nat ->
  pmembers f d (sep_by (map print_member l) ++ 125 :: rest) = Some (l, rest).
Proof.
  induction l as [|[k v] l IH]; [done|]. intros _ [[Hk Hv] Hl]%Forall_cons f Hf. cbn [fst snd] in *. destruct f as [|f]; [lia|].
  assert (forall rest', (2 * length (print v) + 1 <= f)%nat ->
    pmembers (S f) d (print_member (k, v) ++ rest') =
    match skip_ws rest' with
    | c :: r => if c =? 44 then '(ms, r) ← pmembers f d r; Some ((k, v) :: ms, r)
                else if c =? 125 then Some ([(k, v)], r) else None
    | [] => None
    end) as Hstep.
  { intros rest' Hlen. unfold print_member. cbn [fst snd]. rewrite <- app_assoc, quote_app. cbn. rewrite unquote_quote. cbn.
    rewrite Hv by lia. cbn. by rewrite valid_runes. }
  assert (length (print_member (k, v)) = length (quote k) + S (length (print v)))%nat as Hlen.
  { unfold print_member. rewrite length_app. done. }
  destruct l as [|m' l].
  - cbn [map sep_by] in *. rewrite Hstep by lia. done.
  - cbn [map] in *. rewrite sep_by_cons in *. set (tl := sep_by _) in *. rewrite length_app in Hf. cbn [length] in Hf.
    rewrite <- !app_assoc, Hstep by lia. cbn. rewrite (IH ltac:(done) Hl) by lia. done.
Qed.

Lemma max_of_le l d : max_of l <= d -> Forall (fun x => x <= d) l.
Proof.
  induction l as [|x l IH]; [constructor|]. unfold max_of in *. cbn [foldr]. intros H. constructor; [lia|]. apply IH. lia.
Qed.

Lemma max_of_nonneg l : 0 <= max_of l.
Proof. induction l as [|x l IH]; unfold max_of in *; cbn [foldr]; lia. Qed.

Lemma skip_ws_print v rest : well_formed v = true -> skip_ws (print v ++ rest) = print v ++ rest.
Proof. by destruct v as [|[]| | | |l]. Qed.

Lemma sep_by_head x l : sep_by (x :: l) = x \/ exists r, sep_by (x :: l) = x ++ r.
Proof. destruct l; [by left|right]. rewrite sep_by_cons. by eexists. Qed.

Lemma pvalue_print v : well_formed v = true -> forall d, depth v <= d ->
  forall f rest, (2 * length (print v) + 1 <= f)%nat -> pvalue f d (print v ++ rest) = Some (v, rest).
Proof.
  induction v as [|b|n|s|l IH|l IH] using value_nested_ind; intros Hw d Hd f rest Hf; (destruct f as [|f]; [lia|]); try done.
  - by destruct b.
  - cbn [print]. rewrite quote_app. cbn. rewrite unquote_quote. cbn. by rewrite valid_runes.
  - cbn [print depth] in *. pose proof (max_of_nonneg (map depth l)). cbn. destruct (Z.leb_spec d 0); [lia|].
    rewrite <- app_assoc. cbn [app]. destruct l as [|v l]; [done|].
    assert (exists c r, skip_ws (sep_by (map print (v :: l)) ++ 93 :: rest) = c :: r /\ (c =? 93) = false) as (c & r & Hsk & Hc).
    { cbn [map]. cbn [well_formed forallb] in Hw. apply andb_true_iff in Hw as [Hw _].
      destruct (sep_by_head (print v) (map print l)) as [->|[t ->]]; rewrite <- ?app_assoc, skip_ws_print by done;
        destruct v as [|[]| | | |l']; rewrite ?print_Object; try done; eexists _, _; (split; [reflexivity|done]). }
    rewrite Hsk, Hc. rewrite (pelems_print (d - 1)); [done|done| |].
    + cbn [well_formed] in Hw. rewrite forallb_forall in Hw.
      assert (max_of (map depth (v :: l)) <= d - 1) as Hm by lia. apply max_of_le in Hm. rewrite Forall_map in Hm.
      rewrite Forall_forall in *. intros x Hx f' rest' Hf'. apply IH; [done|apply Hw; by apply list_elem_of_In|by apply Hm|done].
    + cbn [length] in Hf. rewrite length_app in Hf. cbn [length] in Hf. lia.
  - rewrite print_Object in *. cbn [depth] in *. pose proof (max_of_nonneg (map (fun '(_, v) => depth v) l)). cbn. destruct (Z.leb_spec d 0); [lia|].
    rewrite <- app_assoc. cbn [app]. destruct l as [|m l]; [done|].
    assert (exists r, skip_ws (sep_by (map print_member (m :: l)) ++ 125 :: rest) = 34 :: r) as (r & Hsk).
    { cbn [map]. destruct (sep_by_head (print_member m) (map print_member l)) as [->|[t ->]]; by eexists. }
    rewrite Hsk. change (34 =? 125) with false. cbn iota. rewrite (pmembers_print (d - 1)); [done|done| |].
    + cbn [well_formed] in Hw. rewrite forallb_forall in Hw.
      assert (max_of (map (fun '(_, v) => depth v) (m :: l)) <= d - 1) as Hm by lia. apply max_of_le in Hm. rewrite Forall_map in Hm.
      rewrite Forall_forall in *. intros x Hx. specialize (Hw x (proj1 (list_elem_of_In _ _) Hx)). destruct x as [k v]. apply andb_true_iff in Hw as [Hk Hw].
      split; [done|]. intros f' rest' Hf'. apply (IH (k, v)); [done|done|by apply (Hm (k, v))|done].
    + cbn [length] in Hf. rewrite length_app in Hf. cbn [length] in Hf. lia.
Qed.

Lemma print_scalar v : forallb scalar_rune (print v) = true.
Proof.
  assert (forall s, forallb scalar_rune (quote s) = true) as Hq.
  { intros s. unfold quote. cbn [forallb]. rewrite forallb_app. cbn. rewrite andb_true_r. pose proof (decoded_scalar s) as Hs. unfold runes in Hs.
    induction (decode_chunks s) as [|[r ch] l IH]; [done|]. cbn [map concat fmap list_fmap forallb fst] in *. apply andb_true_iff in Hs as [Hr Hs].
    rewrite forallb_app, IH, andb_true_r by done. unfold quote_chunk.
    repeat match goal with |- context [if ?b then _ else _] => destruct b eqn:? end; cbn [forallb]; rewrite ?Hr; try done.
    all: apply forallb_forall; intros x Hx; unfold u_escape in Hx; cbn [In] in Hx; unfold hex_digit in Hx.
    all: assert (0 <= r < 65536) by (unfold rune_error, scalar_rune, in_range in *; lia).
    all: pose proof (Z.mod_pos_bound (r / 256) 16); pose proof (Z.mod_pos_bound (r / 16) 16); pose proof (Z.mod_pos_bound r 16).
    all: assert (0 <= r / 4096 < 16) by (split; [apply Z.div_pos; lia|apply Z.div_lt_upper_bound; lia]).
    all: unfold scalar_rune, in_range; repeat (destruct Hx as [<-|Hx]); try done; repeat case_match; lia. }
  assert (forall l, Forall (fun x => forallb scalar_rune x = true) l -> forallb scalar_rune (sep_by l) = true) as Hsep.
  { induction l as [|x l IH]; [done|]. intros [Hx Hl]%Forall_cons. destruct l as [|y l]; [done|]. rewrite sep_by_cons, forallb_app. cbn [forallb].
    rewrite Hx, IH by done. done. }
  induction v as [|b|n|s|l IH|l IH] using value_nested_ind; cbn [print]; try done.
  - by destruct b.
  - apply decoded_scalar.
  - cbn [forallb]. rewrite forallb_app, Hsep; [done|]. by rewrite Forall_map.
  - change (forallb scalar_rune (print (Object l)) = true). rewrite print_Object. cbn [forallb]. rewrite forallb_app, Hsep; [done|].
    rewrite Forall_map. eapply Forall_impl; [exact IH|]. intros m Hm. cbv beta in *. unfold print_member. rewrite forallb_app, Hq. cbn [forallb]. by rewrite Hm.
Qed.

(** The decoder reads back what the encoder wrote. *)
Lemma parse_Marshal v : well_formed v = true -> depth v <= maxNestingDepth -> parse (Marshal v) = Some v.
Proof.
  intros Hw Hd. unfold parse, Marshal. rewrite runes_encode by apply print_scalar. unfold parse_runes.
  rewrite <- (app_nil_r (print v)) at 2. rewrite (pvalue_print v Hw _ Hd); [done|]. unfold fuel_for. lia.
Qed.

(** ** The fuel is enough

    Every parser consumes at least one rune, so two steps per rune suffice. *)

Lemma skip_ws_length l : (length (skip_ws l) <= length l)%nat.
Proof. induction l as [|r l IH]; cbn; [lia|]. destruct (is_ws r); cbn; lia. Qed.

Lemma unquote_length l s r : unquote l = Some (s, r) -> (length r < length l)%nat.
Proof.
  assert (forall n l s r, (length l <= n)%nat -> unquote l = Some (s, r) -> (length r < length l)%nat) as H; [|by eapply H].
  clear. induction n as [|n IH]; intros l s r Hn H; (destruct l as [|c l]; [done|]); cbn [length] in Hn; [lia|].
  assert (forall l' x, (length l' <= length l)%nat -> ('(s, rest) ← unquote l'; Some (x :: s, rest)) = Some (s, r) -> (length r < S (length l))%nat) as Hrec.
  { intros l' x Hl Hx. destruct (unquote l') as [[s' r']|] eqn:E; [|done]. cbn in Hx. simplify_eq. apply IH in E; lia. }
  cbn [unquote] in H. cbn [length].
  destruct (c =? 34); [simplify_eq; lia|]. destruct (c =? 92); [|destruct (c <? 32); [done|]; by eapply Hrec].
  destruct l as [|e l]; [done|]. destruct (e =? 117).
  - destruct l as [|a [|b [|c' [|d' l]]]]; try done. destruct (hex4 a b c' d') as [u|]; [|done]. cbn [mbind option_bind] in H.
    destruct (in_range u 55296 57343); [|eapply Hrec; [|exact H]; cbn [length]; lia].
    assert ((length l <= length (e :: a :: b :: c' :: d' :: l))%nat) as Hle by (cbn [length]; lia).
    repeat (match type of H with context [match ?x with _ => _ end] => destruct x end; try (eapply Hrec; [|exact H]; cbn [length] in *; lia)).
  - destruct (simple_escape e) as [x|]; [|done]. cbn [mbind option_bind] in H. eapply Hrec; [|exact H]. cbn [length]. lia.
Qed.

Lemma span_digits_length l : (length (span_digits l).1 + length (span_digits l).2 = length l)%nat.
Proof. induction l as [|r l IH]; [done|]. cbn. destruct (is_digit r); [|done]. destruct (span_digits l). cbn in *. lia. Qed.

Lemma digits1_length l a r : digits1 l = Some (a, r) -> (length r < length l)%nat.
Proof.
  unfold digits1. pose proof (span_digits_length l) as H. destruct (span_digits l) as [[|x a'] b]; [done|]. intros. simplify_eq. cbn in H. lia.
Qed.

Lemma number_length l a r : number l = Some (a, r) -> (length r < length l)%nat.
Proof.
  unfold number. intros H.
  assert (exists sg l', (length l' <= length l)%nat /\
    ('(i, l) ← int_part l'; '(f, l) ← frac_part l; '(e, l) ← exp_part l; Some (sg ++ i ++ f ++ e, l)) = Some (a, r)) as (sg & l' & Hle & H').
  { destruct l as [|c l]; [by exists [], []|]. destruct (c =? 45); [exists [45], l; cbn; by split; [lia|]|by exists [], (c :: l)]. }
  destruct (int_part l') as [[i l1]|] eqn:Hi; [|done]. cbn in H'. destruct (frac_part l1) as [[fr l2]|] eqn:Hf; [|done]. cbn in H'.
  destruct (exp_part l2) as [[ex l3]|] eqn:He; [|done]. cbn in H'. simplify_eq.
  assert (length l1 < length l')%nat.
  { unfold int_part in Hi. destruct l' as [|c l']; [done|]. destruct (c =? 48); [simplify_eq; cbn; lia|by eapply digits1_length]. }
  assert (length l2 <= length l1)%nat.
  { unfold frac_part in Hf. destruct l1 as [|c l1]; [by simplify_eq|]. destruct (c =? 46); [|simplify_eq; lia].
    destruct (digits1 l1) as [[]|] eqn:Hd; [|done]. cbn in Hf. simplify_eq. apply digits1_length in Hd. cbn. lia. }
  assert (length r <= length l2)%nat; [|lia].
  unfold exp_part in He. destruct l2 as [|c l2]; [by simplify_eq|]. destruct ((c =? 101) || (c =? 69)); [|simplify_eq; lia].
  assert (exists sg' l'', (length l'' <= length l2)%nat /\ ('(d, rest) ← digits1 l''; Some (c :: sg' ++ d, rest)) = Some (ex, r)) as (sg' & l'' & Hle' & He').
  { destruct l2 as [|x l2]; [by exists [], []|]. destruct ((x =? 43) || (x =? 45)); [exists [x], l2; cbn; by split; [lia|]|by exists [], (x :: l2)]. }
  destruct (digits1 l'') as [[]|] eqn:Hd; [|done]. cbn in He'. simplify_eq. apply digits1_length in Hd. cbn. lia.
Qed.

Lemma keyword_length w l r : keyword w l = Some r -> (length r <= length l)%nat.
Proof.
  revert l. induction w as [|x w IH]; intros l H; cbn in H; [by simplify_eq|]. destruct l as [|y l]; [done|].
  destruct (x =? y); [|done]. apply IH in H. cbn. lia.
Qed.

Lemma scalar_length l v r : scalar l = Some (v, r) -> (length r < length l)%nat.
Proof.
  unfold scalar. destruct l as [|c l]; [done|]. intros H.
  destruct (c =? 34); [destruct (unquote l) as [[]|] eqn:E; [|done]; cbn in H; simplify_eq; apply unquote_length in E; cbn; lia|].
  assert (forall w x, ((r ← keyword (x :: w) (c :: l); Some (v, r)) = Some (v, r)) -> (length r < length (c :: l))%nat) as Hk.
  { intros w x Hx. destruct (keyword (x :: w) (c :: l)) as [k|] eqn:E; [|done]. cbn in Hx. simplify_eq. cbn in E. destruct (x =? c); [|done].
    apply keyword_length in E. cbn. lia. }
  destruct (c =? 116); [destruct (keyword _ _) eqn:E in H; [|done]; cbn in H; simplify_eq; eapply Hk; rewrite E; done|].
  destruct (c =? 102); [destruct (keyword _ _) eqn:E in H; [|done]; cbn in H; simplify_eq; eapply Hk; rewrite E; done|].
  destruct (c =? 110); [destruct (keyword _ _) eqn:E in H; [|done]; cbn in H; simplify_eq; eapply Hk; rewrite E; done|].
  destruct (number (c :: l)) as [[]|] eqn:E; [|done]. cbn [mbind option_bind] in H. simplify_eq. by eapply number_length.
Qed.

(** What the three parsers leave is shorter than what they were given. *)
Lemma parsers_consume f :
  (forall d l v r, pvalue f d l = Some (v, r) -> (length r < length l)%nat) /\
  (forall d l v r, pelems f d l = Some (v, r) -> (length r < length l)%nat) /\
  (forall d l v r, pmembers f d l = Some (v, r) -> (length r < length l)%nat).
Proof.
  induction f as [|f (IHv & IHe & IHm)]; [done|]. split; [|split]; intros d l v r H.
  - cbn [pvalue] in H. pose proof (skip_ws_length l) as Hl. destruct (skip_ws l) as [|c l']; [done|]. cbn [length] in Hl.
    destruct (c =? 91); [|destruct (c =? 123)].
    + destruct (d <=? 0); [done|]. pose proof (skip_ws_length l') as Hl'. destruct (skip_ws l') as [|c' l'']; [done|]. cbn [length] in Hl'.
      destruct (c' =? 93); [simplify_eq; lia|]. destruct (pelems f (d - 1) l') as [[vs r']|] eqn:E; [|done]. cbn in H. simplify_eq. apply IHe in E. lia.
    + destruct (d <=? 0); [done|]. pose proof (skip_ws_length l') as Hl'. destruct (skip_ws l') as [|c' l'']; [done|]. cbn [length] in Hl'.
      destruct (c' =? 125); [simplify_eq; lia|]. destruct (pmembers f (d - 1) l') as [[vs r']|] eqn:E; [|done]. cbn in H. simplify_eq. apply IHm in E. lia.
    + apply scalar_length in H. cbn in H. lia.
  - cbn [pelems] in H. destruct (pvalue f d l) as [[x r1]|] eqn:E; [|done]. cbn [mbind option_bind] in H. apply IHv in E.
    pose proof (skip_ws_length r1) as Hl. destruct (skip_ws r1) as [|c r2]; [done|]. cbn [length] in Hl. destruct (c =? 44).
    + destruct (pelems f d r2) as [[vs r']|] eqn:E'; [|done]. cbn in H. simplify_eq. apply IHe in E'. lia.
    + destruct (c =? 93); [simplify_eq; lia|done].
  - cbn [pmembers] in H. pose proof (skip_ws_length l) as Hl. destruct (skip_ws l) as [|q l']; [done|]. cbn [length] in Hl. destruct (q =? 34); [|done].
    destruct (unquote l') as [[k r1]|] eqn:Hk; [|done]. cbn [mbind option_bind] in H. apply unquote_length in Hk.
    pose proof (skip_ws_length r1) as Hl1. destruct (skip_ws r1) as [|c r2]; [done|]. cbn [length] in Hl1. destruct (c =? 58); [|done].
    destruct (pvalue f d r2) as [[x r3]|] eqn:E; [|done]. cbn [mbind option_bind] in H. apply IHv in E.
    pose proof (skip_ws_length r3) as Hl3. destruct (skip_ws r3) as [|c' r4]; [done|]. cbn [length] in Hl3. destruct (c' =? 44).
    + destruct (pmembers f d r4) as [[vs r']|] eqn:E'; [|done]. cbn in H. simplify_eq. apply IHm in E'. lia.
    + destruct (c' =? 125); [simplify_eq; lia|done].
Qed.

(** More fuel than two steps per rune changes nothing. *)
Lemma parsers_stable n :
  (forall l d f f', (length l <= n)%nat -> (2 * length l + 1 <= f)%nat -> (2 * length l + 1 <= f')%nat -> pvalue f d l = pvalue f' d l) /\
  (forall l d f f', (length l <= n)%nat -> (2 * length l + 2 <= f)%nat -> (2 * length l + 2 <= f')%nat -> pelems f d l = pelems f' d l) /\
  (forall l d f f', (length l <= n)%nat -> (2 * length l + 2 <= f)%nat -> (2 * length l + 2 <= f')%nat -> pmembers f d l = pmembers f' d l).
Proof.
  induction n as [n IH] using (well_founded_induction lt_wf).
  assert (forall l d f f', (length l <= n)%nat -> (2 * length l + 1 <= f)%nat -> (2 * length l + 1 <= f')%nat -> pvalue f d l = pvalue f' d l) as Hv.
  { intros l d f f' Hn Hf Hf'. destruct f as [|f]; [lia|]. destruct f' as [|f']; [lia|]. cbn [pvalue].
    pose proof (skip_ws_length l) as Hl. destruct (skip_ws l) as [|c l']; [done|]. cbn [length] in Hl.
    destruct (c =? 91); [|destruct (c =? 123)]; [| |done]; (destruct (d <=? 0); [done|]; destruct (skip_ws l') as [|c' l'']; [done|]).
    - destruct (c' =? 93); [done|]. destruct (IH (length l') ltac:(lia)) as (_ & He & _). rewrite (He l' (d - 1) f f'); [done|lia..].
    - destruct (c' =? 125); [done|]. destruct (IH (length l') ltac:(lia)) as (_ & _ & Hm). rewrite (Hm l' (d - 1) f f'); [done|lia..]. }
  split; [done|]. split; intros l d f f' Hn Hf Hf'; (destruct f as [|f]; [lia|]); (destruct f' as [|f']; [lia|]).
  - cbn [pelems]. rewrite (Hv l d f f') by lia. destruct (pvalue f' d l) as [[x r1]|] eqn:E; [|done]. apply parsers_consume in E. cbn [mbind option_bind].
    pose proof (skip_ws_length r1) as Hl. destruct (skip_ws r1) as [|c r2]; [done|]. cbn [length] in Hl. destruct (c =? 44); [|done].
    destruct (IH (length r2) ltac:(lia)) as (_ & He & _). rewrite (He r2 d f f'); [done|lia..].
  - cbn [pmembers]. pose proof (skip_ws_length l) as Hl. destruct (skip_ws l) as [|q l']; [done|]. cbn [length] in Hl. destruct (q =? 34); [|done].
    destruct (unquote l') as [[k r1]|] eqn:Hk; [|done]. apply unquote_length in Hk. cbn [mbind option_bind].
    pose proof (skip_ws_length r1) as Hl1. destruct (skip_ws r1) as [|c r2]; [done|]. cbn [length] in Hl1. destruct (c =? 58); [|done].
    rewrite (Hv r2 d f f') by lia. destruct (pvalue f' d r2) as [[x r3]|] eqn:E; [|done]. apply parsers_consume in E. cbn [mbind option_bind].
    pose proof (skip_ws_length r3) as Hl3. destruct (skip_ws r3) as [|c' r4]; [done|]. cbn [length] in Hl3. destruct (c' =? 44); [|done].
    destruct (IH (length r4) ltac:(lia)) as (_ & _ & Hm). rewrite (Hm r4 d f f'); [done|lia..].
Qed.

Lemma parse_fuel l d f : (fuel_for l <= f)%nat -> pvalue f d l = pvalue (fuel_for l) d l.
Proof. unfold fuel_for. intros H. destruct (parsers_stable (length l)) as (Hv & _). apply Hv; lia. Qed.

End json.
