(* ===== verification/XML.v ===== *)
(** * XML documents (Go's [encoding/xml] encoder)

    The responses are written with [xml.Marshal]: an element per structure
    field, text escaped so that no value can open or close one. *)

From S2P Require Import Prelude Unicode GoStrings JSON.

Open Scope Z_scope.

Module xml.

Inductive node :=
| Elem (name : string) (attrs : list (string * string)) (children : list node)
| Chars (s : string).

Definition Header : string :=
  "<?xml version=" +:+ dquote +:+ "1.0" +:+ dquote +:+ " encoding=" +:+ dquote +:+ "UTF-8" +:+ dquote +:+ "?>" +:+ lf.

Definition isInCharacterRange (r : Z) : bool :=
  (r =? 9) || (r =? 10) || (r =? 13) || in_range r 32 55295 || in_range r 57344 65533 || in_range r 65536 1114111.

(** The entities [EscapeText] writes. *)
Definition entities : list (Z * string) :=
  [(34, "&#34;"); (39, "&#39;"); (38, "&amp;"); (60, "&lt;"); (62, "&gt;"); (9, "&#x9;"); (10, "&#xA;"); (13, "&#xD;")].

Definition entity_of (r : Z) : option string := snd <$> List.find (fun e => e.1 =? r) entities.

Definition escape_chunk (p : Z * string) : list Z :=
  let '(r, chunk) := p in
  match entity_of r with
  | Some e => runes e
  | None => if negb (isInCharacterRange r) then [rune_error] else [r]
  end.

Definition escape_runes (s : string) : list Z := concat (map escape_chunk (decode_chunks s)).

Definition EscapeText (s : string) : string := encode (escape_runes s).

Definition print_attr (a : string * string) : string := " " +:+ a.1 +:+ "=" +:+ dquote +:+ EscapeText a.2 +:+ dquote.

Fixpoint print (n : node) : string :=
  match n with
  | Chars s => EscapeText s
  | Elem name attrs children =>
    "<" +:+ name +:+ foldr (fun a acc => print_attr a +:+ acc) "" attrs +:+ ">" +:+
    foldr (fun c acc => print c +:+ acc) "" children +:+ "</" +:+ name +:+ ">"
  end.

(** [xml.Marshal]. *)
Definition Marshal (n : node) : string := print n.

(** The fields of a structure: an element with text, one left out when empty,
    one left out when nil. *)
Definition text (name s : string) : list node := [Elem name [] [Chars s]].
Definition omitempty (name s : string) : list node := if bool_decide (s = "") then [] else text name s.
Definition omitnil {A} (name : string) (f : A -> list node) (o : option A) : list node :=
  match o with None => [] | Some a => [Elem name [] (f a)] end.
Definition number (name : string) (n : Z) : list node := text name (strconv.FormatInt n).
Definition boolean (name : string) (b : bool) : list node := text name (if b then "true" else "false").

(** ** Reading text back *)

Fixpoint strip (w l : list Z) : option (list Z) :=
  match w, l with
  | [], _ => Some l
  | x :: w, y :: l => if x =? y then strip w l else None
  | _ :: _, [] => None
  end.

Definition read_entity (l : list Z) : option (Z * list Z) :=
  (fix go es := match es with
    | [] => None
    | (r, e) :: es => match strip (runes e) l with Some rest => Some (r, rest) | None => go es end
    end) entities.

(** The character data up to the next tag, as a reader of the document sees
    it. *)
Fixpoint read_text (fuel : nat) (l : list Z) : option (list Z * list Z) :=
  match fuel, l with
  | S f, c :: r =>
    if c =? 60 then Some ([], l)
    else if c =? 38 then '(x, r) ← read_entity l; '(t, rest) ← read_text f r; Some (x :: t, rest)
    else '(t, rest) ← read_text f r; Some (c :: t, rest)
  | _, _ => None
  end.

Definition is_text (s : string) : bool := forallb isInCharacterRange (runes s).

Lemma read_entity_escape r e l : entity_of r = Some e -> read_entity (runes e ++ l) = Some (r, l) /\ exists t, runes e = 38 :: t.
Proof.
  unfold entity_of, entities. cbn [List.find fst].
  repeat match goal with |- context [if (?n =? r) then _ else _] =>
    destruct (Z.eqb_spec n r) as [<-|]; [intros [= <-]; split; [reflexivity|by eexists]|] end.
  intros H. discriminate H.
Qed.

Lemma read_text_escape s tail : is_text s = true -> forall f, (length (escape_runes s) < f)%nat ->
  read_text f (escape_runes s ++ 60 :: tail) = Some (runes s, 60 :: tail).
Proof.
  unfold is_text, escape_runes, runes. induction (decode_chunks s) as [|[r ch] l IH]; intros Hs f Hf.
  { destruct f; [cbn in Hf; lia|]. done. }
  cbn [fmap list_fmap fst forallb map concat] in *. apply andb_true_iff in Hs as [Hr Hs]. rewrite length_app in Hf. rewrite <- app_assoc.
  unfold escape_chunk in *. destruct (entity_of r) as [e|] eqn:He.
  - destruct (read_entity_escape r e (concat (map escape_chunk l) ++ 60 :: tail) He) as [Hread [t Ht]].
    rewrite Ht in *. cbn [length] in Hf. destruct f as [|f]; [lia|]. cbn [app read_text]. change (38 =? 60) with false. change (38 =? 38) with true. cbn iota.
    cbn [app] in Hread. unfold escape_chunk in Hread. rewrite Hread. cbn [mbind option_bind]. rewrite IH; [done|done|lia].
  - rewrite Hr in *. cbn [negb length app] in *. destruct f as [|f]; [lia|]. cbn [read_text].
    assert ((r =? 60) = false /\ (r =? 38) = false) as [-> ->].
    { unfold entity_of, entities in He. cbn [List.find fst] in He. repeat case_match; try done; lia. }
    rewrite IH; [done|done|lia].
Qed.

Lemma escape_scalar s : forallb scalar_rune (escape_runes s) = true.
Proof.
  pose proof (json.decoded_scalar s) as Hs. unfold escape_runes, runes in *. induction (decode_chunks s) as [|[r ch] l IH]; [done|].
  cbn [fmap list_fmap fst forallb map concat] in *. apply andb_true_iff in Hs as [Hr Hs]. rewrite forallb_app, IH, andb_true_r by done.
  unfold escape_chunk. destruct (entity_of r) as [e|]; [apply json.decoded_scalar|]. destruct (isInCharacterRange r); cbn [negb forallb]; by rewrite ?Hr.
Qed.

End xml.
