(* ===== verification/Glob.v ===== *)
(** * Glob matching of policy patterns (src/policy/policy.go, [Match])

    [matchRunes] is Go's two-pointer loop with one backtracking point, written
    as a step function on the loop's four variables and run with fuel;
    [matchRunes_loop_total] shows the fuel is enough, so the fuel is not a
    hypothesis anywhere.  [glob] is the declarative meaning the package
    documents, and the theorems relate the two. *)

From S2P Require Import Prelude Unicode GoStrings.

Open Scope Z_scope.

Module Glob.

Notation star_rune := 42 (only parsing).
Notation question_rune := 63 (only parsing).

(** The loop variables of [matchRunes]; [star] is [None] for Go's [-1]. *)
Record loop := Loop { pp : nat; vv : nat; star : option nat; starV : nat }.

(** One turn of the loop body, entered with [v < len(val)]: the next values of
    the variables, or [None] for [return false]. *)
Definition step (pat val : list Z) (st : loop) : option loop :=
  let '(Loop p v star starV) := st in
  match pat !! p, val !! v with
  | Some c, Some d =>
    if (c =? question_rune) || (c =? d) then Some (Loop (S p) (S v) star starV)
    else if c =? star_rune then Some (Loop (S p) v (Some p) v)
    else match star with
         | Some s => Some (Loop (S s) (S starV) (Some s) (S starV))
         | None => None
         end
  | None, _ =>
    match star with
    | Some s => Some (Loop (S s) (S starV) (Some s) (S starV))
    | None => None
    end
  | _, None => None
  end.

(** [for p < len(pat) && pat[p] == '*' { p++ }; return p == len(pat)]. *)
Fixpoint only_stars (rest : list Z) : bool :=
  match rest with
  | [] => true
  | c :: rest => (c =? star_rune) && only_stars rest
  end.

(** The loop; [None] only when the fuel runs out. *)
Fixpoint run (fuel : nat) (pat val : list Z) (st : loop) : option bool :=
  if (vv st <? length val)%nat then
    match fuel with
    | O => None
    | S f => match step pat val st with
             | Some st' => run f pat val st'
             | None => Some false
             end
    end
  else Some (only_stars (drop (pp st) pat)).

Definition fuel_for (pat val : list Z) : nat :=
  (S (length val) * S (length val + length pat))%nat.

Definition matchRunes (pat val : list Z) : bool :=
  default false (run (fuel_for pat val) pat val (Loop 0 0 None 0)).

Definition Match (pattern value : string) : bool :=
  matchRunes (runes pattern) (runes value).

(** [matchIndexRunes]: the first matching pattern. *)
Definition matchIndexRunes (patterns : list (list Z)) (value : list Z) : option nat :=
  find_index (fun p => matchRunes p value) patterns.

Definition matchAnyRunes (patterns : list (list Z)) (value : list Z) : bool :=
  bool_decide (is_Some (matchIndexRunes patterns value)).

Definition patternRunes (patterns : list string) : list (list Z) := map runes patterns.

Definition lowerPatternRunes (patterns : list string) : list (list Z) :=
  map (fun p => runes (strings.ToLower p)) patterns.

(** ** The documented meaning

    ["*"] matches any run of characters, ["?"] exactly one, every other
    character itself. *)
Inductive glob : list Z -> list Z -> Prop :=
| glob_nil : glob [] []
| glob_one p v c : glob p v -> glob (question_rune :: p) (c :: v)
| glob_lit p v c : c <> star_rune -> glob p v -> glob (c :: p) (c :: v)
| glob_star_stop p v : glob p v -> glob (star_rune :: p) v
| glob_star_take p v c : glob (star_rune :: p) v -> glob (star_rune :: p) (c :: v).

#[local] Hint Constructors glob : core.

Lemma glob_star_app p v w : glob p w -> glob (star_rune :: p) (v ++ w).
Proof. intros H. induction v; simpl; auto. Qed.

Lemma glob_star_inv p v : glob (star_rune :: p) v -> exists k, (k <= length v)%nat /\ glob p (drop k v).
Proof.
  remember (star_rune :: p) as q eqn:Hq. induction 1; simplify_eq; try done.
  - exists 0%nat. split; [lia|done].
  - destruct IHglob as (k & Hk & Hg); [done|]. exists (S k). split; [simpl; lia|done].
Qed.

Lemma glob_nil_stars p : glob p [] <-> only_stars p = true.
Proof.
  induction p as [|c p IH]; simpl; [by split|]. rewrite andb_true_iff, Z.eqb_eq, <- IH.
  split; [inversion 1; subst; done|]. intros [-> ?]. auto.
Qed.

Lemma glob_cons_literal c p d v :
  c <> star_rune -> glob (c :: p) (d :: v) <-> (c = question_rune \/ c = d) /\ glob p v.
Proof.
  intros Hc. split; [by inversion 1; subst; auto|]. intros [[->| ->] H]; auto.
Qed.

Lemma glob_cons_nil c p : c <> star_rune -> ~ glob (c :: p) [].
Proof. intros Hc H. inversion H; subst; done. Qed.

Lemma glob_nil_cons d v : ~ glob [] (d :: v).
Proof. inversion 1. Qed.

Definition starless (p : list Z) : Prop := Forall (fun c => c <> star_rune) p.

(** A starless prefix of the pattern consumes exactly its own length. *)
Lemma glob_starless_app seg p v :
  starless seg -> glob (seg ++ p) v -> (length seg <= length v)%nat /\ glob p (drop (length seg) v).
Proof.
  revert v; induction seg as [|c seg IH]; intros v Hs H; simpl in *; [split; [lia|done]|].
  apply Forall_cons in Hs as [Hc Hs]. destruct v as [|d v]; [by apply glob_cons_nil in H|].
  apply glob_cons_literal in H as [_ H]; [|done]. destruct (IH v Hs H). simpl; split; [lia|done].
Qed.

(** ** Termination: the loop's variant *)

Definition variant (pat val : list Z) (st : loop) : nat :=
  ((length val - starV st) * S (length val + length pat)
   + (length val - vv st) + (length pat - pp st))%nat.

Definition sane (pat val : list Z) (st : loop) : Prop :=
  (starV st <= vv st)%nat /\ (vv st <= length val)%nat /\ (pp st <= length pat)%nat /\
  (forall s, star st = Some s -> (s < pp st)%nat).

Lemma step_decreases pat val st st' :
  sane pat val st -> (vv st < length val)%nat -> step pat val st = Some st' ->
  sane pat val st' /\ (variant pat val st' < variant pat val st)%nat.
Proof.
  destruct st as [p v star sv]; unfold sane, variant; simpl. intros (H1 & H2 & H3 & H4) Hv.
  assert (forall s, star = Some s -> Some (Loop (S s) (S sv) (Some s) (S sv)) = Some st' ->
    ((starV st' <= vv st')%nat /\ (vv st' <= length val)%nat /\ (pp st' <= length pat)%nat /\
      (forall s, Glob.star st' = Some s -> (s < pp st')%nat)) /\
    ((length val - starV st') * S (length val + length pat) + (length val - vv st') + (length pat - pp st')
     < (length val - sv) * S (length val + length pat) + (length val - v) + (length pat - p))%nat) as Hback.
  { intros s Hs [= <-]. specialize (H4 s Hs). simpl. split.
    - repeat split; try lia. intros ? [= <-]; lia.
    - replace (length val - sv)%nat with (S (length val - S sv)) by lia. nia. }
  destruct (pat !! p) as [c|] eqn:Hp.
  - apply lookup_lt_Some in Hp. destruct (val !! v) as [d|] eqn:Hd; [|done].
    destruct ((c =? 63) || (c =? d)).
    { intros [= <-]. simpl. split; [|lia]. repeat split; try lia. intros s Hs. specialize (H4 s Hs). lia. }
    destruct (c =? 42).
    { intros [= <-]. simpl. split; [|nia]. repeat split; try lia. intros ? [= <-]; lia. }
    destruct star as [s|]; [|done]. by apply (Hback s).
  - destruct star as [s|]; [|done]. by apply (Hback s).
Qed.

Lemma run_total pat val st fuel :
  sane pat val st -> (variant pat val st < fuel)%nat -> is_Some (run fuel pat val st).
Proof.
  revert st; induction fuel as [|f IH]; intros st Hs Hf; [lia|]. simpl.
  destruct (vv st <? length val)%nat eqn:Hv; [|done]. apply Nat.ltb_lt in Hv.
  destruct (step pat val st) as [st'|] eqn:Hst; [|done].
  destruct (step_decreases pat val st st') as [Hs' Hlt]; try done. apply IH; [done|lia].
Qed.

Lemma matchRunes_loop_total pat val :
  is_Some (run (fuel_for pat val) pat val (Loop 0 0 None 0)).
Proof.
  apply run_total; unfold sane, variant, fuel_for; simpl; [|lia].
  repeat split; try lia. done.
Qed.

(** ** Soundness: a match is a match of the documented language *)

Definition sound_inv (pat val : list Z) (st : loop) : Prop :=
  (glob (drop (pp st) pat) (drop (vv st) val) -> glob pat val) /\
  (forall s k, star st = Some s -> (starV st <= k)%nat ->
     glob (drop (S s) pat) (drop k val) -> glob pat val).

Lemma step_sound pat val st st' :
  sound_inv pat val st -> step pat val st = Some st' -> sound_inv pat val st'.
Proof.
  destruct st as [p v star sv]; unfold sound_inv; simpl. intros [Hcur Hstar].
  assert (forall s, star = Some s -> Some (Loop (S s) (S sv) (Some s) (S sv)) = Some st' ->
    (glob (drop (pp st') pat) (drop (vv st') val) -> glob pat val) /\
    (forall s k, Glob.star st' = Some s -> (starV st' <= k)%nat ->
       glob (drop (S s) pat) (drop k val) -> glob pat val)) as Hback.
  { intros s Hs [= <-]. simpl. split; [intros Hg; apply (Hstar s (S sv)); [done|lia|done]|].
    intros s' k [= <-] Hk Hg. apply (Hstar s k); [done|lia|done]. }
  destruct (pat !! p) as [c|] eqn:Hp; [|destruct star as [s|]; [|done]; by apply (Hback s)].
  destruct (val !! v) as [d|] eqn:Hd; [|done].
  rewrite (drop_S _ _ _ Hp), (drop_S _ _ _ Hd) in Hcur.
  destruct ((c =? 63) || (c =? d)) eqn:Hlit.
  { intros [= <-]. simpl. split; [|done]. intros Hg. apply Hcur.
    apply orb_true_iff in Hlit as [->%Z.eqb_eq| ->%Z.eqb_eq]; [auto|].
    destruct (decide (d = 42)) as [->|]; [|auto]. apply glob_star_take. auto. }
  destruct (c =? 42) eqn:Hc.
  { apply Z.eqb_eq in Hc as ->. intros [= <-]. simpl.
    assert (forall k, (v <= k)%nat -> glob (drop (S p) pat) (drop k val) -> glob pat val) as Hk.
    { intros k Hk Hg. apply Hcur. rewrite <- (drop_S _ _ _ Hd).
      replace (drop v val) with (take (k - v) (drop v val) ++ drop k val).
      { by apply glob_star_app. }
      rewrite <- (take_drop (k - v) (drop v val)) at 2. rewrite drop_drop. f_equal. f_equal. lia. }
    split; [intros; by apply (Hk v)|]. intros s k [= <-] ? ?. by apply (Hk k). }
  destruct star as [s|]; [|done]. by apply (Hback s).
Qed.

Lemma run_sound pat val fuel st :
  sound_inv pat val st -> run fuel pat val st = Some true -> glob pat val.
Proof.
  assert (forall st, sound_inv pat val st -> (vv st <? length val)%nat = false ->
    only_stars (drop (pp st) pat) = true -> glob pat val) as Hend.
  { intros st' [Hcur _] Hv Ho. apply Hcur. apply Nat.ltb_ge in Hv.
    rewrite (drop_ge val) by lia. by apply glob_nil_stars. }
  revert st; induction fuel as [|f IH]; intros st Hinv; simpl;
    destruct (vv st <? length val)%nat eqn:Hv; try done; try (intros [= ?]; by eapply Hend).
  destruct (step pat val st) as [st'|] eqn:Hst; [|done]. intros H.
  apply (IH st'); [by eapply step_sound|done].
Qed.

(** ** Completeness, for a value without an asterisk *)

(** [glob pat val] survives at the current position, or, behind a star, at
    some later start; the pattern since the star is starless and as long as
    the part of the value it has consumed. *)
Definition complete_inv (pat val : list Z) (st : loop) : Prop :=
  (vv st <= length val)%nat /\
  match star st with
  | None => glob pat val -> glob (drop (pp st) pat) (drop (vv st) val)
  | Some s =>
    (exists seg, drop (S s) pat = seg ++ drop (pp st) pat /\ starless seg /\
       (starV st + length seg)%nat = vv st /\
       (glob (drop (S s) pat) (drop (starV st) val) -> glob (drop (pp st) pat) (drop (vv st) val))) /\
    (glob pat val -> exists k, (starV st <= k <= length val)%nat /\ glob (drop (S s) pat) (drop k val))
  end.

(** The cases of the loop body that consume one literal, remember a star, or
    go back to the last one. *)
Lemma complete_literal pat val p v star sv c d :
  complete_inv pat val (Loop p v star sv) -> pat !! p = Some c -> val !! v = Some d ->
  c <> star_rune -> complete_inv pat val (Loop (S p) (S v) star sv).
Proof.
  unfold complete_inv; simpl. intros [Hv Hinv] Hp Hd Hc. pose proof (lookup_lt_Some _ _ _ Hd).
  rewrite (drop_S _ _ _ Hp), (drop_S _ _ _ Hd) in Hinv. split; [lia|].
  destruct star as [s|]; [|intros Hg; by apply Hinv, glob_cons_literal in Hg as [_ ?]].
  destruct Hinv as [(seg & Hseg & Hs & Hl & Hg) Hk]. split; [|done].
  exists (seg ++ [c]). rewrite <- app_assoc. repeat split; [done| | |].
  - apply Forall_app; split; [done|]. by repeat constructor.
  - rewrite length_app. simpl. lia.
  - intros H'. by apply Hg, glob_cons_literal in H' as [_ ?].
Qed.

Lemma complete_star pat val p v star sv :
  complete_inv pat val (Loop p v star sv) -> pat !! p = Some star_rune ->
  complete_inv pat val (Loop (S p) v (Some p) v).
Proof.
  unfold complete_inv; simpl. intros [Hv Hinv] Hp. rewrite (drop_S _ _ _ Hp) in Hinv. split; [done|].
  split; [exists []; repeat split; [constructor|simpl; lia|done]|]. intros Hg.
  destruct star as [s|].
  - destruct Hinv as [(seg & Hseg & Hs & Hl & _) Hk]. destruct (Hk Hg) as (k & Hk1 & Hk2).
    rewrite Hseg in Hk2. apply glob_starless_app in Hk2 as [Hlen Hk2]; [|done].
    rewrite drop_drop in Hk2. rewrite length_drop in Hlen.
    apply glob_star_inv in Hk2 as (j & Hj & Hk2). rewrite drop_drop in Hk2. rewrite length_drop in Hj.
    eexists. split; [|exact Hk2]. lia.
  - apply Hinv, glob_star_inv in Hg as (k & Hk & Hg). rewrite drop_drop in Hg. rewrite length_drop in Hk.
    eexists. split; [|exact Hg]. lia.
Qed.

Lemma complete_back pat val p v s sv :
  complete_inv pat val (Loop p v (Some s) sv) -> (v < length val)%nat ->
  ~ glob (drop p pat) (drop v val) -> complete_inv pat val (Loop (S s) (S sv) (Some s) (S sv)).
Proof.
  unfold complete_inv; simpl. intros [Hv [(seg & Hseg & Hs & Hl & Hg) Hk]] Hlt Hno. split; [lia|].
  split; [exists []; repeat split; [constructor|simpl; lia|done]|]. intros Hpv.
  destruct (Hk Hpv) as (k & Hk1 & Hk2). exists k. split; [|done].
  destruct (decide (k = sv)) as [->|]; [|lia]. exfalso. auto.
Qed.

Lemma complete_end pat val st :
  complete_inv pat val st -> (length val <= vv st)%nat -> glob pat val -> only_stars (drop (pp st) pat) = true.
Proof.
  intros [Hv Hinv] Hle Hg. apply glob_nil_stars. rewrite <- (drop_ge val (vv st)) by lia.
  destruct (star st) as [s|]; [|auto].
  destruct Hinv as [(seg & Hseg & Hs & Hl & Hcur) Hk]. destruct (Hk Hg) as (k & Hk1 & Hk2).
  apply Hcur. replace (starV st) with k; [done|].
  rewrite Hseg in Hk2. apply glob_starless_app in Hk2 as [Hlen _]; [|done].
  rewrite length_drop in Hlen. lia.
Qed.

Lemma step_complete pat val st :
  starless val -> complete_inv pat val st -> (vv st < length val)%nat ->
  match step pat val st with
  | Some st' => complete_inv pat val st'
  | None => ~ glob pat val
  end.
Proof.
  destruct st as [p v star sv]; simpl. intros Hval Hinv Hv.
  assert (~ glob (drop p pat) (drop v val) ->
    match (match star with
           | Some s => Some (Loop (S s) (S sv) (Some s) (S sv))
           | None => None end) with
    | Some st' => complete_inv pat val st'
    | None => ~ glob pat val
    end) as Hfail.
  { intros Hno. destruct star as [s|]; [by eapply complete_back|]. intros Hg. by apply Hno, Hinv. }
  destruct (val !! v) as [d|] eqn:Hd; [|apply lookup_ge_None in Hd; lia].
  assert (d <> 42) as Hd42 by (by eapply Forall_lookup in Hval).
  rewrite (drop_S _ _ _ Hd) in Hfail.
  destruct (pat !! p) as [c|] eqn:Hp.
  - rewrite (drop_S _ _ _ Hp) in Hfail. destruct ((c =? 63) || (c =? d)) eqn:Hlit.
    { eapply complete_literal; [done..|]. apply orb_true_iff in Hlit as [->%Z.eqb_eq| ->%Z.eqb_eq]; done. }
    destruct (c =? 42) eqn:Hc; [apply Z.eqb_eq in Hc as ->; by eapply complete_star|].
    bools. apply Hfail. intros [[|] _]%glob_cons_literal; congruence.
  - apply Hfail. rewrite drop_ge by (by apply lookup_ge_None). apply glob_nil_cons.
Qed.

Lemma run_complete pat val fuel st b :
  starless val -> complete_inv pat val st -> run fuel pat val st = Some b -> glob pat val -> b = true.
Proof.
  intros Hval. revert st; induction fuel as [|f IH]; intros st Hinv; simpl;
    destruct (vv st <? length val)%nat eqn:Hv; bools; try done;
    try (intros [= <-] Hg; by eapply complete_end).
  pose proof (step_complete _ _ _ Hval Hinv Hv) as Hs.
  destruct (step pat val st) as [st'|]; [by apply IH|]. done.
Qed.

Lemma initial_sound pat val : sound_inv pat val (Loop 0 0 None 0).
Proof. split; simpl; [by rewrite !drop_0|done]. Qed.

Lemma initial_complete pat val : complete_inv pat val (Loop 0 0 None 0).
Proof. split; simpl; [lia|]. by rewrite !drop_0. Qed.

Lemma matchRunes_sound pat val : matchRunes pat val = true -> glob pat val.
Proof.
  unfold matchRunes. destruct (run _ _ _ _) as [b|] eqn:H; simpl; [|done]. intros ->.
  eapply run_sound; [apply initial_sound|done].
Qed.

Lemma matchRunes_complete pat val : starless val -> glob pat val -> matchRunes pat val = true.
Proof.
  intros Hval Hg. unfold matchRunes. destruct (matchRunes_loop_total pat val) as [b Hb]. rewrite Hb. simpl.
  eapply run_complete; [done|apply initial_complete|done|done].
Qed.

Lemma matchAnyRunes_exists patterns value :
  matchAnyRunes patterns value = true <-> exists p, p ∈ patterns /\ matchRunes p value = true.
Proof.
  unfold matchAnyRunes, matchIndexRunes. rewrite bool_decide_eq_true, find_index_is_Some. apply existsb_elem.
Qed.

Lemma matchAnyRunes_app l1 l2 value :
  matchAnyRunes (l1 ++ l2) value = matchAnyRunes l1 value || matchAnyRunes l2 value.
Proof.
  apply eq_true_iff_eq. rewrite orb_true_iff, !matchAnyRunes_exists. setoid_rewrite elem_of_app. naive_solver.
Qed.

(** ** Theorems *)

(** C39. The matching loop of [matchRunes] always terminates within its variant
    and only accepts values the documented wildcard language accepts; for a
    value without an asterisk it accepts all of them. *)
Theorem Match_glob pattern value :
  is_Some (run (fuel_for (runes pattern) (runes value)) (runes pattern) (runes value) (Loop 0 0 None 0)) /\
  (Match pattern value = true -> glob (runes pattern) (runes value)) /\
  (starless (runes value) -> (Match pattern value = true <-> glob (runes pattern) (runes value))).
Proof.
  split; [apply matchRunes_loop_total|]. split; [apply matchRunes_sound|].
  intros Hv. split; [apply matchRunes_sound|]. by apply matchRunes_complete.
Qed.

(** On a value that itself contains an asterisk the loop takes the
    pattern's asterisk for that literal character and forgets to backtrack: a
    key starting with an asterisk is not covered by the pattern of its own
    directory, although the documented language covers it. *)
Theorem Match_misses_asterisk_key :
  Match "photos/*" "photos/*a" = false /\ glob (runes "photos/*") (runes "photos/*a").
Proof.
  split; [vm_refl|]. vm_compute. repeat (apply glob_lit; [done|]). repeat apply glob_star_take. by repeat constructor.
Qed.

End Glob.
