(* ===== verification/NetIP.v ===== *)
(** * IP addresses and prefixes (Go's [net/netip])

    The part of the standard library the policy conditions use: parsing of
    addresses and CIDR prefixes, unmapping of IPv4-in-IPv6 addresses, and the
    containment test. *)

From S2P Require Import Prelude Unicode GoStrings.

Open Scope Z_scope.

Module netip.

(** [netip.Addr]: the zero value, an IPv4 address, or an IPv6 address with its
    zone (empty for none). *)
Inductive Addr :=
| Zero
| V4 (bits : Z)
| V6 (bits : Z) (zone : string).

#[export] Instance Addr_eq_dec : EqDecision Addr.
Proof. solve_decision. Defined.

Record Prefix := PrefixFrom { ip : Addr; plen : Z }.

#[export] Instance Prefix_eq_dec : EqDecision Prefix.
Proof. solve_decision. Defined.

Definition IsValid (a : Addr) : bool := match a with Zero => false | _ => true end.
Definition BitLen (a : Addr) : Z := match a with Zero => 0 | V4 _ => 32 | V6 _ _ => 128 end.
Definition Zone (a : Addr) : string := match a with V6 _ z => z | _ => "" end.
Definition bits_of (a : Addr) : Z := match a with Zero => 0 | V4 b => b | V6 b _ => b end.

(** [Unmap] turns ::ffff:a.b.c.d into a.b.c.d. *)
Definition Unmap (a : Addr) : Addr :=
  match a with
  | V6 b _ => if Z.shiftr b 32 =? 65535 then V4 (Z.land b (Z.ones 32)) else a
  | _ => a
  end.

Definition Contains (p : Prefix) (a : Addr) : bool :=
  bool_decide (Zone a = "") && IsValid (ip p) && IsValid a &&
  (BitLen (ip p) =? BitLen a) &&
  (Z.shiftr (Z.lxor (bits_of a) (bits_of (ip p))) (BitLen a - plen p) =? 0).

(** One decimal octet: one to three digits, no leading zero, at most 255. *)
Definition octet (s : string) : option Z :=
  match s with
  | String "0" (String _ _) => None
  | _ => match strconv.parse_unsigned 10 s with
         | Some n => if n <=? 255 then Some n else None
         | None => None
         end
  end.

Definition parseIPv4 (s : string) : option Z :=
  match strings.Split s "." with
  | [a; b; c; d] =>
    a ← octet a; b ← octet b; c ← octet c; d ← octet d;
    Some (((a * 256 + b) * 256 + c) * 256 + d)
  | _ => None
  end.

Definition hex_val (c : ascii) : option Z :=
  match strconv.digit_val c with Some d => if d <? 16 then Some d else None | None => None end.

(** The leading hex digits of [s], their value and their number. *)
Fixpoint hex_run (s : string) (acc : Z) (n : nat) : Z * nat * string :=
  match s with
  | String c r => match hex_val c with Some d => hex_run r (acc * 16 + d) (S n) | None => (acc, n, s) end
  | EmptyString => (acc, n, s)
  end.

(** The 16-bit groups of an IPv6 text, most significant first, [room] of them
    still free; the boolean says an ellipsis was met, and the two lists are the
    groups before and after it.  [None] is a syntax error. *)
Fixpoint groups (room : nat) (ell : bool) (s : string) : option (list Z * option (list Z) * string) :=
  match room with
  | O => Some ([], None, s)
  | S room' =>
    let '(acc, n, rest) := hex_run s 0 0 in
    if (n =? 0)%nat || (4 <? n)%nat then None
    else match rest with
    | String "." _ =>
      (* a trailing IPv4 address fills the last two groups *)
      if (negb ell && negb (room =? 2)%nat) || (room <? 2)%nat then None
      else v ← parseIPv4 s; Some ([v / 65536; v mod 65536], None, EmptyString)
    | EmptyString => Some ([acc], None, EmptyString)
    | String ":" (String ":" r) =>
      if ell then None
      else match r with
           | EmptyString => Some ([acc], Some [], EmptyString)
           | _ => match groups room' true r with
                  | Some (l, None, r') => Some ([acc], Some l, r')
                  | _ => None
                  end
           end
    | String ":" (String c r) =>
      match groups room' ell (String c r) with
      | Some (l, e, r') => Some (acc :: l, e, r')
      | None => None
      end
    | _ => None
    end
  end.

Definition value_of (l : list Z) : Z := fold_left (fun acc g => acc * 65536 + g) l 0.

(** The groups with the ellipsis expanded to at least one zero group. *)
Definition expand (before after : list Z) : option Z :=
  let n := (length before + length after)%nat in
  if (n <? 8)%nat then Some (value_of (before ++ replicate (8 - n) 0 ++ after)) else None.

Definition parseIPv6 (text : string) : option Addr :=
  let '(s, zone, zoned) := strings.Cut text "%" in
  if zoned && bool_decide (zone = "") then None
  else
    v ← match strings.CutPrefix s "::" with
        | Some EmptyString => Some 0
        | Some r => match groups 8 true r with
                    | Some (l, None, EmptyString) => expand [] l
                    | _ => None
                    end
        | None => match groups 8 false s with
                  | Some (l, None, EmptyString) => if (length l =? 8)%nat then Some (value_of l) else None
                  | Some (b, Some a, EmptyString) => expand b a
                  | _ => None
                  end
        end;
    Some (V6 v zone).

(** [ParseAddr] decides the family by the first of ['.'], [':'] and ['%']. *)
Fixpoint family (s : string) : option ascii :=
  match s with
  | EmptyString => None
  | String c r =>
    if existsb (fun d => if ascii_dec c d then true else false) ["."; ":"; "%"]%char then Some c else family r
  end.

Definition ParseAddr (s : string) : option Addr :=
  match family s with
  | Some "."%char => V4 <$> parseIPv4 s
  | Some ":"%char => parseIPv6 s
  | _ => None
  end.

(** [strings.LastIndexByte(s, '/')] as a cut. *)
Definition cut_last (s : string) (c : ascii) : option (string * string) :=
  match strings.cut_at (strings.rev s) (String c "") with
  | Some (b, a) => Some (strings.rev a, strings.rev b)
  | None => None
  end.

Definition ParsePrefix (s : string) : option Prefix :=
  match cut_last s "/" with
  | None => None
  | Some (addr, bitsStr) =>
    a ← ParseAddr addr;
    if negb (bool_decide (Zone a = "")) then None
    else
      let canonical := match bitsStr with
        | String c (String _ _) => in_range (byte_of c) 49 57
        | _ => true
        end in
      if negb canonical then None
      else n ← strconv.ParseInt bitsStr 10 64;
           if (n <? 0) || (BitLen a <? n) then None else Some (PrefixFrom a n)
  end.

(** ** Laws *)

Lemma Unmap_Zero : Unmap Zero = Zero.
Proof. done. Qed.

Lemma Unmap_idemp a : Unmap (Unmap a) = Unmap a.
Proof.
  destruct a as [|b|b z]; [reflexivity..|]. unfold Unmap at 2 3.
  destruct (Z.shiftr b 32 =? 65535) eqn:H; [reflexivity|]. unfold Unmap. by rewrite H.
Qed.

(** A prefix contains the addresses of its family that share its leading
    bits. *)
Lemma Contains_spec p a :
  Zone a = "" -> IsValid a = true -> BitLen (ip p) = BitLen a -> 0 <= plen p <= BitLen a ->
  0 <= bits_of a -> 0 <= bits_of (ip p) ->
  Contains p a = true <->
  bits_of a / 2 ^ (BitLen a - plen p) = bits_of (ip p) / 2 ^ (BitLen a - plen p).
Proof.
  intros Hz Hv Hb Hp Ha Hi. unfold Contains.
  assert (IsValid (ip p) = true) as Hvi by (destruct (ip p), a; simpl in *; congruence || lia).
  rewrite bool_decide_true, Hvi, Hv, Hb, Z.eqb_refl by done. simpl.
  rewrite Z.eqb_eq, Z.shiftr_lxor, Z.lxor_eq_0_iff, !Z.shiftr_div_pow2 by lia. done.
Qed.

(** Prefixes are parsed with a length that fits the family and no zone. *)
Lemma ParsePrefix_plen s p : ParsePrefix s = Some p -> 0 <= plen p <= BitLen (ip p) /\ Zone (ip p) = "".
Proof.
  unfold ParsePrefix. destruct (cut_last s "/") as [[addr bs]|]; [|done]. simpl.
  destruct (ParseAddr addr) as [a|]; [|done]. simpl.
  destruct (bool_decide (Zone a = "")) eqn:Hz; [|done]. simpl.
  destruct (negb _); [done|].
  destruct (strconv.ParseInt bs 10 64) as [n|]; [|done]. simpl.
  destruct ((n <? 0) || (BitLen a <? n)) eqn:Hn; [done|]. intros [= <-]. bools. simpl. lia || (split; [lia|done]).
Qed.

Example parse_v4 : ParseAddr "192.0.2.1" = Some (V4 3221225985).
Proof. vm_refl. Qed.
Example parse_v6 : ParseAddr "2001:db8::1" = Some (V6 42540766411282592856903984951653826561 "").
Proof. vm_refl. Qed.
Example parse_mapped : Unmap <$> ParseAddr "::ffff:192.0.2.1" = Some (V4 3221225985).
Proof. vm_refl. Qed.
Example parse_bad : map ParseAddr ["192.0.2"; "1.2.3.04"; "1.2.3.256"; "::1::"; "1:2:3:4:5:6:7"; "1:2:3:4:5:6:7::8"; "%eth0"; "fe80::1%"; ":1::2"] = replicate 9 None.
Proof. vm_refl. Qed.
Example parse_full : ParseAddr "1:2:3:4:5:6:7:8" = Some (V6 5192455318486707404433266433261576 "").
Proof. vm_refl. Qed.
Example prefix_ok : (fun p => Contains p (V4 3221225985)) <$> ParsePrefix "192.0.2.0/24" = Some true.
Proof. vm_refl. Qed.
Example prefix_bad : map ParsePrefix ["192.0.2.0/33"; "192.0.2.0/+8"; "192.0.2.0/08"; "192.0.2.0"; "fe80::1%eth0/64"] = replicate 5 None.
Proof. vm_refl. Qed.

End netip.
