(* ===== verification/Policy.v ===== *)
(** * Bucket and user policies (src/policy/policy.go, src/policy/condition.go)

    The data model, the compiled form kept inside it, evaluation ([Decide],
    the Deny/Allow evaluators, the cross-tenant visibility gate) and
    validation.  A pointer that may be nil is an [option]; the lazily compiled
    fields and the [sync.Once] flag are fields of the records, and
    [compile_once] is the once-guarded compilation every evaluation starts
    with. *)

From S2P Require Import Prelude Unicode GoStrings Glob NetIP.

Open Scope Z_scope.

Module policy.

Inductive Effect := NoEffect | Allow | Deny.

#[export] Instance Effect_eq_dec : EqDecision Effect.
Proof. solve_decision. Defined.

Definition MaxPolicyBytes : Z := 20 * 1024.
Definition MaxPrincipalUsers : nat := 100.
Definition MaxStatements : nat := 20.
Definition MaxActionsPerStatement : nat := 30.
Definition MaxResourcesPerStatement : nat := 10.
Definition MaxPatternLen : nat := 128.
Definition MaxConditionValues : nat := 50.

(** ** Data *)

Record RequestContext := { SourceIP : netip.Addr }.

Record Condition := {
  IPAddress : list string;
  NotIPAddress : list string;
  ipAddress : list netip.Prefix;
  notIPAddress : list netip.Prefix;
  compiled : bool;
  invalid : bool }.

Record Principal := { All : bool; Users : list string }.

Record Statement := {
  Sid : string;
  SEffect : string;
  SPrincipal : option Principal;
  NotPrincipal : option Principal;
  SAction : list string;
  SResource : list string;
  SCondition : option Condition;
  actionRunes : list (list Z);
  resourceRunes : list (list Z) }.

Record Policy := {
  Version : string;
  PStatement : list Statement;
  compileOnce : bool }.

Record Decision := { DEffect : Effect; DStatement : Z }.

(** ** Errors, one constructor per message *)

Inductive cond_error := InvalidSourceIP (v : string).

Inductive stmt_error :=
| BadEffect
| PrincipalXorNotPrincipal
| NotPrincipalStar
| NotPrincipalAllow
| TooManyPrincipals (n : nat)
| InvalidPrincipal (u : string)
| NoAction
| TooManyActions (n : nat)
| ActionPrefix (a : string)
| ActionTooLong (n : nat)
| NoResource
| TooManyResources (n : nat)
| ResourceTooLong (n : nat)
| ConditionEmpty
| TooManyConditionValues (op : string) (n : nat)
| ConditionValue (e : cond_error).

Inductive perror {CE : Type} :=
| BadVersion (v : string)
| NoStatements
| TooManyStatements (n : nat)
| DuplicateSid (sid : string) (j i : nat)
| InStatement (name : string) (e : stmt_error)
| ForeignResource (name res bucket : string)
| UnknownActions (errs : list (message * CE)).
Arguments perror : clear implicits.

(** ** Conditions *)

Definition opIPAddress : string := "IpAddress".
Definition opNotIPAddress : string := "NotIpAddress".

Definition parseIPValue (v : string) : result cond_error netip.Prefix :=
  if strings.Contains v "/" then
    match netip.ParsePrefix v with
    | Some p => Ok p
    | None => Err (InvalidSourceIP v)
    end
  else
    match netip.ParseAddr v with
    | None => Err (InvalidSourceIP v)
    | Some a =>
      if negb (bool_decide (netip.Zone a = "")) then Err (InvalidSourceIP v)
      else let a := netip.Unmap a in Ok (netip.PrefixFrom a (netip.BitLen a))
    end.

Fixpoint parsePrefixes (values : list string) : result cond_error (list netip.Prefix) :=
  match values with
  | [] => Ok []
  | v :: vs =>
    match parseIPValue v with
    | Ok p => match parsePrefixes vs with Ok ps => Ok (p :: ps) | Err e => Err e end
    | Err e => Err e
    end
  end.

(** [Condition.compile]: the condition after the call, and the error. *)
Definition Condition_compile (c : Condition) : Condition * option cond_error :=
  match parsePrefixes (IPAddress c) with
  | Err e =>
    ({| IPAddress := IPAddress c; NotIPAddress := NotIPAddress c; ipAddress := [];
        notIPAddress := notIPAddress c; compiled := true; invalid := true |}, Some e)
  | Ok ips =>
    match parsePrefixes (NotIPAddress c) with
    | Err e =>
      ({| IPAddress := IPAddress c; NotIPAddress := NotIPAddress c; ipAddress := ips;
          notIPAddress := []; compiled := true; invalid := true |}, Some e)
    | Ok nips =>
      ({| IPAddress := IPAddress c; NotIPAddress := NotIPAddress c; ipAddress := ips;
          notIPAddress := nips; compiled := true; invalid := invalid c |}, None)
    end
  end.

Definition prefixesContain (prefixes : list netip.Prefix) (a : netip.Addr) : bool :=
  existsb (fun p => netip.Contains p a) prefixes.

Definition Condition_match (c : Condition) (rc : RequestContext) : bool :=
  if negb (bool_decide (ipAddress c = [])) &&
     negb (netip.IsValid (SourceIP rc) && prefixesContain (ipAddress c) (SourceIP rc))
  then false
  else if negb (bool_decide (notIPAddress c = [])) &&
          netip.IsValid (SourceIP rc) && prefixesContain (notIPAddress c) (SourceIP rc)
  then false
  else true.

(** ** Compilation *)

Definition Statement_compile (st : Statement) : Statement :=
  {| Sid := Sid st; SEffect := SEffect st; SPrincipal := SPrincipal st; NotPrincipal := NotPrincipal st;
     SAction := SAction st; SResource := SResource st;
     SCondition :=
       match SCondition st with
       | Some c => Some (if compiled c then c else (Condition_compile c).1)
       | None => None
       end;
     actionRunes := Glob.lowerPatternRunes (SAction st);
     resourceRunes := Glob.patternRunes (SResource st) |}.

(** [Policy.compile]. *)
Definition compile (p : Policy) : list Statement := map Statement_compile (PStatement p).

(** [p.compileOnce.Do(p.compile)]. *)
Definition compile_once (p : Policy) : Policy :=
  if compileOnce p then p
  else {| Version := Version p; PStatement := compile p; compileOnce := true |}.

(** ** Matching one statement *)

(** [e[:len(e)-1]]. *)
Definition drop_last (e : string) : string := strings.take (strings.length e - 1) e.

Definition matchAnyPrincipal (entries : list string) (principal : string) : bool :=
  existsb (fun e => bool_decide (e = principal) ||
                    (strings.HasSuffix e "/*" && strings.HasPrefix principal (drop_last e))) entries.

(** A statement with neither element makes the Go code dereference nil;
    validation refuses it ([validate_wf]), and the model answers [false]. *)
Definition matchPrincipal (st : Statement) (principal : string) : bool :=
  match SPrincipal st with
  | Some p => All p || matchAnyPrincipal (Users p) principal
  | None => match NotPrincipal st with
            | Some np => negb (matchAnyPrincipal (Users np) principal)
            | None => false
            end
  end.

Definition matchCondition (st : Statement) (rc : RequestContext) : bool :=
  match SCondition st with
  | None => true
  | Some c => if invalid c then bool_decide (SEffect st = "Deny") else Condition_match c rc
  end.

Definition unmap_rc (rc : RequestContext) : RequestContext :=
  {| SourceIP := netip.Unmap (SourceIP rc) |}.

(** ** Evaluation of a bucket policy *)

(** The loop of [Decide] from index [i] with the result so far. *)
Fixpoint decide_loop (principal : string) (action resource : list Z) (rc : RequestContext)
    (i : nat) (sts : list Statement) (res : Decision) : Decision :=
  match sts with
  | [] => res
  | st :: sts =>
    let continue := decide_loop principal action resource rc (S i) sts in
    if negb (matchPrincipal st principal) then continue res
    else if negb (matchCondition st rc) then continue res
    else if negb (Glob.matchAnyRunes (actionRunes st) action) then continue res
    else if negb (Glob.matchAnyRunes (resourceRunes st) resource) then continue res
    else if bool_decide (SEffect st = "Deny") then {| DEffect := Deny; DStatement := Z.of_nat i |}
    else if bool_decide (DEffect res = NoEffect)
    then continue {| DEffect := Allow; DStatement := Z.of_nat i |}
    else continue res
  end.

Definition Decide (p : Policy) (principal action resource : string) (rc : RequestContext) : Decision :=
  decide_loop principal (runes (strings.ToLower action)) (runes resource) (unmap_rc rc)
    0 (PStatement (compile_once p)) {| DEffect := NoEffect; DStatement := -1 |}.

Definition Evaluate (p : Policy) (principal action resource : string) (rc : RequestContext) : Effect :=
  DEffect (Decide p principal action resource rc).

(** ** Evaluators with principal and action matched in advance *)

Record DenyEvaluator := { denyResources : list (list Z); denyStatements : list nat }.

Definition deny_matched (principal : string) (action : list Z) (rc : RequestContext) (st : Statement) : bool :=
  bool_decide (SEffect st = "Deny") && matchPrincipal st principal && matchCondition st rc &&
  Glob.matchAnyRunes (actionRunes st) action.

(** The two passes over the statements: the total of the patterns, then the
    patterns themselves with their statement's index. *)
Fixpoint deny_count (matched : Statement -> bool) (sts : list Statement) : nat :=
  match sts with
  | [] => 0
  | st :: sts => ((if matched st then length (resourceRunes st) else 0) + deny_count matched sts)%nat
  end.

Fixpoint deny_fill (matched : Statement -> bool) (i : nat) (sts : list Statement) : list (list Z) * list nat :=
  match sts with
  | [] => ([], [])
  | st :: sts =>
    let '(rs, idx) := deny_fill matched (S i) sts in
    if matched st then (resourceRunes st ++ rs, replicate (length (resourceRunes st)) i ++ idx) else (rs, idx)
  end.

Definition DenyEvaluatorFor (p : Policy) (principal action : string) (rc : RequestContext) : DenyEvaluator :=
  let sts := PStatement (compile_once p) in
  let matched := deny_matched principal (runes (strings.ToLower action)) (unmap_rc rc) in
  if (deny_count matched sts =? 0)%nat then {| denyResources := []; denyStatements := [] |}
  else let '(rs, idx) := deny_fill matched 0 sts in {| denyResources := rs; denyStatements := idx |}.

Definition AlwaysAllows (e : DenyEvaluator) : bool := (length (denyResources e) =? 0)%nat.

Definition DeniesRunes (e : DenyEvaluator) (resource : list Z) : bool :=
  if (length (denyResources e) =? 0)%nat then false else Glob.matchAnyRunes (denyResources e) resource.

Definition Denies (e : DenyEvaluator) (resource : string) : bool := DeniesRunes e (runes resource).

Definition DenyingStatement (e : DenyEvaluator) (resource : list Z) : Z :=
  match Glob.matchIndexRunes (denyResources e) resource with
  | Some i => index_or_neg (denyStatements e !! i)
  | None => -1
  end.

Record AllowEvaluator := { allowResources : list (list Z) }.

Fixpoint allow_fill (principal : string) (action : list Z) (rc : RequestContext) (sts : list Statement) : list (list Z) :=
  match sts with
  | [] => []
  | st :: sts =>
    let rest := allow_fill principal action rc sts in
    if negb (bool_decide (SEffect st = "Allow")) then rest
    else if negb (matchPrincipal st principal) then rest
    else if negb (matchCondition st rc) then rest
    else if negb (Glob.matchAnyRunes (actionRunes st) action) then rest
    else resourceRunes st ++ rest
  end.

Definition AllowEvaluatorFor (p : Policy) (principal action : string) (rc : RequestContext) : AllowEvaluator :=
  {| allowResources := allow_fill principal (runes (strings.ToLower action)) (unmap_rc rc) (PStatement (compile_once p)) |}.

Definition AlwaysDenies (e : AllowEvaluator) : bool := (length (allowResources e) =? 0)%nat.

Definition AllowsRunes (e : AllowEvaluator) (resource : list Z) : bool :=
  if (length (allowResources e) =? 0)%nat then false else Glob.matchAnyRunes (allowResources e) resource.

Definition AllowsResource (e : AllowEvaluator) (resource : string) : bool := AllowsRunes e (runes resource).

Definition MentionsPrincipal (p : Policy) (principal : string) : bool :=
  existsb (fun st =>
    bool_decide (SEffect st = "Allow") &&
    match SPrincipal st with
    | Some pr => All pr || matchAnyPrincipal (Users pr) principal
    | None => false
    end) (PStatement p).

(** ** User policies *)

Record ActionStatement := {
  AEffect : string;
  AAction : list string;
  aActionRunes : list (list Z) }.

Record UserPolicy := { Statements : list ActionStatement; uCompileOnce : bool }.

Definition UserPolicy_compile (up : UserPolicy) : list ActionStatement :=
  map (fun st => {| AEffect := AEffect st; AAction := AAction st;
                    aActionRunes := Glob.lowerPatternRunes (AAction st) |}) (Statements up).

Definition user_compile_once (up : UserPolicy) : UserPolicy :=
  if uCompileOnce up then up else {| Statements := UserPolicy_compile up; uCompileOnce := true |}.

Fixpoint user_decide_loop (action : list Z) (i : nat) (sts : list ActionStatement) (res : Decision) : Decision :=
  match sts with
  | [] => res
  | st :: sts =>
    let continue := user_decide_loop action (S i) sts in
    if negb (Glob.matchAnyRunes (aActionRunes st) action) then continue res
    else if bool_decide (AEffect st = "Deny") then {| DEffect := Deny; DStatement := Z.of_nat i |}
    else if bool_decide (AEffect st = "Allow") then
      if negb (bool_decide (DEffect res = Allow))
      then continue {| DEffect := Allow; DStatement := Z.of_nat i |}
      else continue res
    else continue res
  end.

(** [UserPolicy.Decide] on a pointer that may be nil. *)
Definition UserDecide (up : option UserPolicy) (action : string) : Decision :=
  match up with
  | None => {| DEffect := Allow; DStatement := -1 |}
  | Some up =>
    if (length (Statements up) =? 0)%nat then {| DEffect := Allow; DStatement := -1 |}
    else user_decide_loop (runes (strings.ToLower action)) 0 (Statements (user_compile_once up))
           {| DEffect := Deny; DStatement := -1 |}
  end.

Definition Allows (up : option UserPolicy) (action : string) : bool :=
  bool_decide (DEffect (UserDecide up action) = Allow).

(** ** Validation *)

Definition user_char (c : ascii) : bool :=
  let b := byte_of c in
  in_range b 97 122 || in_range b 48 57 || (b =? 95) || (b =? 45).

Fixpoint all_chars (f : ascii -> bool) (s : string) : bool :=
  match s with EmptyString => true | String c s => f c && all_chars f s end.

(** [[a-z0-9][a-z0-9_-]+]. *)
Definition name_pattern (s : string) : bool :=
  match s with
  | String c (String d r) =>
    (in_range (byte_of c) 97 122 || in_range (byte_of c) 48 57) && all_chars user_char (String d r)
  | _ => false
  end.

(** [principalRegexp]: the name charset has no slash, so the first slash is
    the one of the pattern. *)
Definition principalRegexp (s : string) : bool :=
  match strings.Cut s "/" with
  | (tenant, user, true) => name_pattern tenant && (bool_decide (user = "*") || name_pattern user)
  | _ => false
  end.

Definition index_name (i : nat) : string := "statement[" +:+ strconv.FormatInt (Z.of_nat i) +:+ "]".

Definition statementName (sid : string) (i : nat) : string :=
  if bool_decide (sid = "") then index_name i else sid.

Definition validatePrincipal (pr : option Principal) : result stmt_error unit :=
  match pr with
  | None => Ok tt
  | Some pr =>
    if (MaxPrincipalUsers <? length (Users pr))%nat then Err (TooManyPrincipals (length (Users pr)))
    else each (fun u => guard (principalRegexp u) (InvalidPrincipal u)) (Users pr)
  end.

Definition validateAction (a : string) : result stmt_error unit :=
  if negb (strings.HasPrefix (strings.ToLower a) "s3:") then Err (ActionPrefix a)
  else if (MaxPatternLen <? strings.length a)%nat then Err (ActionTooLong (strings.length a))
  else Ok tt.

(** [validateCondition]: it compiles the condition in place, so the condition
    after the call is part of the result. *)
Definition validateCondition (c : Condition) : result stmt_error Condition :=
  if (length (IPAddress c) =? 0)%nat && (length (NotIPAddress c) =? 0)%nat then Err ConditionEmpty
  else if (MaxConditionValues <? length (IPAddress c))%nat
  then Err (TooManyConditionValues opIPAddress (length (IPAddress c)))
  else if (MaxConditionValues <? length (NotIPAddress c))%nat
  then Err (TooManyConditionValues opNotIPAddress (length (NotIPAddress c)))
  else match Condition_compile c with
       | (c', None) => Ok c'
       | (_, Some e) => Err (ConditionValue e)
       end.

Definition with_condition (st : Statement) (c : option Condition) : Statement :=
  {| Sid := Sid st; SEffect := SEffect st; SPrincipal := SPrincipal st; NotPrincipal := NotPrincipal st;
     SAction := SAction st; SResource := SResource st; SCondition := c;
     actionRunes := actionRunes st; resourceRunes := resourceRunes st |}.

(** [Statement.validate]; the statement is returned with its condition
    compiled. *)
Definition Statement_validate (st : Statement) : result stmt_error Statement :=
  if negb (bool_decide (SEffect st = "Allow")) && negb (bool_decide (SEffect st = "Deny")) then Err BadEffect
  else if bool_decide (is_Some (SPrincipal st) <-> is_Some (NotPrincipal st)) then Err PrincipalXorNotPrincipal
  else if match NotPrincipal st with Some np => All np | None => false end then Err NotPrincipalStar
  else if bool_decide (is_Some (NotPrincipal st)) && negb (bool_decide (SEffect st = "Deny")) then Err NotPrincipalAllow
  else
    _ ← each validatePrincipal [SPrincipal st; NotPrincipal st];
    if (length (SAction st) =? 0)%nat then Err NoAction
    else if (MaxActionsPerStatement <? length (SAction st))%nat then Err (TooManyActions (length (SAction st)))
    else
      _ ← each validateAction (SAction st);
      if (length (SResource st) =? 0)%nat then Err NoResource
      else if (MaxResourcesPerStatement <? length (SResource st))%nat then Err (TooManyResources (length (SResource st)))
      else
        _ ← each (fun res => guard (negb (MaxPatternLen <? strings.length res)%nat)
                                   (ResourceTooLong (strings.length res))) (SResource st);
        match SCondition st with
        | Some c => c' ← validateCondition c; Ok (with_condition st (Some c'))
        | None => Ok st
        end.

Section Checked.
Context {CE : Type}.

(** The loop of [Policy.validate], with the Sids met so far and their
    statement's index. *)
Fixpoint validate_loop (sids : gmap string nat) (i : nat) (sts : list Statement) : result (perror CE) (list Statement) :=
  match sts with
  | [] => Ok []
  | st :: sts =>
    let dup := if bool_decide (Sid st = "") then None else sids !! Sid st in
    match dup with
    | Some j => Err (DuplicateSid (Sid st) j i)
    | None =>
      let sids := if bool_decide (Sid st = "") then sids else <[Sid st := i]> sids in
      match Statement_validate st with
      | Err e => Err (InStatement (statementName (Sid st) i) e)
      | Ok st' => match validate_loop sids (S i) sts with Ok l => Ok (st' :: l) | Err e => Err e end
      end
    end
  end.

Definition validate (p : Policy) : result (perror CE) Policy :=
  if negb (bool_decide (Version p = "")) && negb (bool_decide (Version p = "2012-10-17")) &&
     negb (bool_decide (Version p = "2008-10-17")) then Err (BadVersion (Version p))
  else if (length (PStatement p) =? 0)%nat then Err NoStatements
  else if (MaxStatements <? length (PStatement p))%nat then Err (TooManyStatements (length (PStatement p)))
  else match validate_loop ∅ 0 (PStatement p) with
       | Ok sts => Ok {| Version := Version p; PStatement := sts; compileOnce := compileOnce p |}
       | Err e => Err e
       end.

Definition ValidateResourcesFor (p : Policy) (bucket : string) : result (perror CE) unit :=
  each_i (fun i st =>
    each (fun res => guard (bool_decide (res = bucket) || strings.HasPrefix res (bucket +:+ "/"))
                           (ForeignResource (statementName (Sid st) i) res bucket)) (SResource st))
    0 (PStatement p).

(** [checkActions]: every error, each with the name of its statement; a nil
    checker checks nothing. *)
Definition check_name (i : nat) (sid : string) : message :=
  [FS "statement["; FD (Z.of_nat i); FS "]"] ++ (if bool_decide (sid = "") then [] else [FS " "; FQ sid]).

Definition checkActions (check : option (string -> option CE)) (sts : list (list string * string))
    : result (perror CE) unit :=
  match check with
  | None => Ok tt
  | Some check =>
    let errs := concat (imap (fun i '(actions, sid) =>
      omap (fun a => (fun e => (check_name i sid, e)) <$> check a) actions) sts) in
    if (length errs =? 0)%nat then Ok tt else Err (UnknownActions errs)
  end.

Definition ValidateUserPolicy (up : option UserPolicy) (check : option (string -> option CE)) : result (perror CE) unit :=
  match up with
  | None => Ok tt
  | Some up =>
    if (MaxStatements <? length (Statements up))%nat then Err (TooManyStatements (length (Statements up)))
    else
      _ ← each_i (fun i st =>
            let fail e := Err (InStatement (index_name i) e) in
            if negb (bool_decide (AEffect st = "Allow")) && negb (bool_decide (AEffect st = "Deny")) then fail BadEffect
            else if (length (AAction st) =? 0)%nat then fail NoAction
            else if (MaxActionsPerStatement <? length (AAction st))%nat then fail (TooManyActions (length (AAction st)))
            else match each validateAction (AAction st) with Ok _ => Ok tt | Err e => fail e end)
          0 (Statements up);
      checkActions check (map (fun st => (AAction st, "")) (Statements up))
  end.

End Checked.

Definition StatementName (d : Decision) (p : option Policy) : message :=
  match p with
  | None => []
  | Some p =>
    if (DStatement d <? 0) || (Z.of_nat (length (PStatement p)) <=? DStatement d) then []
    else match PStatement p !! Z.to_nat (DStatement d) with
         | Some st => check_name (Z.to_nat (DStatement d)) (Sid st)
         | None => []
         end
  end.

End policy.
