(* ===== verification/PolicyFacts.v ===== *)
(** * Correctness of policy evaluation and validation

    The loops of [Policy.v] against their specification: deny overrides
    allow, the pre-matched evaluators agree with [Decide] on every resource,
    the visibility gate never hides a grant, conditions fail closed, and
    validation establishes exactly the documented well-formedness. *)

From S2P Require Import Prelude Unicode GoStrings Glob NetIP Policy.
Import policy.

Open Scope Z_scope.

(** ** What one statement says about a request *)

Definition applies (principal : string) (action resource : list Z) (rc : RequestContext) (st : Statement) : bool :=
  matchPrincipal st principal && matchCondition st rc &&
  Glob.matchAnyRunes (actionRunes st) action && Glob.matchAnyRunes (resourceRunes st) resource.

Definition is_deny (st : Statement) : bool := bool_decide (SEffect st = "Deny").

Definition denies (principal : string) (action resource : list Z) (rc : RequestContext) (st : Statement) : bool :=
  applies principal action resource rc st && is_deny st.

(** The specification of [Decide]: the first applicable Deny decides, else
    the first applicable statement, else nothing. *)
Definition decide_spec (principal : string) (action resource : list Z) (rc : RequestContext)
    (sts : list Statement) : Decision :=
  match find_index (denies principal action resource rc) sts with
  | Some k => {| DEffect := Deny; DStatement := Z.of_nat k |}
  | None =>
    match find_index (applies principal action resource rc) sts with
    | Some k => {| DEffect := Allow; DStatement := Z.of_nat k |}
    | None => {| DEffect := NoEffect; DStatement := -1 |}
    end
  end.

(** The statements and request a call of [Decide] really runs on. *)
Definition request_runes (action : string) : list Z := runes (strings.ToLower action).

Lemma decide_loop_spec pr a r rc i sts res :
  decide_loop pr a r rc i sts res =
  match find_index (denies pr a r rc) sts with
  | Some k => {| DEffect := Deny; DStatement := Z.of_nat (i + k) |}
  | None =>
    if bool_decide (DEffect res = NoEffect) then
      match find_index (applies pr a r rc) sts with
      | Some k => {| DEffect := Allow; DStatement := Z.of_nat (i + k) |}
      | None => res
      end
    else res
  end.
Proof.
  revert i res; induction sts as [|st sts IH]; intros i res; simpl; [by case_bool_decide|].
  unfold denies, applies, is_deny in *. rewrite !IH. clear IH.
  destruct (matchPrincipal st pr), (matchCondition st rc), (Glob.matchAnyRunes (actionRunes st) a),
    (Glob.matchAnyRunes (resourceRunes st) r), (bool_decide (SEffect st = "Deny")); simpl;
    try rewrite Nat.add_0_r; try done;
    destruct (find_index _ sts) as [k|]; simpl; rewrite ?Nat.add_succ_r, ?Nat.add_succ_l; try done;
    case_bool_decide; try done; destruct (find_index _ sts) as [k|]; simpl;
    rewrite ?Nat.add_succ_r, ?Nat.add_succ_l; done.
Qed.

Lemma Decide_spec p pr action resource rc :
  Decide p pr action resource rc =
  decide_spec pr (request_runes action) (runes resource) (unmap_rc rc) (PStatement (compile_once p)).
Proof. unfold Decide, decide_spec, request_runes. by rewrite decide_loop_spec. Qed.

Lemma Decide_Deny p pr action resource rc :
  DEffect (Decide p pr action resource rc) = Deny <->
  existsb (denies pr (request_runes action) (runes resource) (unmap_rc rc)) (PStatement (compile_once p)) = true.
Proof.
  rewrite Decide_spec, <- find_index_is_Some. unfold decide_spec.
  destruct (find_index (denies _ _ _ _) _) as [k|]; [split; [eauto|done]|].
  destruct (find_index (applies _ _ _ _) _) as [k|]; simpl; split; try done; by intros [].
Qed.

(** ** The Deny evaluator *)

Lemma deny_count_fill matched i sts :
  deny_count matched sts = length (deny_fill matched i sts).1 /\
  length (deny_fill matched i sts).2 = length (deny_fill matched i sts).1.
Proof.
  revert i; induction sts as [|st sts IH]; intros i; simpl; [done|].
  specialize (IH (S i)). destruct (deny_fill matched (S i) sts) as [rs idx]; simpl in *. destruct IH as [IH1 IH2].
  destruct (matched st); simpl; [|done]. rewrite !length_app, length_replicate. lia.
Qed.

Lemma deny_fill_index matched r i sts :
  (match Glob.matchIndexRunes (deny_fill matched i sts).1 r with
   | Some k => (deny_fill matched i sts).2 !! k
   | None => None
   end) = (fun k => (i + k)%nat) <$> find_index (fun st => matched st && Glob.matchAnyRunes (resourceRunes st) r) sts.
Proof.
  revert i; induction sts as [|st sts IH]; intros i; simpl; [done|].
  specialize (IH (S i)). destruct (deny_fill matched (S i) sts) as [rs idx]; simpl in *.
  assert (forall o : option nat, (fun k => (i + k)%nat) <$> (S <$> o) = (fun k => S (i + k)) <$> o) as Hshift.
  { intros [k|]; simpl; [|done]. f_equal. lia. }
  destruct (matched st); simpl; [|by rewrite Hshift].
  unfold Glob.matchAnyRunes, Glob.matchIndexRunes in *. rewrite find_index_app.
  destruct (find_index _ (resourceRunes st)) as [k|] eqn:Hk; simpl.
  - apply find_index_Some in Hk as [[x [Hx _]] _].
    apply lookup_lt_Some in Hx. rewrite lookup_app_l by (rewrite length_replicate; lia).
    rewrite lookup_replicate_2 by done. f_equal. lia.
  - rewrite Hshift, <- IH. destruct (find_index _ rs) as [j|]; simpl; [|done].
    rewrite lookup_app_r by (rewrite length_replicate; lia). rewrite length_replicate. f_equal. lia.
Qed.

Lemma deny_fill_any matched r i sts :
  Glob.matchAnyRunes (deny_fill matched i sts).1 r =
  existsb (fun st => matched st && Glob.matchAnyRunes (resourceRunes st) r) sts.
Proof.
  revert i; induction sts as [|st sts IH]; intros i; simpl; [done|].
  specialize (IH (S i)). destruct (deny_fill matched (S i) sts) as [rs idx]; simpl in *.
  destruct (matched st); simpl; [|done]. by rewrite Glob.matchAnyRunes_app, IH.
Qed.

(** What [DenyEvaluatorFor] builds, whether or not anything matched. *)
Lemma DenyEvaluatorFor_fill p pr action rc :
  let e := DenyEvaluatorFor p pr action rc in
  let fill := deny_fill (deny_matched pr (request_runes action) (unmap_rc rc)) 0 (PStatement (compile_once p)) in
  denyResources e = fill.1 /\ denyStatements e = fill.2.
Proof.
  unfold DenyEvaluatorFor, request_runes.
  set (m := deny_matched _ _ _). set (sts := PStatement _).
  destruct (deny_count_fill m 0 sts) as [H1 H2]. rewrite H1.
  destruct (deny_fill m 0 sts) as [rs idx]; simpl in *.
  destruct (length rs =? 0)%nat eqn:H; simpl; [|done]. bools.
  apply nil_length_inv in H as ->. simpl in *. by apply nil_length_inv in H2 as ->.
Qed.

Lemma DeniesRunes_any e r : DeniesRunes e r = Glob.matchAnyRunes (denyResources e) r.
Proof. unfold DeniesRunes. destruct (denyResources e); [done|]. done. Qed.

Lemma AllowsRunes_any e r : AllowsRunes e r = Glob.matchAnyRunes (allowResources e) r.
Proof. unfold AllowsRunes. destruct (allowResources e); [done|]. done. Qed.

Lemma deny_matched_denies pr a r rc st :
  deny_matched pr a rc st && Glob.matchAnyRunes (resourceRunes st) r = denies pr a r rc st.
Proof. unfold deny_matched, denies, applies, is_deny. by destruct (bool_decide _), (matchPrincipal st pr), (matchCondition st rc), (Glob.matchAnyRunes (actionRunes st) a), (Glob.matchAnyRunes (resourceRunes st) r). Qed.

Lemma Denies_Decide p pr action resource rc :
  Denies (DenyEvaluatorFor p pr action rc) resource = true <->
  DEffect (Decide p pr action resource rc) = Deny.
Proof.
  unfold Denies. rewrite DeniesRunes_any, Decide_Deny.
  destruct (DenyEvaluatorFor_fill p pr action rc) as [-> _]. rewrite deny_fill_any.
  rewrite !existsb_elem. by setoid_rewrite deny_matched_denies.
Qed.

Lemma DenyingStatement_Decide p pr action resource rc :
  DenyingStatement (DenyEvaluatorFor p pr action rc) (runes resource) =
  match DEffect (Decide p pr action resource rc) with
  | Deny => DStatement (Decide p pr action resource rc)
  | _ => -1
  end.
Proof.
  rewrite Decide_spec. unfold DenyingStatement, decide_spec.
  destruct (DenyEvaluatorFor_fill p pr action rc) as [-> ->].
  set (sts := PStatement _). set (m := deny_matched _ _ _).
  pose proof (deny_fill_index m (runes resource) 0 sts) as H.
  rewrite (find_index_ext _ (denies pr (request_runes action) (runes resource) (unmap_rc rc))) in H
    by (intros; apply deny_matched_denies).
  destruct (Glob.matchIndexRunes _ _) as [k|]; [rewrite H|];
    destruct (find_index (denies _ _ _ _) sts) as [j|]; simpl in *; try done;
    by destruct (find_index (applies _ _ _ _) sts).
Qed.

(** ** The Allow evaluator *)

Definition effects_ok (sts : list Statement) : Prop :=
  Forall (fun st => SEffect st = "Allow" \/ SEffect st = "Deny") sts.

Lemma allow_fill_any pr a rc r sts :
  Glob.matchAnyRunes (allow_fill pr a rc sts) r =
  existsb (fun st => bool_decide (SEffect st = "Allow") && applies pr a r rc st) sts.
Proof.
  induction sts as [|st sts IH]; simpl; [done|]. unfold applies.
  destruct (bool_decide _), (matchPrincipal st pr), (matchCondition st rc), (Glob.matchAnyRunes (actionRunes st) a);
    simpl; try done. by rewrite Glob.matchAnyRunes_app, IH.
Qed.

Lemma compile_once_effects p : effects_ok (PStatement p) -> effects_ok (PStatement (compile_once p)).
Proof.
  unfold compile_once, compile, effects_ok. destruct (compileOnce p); [done|]. simpl. rewrite Forall_map. done.
Qed.

Lemma Allows_Decide p pr action resource rc :
  effects_ok (PStatement p) ->
  DEffect (Decide p pr action resource rc) = Allow <->
  Denies (DenyEvaluatorFor p pr action rc) resource = false /\
  AllowsResource (AllowEvaluatorFor p pr action rc) resource = true.
Proof.
  intros He%compile_once_effects. rewrite <- not_true_iff_false, Denies_Decide, Decide_Deny.
  unfold AllowsResource. rewrite AllowsRunes_any. unfold AllowEvaluatorFor. simpl.
  rewrite allow_fill_any. change (runes (strings.ToLower action)) with (request_runes action).
  rewrite Decide_spec. unfold decide_spec. rewrite <- find_index_is_Some.
  set (sts := PStatement _) in *. set (d := denies _ _ _ _). set (ap := applies _ _ _ _).
  destruct (find_index d sts) as [k|] eqn:Hd; simpl.
  { split; [done|]. intros [H _]. exfalso. apply H. eauto. }
  assert (existsb (fun st => bool_decide (SEffect st = "Allow") && ap st) sts = existsb ap sts) as ->.
  { apply eq_true_iff_eq. rewrite !existsb_elem. apply exist_proper; intros st.
    split; [by intros [? [? ?]%andb_true_iff]|]. intros [Hin Hap]. split; [done|].
    rewrite Hap, andb_true_r. apply bool_decide_eq_true.
    unfold effects_ok in He. rewrite Forall_forall in He. apply list_elem_of_In in Hin as Hin'.
    destruct (He st Hin) as [|Hdeny]; [done|]. exfalso. eapply find_index_None in Hd; [|exact Hin].
    unfold d, denies, is_deny in Hd. fold ap in Hd. rewrite Hap, Hdeny in Hd. done. }
  rewrite <- find_index_is_Some. destruct (find_index ap sts) as [j|]; simpl.
  - split; [|done]. intros _. split; [by intros []|eauto].
  - split; [done|]. intros [_ []]. done.
Qed.

(** ** Principals *)

Lemma all_chars_append f s t : all_chars f (s +:+ t) = all_chars f s && all_chars f t.
Proof. induction s as [|c s IH]; [done|]. rewrite append_cons. simpl. rewrite IH. apply andb_assoc. Qed.

Lemma all_chars_no_char f c s : f c = false -> all_chars f s = true -> no_char c s = true.
Proof.
  intros Hc. induction s as [|d s IH]; simpl; [done|]. intros [Hd Hs]%andb_true_iff.
  destruct (ascii_dec d c) as [->|]; [congruence|]. auto.
Qed.

Lemma name_pattern_chars s : name_pattern s = true -> all_chars user_char s = true /\ s <> "".
Proof.
  destruct s as [|c [|d r]]; [done..|]. unfold name_pattern. intros [Hc Hr]%andb_true_iff. split; [|done].
  change (user_char c && all_chars user_char (String d r) = true). rewrite Hr, andb_true_r.
  unfold user_char. destruct (in_range _ 97 122), (in_range _ 48 57); done.
Qed.

Lemma name_pattern_no_char c s : user_char c = false -> name_pattern s = true -> no_char c s = true.
Proof. intros Hc [H _]%name_pattern_chars. by eapply all_chars_no_char. Qed.

Lemma take_append s t : strings.take (strings.length s) (s +:+ t) = s.
Proof. induction s as [|c s IH]; [by destruct t|]. rewrite append_cons. simpl. f_equal. exact IH. Qed.

Lemma drop_last_append s c : drop_last (s +:+ String c "") = s.
Proof. unfold drop_last. rewrite length_append. simpl. rewrite Nat.add_sub. apply take_append. Qed.

(** A string cuts at its first slash in one way only. *)
Lemma cut_unique c s t s' t' :
  no_char c s = true -> no_char c s' = true -> s +:+ String c t = s' +:+ String c t' -> s = s' /\ t = t'.
Proof.
  intros Hs Hs' H. pose proof (cut_at_char c s t Hs) as H1. rewrite H, (cut_at_char c s' t' Hs') in H1.
  by injection H1.
Qed.

Lemma principalRegexp_inv e :
  principalRegexp e = true ->
  exists t u, e = t +:+ String "/" u /\ name_pattern t = true /\ (u = "*" \/ name_pattern u = true).
Proof.
  unfold principalRegexp, strings.Cut. destruct (strings.cut_at e "/") as [[t u]|] eqn:H; [|done].
  apply cut_at_Some in H as ->. intros [Ht Hu]%andb_true_iff. exists t, u. split; [done|]. split; [done|].
  apply orb_true_iff in Hu as [Hu|Hu]; bools; auto.
Qed.

(** One valid entry against one valid principal. *)
Lemma entry_match e t u :
  principalRegexp e = true -> name_pattern t = true -> name_pattern u = true ->
  bool_decide (e = t +:+ String "/" u) || (strings.HasSuffix e "/*" && strings.HasPrefix (t +:+ String "/" u) (drop_last e)) = true
  <-> e = t +:+ String "/" u \/ e = t +:+ "/*".
Proof.
  intros (te & ue & -> & Hte & Hue)%principalRegexp_inv Ht Hu.
  rewrite orb_true_iff, bool_decide_eq_true, andb_true_iff. apply or_iff_compat_l.
  pose proof (name_pattern_no_char "/" _ eq_refl Hte) as Hte'.
  pose proof (name_pattern_no_char "/" _ eq_refl Ht) as Ht'.
  split.
  - intros [Hs Hp]. destruct Hue as [->|Hue].
    + change (String "/" "*") with ("/" +:+ "*") in *. rewrite <- append_assoc, drop_last_append in Hp.
      apply HasPrefix_true in Hp as [r Hr]. rewrite append_assoc in Hr.
      apply (cut_unique "/") in Hr as [-> _]; done.
    + exfalso. apply HasSuffix_true in Hs as [r Hr].
      assert (no_char "*" (te +:+ String "/" ue) = true) as Hn.
      { rewrite no_char_append, (name_pattern_no_char "*" te) by done. simpl.
        by rewrite (name_pattern_no_char "*" ue). }
      rewrite Hr, no_char_append in Hn. by rewrite andb_false_r in Hn.
  - intros He. apply (cut_unique "/") in He as [-> ->]; [|done..]. split.
    + apply HasSuffix_true. by exists t.
    + change (String "/" "*") with ("/" +:+ "*"). rewrite <- append_assoc, drop_last_append.
      apply HasPrefix_true. exists u. by rewrite append_assoc.
Qed.

(** ** Conditions *)

Lemma parsePrefixes_length vs ps : parsePrefixes vs = Ok ps -> length ps = length vs.
Proof.
  revert ps; induction vs as [|v vs IH]; intros ps H; simpl in *; [by injection H as <-|].
  destruct (parseIPValue v), (parsePrefixes vs); simplify_eq. simpl. f_equal. auto.
Qed.

Lemma parsePrefixes_Forall2 vs ps : parsePrefixes vs = Ok ps <-> Forall2 (fun v p => parseIPValue v = Ok p) vs ps.
Proof.
  revert ps; induction vs as [|v vs IH]; intros ps; simpl.
  - split; [intros [= <-]; constructor|by inversion 1].
  - split.
    + destruct (parseIPValue v) eqn:?, (parsePrefixes vs); intros; simplify_eq. constructor; [done|]. by apply IH.
    + inversion 1 as [|? p ? ps' Hp Hps]; subst. rewrite Hp. apply IH in Hps. by rewrite Hps.
Qed.

Lemma prefixesContain_exists ps a : prefixesContain ps a = true <-> exists p, p ∈ ps /\ netip.Contains p a = true.
Proof. apply existsb_elem. Qed.

Lemma Condition_match_spec c rc :
  Condition_match c rc = true <->
  (ipAddress c = [] \/ netip.IsValid (SourceIP rc) = true /\ prefixesContain (ipAddress c) (SourceIP rc) = true) /\
  (notIPAddress c = [] \/ netip.IsValid (SourceIP rc) = false \/ prefixesContain (notIPAddress c) (SourceIP rc) = false).
Proof.
  unfold Condition_match. repeat case_bool_decide;
    destruct (netip.IsValid _), (prefixesContain (ipAddress c) _), (prefixesContain (notIPAddress c) _);
    simpl; naive_solver.
Qed.

Lemma prefixesContain_values vs ps a :
  parsePrefixes vs = Ok ps ->
  prefixesContain ps a = true <->
  exists v, v ∈ vs /\ exists pfx, parseIPValue v = Ok pfx /\ netip.Contains pfx a = true.
Proof.
  rewrite parsePrefixes_Forall2. induction 1 as [|v p vs ps Hp H IH].
  - simpl. split; [done|]. intros (v & Hv & _). by apply not_elem_of_nil in Hv.
  - simpl. rewrite orb_true_iff, IH. setoid_rewrite elem_of_cons. split.
    + intros [Hc|(w & Hw & Hin)]; [exists v|exists w]; eauto.
    + intros (w & [->|Hw] & pfx & Hpfx & Hc); [left; congruence|right; eauto].
Qed.

Lemma Contains_valid p a : netip.Contains p a = true -> netip.IsValid a = true.
Proof. unfold netip.Contains. intros H. by bools. Qed.

Lemma prefixesContain_valid ps a : prefixesContain ps a = true -> netip.IsValid a = true.
Proof. intros (p & _ & H)%prefixesContain_exists. by eapply Contains_valid. Qed.

(** ** User policies *)

Lemma user_decide_loop_spec a i sts res :
  user_decide_loop a i sts res =
  match find_index (fun st => Glob.matchAnyRunes (aActionRunes st) a && bool_decide (AEffect st = "Deny")) sts with
  | Some k => {| DEffect := Deny; DStatement := Z.of_nat (i + k) |}
  | None =>
    if bool_decide (DEffect res = Allow) then res
    else match find_index (fun st => Glob.matchAnyRunes (aActionRunes st) a && bool_decide (AEffect st = "Allow")) sts with
         | Some k => {| DEffect := Allow; DStatement := Z.of_nat (i + k) |}
         | None => res
         end
  end.
Proof.
  revert i res; induction sts as [|st sts IH]; intros i res; simpl; [by case_bool_decide|].
  rewrite !IH. clear IH.
  destruct (Glob.matchAnyRunes (aActionRunes st) a), (bool_decide (AEffect st = "Deny")),
    (bool_decide (AEffect st = "Allow")); simpl;
    try rewrite Nat.add_0_r; try done;
    destruct (find_index _ sts) as [k|]; simpl; rewrite ?Nat.add_succ_r, ?Nat.add_succ_l; try done;
    destruct (bool_decide (DEffect res = Allow)); simpl; try done; destruct (find_index _ sts) as [k|]; simpl;
    rewrite ?Nat.add_succ_r, ?Nat.add_succ_l; done.
Qed.

(** ** Validation *)

(** The documented well-formedness of a condition, a statement, a document. *)
Definition valid_ip_values (vs : list string) : Prop := Forall (fun v => is_ok (parseIPValue v) = true) vs.

Definition valid_condition (c : Condition) : Prop :=
  (IPAddress c <> [] \/ NotIPAddress c <> []) /\
  (length (IPAddress c) <= MaxConditionValues)%nat /\ (length (NotIPAddress c) <= MaxConditionValues)%nat /\
  valid_ip_values (IPAddress c) /\ valid_ip_values (NotIPAddress c).

Definition valid_principal (p : Principal) : Prop :=
  (length (Users p) <= MaxPrincipalUsers)%nat /\ Forall (fun u => principalRegexp u = true) (Users p).

Definition valid_action (a : string) : Prop :=
  strings.HasPrefix (strings.ToLower a) "s3:" = true /\ (strings.length a <= MaxPatternLen)%nat.

Definition valid_principals (st : Statement) : Prop :=
  match SPrincipal st, NotPrincipal st with
  | Some p, None => valid_principal p
  | None, Some np => All np = false /\ SEffect st = "Deny" /\ valid_principal np
  | _, _ => False
  end.

Record valid_statement (st : Statement) : Prop := {
  vs_effect : SEffect st = "Allow" \/ SEffect st = "Deny";
  vs_principals : valid_principals st;
  vs_actions_n : (0 < length (SAction st) <= MaxActionsPerStatement)%nat;
  vs_actions : Forall valid_action (SAction st);
  vs_resources_n : (0 < length (SResource st) <= MaxResourcesPerStatement)%nat;
  vs_resources : Forall (fun r => (strings.length r <= MaxPatternLen)%nat) (SResource st);
  vs_condition : match SCondition st with Some c => valid_condition c | None => True end }.

(** Distinct statements with a Sid have different ones. *)
Definition unique_sids (sts : list Statement) : Prop :=
  forall i j st st', sts !! i = Some st -> sts !! j = Some st' ->
    Sid st = Sid st' -> Sid st <> "" -> i = j.

Record valid_policy (p : Policy) : Prop := {
  vp_version : Version p = "" \/ Version p = "2012-10-17" \/ Version p = "2008-10-17";
  vp_count : (0 < length (PStatement p) <= MaxStatements)%nat;
  vp_statements : Forall valid_statement (PStatement p);
  vp_sids : unique_sids (PStatement p) }.

Lemma parsePrefixes_ok vs : is_ok (parsePrefixes vs) = true <-> valid_ip_values vs.
Proof.
  unfold valid_ip_values. induction vs as [|v vs IH]; simpl; [split; [constructor|done]|].
  rewrite Forall_cons, <- IH. by destruct (parseIPValue v), (parsePrefixes vs); simpl; intuition.
Qed.

Lemma length_zero {A} (l : list A) : (length l =? 0)%nat = bool_decide (l = []).
Proof. by destruct l. Qed.

Lemma validateCondition_ok c : is_ok (validateCondition c) = true <-> valid_condition c.
Proof.
  unfold validateCondition, valid_condition. rewrite !length_zero.
  destruct (MaxConditionValues <? length (IPAddress c))%nat eqn:H1,
    (MaxConditionValues <? length (NotIPAddress c))%nat eqn:H2; bools;
    repeat case_bool_decide; simpl; try (split; [done|intros (?&?&?&?); by intuition lia]).
  all: unfold Condition_compile; rewrite <- !parsePrefixes_ok;
    destruct (parsePrefixes (IPAddress c)), (parsePrefixes (NotIPAddress c)); simpl; intuition.
Qed.

Lemma each_guard_ok {E A} (f : A -> bool) (e : A -> E) l :
  each (fun x => guard (f x) (e x)) l = Ok tt <-> Forall (fun x => f x = true) l.
Proof. rewrite each_ok. apply Forall_proper; [|done]. intros x. unfold guard. by destruct (f x). Qed.

Lemma validatePrincipal_ok pr :
  validatePrincipal pr = Ok tt <-> match pr with Some p => valid_principal p | None => True end.
Proof.
  destruct pr as [p|]; simpl; [|done]. unfold valid_principal.
  destruct (MaxPrincipalUsers <? length (Users p))%nat eqn:H; bools; [split; [done|lia]|].
  rewrite each_guard_ok. intuition lia.
Qed.

Lemma validateAction_ok a : validateAction a = Ok tt <-> valid_action a.
Proof.
  unfold validateAction, valid_action. destruct (strings.HasPrefix _ _); simpl; [|split; [done|by intros []]].
  destruct (MaxPatternLen <? strings.length a)%nat eqn:H; bools; intuition (try done; lia).
Qed.

Lemma bind_each_ok {E A B} (f : A -> result E unit) l (k : result E B) :
  is_ok (_ ← each f l; k) = true <-> each f l = Ok tt /\ is_ok k = true.
Proof. destruct (each f l) as [[]|e]; simpl; intuition done. Qed.

Lemma if_is_ok {E A} (b : bool) (e : E) (k : result E A) :
  is_ok (if b then Err e else k) = true <-> b = false /\ is_ok k = true.
Proof. destruct b; simpl; intuition done. Qed.

Lemma principal_shape_ok st :
  (bool_decide (is_Some (SPrincipal st) <-> is_Some (NotPrincipal st)) = false /\
   match NotPrincipal st with Some np => All np | None => false end = false /\
   bool_decide (is_Some (NotPrincipal st)) && negb (bool_decide (SEffect st = "Deny")) = false /\
   each validatePrincipal [SPrincipal st; NotPrincipal st] = Ok tt) <-> valid_principals st.
Proof.
  rewrite each_ok, !Forall_cons, Forall_nil, !validatePrincipal_ok. unfold valid_principals.
  destruct (SPrincipal st) as [p|], (NotPrincipal st) as [np|]; simpl.
  1, 2, 4: intuition done.
  destruct (bool_decide (SEffect st = "Deny")) eqn:Hd; bools; simpl; intuition done.
Qed.

Lemma condition_ok st :
  is_ok (match SCondition st with
         | Some c => c' ← validateCondition c; Ok (with_condition st (Some c'))
         | None => Ok st
         end) = true <-> match SCondition st with Some c => valid_condition c | None => True end.
Proof.
  destruct (SCondition st) as [c|]; [|done]. rewrite <- validateCondition_ok.
  by destruct (validateCondition c).
Qed.

Lemma effect_ok_iff st :
  negb (bool_decide (SEffect st = "Allow")) && negb (bool_decide (SEffect st = "Deny")) = false <->
  SEffect st = "Allow" \/ SEffect st = "Deny".
Proof. rewrite andb_false_iff, !negb_false_iff, !bool_decide_eq_true. done. Qed.

Lemma Statement_validate_ok st : is_ok (Statement_validate st) = true <-> valid_statement st.
Proof.
  assert (forall n : nat, n <> 0%nat <-> (0 < n)%nat) as Hpos by lia.
  assert (forall l : list string, Forall (fun r => negb (MaxPatternLen <? strings.length r)%nat = true) l <->
    Forall (fun r => (strings.length r <= MaxPatternLen)%nat) l) as Hlen.
  { intros l. apply Forall_proper; [|done]. intros r. by rewrite negb_true_iff, Nat.ltb_ge. }
  unfold Statement_validate. rewrite !if_is_ok, !bind_each_ok, !if_is_ok, !bind_each_ok, !if_is_ok, !bind_each_ok.
  rewrite condition_ok, effect_ok_iff, !Nat.eqb_neq, !Hpos, !Nat.ltb_ge, each_guard_ok, Hlen.
  rewrite (each_ok validateAction). setoid_rewrite validateAction_ok.
  split.
  - intros (He & H1 & H2 & H3 & H4 & H5 & H6 & H7 & H8 & H9 & H10 & H11).
    constructor; try done. by apply principal_shape_ok.
  - intros [He Hp [] H7 [] H10 H11]. apply principal_shape_ok in Hp as (?&?&?&?). done.
Qed.

Lemma unique_sids_cons st sts :
  unique_sids (st :: sts) <->
  unique_sids sts /\ (Sid st <> "" -> forall st', st' ∈ sts -> Sid st' <> Sid st).
Proof.
  split.
  - intros H. split.
    + intros i j x y Hx Hy He Hn. specialize (H (S i) (S j) x y Hx Hy He Hn). lia.
    + intros Hn st' [j Hj]%list_elem_of_lookup He. specialize (H 0%nat (S j) st st' eq_refl Hj (eq_sym He) Hn). lia.
  - intros [Hu Hd] [|i] [|j] x y Hx Hy He Hn; simplify_eq/=; [done| | |].
    + exfalso. apply (Hd Hn y); [by eapply list_elem_of_lookup_2|done].
    + exfalso. rewrite He in Hn. apply (Hd Hn x); [by eapply list_elem_of_lookup_2|done].
    + f_equal. by eapply Hu.
Qed.

(** [validate_loop] accepts exactly valid statements with Sids that are new. *)
Lemma validate_loop_ok {CE} sids i sts :
  is_ok (@validate_loop CE sids i sts) = true <->
  Forall valid_statement sts /\ unique_sids sts /\
  (forall st, st ∈ sts -> Sid st <> "" -> sids !! Sid st = None).
Proof.
  revert sids i; induction sts as [|st sts IH]; intros sids i; simpl.
  { split; [|done]. intros _. split; [constructor|]. split; [intros i'; intros; done|].
    intros st Hst. by apply not_elem_of_nil in Hst. }
  rewrite Forall_cons, <- Statement_validate_ok, unique_sids_cons.
  setoid_rewrite elem_of_cons.
  assert (forall r, is_ok (match r with
    | Err e => @Err (perror CE) (list Statement) (InStatement (statementName (Sid st) i) e)
    | Ok st' => match validate_loop (if bool_decide (Sid st = "") then sids else <[Sid st:=i]> sids) (S i) sts with
                | Ok l => Ok (st' :: l) | Err e => Err e end
    end) = true <-> is_ok (A := Statement) (E := stmt_error) r = true /\
      is_ok (@validate_loop CE (if bool_decide (Sid st = "") then sids else <[Sid st:=i]> sids) (S i) sts) = true) as Hstep.
  { intros [x|e]; simpl; [|intuition done]. destruct (validate_loop _ _ _); simpl; intuition done. }
  case_bool_decide as Hsid.
  - rewrite Hstep, IH. naive_solver.
  - destruct (sids !! Sid st) as [j|] eqn:Hj.
    + split; [done|]. intros (_ & _ & H). specialize (H st (or_introl eq_refl) Hsid). congruence.
    + rewrite Hstep, IH. split.
      * intros (Hv & Hf & Hu & Hn). repeat split; try done.
        -- intros _ st' Hin He. specialize (Hn st' Hin). rewrite He, lookup_insert_eq in Hn. by specialize (Hn Hsid).
        -- intros st' [->|Hin] Hne; [done|]. specialize (Hn st' Hin Hne).
           by apply lookup_insert_None in Hn as [? _].
      * intros ([Hv Hf] & [Hu Hd] & Hn). repeat split; try done. intros st' Hin Hne.
        apply lookup_insert_None. split; [by apply Hn; [right|]|]. intros He. by apply (Hd Hsid st' Hin).
Qed.

Lemma validate_is_ok {CE} p : is_ok (@validate CE p) = true <-> valid_policy p.
Proof.
  unfold validate. rewrite !if_is_ok.
  assert (is_ok (match @validate_loop CE ∅ 0 (PStatement p) with
    | Ok sts => Ok {| Version := Version p; PStatement := sts; compileOnce := compileOnce p |}
    | Err e => Err e end) = is_ok (@validate_loop CE ∅ 0 (PStatement p))) as ->
    by (by destruct (validate_loop _ _ _)).
  rewrite validate_loop_ok, !andb_false_iff, !negb_false_iff, !bool_decide_eq_true, Nat.eqb_neq, Nat.ltb_ge.
  split.
  - intros (Hv & H0 & Hn & Hf & Hu & _). constructor; [tauto|lia|done|done].
  - intros [Hv Hn Hf Hu]. split; [tauto|]. split; [lia|]. split; [lia|]. split; [done|]. split; [done|].
    intros st _ _. apply lookup_empty.
Qed.

(** What validation returns: the same document, its conditions compiled. *)
Definition condition_ready (c : Condition) : Prop :=
  compiled c = true /\ parsePrefixes (IPAddress c) = Ok (ipAddress c) /\
  parsePrefixes (NotIPAddress c) = Ok (notIPAddress c).

Definition statement_ready (st : Statement) : Prop :=
  match SCondition st with Some c => condition_ready c | None => True end.

Lemma validateCondition_ready c c' :
  validateCondition c = Ok c' ->
  condition_ready c' /\ IPAddress c' = IPAddress c /\ NotIPAddress c' = NotIPAddress c /\ invalid c' = invalid c.
Proof.
  unfold validateCondition, Condition_compile, condition_ready. repeat (case_match; try done).
  all: intros [= <-]; simplify_eq; simpl; done.
Qed.

Lemma Statement_validate_result st st' :
  Statement_validate st = Ok st' ->
  valid_statement st' /\ statement_ready st' /\
  Sid st' = Sid st /\ st' = with_condition st (SCondition st').
Proof.
  intros H. assert (valid_statement st) as Hv by (apply Statement_validate_ok; by rewrite H).
  unfold Statement_validate in H. res_inv.
  - match goal with Hc : validateCondition _ = Ok _ |- _ => apply validateCondition_ready in Hc as (Hr & Hi & Hn & _) end.
    match goal with Hs : SCondition st = Some _ |- _ => destruct Hv as [H1 H2 H3 H4 H5 H6 H7]; rewrite Hs in H7 end.
    split; [|done]. constructor; try done. simpl. unfold valid_condition in *. by rewrite Hi, Hn.
  - split; [done|]. unfold statement_ready. match goal with Hs : SCondition _ = None |- _ => rewrite Hs end.
    split; [done|]. split; [done|]. destruct st'; simpl in *. by subst.
Qed.

Lemma validate_loop_result {CE} sids i sts sts' :
  @validate_loop CE sids i sts = Ok sts' ->
  Forall2 (fun st st' => Statement_validate st = Ok st') sts sts'.
Proof.
  revert sids i sts'; induction sts as [|st sts IH]; intros sids i sts' H; simpl in H; [injection H as <-; constructor|].
  repeat case_match; simplify_eq; constructor; eauto.
Qed.

Lemma validate_result {CE} p p' :
  @validate CE p = Ok p' ->
  Forall2 (fun st st' => Statement_validate st = Ok st') (PStatement p) (PStatement p') /\
  Version p' = Version p /\ compileOnce p' = compileOnce p.
Proof.
  unfold validate. intros H. res_inv. split; [|done]. by eapply validate_loop_result.
Qed.

Lemma validate_valid_statements {CE} p p' :
  @validate CE p = Ok p' -> Forall (fun st => valid_statement st /\ statement_ready st) (PStatement p').
Proof.
  intros [H _]%validate_result. induction H as [|st st' sts sts' Hst H IH]; constructor; [|done].
  by apply Statement_validate_result in Hst as (?&?&_).
Qed.

Lemma validate_effects {CE} p p' : @validate CE p = Ok p' -> effects_ok (PStatement p').
Proof.
  intros H%validate_valid_statements. eapply Forall_impl; [exact H|]. intros st [[He]]. exact He.
Qed.

(** ** Theorems *)

(** C16. [Policy.Decide] implements deny-overrides over the compiled statements.
    Its answer is Deny with index [k] exactly when statement [k] is the first
    applicable Deny; Allow with index [k] only when no Deny applies and [k] is
    the first applicable statement; none, with index -1, only when no statement
    applies. *)
Theorem Decide_correct p principal action resource rc :
  let sts := PStatement (compile_once p) in
  let ap := applies principal (request_runes action) (runes resource) (unmap_rc rc) in
  let d := Decide p principal action resource rc in
  match DEffect d with
  | Deny => exists k st, DStatement d = Z.of_nat k /\ sts !! k = Some st /\ ap st = true /\ SEffect st = "Deny" /\
              forall j st', (j < k)%nat -> sts !! j = Some st' -> ap st' = true -> SEffect st' <> "Deny"
  | Allow => (forall st, st ∈ sts -> ap st = true -> SEffect st <> "Deny") /\
             exists k st, DStatement d = Z.of_nat k /\ sts !! k = Some st /\ ap st = true /\
              forall j st', (j < k)%nat -> sts !! j = Some st' -> ap st' = false
  | NoEffect => DStatement d = -1 /\ forall st, st ∈ sts -> ap st = false
  end.
Proof.
  simpl. rewrite Decide_spec. unfold decide_spec.
  set (sts := PStatement _). set (ap := applies _ _ _ _).
  assert (forall st, denies principal (request_runes action) (runes resource) (unmap_rc rc) st = false ->
    ap st = true -> SEffect st <> "Deny") as Hd.
  { intros st H Ha He. unfold denies, is_deny in H. fold ap in H. rewrite Ha, He in H. done. }
  destruct (find_index (denies _ _ _ _) sts) as [k|] eqn:H; simpl.
  - apply find_index_Some in H as [(st & Hk & [Ha He]%andb_true_iff) Hlt]. unfold is_deny in He. bools.
    exists k, st. repeat split; try done. intros j st' Hj Hst'. apply Hd. by apply (Hlt j).
  - pose proof (proj1 (find_index_None _ _) H) as H0.
    destruct (find_index ap sts) as [k|] eqn:Ha; simpl.
    + split; [auto|]. apply find_index_Some in Ha as [(st & Hk & Hst) Hlt]. eauto 10.
    + split; [done|]. by apply find_index_None.
Qed.

(** The evaluators built once per request answer like [Decide] on every
    resource: the Deny side is exact for any policy and names the same
    statement, and on a validated policy the two sides together are exact for
    Allow. *)
Theorem evaluators_agree_with_Decide {CE} p0 p principal action rc :
  @validate CE p0 = Ok p ->
  forall resource,
    let deny := DenyEvaluatorFor p principal action rc in
    let allow := AllowEvaluatorFor p principal action rc in
    let d := Decide p principal action resource rc in
    (Denies deny resource = true <-> DEffect d = Deny) /\
    (DEffect d = Deny -> DenyingStatement deny (runes resource) = DStatement d) /\
    (Denies deny resource = false /\ AllowsResource allow resource = true <-> DEffect d = Allow) /\
    (AlwaysAllows deny = true -> DEffect d <> Deny) /\
    (AlwaysDenies allow = true -> DEffect d <> Allow).
Proof.
  intros Hv resource deny allow d. pose proof (Allows_Decide p principal action resource rc (validate_effects _ _ Hv)) as Ha.
  pose proof (Denies_Decide p principal action resource rc) as Hden.
  unfold deny, allow, d in *.
  split; [done|]. split; [intros He; rewrite DenyingStatement_Decide; by rewrite He|]. split; [tauto|]. split.
  - unfold AlwaysAllows. intros Hl. rewrite <- Hden. unfold Denies, DeniesRunes. by rewrite Hl.
  - unfold AlwaysDenies. intros Hl. rewrite Ha. unfold AllowsResource, AllowsRunes. rewrite Hl. intros [_ ?]. done.
Qed.

(** A validated principal list names exactly the users it spells out: the
    principal itself or its tenant's wildcard, never a name that merely starts
    with the same characters. *)
Theorem matchAnyPrincipal_exact entries tenant user :
  Forall (fun e => principalRegexp e = true) entries ->
  name_pattern tenant = true -> name_pattern user = true ->
  matchAnyPrincipal entries (tenant +:+ "/" +:+ user) = true <->
  (tenant +:+ "/" +:+ user) ∈ entries \/ (tenant +:+ "/*") ∈ entries.
Proof.
  intros He Ht Hu. change ("/" +:+ user) with (String "/" user). unfold matchAnyPrincipal. rewrite existsb_elem.
  rewrite Forall_forall in He. split.
  - intros (e & Hin & Hm). apply entry_match in Hm as [->| ->]; eauto.
  - intros [Hin|Hin]; (eexists; split; [exact Hin|]); apply entry_match; auto.
Qed.

(** A grant names the principal in an Allow statement. *)
Lemma grants_mentioned {CE} p0 p principal action resource rc :
  @validate CE p0 = Ok p -> compileOnce p0 = false ->
  Evaluate p principal action resource rc = Allow -> MentionsPrincipal p principal = true.
Proof.
  intros Hv Hc He. pose proof (validate_valid_statements _ _ Hv) as Hvs.
  destruct (validate_result _ _ Hv) as (_ & _ & Hcp). rewrite Hc in Hcp.
  unfold Evaluate in He. rewrite Decide_spec in He. unfold decide_spec, compile_once in He. rewrite Hcp in He. simpl in He.
  destruct (find_index (denies _ _ _ _) _) as [k|] eqn:Hd; [done|]. rewrite find_index_None in Hd.
  destruct (find_index (applies _ _ _ _) _) as [k|] eqn:Ha; [|done].
  apply find_index_Some in Ha as [(st' & Hk & Hap) _].
  assert (SEffect st' <> "Deny") as Hnd.
  { intros Hde. specialize (Hd st' (list_elem_of_lookup_2 _ _ _ Hk)). unfold denies, is_deny in Hd.
    rewrite Hap, Hde in Hd. done. }
  unfold compile in Hk. rewrite list_lookup_fmap in Hk. apply fmap_Some in Hk as (st & Hk & ->). simpl in Hnd.
  apply list_elem_of_lookup_2 in Hk as Hin. rewrite Forall_forall in Hvs. destruct (Hvs st Hin) as [[Heff Hpr _ _ _ _ _] _].
  apply existsb_elem. exists st. split; [done|].
  destruct Heff as [Heff|]; [|done]. rewrite Heff, bool_decide_true by done. simpl.
  unfold applies, matchPrincipal in Hap. simpl in Hap. unfold valid_principals in Hpr.
  destruct (SPrincipal st) as [pr|], (NotPrincipal st) as [np|]; simpl in *; try done; [|by destruct Hpr as (_ & ? & _)].
  by repeat (apply andb_true_iff in Hap as [Hap _]).
Qed.

(** The cross-tenant visibility gate never hides a bucket from a principal
    its validated policy grants anything to. *)
Theorem MentionsPrincipal_covers_grants {CE} p0 p principal action resource rc :
  @validate CE p0 = Ok p -> compileOnce p0 = false ->
  Evaluate p principal action resource rc = Allow -> MentionsPrincipal p principal = true.
Proof. apply grants_mentioned. Qed.

(** [Policy.validate] accepts exactly the documents that satisfy the
    documented structure: a known version, 1 to 20 statements with distinct
    Sids, and in every statement a known effect, exactly one principal element
    (NotPrincipal only with Deny and never everyone) of at most 100 well-formed
    names, 1 to 30 s3: actions and 1 to 10 resources of at most 128 bytes, and
    a condition with 1 to 50 parseable addresses per operator. *)
Theorem validate_exact CE p : is_ok (@validate CE p) = true <-> valid_policy p.
Proof. apply validate_is_ok. Qed.

(** A compiled condition of a validated policy holds for a source address
    exactly when some IpAddress value contains it (or the operator is absent)
    and no NotIpAddress value does, the values read as written and the source
    unmapped.  An unknown source fails closed: it satisfies no IpAddress and
    every NotIpAddress. *)
Theorem matchCondition_correct {CE} p0 p rc st c :
  @validate CE p0 = Ok p -> compileOnce p0 = false ->
  st ∈ PStatement (compile_once p) -> SCondition st = Some c -> invalid c = false ->
  let inside v := exists pfx, parseIPValue v = Ok pfx /\ netip.Contains pfx (netip.Unmap (SourceIP rc)) = true in
  (matchCondition st (unmap_rc rc) = true <->
     (IPAddress c = [] \/ exists v, v ∈ IPAddress c /\ inside v) /\ ~ (exists v, v ∈ NotIPAddress c /\ inside v)) /\
  (SourceIP rc = netip.Zero -> (matchCondition st (unmap_rc rc) = true <-> IPAddress c = [])).
Proof.
  intros Hv Hc Hin Hcond Hinv inside. pose proof (validate_valid_statements _ _ Hv) as Hvs.
  destruct (validate_result _ _ Hv) as (_ & _ & Hcp). rewrite Hc in Hcp.
  unfold compile_once in Hin. rewrite Hcp in Hin. simpl in Hin. unfold compile in Hin.
  apply list_elem_of_fmap in Hin as (st0 & -> & Hin). rewrite Forall_forall in Hvs. destruct (Hvs st0 Hin) as [_ Hr].
  unfold statement_ready in Hr. simpl in Hcond. destruct (SCondition st0) as [c0|] eqn:Hc0; [|done].
  destruct Hr as (Hcomp & Hp1 & Hp2). rewrite Hcomp in Hcond. injection Hcond as ->.
  assert (matchCondition (Statement_compile st0) (unmap_rc rc) = Condition_match c (unmap_rc rc)) as Hm.
  { unfold matchCondition. simpl. rewrite Hc0, Hcomp, Hinv. done. }
  pose proof (prefixesContain_values _ _ (netip.Unmap (SourceIP rc)) Hp1) as Hi1.
  pose proof (prefixesContain_values _ _ (netip.Unmap (SourceIP rc)) Hp2) as Hi2.
  assert (ipAddress c = [] <-> IPAddress c = []) as Hnil.
  { apply parsePrefixes_length in Hp1. destruct (ipAddress c), (IPAddress c); simpl in *; done. }
  pose proof (prefixesContain_valid (ipAddress c) (netip.Unmap (SourceIP rc))) as Hvalid.
  pose proof (prefixesContain_valid (notIPAddress c) (netip.Unmap (SourceIP rc))) as Hvalid'.
  rewrite Hm, Condition_match_spec. simpl. unfold inside. rewrite <- Hi1, <- Hi2, Hnil. split.
  - destruct (prefixesContain (ipAddress c) _) eqn:H1, (prefixesContain (notIPAddress c) _) eqn:H2,
      (netip.IsValid (netip.Unmap (SourceIP rc))); destruct (notIPAddress c); naive_solver.
  - intros ->. simpl. intuition done.
Qed.

(** A user policy allows everything when absent or empty; otherwise the
    first Deny that matches the action decides, else the first Allow, else the
    implicit deny.  A statement with any other effect never grants. *)
Theorem UserDecide_correct up action :
  let d := UserDecide (Some up) action in
  let sts := Statements (user_compile_once up) in
  let matches st := Glob.matchAnyRunes (aActionRunes st) (request_runes action) in
  (Statements up = [] -> d = {| DEffect := Allow; DStatement := -1 |}) /\
  (Statements up <> [] ->
    match DEffect d with
    | Deny => (DStatement d = -1 /\ forall st, st ∈ sts -> matches st = true -> AEffect st <> "Deny" /\ AEffect st <> "Allow") \/
              exists k st, DStatement d = Z.of_nat k /\ sts !! k = Some st /\ matches st = true /\ AEffect st = "Deny"
    | Allow => (forall st, st ∈ sts -> matches st = true -> AEffect st <> "Deny") /\
               exists k st, DStatement d = Z.of_nat k /\ sts !! k = Some st /\ matches st = true /\ AEffect st = "Allow" /\
                 forall j st', (j < k)%nat -> sts !! j = Some st' -> matches st' = true -> AEffect st' <> "Allow"
    | NoEffect => False
    end).
Proof.
  intros d sts matches. subst d. unfold UserDecide. rewrite length_zero.
  split; [intros ->; done|]. intros Hne. rewrite bool_decide_false by done.
  rewrite user_decide_loop_spec. fold sts. simpl.
  change (runes (strings.ToLower action)) with (request_runes action).
  assert (forall e st, matches st && bool_decide (AEffect st = e) = false -> matches st = true -> AEffect st <> e) as Hx.
  { intros e st H Hm He. rewrite Hm, He, bool_decide_true in H; done. }
  destruct (find_index (fun st => _ && bool_decide (AEffect st = "Deny")) sts) as [k|] eqn:Hd; simpl.
  { right. apply find_index_Some in Hd as [(st & Hk & Hm) _]. bools. eauto 10. }
  rewrite find_index_None in Hd.
  destruct (find_index (fun st => _ && bool_decide (AEffect st = "Allow")) sts) as [k|] eqn:Ha; simpl.
  - split; [eauto|]. apply find_index_Some in Ha as [(st & Hk & Hm) Hlt]. bools.
    exists k, st. repeat split; try done. intros j st' Hj Hst'. apply Hx. by eapply Hlt.
  - rewrite find_index_None in Ha. left. split; [done|]. intros st Hin Hm. split; eauto.
Qed.

(** ** Concrete documents on which the theorems apply *)

Definition demo_condition : Condition :=
  {| IPAddress := ["192.0.2.0/24"; "2001:db8::/32"]; NotIPAddress := ["192.0.2.9"];
     ipAddress := []; notIPAddress := []; compiled := false; invalid := false |}.

Definition demo_allow : Statement :=
  {| Sid := "ReadFromOffice"; SEffect := "Allow";
     SPrincipal := Some {| All := false; Users := ["tenant-b/*"; "tenant-c/carol"] |}; NotPrincipal := None;
     SAction := ["s3:Get*"]; SResource := ["photos/*"]; SCondition := Some demo_condition;
     actionRunes := []; resourceRunes := [] |}.

Definition demo_deny : Statement :=
  {| Sid := ""; SEffect := "Deny";
     SPrincipal := None; NotPrincipal := Some {| All := false; Users := ["tenant-a/alice"] |};
     SAction := ["S3:*"]; SResource := ["photos/secret/?*"]; SCondition := None;
     actionRunes := []; resourceRunes := [] |}.

Definition demo_policy : Policy :=
  {| Version := "2012-10-17"; PStatement := [demo_allow; demo_deny]; compileOnce := false |}.

Definition office : RequestContext := {| SourceIP := netip.V6 281473902969345 "" |}.

Definition validated (p : Policy) : Policy := match @validate unit p with Ok p' => p' | Err _ => p end.

Lemma evaluators_agree_witness :
  @validate unit demo_policy = Ok (validated demo_policy) /\
  (Denies (DenyEvaluatorFor (validated demo_policy) "tenant-b/bob" "s3:GetObject" office) "photos/secret/x" = true <->
   DEffect (Decide (validated demo_policy) "tenant-b/bob" "s3:GetObject" "photos/secret/x" office) = Deny).
Proof.
  assert (@validate unit demo_policy = Ok (validated demo_policy)) as H by vm_refl.
  split; [exact H|]. exact (proj1 (evaluators_agree_with_Decide _ _ "tenant-b/bob" "s3:GetObject" office H "photos/secret/x")).
Defined.

Lemma matchAnyPrincipal_exact_witness :
  matchAnyPrincipal ["tenant-b/*"; "tenant-c/carol"] ("tenant-b" +:+ "/" +:+ "bob") = true <->
  ("tenant-b" +:+ "/" +:+ "bob") ∈ ["tenant-b/*"; "tenant-c/carol"] \/ ("tenant-b" +:+ "/*") ∈ ["tenant-b/*"; "tenant-c/carol"].
Proof. apply matchAnyPrincipal_exact; [repeat constructor|reflexivity|reflexivity]. Defined.

Lemma MentionsPrincipal_covers_witness :
  Evaluate (validated demo_policy) "tenant-b/bob" "s3:GetObject" "photos/a.jpg" office = Allow /\
  MentionsPrincipal (validated demo_policy) "tenant-b/bob" = true.
Proof.
  assert (Evaluate (validated demo_policy) "tenant-b/bob" "s3:GetObject" "photos/a.jpg" office = Allow) as He by vm_refl.
  split; [exact He|].
  refine (MentionsPrincipal_covers_grants (CE := unit) demo_policy (validated demo_policy) _ _ _ _ _ eq_refl He). vm_refl.
Defined.

Lemma matchCondition_correct_witness :
  exists st c, st ∈ PStatement (compile_once (validated demo_policy)) /\ SCondition st = Some c /\
  (SourceIP {| SourceIP := netip.Zero |} = netip.Zero ->
    (matchCondition st (unmap_rc {| SourceIP := netip.Zero |}) = true <-> IPAddress c = [])).
Proof.
  assert (@validate unit demo_policy = Ok (validated demo_policy)) as Hv by vm_refl.
  set (st := match PStatement (compile_once (validated demo_policy)) with x :: _ => x | [] => demo_allow end).
  set (c := match SCondition st with Some c => c | None => demo_condition end).
  assert (st ∈ PStatement (compile_once (validated demo_policy))) as Hin by (vm_compute; left).
  assert (SCondition st = Some c) as Hc by vm_refl.
  assert (invalid c = false) as Hi by vm_refl.
  exists st, c. split; [exact Hin|]. split; [exact Hc|].
  exact (proj2 (matchCondition_correct demo_policy _ {| SourceIP := netip.Zero |} st c Hv eq_refl Hin Hc Hi)).
Defined.

Lemma demo_office_denied_secret :
  Evaluate (validated demo_policy) "tenant-b/bob" "s3:GetObject" "photos/secret/x" office = Deny.
Proof. vm_refl. Qed.
