(* ===== verification/GoError.v ===== *)
(** * Go errors and S3 error responses (src/s3err/error.go)

    Errors are trees: sentinels, formatted texts, wrappers, and the typed
    errors the program looks for with [errors.Is] and [errors.As].  [Error] is
    the S3 error the client is answered with; its cause is for the operator
    only. *)

From S2P Require Import Prelude Unicode GoStrings.

Open Scope Z_scope.

(** The error values the program creates or inspects.  [S3] is an
    [s3err.Error] inside an error tree, [Denied] a [DenyReason], [Auth] a
    [sigv4.AuthFailure], [Response] an SDK response error with its HTTP status,
    [API] an SDK API error with its code, [BreakerOpen] the circuit breaker's
    refusal, [Panic] a recovered panic. *)
Inductive goerror :=
| Sentinel (name : string)
| Text (m : message)
| Wrap (m : message) (causes : list goerror)
| S3 (status : Z) (code : string) (msg : message) (resource : string) (cause : option goerror)
| Denied (layer : string) (statement : Z) (sid principal action resource : string) (err : option goerror)
| Auth (reason accessKeyID : string) (detail : message) (err : option goerror)
| Response (status : Z) (err : option goerror)
| API (code : string) (err : option goerror)
| BreakerOpen (backend : string)
| Panic (value : string).

Module errors.

(** [errors.As]: the first error in the tree, in pre-order, that [f] accepts. *)
Fixpoint As {A} (f : goerror -> option A) (e : goerror) : option A :=
  match f e with
  | Some a => Some a
  | None =>
    let under (c : option goerror) := match c with Some x => As f x | None => None end in
    match e with
    | Wrap _ es =>
      (fix first l := match l with
        | [] => None
        | x :: l => match As f x with Some a => Some a | None => first l end
        end) es
    | S3 _ _ _ _ c => under c
    | Denied _ _ _ _ _ _ c => under c
    | Auth _ _ _ c => under c
    | Response _ c => under c
    | API _ c => under c
    | _ => None
    end
  end.

(** [errors.Is] against a sentinel. *)
Definition Is (e : goerror) (target : string) : bool :=
  match As (fun x => match x with Sentinel n => if bool_decide (n = target) then Some tt else None | _ => None end) e with
  | Some _ => true
  | None => false
  end.

End errors.

Module context.
Definition DeadlineExceeded : string := "context.DeadlineExceeded".
Definition Canceled : string := "context.Canceled".
End context.

Module s3err.

Record Error := {
  Code : string;
  Message : message;
  Resource : string;
  RequestID : string;
  status : Z;
  cause : option goerror }.

(** An [*Error] used as an [error]. *)
Definition as_error (e : Error) : goerror := S3 (status e) (Code e) (Message e) (Resource e) (cause e).

Definition Unwrap (e : Error) : option goerror := cause e.

Definition Status (e : Error) : Z := status e.

Definition New (status : Z) (code : string) (msg : message) : Error :=
  {| Code := code; Message := msg; Resource := ""; RequestID := ""; status := status; cause := None |}.

Definition WithCause (e : Error) (err : goerror) : Error :=
  {| Code := Code e; Message := Message e; Resource := Resource e; RequestID := RequestID e;
     status := status e; cause := Some err |}.

Definition Internal (err : goerror) (what : string) : Error :=
  {| Code := "InternalError"; Message := [FS what]; Resource := ""; RequestID := "";
     status := 500; cause := Some err |}.

Definition NotImplemented (what : message) : Error :=
  New 501 "NotImplemented" (what ++ [FS " is not implemented"]).
Definition AccessDenied : Error := New 403 "AccessDenied" [FS "Access Denied"].
Definition InvalidAccessKeyID : Error :=
  New 403 "InvalidAccessKeyId" [FS "The AWS Access Key Id you provided does not exist in our records."].
Definition SignatureDoesNotMatch : Error :=
  New 403 "SignatureDoesNotMatch" [FS "The request signature we calculated does not match the signature you provided. Check your key and signing method."].
Definition ContentSHA256Mismatch : Error :=
  New 400 "XAmzContentSHA256Mismatch" [FS "The provided 'x-amz-content-sha256' header does not match what was computed."].

Definition wellKnownErrorStatus : gmap string Z := list_to_map [
  ("NoSuchKey", 404);
  ("NoSuchBucket", 404);
  ("NotFound", 404);
  ("ServerSideEncryptionConfigurationNotFoundError", 404);
  ("AccessDenied", 403);
  ("PreconditionFailed", 412);
  ("NotModified", 304);
  ("InvalidRange", 416) ].

Definition canonicalMessage : gmap string string := list_to_map [
  ("AccessDenied", "Access Denied");
  ("AccountProblem", "There is a problem with your account that prevents the operation from completing successfully.");
  ("BadDigest", "The Content-MD5 or checksum value that you specified did not match what the server received.");
  ("BucketAlreadyExists", "The requested bucket name is not available.");
  ("BucketAlreadyOwnedByYou", "The bucket that you tried to create already exists, and you own it.");
  ("BucketNotEmpty", "The bucket that you tried to delete is not empty.");
  ("EntityTooLarge", "Your proposed upload exceeds the maximum allowed size.");
  ("EntityTooSmall", "Your proposed upload is smaller than the minimum allowed size.");
  ("InternalError", "We encountered an internal error. Please try again.");
  ("InvalidArgument", "Invalid Argument");
  ("InvalidBucketName", "The specified bucket is not valid.");
  ("InvalidDigest", "The Content-MD5 or checksum value that you specified is not valid.");
  ("InvalidObjectState", "The operation is not valid for the current state of the object.");
  ("InvalidPart", "One or more of the specified parts could not be found.");
  ("InvalidPartOrder", "The list of parts was not in ascending order. Parts list must be specified in order by part number.");
  ("InvalidRange", "The requested range is not satisfiable.");
  ("InvalidRequest", "Invalid Request");
  ("InvalidToken", "The provided token is malformed or otherwise invalid.");
  ("MalformedXML", "The XML that you provided was not well formed or did not validate against our published schema.");
  ("MethodNotAllowed", "The specified method is not allowed against this resource.");
  ("MissingContentLength", "You must provide the Content-Length HTTP header.");
  ("NoSuchBucket", "The specified bucket does not exist.");
  ("NoSuchBucketPolicy", "The bucket policy does not exist.");
  ("NoSuchCORSConfiguration", "The CORS configuration does not exist.");
  ("NoSuchKey", "The specified key does not exist.");
  ("NoSuchLifecycleConfiguration", "The lifecycle configuration does not exist.");
  ("NoSuchUpload", "The specified multipart upload does not exist. The upload ID might be invalid, or the multipart upload might have been aborted or completed.");
  ("NoSuchVersion", "The version ID specified in the request does not match an existing version.");
  ("NotFound", "Not Found");
  ("NotImplemented", "A header that you provided implies functionality that is not implemented.");
  ("ObjectLockConfigurationNotFound", "Object Lock configuration does not exist for this bucket.");
  ("ServerSideEncryptionConfigurationNotFoundError", "The server side encryption configuration was not found");
  ("PreconditionFailed", "At least one of the preconditions that you specified did not hold.");
  ("RequestTimeout", "Your socket connection to the server was not read from or written to within the timeout period.");
  ("ServiceUnavailable", "Service is unable to handle request.");
  ("SlowDown", "Please reduce your request rate.");
  ("TooManyBuckets", "You have attempted to create more buckets than allowed.") ].

Definition messageFor (code : string) : string := default code (canonicalMessage !! code).

(** [errors.AsType[*Error]]. *)
Definition AsError (err : goerror) : option Error :=
  errors.As (fun x => match x with
    | S3 st c m r ca => Some {| Code := c; Message := m; Resource := r; RequestID := ""; status := st; cause := ca |}
    | _ => None end) err.

Definition AsResponse (err : goerror) : option Z :=
  errors.As (fun x => match x with Response st _ => Some st | _ => None end) err.

Definition AsAPI (err : goerror) : option string :=
  errors.As (fun x => match x with API c _ => Some c | _ => None end) err.

Definition FromSDKError (err : goerror) (resource : string) : Error :=
  match AsError err with
  | Some own =>
    if bool_decide (Resource own = "")
    then {| Code := Code own; Message := Message own; Resource := resource; RequestID := RequestID own;
            status := status own; cause := cause own |}
    else own
  | None =>
    let e := {| Code := "InternalError"; Message := [FS "We encountered an internal error. Please try again."];
                Resource := resource; RequestID := ""; status := 502; cause := Some err |} in
    let '(e, hasStatus) :=
      match AsResponse err with
      | Some st => if 100 <=? st
                   then ({| Code := Code e; Message := Message e; Resource := Resource e; RequestID := RequestID e;
                            status := st; cause := cause e |}, true)
                   else (e, false)
      | None => (e, false)
      end in
    let e :=
      match AsAPI err with
      | Some code =>
        let st := if negb hasStatus
                  then match wellKnownErrorStatus !! code with Some st => st | None => status e end
                  else status e in
        {| Code := code; Message := [FS (messageFor code)]; Resource := Resource e; RequestID := RequestID e;
           status := st; cause := cause e |}
      | None => e
      end in
    if errors.Is err context.DeadlineExceeded || errors.Is err context.Canceled
    then {| Code := "InternalError"; Message := [FS "backend request timed out"]; Resource := Resource e;
            RequestID := RequestID e; status := 504; cause := cause e |}
    else e
  end.

(** What [Write] sends: the status, and the XML document unless the response
    must not carry a body. *)
Record Reply := { RStatus : Z; RBody : option Error }.

Definition Write (method path : string) (e : Error) (requestID : string) : Reply :=
  let e := {| Code := Code e; Message := Message e;
              Resource := if bool_decide (Resource e = "") then path else Resource e;
              RequestID := requestID; status := status e; cause := cause e |} in
  if bool_decide (method = "HEAD") || (status e =? 304)
  then {| RStatus := status e; RBody := None |}
  else {| RStatus := status e; RBody := Some e |}.

(** ** Laws *)

Lemma AsError_as_error e : AsError (as_error e) = Some {| Code := Code e; Message := Message e; Resource := Resource e; RequestID := ""; status := status e; cause := cause e |}.
Proof. done. Qed.

Lemma wellKnownErrorStatus_range code st : wellKnownErrorStatus !! code = Some st -> 100 <= st < 600.
Proof.
  intros H%elem_of_list_to_map_2.
  repeat (apply elem_of_cons in H as [[= -> ->]|H]; [lia|]). by apply not_elem_of_nil in H.
Qed.

(** ** Theorems *)

(** The call was cut off by its deadline or by the client going away. *)
Definition timed_out (err : goerror) : bool :=
  errors.Is err context.DeadlineExceeded || errors.Is err context.Canceled.

(** C40. What a client is told of a backend failure, for an error the proxy did
    not raise itself.  A call cut off by its deadline or its cancellation is a
    504 InternalError with a fixed message.  Otherwise the code is the
    backend's API code with the message this table gives that code, or
    InternalError with a fixed message when the backend named none, so that no
    text of the backend's is quoted; the status is the HTTP status the backend
    answered when that is at least 100, else the well-known status of the code,
    else 502.  The original error is kept as the cause only, and the status is
    one a response can be written with (100 to 999) whenever the backend's own
    status line has three digits. *)
Theorem FromSDKError_sanitizes err resource :
  AsError err = None ->
  let e := FromSDKError err resource in
  Resource e = resource /\ cause e = Some err /\
  (timed_out err = true ->
     Code e = "InternalError" /\ Message e = [FS "backend request timed out"] /\ status e = 504) /\
  (timed_out err = false ->
     (forall code, AsAPI err = Some code -> Code e = code /\ Message e = [FS (messageFor code)]) /\
     (AsAPI err = None ->
        Code e = "InternalError" /\ Message e = [FS "We encountered an internal error. Please try again."]) /\
     (forall st, AsResponse err = Some st -> 100 <= st -> status e = st) /\
     ((forall st, AsResponse err = Some st -> st < 100) ->
        (forall code st, AsAPI err = Some code -> wellKnownErrorStatus !! code = Some st -> status e = st) /\
        (forall code, AsAPI err = Some code -> wellKnownErrorStatus !! code = None -> status e = 502) /\
        (AsAPI err = None -> status e = 502))) /\
  100 <= status e /\ ((forall st, AsResponse err = Some st -> st <= 999) -> status e <= 999).
Proof.
  intros Hown. unfold FromSDKError, timed_out. rewrite Hown.
  pose proof wellKnownErrorStatus_range as Hrange. revert Hrange.
  generalize wellKnownErrorStatus as known. generalize messageFor as msg. intros msg known Hrange.
  generalize (errors.Is err context.DeadlineExceeded || errors.Is err context.Canceled) as timeout. intros timeout.
  destruct (AsAPI err) as [code|]; [destruct (known !! code) as [w|] eqn:Hw; [pose proof (Hrange _ _ Hw)|]|];
    (destruct (AsResponse err) as [st|]; [destruct (100 <=? st) eqn:Hst; bools|]);
    destruct timeout; cbn -[Z.le Z.lt] in *;
    repeat match goal with
    | H : forall st', Some ?st = Some st' -> _ |- _ => specialize (H st eq_refl)
    | |- _ /\ _ => split
    | |- forall _, _ => intro
    end; simplify_eq; first [done | lia | congruence].
Qed.

Lemma FromSDKError_sanitizes_witness :
  let err := Wrap [FS "operation error S3: GetObject"] [Response 0 (Some (API "NoSuchKey" None))] in
  AsError err = None /\ 100 <= status (FromSDKError err "/photos/a") <= 999 /\ status (FromSDKError err "/photos/a") = 404.
Proof.
  set (err := Wrap [FS "operation error S3: GetObject"] [Response 0 (Some (API "NoSuchKey" None))]). cbv zeta.
  assert (AsError err = None) as Hown by reflexivity.
  destruct (FromSDKError_sanitizes err "/photos/a" Hown) as (_ & _ & _ & Hok & Hlo & Hhi).
  split; [exact Hown|]. split; [split; [exact Hlo|apply Hhi; intros st [= <-]; lia]|].
  destruct (Hok eq_refl) as (_ & _ & _ & Hst).
  eapply (proj1 (Hst ltac:(intros st [= <-]; lia))); vm_compute; reflexivity.
Defined.

End s3err.
