(* ===== verification/Dialect.v ===== *)
(** * Policy documents (src/policy/dialect.go, the JSON methods of
      src/policy/policy.go and src/policy/condition.go)

    Reading a policy document: the typed decoding [encoding/json] performs on
    the document's structures (names matched without case when none is exact,
    repeated members applied in order, a null leaving most members as they
    were, array elements decoded over what an earlier array left), the
    dialect's rewriting of principals and resources, and the validation that
    follows. *)

From S2P Require Import Prelude Unicode GoStrings JSON Glob NetIP GoError Policy PolicyFacts.
Import policy json.

Open Scope Z_scope.

Module dialect.

Definition DefaultPrincipalKey : string := "S3RP".

Record Dialect := {
  PrincipalKey : string;
  ResourcePrefix : string;
  NormalizePrincipal : option (string -> result goerror string);
  NormalizeResource : option (string -> result goerror string) }.

Definition default_dialect : Dialect :=
  {| PrincipalKey := ""; ResourcePrefix := ""; NormalizePrincipal := None; NormalizeResource := None |}.

Definition principalKey (d : Dialect) : string :=
  if bool_decide (PrincipalKey d = "") then DefaultPrincipalKey else PrincipalKey d.

(** ** Typed decoding; [None] is an error of [json.Unmarshal] *)

(** Into a string variable. *)
Definition into_string (old : string) (v : value) : option string :=
  match v with Null => Some old | Str s => Some s | _ => None end.

Fixpoint into_strings (l : list value) : option (list string) :=
  match l with
  | [] => Some []
  | v :: l => s ← into_string "" v; ss ← into_strings l; Some (s :: ss)
  end.

(** [StringOrSlice.UnmarshalJSON]: a null is read as one empty string. *)
Definition StringOrSlice_UnmarshalJSON (v : value) : option (list string) :=
  match into_string "" v with
  | Some s => Some [s]
  | None => match v with Array l => into_strings l | _ => None end
  end.

(** Setting a map entry: the position is that of the first of its name. *)
Fixpoint map_set {A} (m : list (string * A)) (k : string) (v : A) : list (string * A) :=
  match m with
  | [] => [(k, v)]
  | (k', v') :: m => if bool_decide (k' = k) then (k, v) :: m else (k', v') :: map_set m k v
  end.

(** Into a map variable, each entry by [f]; a null leaves a nil map. *)
Fixpoint into_entries {A} (f : value -> option A) (m : list (string * A)) (l : list (string * value)) : option (list (string * A)) :=
  match l with
  | [] => Some m
  | (k, v) :: l => a ← f v; into_entries f (map_set m k a) l
  end.

Definition into_map {A} (f : value -> option A) (v : value) : option (list (string * A)) :=
  match v with Null => Some [] | Object l => into_entries f [] l | _ => None end.

Fixpoint map_get {A} (m : list (string * A)) (k : string) : option A :=
  match m with
  | [] => None
  | (k', v) :: m => if bool_decide (k' = k) then Some v else map_get m k
  end.

(** The structure member a JSON name is decoded into: the exact one, or the
    first that matches without case. *)
Definition member_named (names : list string) (k : string) : option string :=
  match List.find (fun n => bool_decide (n = k)) names with
  | Some n => Some n
  | None => List.find (fun n => strings.EqualFold n k) names
  end.

(** *** Conditions *)

Definition SourceIPKey : string := "aws:SourceIp".

Definition empty_condition : Condition :=
  {| IPAddress := []; NotIPAddress := []; ipAddress := []; notIPAddress := []; compiled := false; invalid := false |}.

Fixpoint condition_keys (keys : list (string * list string)) : option (list string) :=
  match keys with
  | [] => Some []
  | (k, vs) :: keys =>
    if negb (strings.EqualFold k SourceIPKey) then None else rest ← condition_keys keys; Some (vs ++ rest)
  end.

(** One operator of the loop.  Go's maps are walked in no fixed order; the one
    taken here is the document's, and the values of two spellings of the key
    only change places under another. *)
Definition condition_op (c : Condition) (op : string) (keys : list (string * list string)) : option Condition :=
  let is_ip := bool_decide (op = opIPAddress) in
  if is_ip || bool_decide (op = opNotIPAddress) then
    vs ← condition_keys keys;
    let dst := (if is_ip then IPAddress c else NotIPAddress c) ++ vs in
    if (length dst =? 0)%nat then None
    else Some {| IPAddress := if is_ip then dst else IPAddress c; NotIPAddress := if is_ip then NotIPAddress c else dst;
                 ipAddress := ipAddress c; notIPAddress := notIPAddress c; compiled := compiled c; invalid := invalid c |}
  else None.

Fixpoint condition_ops (c : Condition) (ops : list (string * list (string * list string))) : option Condition :=
  match ops with
  | [] => Some c
  | (op, keys) :: ops => c ← condition_op c op keys; condition_ops c ops
  end.

Definition Condition_UnmarshalJSON (v : value) : option Condition :=
  raw ← into_map (into_map StringOrSlice_UnmarshalJSON) v;
  condition_ops empty_condition raw.

(** *** Principals outside a document *)

Fixpoint s3rp_member (users : list string) (l : list (string * value)) : option (list string) :=
  match l with
  | [] => Some users
  | (k, v) :: l =>
    match member_named [DefaultPrincipalKey] k with
    | Some _ => us ← StringOrSlice_UnmarshalJSON v; s3rp_member us l
    | None => s3rp_member users l
    end
  end.

(** [Principal.UnmarshalJSON] into a fresh principal. *)
Definition Principal_UnmarshalJSON (v : value) : option Principal :=
  match into_string "" v with
  | Some s => if bool_decide (s = "*") then Some {| All := true; Users := [] |} else None
  | None =>
    us ← match v with Object l => s3rp_member [] l | _ => None end;
    if (length us =? 0)%nat then None else Some {| All := false; Users := us |}
  end.

(** *** Statements *)

(** [rawStatement]; an element not present is [None], the raw text of one
    present is the value it holds. *)
Record rawStatement := {
  rSid : string;
  rEffect : string;
  rPrincipal : option value;
  rNotPrincipal : option value;
  rAction : list string;
  rResource : list string;
  rCondition : option Condition }.

Definition zero_statement : rawStatement :=
  {| rSid := ""; rEffect := ""; rPrincipal := None; rNotPrincipal := None; rAction := []; rResource := []; rCondition := None |}.

Definition statement_fields : list string := ["Sid"; "Effect"; "Principal"; "NotPrincipal"; "Action"; "Resource"; "Condition"].

Definition set_member (rs : rawStatement) (k : string) (v : value) : option rawStatement :=
  let mk sid eff pr npr act res co :=
    {| rSid := sid; rEffect := eff; rPrincipal := pr; rNotPrincipal := npr; rAction := act; rResource := res; rCondition := co |} in
  match member_named statement_fields k with
  | None => Some rs
  | Some n =>
    if bool_decide (n = "Sid") then
      s ← into_string (rSid rs) v; Some (mk s (rEffect rs) (rPrincipal rs) (rNotPrincipal rs) (rAction rs) (rResource rs) (rCondition rs))
    else if bool_decide (n = "Effect") then
      s ← into_string (rEffect rs) v; Some (mk (rSid rs) s (rPrincipal rs) (rNotPrincipal rs) (rAction rs) (rResource rs) (rCondition rs))
    else if bool_decide (n = "Principal") then
      Some (mk (rSid rs) (rEffect rs) (Some v) (rNotPrincipal rs) (rAction rs) (rResource rs) (rCondition rs))
    else if bool_decide (n = "NotPrincipal") then
      Some (mk (rSid rs) (rEffect rs) (rPrincipal rs) (Some v) (rAction rs) (rResource rs) (rCondition rs))
    else if bool_decide (n = "Action") then
      ss ← StringOrSlice_UnmarshalJSON v; Some (mk (rSid rs) (rEffect rs) (rPrincipal rs) (rNotPrincipal rs) ss (rResource rs) (rCondition rs))
    else if bool_decide (n = "Resource") then
      ss ← StringOrSlice_UnmarshalJSON v; Some (mk (rSid rs) (rEffect rs) (rPrincipal rs) (rNotPrincipal rs) (rAction rs) ss (rCondition rs))
    else
      co ← match v with Null => Some None | _ => Some <$> Condition_UnmarshalJSON v end;
      Some (mk (rSid rs) (rEffect rs) (rPrincipal rs) (rNotPrincipal rs) (rAction rs) (rResource rs) co)
  end.

Fixpoint set_members (rs : rawStatement) (l : list (string * value)) : option rawStatement :=
  match l with
  | [] => Some rs
  | (k, v) :: l => rs ← set_member rs k v; set_members rs l
  end.

Definition into_statement (old : rawStatement) (v : value) : option rawStatement :=
  match v with Null => Some old | Object l => set_members old l | _ => None end.

(** Array elements are decoded over the elements the slice already has room
    for; [old] is its backing array. *)
Fixpoint into_statements (old : list rawStatement) (l : list value) : option (list rawStatement) :=
  match l with
  | [] => Some []
  | v :: l => rs ← into_statement (default zero_statement (head old)) v; rest ← into_statements (tail old) l; Some (rs :: rest)
  end.

(** The document being decoded: the [Statement] slice is the first [dlen]
    elements of its backing array. *)
Record document := { DVersion : string; backing : list rawStatement; dlen : nat }.

Definition set_doc_member (doc : document) (k : string) (v : value) : option document :=
  match member_named ["Version"; "Statement"] k with
  | None => Some doc
  | Some n =>
    if bool_decide (n = "Version") then
      s ← into_string (DVersion doc) v; Some {| DVersion := s; backing := backing doc; dlen := dlen doc |}
    else match v with
    | Null => Some {| DVersion := DVersion doc; backing := []; dlen := 0 |}
    | Array [] => Some {| DVersion := DVersion doc; backing := []; dlen := 0 |}
    | Array l => sts ← into_statements (backing doc) l;
                 Some {| DVersion := DVersion doc; backing := sts ++ drop (length l) (backing doc); dlen := length l |}
    | _ => None
    end
  end.

Fixpoint set_doc_members (doc : document) (l : list (string * value)) : option document :=
  match l with
  | [] => Some doc
  | (k, v) :: l => doc ← set_doc_member doc k v; set_doc_members doc l
  end.

Definition decode_document (v : value) : option document :=
  let zero := {| DVersion := ""; backing := []; dlen := 0 |} in
  match v with Null => Some zero | Object l => set_doc_members zero l | _ => None end.

(** ** Parsing *)

Inductive derror {CE : Type} :=
| PolicyTooLarge (n : nat)
| MalformedPolicy
| PrincipalForm (name : string)
| MalformedPrincipal (name : string)
| NormalizeFailed (name entry : string) (e : goerror)
| ResourceWithoutPrefix (name res prefix : string)
| Invalid (e : perror CE).
Arguments derror : clear implicits.

Section Parse.
Context {CE : Type}.

(** [each entry rewritten by f], stopping at the first error. *)
Fixpoint rewrite_all (name : string) (f : string -> result goerror string) (l : list string) : result (derror CE) (list string) :=
  match l with
  | [] => Ok []
  | u :: l =>
    match f u with
    | Err e => Err (NormalizeFailed name u e)
    | Ok n => rest ← rewrite_all name f l; Ok (n :: rest)
    end
  end.

Definition decodePrincipal (d : Dialect) (name : string) (data : option value) : result (derror CE) (option Principal) :=
  match data with
  | None | Some Null => Ok None
  | Some v =>
    match into_string "" v with
    | Some s => if bool_decide (s = "*") then Ok (Some {| All := true; Users := [] |}) else Err (PrincipalForm name)
    | None =>
      match into_map StringOrSlice_UnmarshalJSON v with
      | None => Err (MalformedPrincipal name)
      | Some obj =>
        let users := default [] (map_get obj (principalKey d)) in
        if (length users =? 0)%nat then Err (PrincipalForm name)
        else
          us ← match NormalizePrincipal d with Some f => rewrite_all name f users | None => Ok users end;
          Ok (Some {| All := false; Users := us |})
      end
    end
  end.

Fixpoint strip_prefix (name prefix : string) (l : list string) : result (derror CE) (list string) :=
  match l with
  | [] => Ok []
  | res :: l =>
    match strings.CutPrefix res prefix with
    | None => Err (ResourceWithoutPrefix name res prefix)
    | Some r => rest ← strip_prefix name prefix l; Ok (r :: rest)
    end
  end.

Definition convert (d : Dialect) (i : nat) (rs : rawStatement) : result (derror CE) Statement :=
  let name := statementName (rSid rs) i in
  pr ← decodePrincipal d name (rPrincipal rs);
  npr ← decodePrincipal d name (rNotPrincipal rs);
  res ← (if bool_decide (ResourcePrefix d = "") then Ok (rResource rs) else strip_prefix name (ResourcePrefix d) (rResource rs));
  res ← match NormalizeResource d with Some f => rewrite_all name f res | None => Ok res end;
  Ok {| Sid := rSid rs; SEffect := rEffect rs; SPrincipal := pr; NotPrincipal := npr; SAction := rAction rs; SResource := res;
        SCondition := rCondition rs; actionRunes := []; resourceRunes := [] |}.

Fixpoint convert_all (d : Dialect) (i : nat) (l : list rawStatement) : result (derror CE) (list Statement) :=
  match l with
  | [] => Ok []
  | rs :: l => st ← convert d i rs; rest ← convert_all d (S i) l; Ok (st :: rest)
  end.

Definition invalidly {A} (r : result (perror CE) A) : result (derror CE) A :=
  match r with Ok a => Ok a | Err e => Err (Invalid e) end.

(** [Dialect.Parse]. *)
Definition Dialect_Parse (d : Dialect) (bucket text : string) (check : option (string -> option CE)) : result (derror CE) Policy :=
  if MaxPolicyBytes <? Z.of_nat (strings.length text) then Err (PolicyTooLarge (strings.length text))
  else match json.parse text ≫= decode_document with
  | None => Err MalformedPolicy
  | Some doc =>
    sts ← convert_all d 0 (take (dlen doc) (backing doc));
    p ← invalidly (validate {| Version := DVersion doc; PStatement := sts; compileOnce := false |});
    _ ← invalidly (ValidateResourcesFor p bucket);
    _ ← invalidly (checkActions check (map (fun st => (SAction st, Sid st)) (PStatement p)));
    Ok p
  end.

Definition Parse (bucket text : string) (check : option (string -> option CE)) : result (derror CE) Policy :=
  Dialect_Parse default_dialect bucket text check.

End Parse.

(** ** Writing *)

(** A nil slice is written as null. *)
Definition strings_json (l : list string) : value := match l with [] => Null | _ => Array (map Str l) end.

Definition Principal_MarshalJSON (p : Principal) : value :=
  if All p then Str "*" else Object [(DefaultPrincipalKey, strings_json (Users p))].

Definition Condition_MarshalJSON (c : Condition) : value :=
  Object ((if (length (IPAddress c) =? 0)%nat then [] else [(opIPAddress, Object [(SourceIPKey, strings_json (IPAddress c))])]) ++
          (if (length (NotIPAddress c) =? 0)%nat then [] else [(opNotIPAddress, Object [(SourceIPKey, strings_json (NotIPAddress c))])])).

(** A member with [omitempty]. *)
Definition omit_empty (k s : string) : list (string * value) := if bool_decide (s = "") then [] else [(k, Str s)].
Definition omit_nil {A} (k : string) (f : A -> value) (o : option A) : list (string * value) :=
  match o with None => [] | Some a => [(k, f a)] end.

(** [json.Marshal] of a statement and of a policy, by their structure tags. *)
Definition statement_json (st : Statement) : value :=
  Object (omit_empty "Sid" (Sid st) ++ [("Effect", Str (SEffect st))] ++
    omit_nil "Principal" Principal_MarshalJSON (SPrincipal st) ++ omit_nil "NotPrincipal" Principal_MarshalJSON (NotPrincipal st) ++
    [("Action", strings_json (SAction st)); ("Resource", strings_json (SResource st))] ++
    omit_nil "Condition" Condition_MarshalJSON (SCondition st)).

Definition policy_json (p : Policy) : value :=
  Object (omit_empty "Version" (Version p) ++
    [("Statement", match PStatement p with [] => Null | sts => Array (map statement_json sts) end)]).

Definition user_policy_json (up : UserPolicy) : value :=
  Object [("policy", match Statements up with
    | [] => Null
    | sts => Array (map (fun st => Object [("effect", Str (AEffect st)); ("action", strings_json (AAction st))]) sts) end)].

(** [MarshalUserPolicy]; the error is the size. *)
Definition MarshalUserPolicy (up : UserPolicy) : result nat string :=
  let data := Marshal (user_policy_json up) in
  if MaxPolicyBytes <? Z.of_nat (strings.length data) then Err (strings.length data) else Ok data.

End dialect.
