(* ===== verification/DialectFacts.v ===== *)
(** * Correctness of reading policy documents

    A parsed policy is valid and says nothing about another bucket's
    resources, and the JSON a policy is written as is read back as that
    policy. *)

From S2P Require Import Prelude Unicode GoStrings JSON Glob NetIP GoError Policy PolicyFacts Dialect.
Import policy json dialect.

Open Scope Z_scope.

(** ** ASCII runes come from ASCII bytes *)

Ltac bad_rune := exfalso; match goal with H : _ = _ :: _ |- _ => cbn in H end; simplify_eq; unfold rune_error in *; lia.

Lemma lead_inv b m lo hi : lead b = Some (m, lo, hi) ->
  194 <= b /\ 128 <= lo /\ ((m =? 2)%nat = false -> 224 <= b /\ (b = 224 -> lo = 160)) /\
  ((m =? 2)%nat = false -> (m =? 3)%nat = false -> 240 <= b /\ (b = 240 -> lo = 144)).
Proof. unfold lead. intros Hl. repeat (case_match; [simplify_eq/=; bools; repeat split; intros; first [done|lia]|]). done. Qed.

Lemma runes_cons_ascii s r v : runes s = r :: v -> r < 128 -> exists s', s = String (of_byte r) s' /\ runes s' = v.
Proof.
  unfold runes. destruct s as [|c0 s1]; [done|]. pose proof (byte_of_range c0). cbn [decode_chunks]. intros H0 Hr.
  destruct (Z.ltb_spec (byte_of c0) 128).
  { cbn in H0. injection H0 as <- <-. exists s1. by rewrite of_byte_of. }
  destruct (lead (byte_of c0)) as [[[m lo] hi]|] eqn:Hl; [|bad_rune].
  destruct s1 as [|c1 s2]; [bad_rune|]. destruct (in_range (byte_of c1) lo hi) eqn:Hc1; cbn [negb] in H0; [|bad_rune].
  apply lead_inv in Hl as (Hm1 & Hm2 & Hm3 & Hm4).
  unfold in_range in Hc1. bools. exfalso.
  destruct (m =? 2)%nat; [cbn in H0; simplify_eq; lia|]. specialize (Hm3 eq_refl).
  destruct s2 as [|c2 s3]; [bad_rune|].
  destruct (is_cont (byte_of c2)) eqn:Hc2; cbn [negb] in H0; [|bad_rune].
  unfold is_cont, in_range in Hc2. bools.
  destruct (m =? 3)%nat; [cbn in H0; simplify_eq; lia|]. specialize (Hm4 eq_refl eq_refl).
  destruct s3 as [|c3 s4]; [bad_rune|].
  destruct (is_cont (byte_of c3)) eqn:Hc3; cbn [negb] in H0; [|bad_rune].
  unfold is_cont, in_range in Hc3. bools. cbn in H0. simplify_eq. lia.
Qed.

Lemma is_ascii_append s t : is_ascii (s +:+ t) = is_ascii s && is_ascii t.
Proof. induction s as [|c s IH]; [done|]. rewrite append_cons. cbn [is_ascii]. by rewrite IH, andb_assoc. Qed.

Lemma runes_prefix_ascii b s v : is_ascii b = true -> runes s = runes b ++ v -> exists s', s = b +:+ s' /\ runes s' = v.
Proof.
  revert s. induction b as [|c b IH]; intros s Hb H; [by exists s|]. cbn in Hb. apply andb_true_iff in Hb as [Hc Hb]. apply Z.ltb_lt in Hc.
  rewrite runes_ascii_cons in H by done. cbn in H. apply runes_cons_ascii in H as (s1 & -> & H); [|done].
  apply IH in H as (s' & -> & <-); [|done]. exists s'. by rewrite of_byte_of.
Qed.

(** A literal prefix of a pattern is a prefix of what it matches. *)
Definition literal (p : list Z) : Prop := Forall (fun c => c <> Glob.star_rune /\ c <> Glob.question_rune) p.

Lemma glob_literal_prefix seg p v : literal seg -> Glob.glob (seg ++ p) v -> exists w, v = seg ++ w /\ Glob.glob p w.
Proof.
  revert v. induction seg as [|c seg IH]; intros v Hs H; [by exists v|]. cbn in H. apply Forall_cons in Hs as [[Hc Hq] Hs].
  destruct v as [|d v]; [by apply Glob.glob_cons_nil in H|]. apply Glob.glob_cons_literal in H as [[Hc'|Hc'] H]; [done| |done]. subst d.
  apply IH in H as (w & -> & H); [|done]. by exists w.
Qed.

Lemma literal_runes s : is_ascii s = true -> no_char "*" s = true -> no_char "?" s = true -> literal (runes s).
Proof.
  intros Ha. rewrite runes_ascii by done. clear Ha. induction s as [|c s IH]; [constructor|]. cbn [no_char bytes_of]. intros Hs Hq.
  destruct (ascii_dec c "*") as [|Hc]; [done|]. destruct (ascii_dec c "?") as [|Hc']; [done|]. constructor; [|by apply IH].
  split; intros E; [apply Hc|apply Hc']; apply byte_of_inj; rewrite E; by vm_compute.
Qed.

(** ** What [Parse] establishes *)

Section Parsed.
Context {CE : Type}.

(** A resource pattern of the named bucket. *)
Definition of_bucket (bucket res : string) : Prop := res = bucket \/ exists r, res = bucket +:+ "/" +:+ r.

Lemma ValidateResourcesFor_ok p bucket :
  @ValidateResourcesFor CE p bucket = Ok tt <-> Forall (fun st => Forall (of_bucket bucket) (SResource st)) (PStatement p).
Proof.
  unfold ValidateResourcesFor. rewrite each_i_ok, Forall_lookup.
  assert (forall i st, each (fun res => guard (bool_decide (res = bucket) || strings.HasPrefix res (bucket +:+ "/"))
      (@ForeignResource CE (statementName (Sid st) i) res bucket)) (SResource st) = Ok tt <-> Forall (of_bucket bucket) (SResource st)) as H.
  { intros i st. rewrite each_ok. apply Forall_iff. intros res. unfold guard, of_bucket.
    destruct (bool_decide (res = bucket)) eqn:Hb; bools; [by split; [left|]|]. cbn [orb].
    destruct (strings.HasPrefix res (bucket +:+ "/")) eqn:Hp.
    - split; [intros _|done]. right. apply HasPrefix_true in Hp as [r ->]. exists r. by rewrite append_assoc.
    - split; [done|]. intros [->|[r ->]]; [done|]. rewrite <- not_true_iff_false, HasPrefix_true in Hp. destruct Hp. exists r. by rewrite append_assoc. }
  split; intros Hall i st Hst; [by apply (H i), Hall|by apply (H i), (Hall i)].
Qed.

Lemma checkActions_ok check sts :
  @checkActions CE (Some check) sts = Ok tt -> Forall (fun s => Forall (fun a => check a = None) s.1) sts.
Proof.
  unfold checkActions. destruct (length _ =? 0)%nat eqn:Hl; [intros _; bools|done]. apply nil_length_inv in Hl.
  rewrite Forall_lookup. intros i [acts sid] Hs. cbn. apply Forall_forall. intros a Ha.
  destruct (check a) as [e|] eqn:He; [|done]. exfalso.
  assert ((check_name i sid, e) ∈ concat (imap (fun i '(actions, sid) =>
      omap (fun a => (fun e => (check_name i sid, e)) <$> check a) actions) sts)) as Hin; [|rewrite Hl in Hin; by apply not_elem_of_nil in Hin].
  apply list_elem_of_In, in_concat. exists (omap (fun a => (fun e => (check_name i sid, e)) <$> check a) acts). split.
  - apply list_elem_of_In, list_elem_of_lookup. exists i. rewrite list_lookup_imap, Hs. done.
  - apply list_elem_of_In, list_elem_of_omap. exists a. by rewrite He.
Qed.

Lemma Parse_inv d bucket text check p : @Dialect_Parse CE d bucket text check = Ok p ->
  exists p0, @validate CE p0 = Ok p /\ compileOnce p0 = false /\ @ValidateResourcesFor CE p bucket = Ok tt /\
    checkActions check (map (fun st => (SAction st, Sid st)) (PStatement p)) = Ok tt /\
    Z.of_nat (strings.length text) <= MaxPolicyBytes.
Proof.
  unfold Dialect_Parse. destruct (MaxPolicyBytes <? _) eqn:Hsz; [done|]. bools. destruct (parse text ≫= decode_document) as [doc|]; [|done].
  destruct (convert_all _ _ _) as [sts|] eqn:?; [|done]. cbn [mbind result_bind]. destruct (validate _) as [p'|] eqn:Hv; [|done]. cbn.
  destruct (ValidateResourcesFor p' bucket) as [[]|] eqn:Hr; [|done]. cbn. destruct (checkActions _ _) as [[]|] eqn:Hc; [|done]. cbn. intros [= <-].
  eexists. split; [exact Hv|]. done.
Qed.

Lemma validated_valid p0 p : @validate CE p0 = Ok p -> valid_policy p.
Proof.
  intros H. assert (valid_policy p0) as [Hver Hn _ Hs] by (apply (validate_is_ok (CE := CE)); by rewrite H).
  pose proof (validate_valid_statements _ _ H) as Hst. apply validate_result in H as (H2 & Hv & _).
  constructor; [by rewrite Hv|by rewrite <- (Forall2_length _ _ _ H2)| |].
  - eapply Forall_impl; [exact Hst|]. by intros st [? _].
  - intros i j st st' Hi Hj He Hne. destruct (Forall2_lookup_r _ _ _ _ _ H2 Hi) as (a & Ha & Hav). destruct (Forall2_lookup_r _ _ _ _ _ H2 Hj) as (b & Hb & Hbv).
    apply Statement_validate_result in Hav as (_ & _ & Hav & _), Hbv as (_ & _ & Hbv & _).
    eapply Hs; [exact Ha|exact Hb|by rewrite <- Hav, <- Hbv|by rewrite <- Hav].
Qed.

End Parsed.

(** ** Reading back what was written *)

Definition fresh_condition (c : Condition) : Prop :=
  ipAddress c = [] /\ notIPAddress c = [] /\ compiled c = false /\ invalid c = false.

Definition utf8_all (l : list string) : Prop := Forall (fun s => valid_utf8 s = true) l.

Definition canonical_principal (o : option Principal) : Prop :=
  match o with
  | None => True
  | Some p => utf8_all (Users p) /\ (if All p then Users p = [] else Users p <> [])
  end.

(** A policy as its author builds it: nothing compiled, everyone without
    names, text in UTF-8. *)
Record canonical_statement (st : Statement) : Prop := {
  cs_text : valid_utf8 (Sid st) = true /\ utf8_all (SAction st) /\ utf8_all (SResource st);
  cs_principal : canonical_principal (SPrincipal st) /\ canonical_principal (NotPrincipal st);
  cs_condition : match SCondition st with Some c => fresh_condition c /\ utf8_all (IPAddress c) /\ utf8_all (NotIPAddress c) | None => True end;
  cs_runes : actionRunes st = [] /\ resourceRunes st = [] }.

Definition canonical (p : Policy) : Prop := compileOnce p = false /\ Forall canonical_statement (PStatement p).

Lemma into_strings_Str l : into_strings (map Str l) = Some l.
Proof. induction l as [|s l IH]; [done|]. cbn. by rewrite IH. Qed.

Lemma strings_json_read l : l <> [] -> StringOrSlice_UnmarshalJSON (strings_json l) = Some l.
Proof. destruct l as [|s l]; [done|]. intros _. cbn. by rewrite into_strings_Str. Qed.

Lemma strings_json_wf l : utf8_all l -> well_formed (strings_json l) = true.
Proof.
  intros H. destruct l as [|s l]; [done|]. cbn [strings_json well_formed]. apply forallb_forall. intros v (x & <- & Hx)%in_map_iff.
  unfold utf8_all in H. rewrite Forall_forall in H. by apply H, list_elem_of_In.
Qed.

Lemma strings_json_depth l : depth (strings_json l) <= 1.
Proof.
  destruct l as [|s l]; cbn [strings_json depth]; [lia|]. assert (max_of (map depth (map Str (s :: l))) = 0) as ->; [|lia].
  generalize (s :: l). clear. induction l as [|s l IH]; [done|]. cbn [map]. unfold max_of in *. cbn [foldr]. by rewrite IH.
Qed.

(** The element of a principal that was written, as the decoder finds it. *)
Lemma principal_read {CE} name o : canonical_principal o ->
  @decodePrincipal CE default_dialect name (Principal_MarshalJSON <$> o) = Ok o.
Proof.
  destruct o as [[[] us]|]; [| |done]; cbn; intros [_ Hus]; [by subst|].
  rewrite strings_json_read by done. cbn. by destruct us.
Qed.

Lemma condition_keys_one vs : condition_keys [(SourceIPKey, vs)] = Some vs.
Proof. unfold condition_keys. change (strings.EqualFold SourceIPKey SourceIPKey) with true. cbn. by rewrite app_nil_r. Qed.

Lemma condition_ops_read ip nip :
  ip <> [] \/ nip <> [] ->
  condition_ops empty_condition
    ((if (length ip =? 0)%nat then [] else [(opIPAddress, [(SourceIPKey, ip)])]) ++
     (if (length nip =? 0)%nat then [] else [(opNotIPAddress, [(SourceIPKey, nip)])])) =
  Some {| IPAddress := ip; NotIPAddress := nip; ipAddress := []; notIPAddress := []; compiled := false; invalid := false |}.
Proof.
  intros Hne. destruct ip as [|a ip], nip as [|b nip]; [by destruct Hne| | |]; cbn [length Nat.eqb app condition_ops];
    unfold condition_op; rewrite !condition_keys_one; reflexivity.
Qed.

Lemma condition_read c : fresh_condition c -> IPAddress c <> [] \/ NotIPAddress c <> [] ->
  Condition_UnmarshalJSON (Condition_MarshalJSON c) = Some c.
Proof.
  destruct c as [ip nip ps nps co iv]. unfold fresh_condition. cbn [IPAddress NotIPAddress ipAddress notIPAddress compiled invalid].
  intros (-> & -> & -> & ->) Hne. rewrite <- (condition_ops_read ip nip Hne). unfold Condition_UnmarshalJSON, Condition_MarshalJSON. cbn [IPAddress NotIPAddress].
  destruct ip as [|a ip], nip as [|b nip]; [by destruct Hne| | |]; cbn [length Nat.eqb app]; unfold into_map at 1; cbn [into_entries];
    unfold into_map; cbn [into_entries]; rewrite ?strings_json_read by done; reflexivity.
Qed.

(** *** One statement *)

Definition raw_of (st : Statement) : rawStatement :=
  {| rSid := Sid st; rEffect := SEffect st; rPrincipal := Principal_MarshalJSON <$> SPrincipal st;
     rNotPrincipal := Principal_MarshalJSON <$> NotPrincipal st; rAction := SAction st; rResource := SResource st; rCondition := SCondition st |}.

Lemma set_members_app rs l1 l2 : set_members rs (l1 ++ l2) = rs ← set_members rs l1; set_members rs l2.
Proof. revert rs. induction l1 as [|[k v] l1 IH]; intros rs; [done|]. cbn. destruct (set_member rs k v); [apply IH|done]. Qed.

Lemma set_member_action rs v : set_member rs "Action" v = ss ← StringOrSlice_UnmarshalJSON v;
  Some {| rSid := rSid rs; rEffect := rEffect rs; rPrincipal := rPrincipal rs; rNotPrincipal := rNotPrincipal rs; rAction := ss;
          rResource := rResource rs; rCondition := rCondition rs |}.
Proof. reflexivity. Qed.

Lemma set_member_resource rs v : set_member rs "Resource" v = ss ← StringOrSlice_UnmarshalJSON v;
  Some {| rSid := rSid rs; rEffect := rEffect rs; rPrincipal := rPrincipal rs; rNotPrincipal := rNotPrincipal rs; rAction := rAction rs;
          rResource := ss; rCondition := rCondition rs |}.
Proof. reflexivity. Qed.

Lemma set_member_condition rs v : v <> Null -> set_member rs "Condition" v = co ← Condition_UnmarshalJSON v;
  Some {| rSid := rSid rs; rEffect := rEffect rs; rPrincipal := rPrincipal rs; rNotPrincipal := rNotPrincipal rs; rAction := rAction rs;
          rResource := rResource rs; rCondition := Some co |}.
Proof. intros Hv. unfold set_member. cbn. destruct v; try done; by destruct (Condition_UnmarshalJSON _). Qed.

Lemma statement_read st : canonical_statement st -> valid_statement st ->
  into_statement zero_statement (statement_json st) = Some (raw_of st).
Proof.
  intros [_ _ Hc _] [_ _ Hact _ Hres _ Hcond]. unfold into_statement, statement_json, raw_of.
  rewrite set_members_app. assert (set_members zero_statement (omit_empty "Sid" (Sid st)) =
    Some {| rSid := Sid st; rEffect := ""; rPrincipal := None; rNotPrincipal := None; rAction := []; rResource := []; rCondition := None |}) as ->.
  { unfold omit_empty. destruct (bool_decide (Sid st = "")) eqn:E; [bools; by rewrite E|reflexivity]. }
  cbn [mbind option_bind]. rewrite set_members_app. cbn [set_members].
  assert (forall rs s, set_member rs "Effect" (Str s) = Some {| rSid := rSid rs; rEffect := s; rPrincipal := rPrincipal rs;
    rNotPrincipal := rNotPrincipal rs; rAction := rAction rs; rResource := rResource rs; rCondition := rCondition rs |}) as -> by reflexivity.
  cbn [mbind option_bind rSid rEffect rPrincipal rNotPrincipal rAction rResource rCondition].
  rewrite set_members_app. assert (forall rs, rPrincipal rs = None -> set_members rs (omit_nil "Principal" Principal_MarshalJSON (SPrincipal st)) =
    Some {| rSid := rSid rs; rEffect := rEffect rs; rPrincipal := Principal_MarshalJSON <$> SPrincipal st;
    rNotPrincipal := rNotPrincipal rs; rAction := rAction rs; rResource := rResource rs; rCondition := rCondition rs |}) as Hset;
    [intros [] Hp; cbn in Hp; subst; by destruct (SPrincipal st)|]; rewrite Hset by done; clear Hset.
  cbn [mbind option_bind rSid rEffect rPrincipal rNotPrincipal rAction rResource rCondition].
  rewrite set_members_app. assert (forall rs, rNotPrincipal rs = None -> set_members rs (omit_nil "NotPrincipal" Principal_MarshalJSON (NotPrincipal st)) =
    Some {| rSid := rSid rs; rEffect := rEffect rs; rPrincipal := rPrincipal rs;
    rNotPrincipal := Principal_MarshalJSON <$> NotPrincipal st; rAction := rAction rs; rResource := rResource rs; rCondition := rCondition rs |}) as Hset;
    [intros [] Hp; cbn in Hp; subst; by destruct (NotPrincipal st)|]; rewrite Hset by done; clear Hset.
  cbn [mbind option_bind rSid rEffect rPrincipal rNotPrincipal rAction rResource rCondition app set_members].
  rewrite set_member_action, strings_json_read by (intros E; rewrite E in Hact; cbn in Hact; lia).
  cbn [mbind option_bind rSid rEffect rPrincipal rNotPrincipal rAction rResource rCondition].
  rewrite set_member_resource, strings_json_read by (intros E; rewrite E in Hres; cbn in Hres; lia).
  cbn [mbind option_bind rSid rEffect rPrincipal rNotPrincipal rAction rResource rCondition].
  destruct (SCondition st) as [c|]; [|done]. cbn [omit_nil set_members]. rewrite set_member_condition by done.
  destruct Hc as [Hf _]. rewrite condition_read; [done|done|]. apply Hcond.
Qed.

Lemma convert_read {CE} i st : canonical_statement st -> @convert CE default_dialect i (raw_of st) = Ok st.
Proof.
  intros [_ [Hp Hnp] _ [Ha Hr]]. unfold convert. cbn [raw_of rSid rEffect rPrincipal rNotPrincipal rAction rResource rCondition].
  rewrite (principal_read _ _ Hp). cbn [mbind result_bind]. rewrite (principal_read _ _ Hnp). cbn. destruct st; cbn in *. by subst.
Qed.

Lemma convert_all_read {CE} i sts : Forall canonical_statement sts -> @convert_all CE default_dialect i (map raw_of sts) = Ok sts.
Proof.
  revert i. induction sts as [|st sts IH]; intros i H; [done|]. apply Forall_cons in H as [Hst H]. cbn [map convert_all].
  rewrite convert_read by done. cbn. by rewrite IH.
Qed.

Lemma statements_read sts : Forall (fun st => canonical_statement st /\ valid_statement st) sts ->
  into_statements [] (map statement_json sts) = Some (map raw_of sts).
Proof.
  induction 1 as [|st sts [Hc Hv] _ IH]; [done|]. cbn [map into_statements head tail default]. rewrite statement_read by done. cbn. by rewrite IH.
Qed.

Lemma document_read p : canonical p -> valid_policy p ->
  decode_document (policy_json p) =
  Some {| DVersion := Version p; backing := map raw_of (PStatement p); dlen := length (PStatement p) |}.
Proof.
  intros [_ Hc] [_ Hn Hst _]. unfold decode_document, policy_json.
  assert (forall doc, DVersion doc = Version p -> backing doc = [] -> set_doc_member doc "Statement"
      match PStatement p with [] => Null | sts => Array (map statement_json sts) end =
    Some {| DVersion := Version p; backing := map raw_of (PStatement p); dlen := length (PStatement p) |}) as Hs.
  { intros doc Hv Hb. pose proof (proj2 (Forall_and _ _) (conj Hc Hst)) as Hall. apply statements_read in Hall. unfold set_doc_member. cbn [member_named].
    change (member_named ["Version"; "Statement"] "Statement") with (Some "Statement").
    change (bool_decide ("Statement" = "Version")) with false. cbn iota. rewrite Hb, Hv.
    destruct (PStatement p) as [|st sts]; [cbn in Hn; lia|]. rewrite Hall. cbn [mbind option_bind map].
    rewrite drop_nil, app_nil_r. cbn [length]. by rewrite length_map. }
  unfold omit_empty. destruct (bool_decide (Version p = "")) eqn:E; bools; cbn [app set_doc_members].
  - rewrite Hs; [done|by rewrite E|done].
  - change (set_doc_member {| DVersion := ""; backing := []; dlen := 0 |} "Version" (Str (Version p)))
      with (Some {| DVersion := Version p; backing := []; dlen := 0 |}). cbn [mbind option_bind]. by rewrite Hs.
Qed.

Lemma principal_json_wf p : canonical_principal (Some p) -> well_formed (Principal_MarshalJSON p) = true /\ depth (Principal_MarshalJSON p) <= 2.
Proof.
  intros [Hu _]. unfold Principal_MarshalJSON. destruct (All p); [split; [done|cbn; lia]|]. cbn [well_formed forallb depth map].
  rewrite strings_json_wf by done. pose proof (strings_json_depth (Users p)). unfold max_of. cbn [foldr]. split; [done|lia].
Qed.

Lemma condition_json_wf c : utf8_all (IPAddress c) -> utf8_all (NotIPAddress c) ->
  well_formed (Condition_MarshalJSON c) = true /\ depth (Condition_MarshalJSON c) <= 3.
Proof.
  intros Hi Hn. unfold Condition_MarshalJSON. pose proof (strings_json_depth (IPAddress c)). pose proof (strings_json_depth (NotIPAddress c)).
  destruct (length (IPAddress c) =? 0)%nat, (length (NotIPAddress c) =? 0)%nat; cbn [app well_formed forallb depth map]; unfold max_of; cbn [foldr];
    rewrite ?strings_json_wf by done; (split; [done|lia]).
Qed.

Lemma statement_json_wf st : canonical_statement st -> valid_statement st ->
  well_formed (statement_json st) = true /\ depth (statement_json st) <= 4.
Proof.
  intros [(Hsid & Hact & Hres) [Hp Hnp] Hc _] [He _ _ _ _ _ _]. unfold statement_json. cbn [well_formed depth].
  assert (valid_utf8 (SEffect st) = true) as Heff by (destruct He as [-> | ->]; by vm_compute).
  assert (forall l, Forall (fun m : string * value => (valid_utf8 m.1 && well_formed m.2) = true /\ depth m.2 <= 3) l ->
    forallb (fun '(k, v) => valid_utf8 k && well_formed v) l = true /\ 1 + max_of (map (fun '(_, v) => depth v) l) <= 4) as Hgen.
  { clear. intros l H. split.
    - apply forallb_forall. intros m Hm. rewrite Forall_forall in H. destruct (H m (proj2 (list_elem_of_In _ _) Hm)) as [Hw _]. by destruct m.
    - assert (max_of (map (fun '(_, v) => depth v) l) <= 3); [|lia]. induction H as [|[k v] l [_ Hd] _ IH]; [done|].
      cbn [map]. unfold max_of in *. cbn [foldr]. cbn in Hd. lia. }
  apply Hgen. pose proof (strings_json_depth (SAction st)). pose proof (strings_json_depth (SResource st)).
  rewrite !Forall_app. repeat split.
  - unfold omit_empty. destruct (bool_decide _); [constructor|]. repeat constructor; cbn; [by rewrite Hsid|lia].
  - repeat constructor; cbn; [by rewrite Heff|lia].
  - destruct (SPrincipal st) as [p|]; [|constructor]. apply principal_json_wf in Hp as [Hw Hd]. repeat constructor; cbn -[depth well_formed]; [by rewrite Hw|lia].
  - destruct (NotPrincipal st) as [p|]; [|constructor]. apply principal_json_wf in Hnp as [Hw Hd]. repeat constructor; cbn -[depth well_formed]; [by rewrite Hw|lia].
  - repeat constructor; cbn -[depth well_formed]; rewrite ?strings_json_wf by done; first [done|lia].
  - destruct (SCondition st) as [c|]; [|constructor]. destruct Hc as (_ & Hi & Hn). destruct (condition_json_wf c Hi Hn) as [Hw Hd].
    repeat constructor; cbn -[depth well_formed]; [by rewrite Hw|lia].
Qed.

Lemma policy_json_wf p : canonical p -> valid_policy p -> well_formed (policy_json p) = true /\ depth (policy_json p) <= maxNestingDepth.
Proof.
  intros [_ Hc] [Hv _ Hst _]. assert (valid_utf8 (Version p) = true) as Hver by (destruct Hv as [->|[->| ->]]; by vm_compute).
  assert (well_formed match PStatement p with [] => Null | sts => Array (map statement_json sts) end = true /\
    depth match PStatement p with [] => Null | sts => Array (map statement_json sts) end <= 5) as [Hw Hd].
  { pose proof (proj2 (Forall_and _ _) (conj Hc Hst)) as Hall. destruct (PStatement p) as [|st sts]; [split; [done|cbn; lia]|]. clear -Hall. revert Hall. generalize (st :: sts). intros l Hall.
    cbn [well_formed depth]. induction Hall as [|x l [H1 H2] _ IH]; [done|]. destruct (statement_json_wf x H1 H2) as [Hw Hd]. cbn [map forallb].
    unfold max_of in *. cbn [foldr]. rewrite Hw. destruct IH. split; [done|]. lia. }
  unfold policy_json, omit_empty, maxNestingDepth. revert Hw Hd. generalize (match PStatement p with [] => Null | sts => Array (map statement_json sts) end). intros v Hw Hd.
  destruct (bool_decide _); cbn [app well_formed forallb depth map]; unfold max_of; cbn [foldr];
    rewrite Hw, ?Hver; (split; [done|cbn [depth]; lia]).
Qed.

(** ** Theorems *)

(** C23. A parsed policy is one the evaluator may trust, whatever the dialect and
    the text: it satisfies every documented limit, nothing in it is compiled
    from elsewhere, each of its resources is a pattern of the named bucket, the
    caller's checker knew each of its actions, and the text was within the size
    limit. *)
Theorem Parse_sound {CE} d bucket text (check : string -> option CE) p :
  Dialect_Parse d bucket text (Some check) = Ok p ->
  valid_policy p /\ compileOnce p = false /\
  Forall (fun st => Forall (of_bucket bucket) (SResource st)) (PStatement p) /\
  Forall (fun st => Forall (fun a => check a = None) (SAction st)) (PStatement p) /\
  Z.of_nat (strings.length text) <= MaxPolicyBytes.
Proof.
  intros (p0 & Hv & Hc & Hr & Ha & Hs)%Parse_inv. split; [by eapply validated_valid|].
  split; [by destruct (validate_result _ _ Hv) as (_ & _ & ->)|]. split; [by apply ValidateResourcesFor_ok in Hr|]. split; [|done].
  apply checkActions_ok in Ha. rewrite Forall_map in Ha. exact Ha.
Qed.

(** C24. A bucket's policy decides nothing about another bucket: a policy parsed
    for a bucket whose name has no wildcard answers "no statement" for every
    resource that is neither the bucket nor one of its objects. *)
Theorem Parse_confined {CE} d bucket text check p principal action resource rc :
  @Dialect_Parse CE d bucket text check = Ok p ->
  is_ascii bucket = true -> no_char "*" bucket = true -> no_char "?" bucket = true ->
  DEffect (Decide p principal action resource rc) <> NoEffect ->
  resource = bucket \/ exists r, resource = bucket +:+ "/" +:+ r.
Proof.
  intros (p0 & Hv & Hc & Hr & _ & _)%Parse_inv Ha Hstar Hq Hd.
  apply ValidateResourcesFor_ok in Hr. destruct (validate_result _ _ Hv) as (_ & _ & Hc').
  assert (exists st, st ∈ PStatement (compile_once p) /\ applies principal (request_runes action) (runes resource) (unmap_rc rc) st = true) as (st & Hst & Hap).
  { rewrite Decide_spec in Hd. unfold decide_spec in Hd. destruct (find_index (denies _ _ _ _) _) as [k|] eqn:Hk.
    - apply find_index_Some in Hk as [(st & Hst & Hap) _]. exists st. split; [by eapply list_elem_of_lookup_2|]. unfold denies in Hap. by bools.
    - destruct (find_index (applies _ _ _ _) _) as [k|] eqn:Hk'; [|done]. apply find_index_Some in Hk' as [(st & Hst & Hap) _].
      exists st. split; [by eapply list_elem_of_lookup_2|done]. }
  unfold compile_once in Hst. rewrite Hc', Hc in Hst. apply list_elem_of_fmap in Hst as (st0 & -> & Hst0).
  unfold applies in Hap. apply andb_true_iff in Hap as [_ Hm]. cbn [Statement_compile resourceRunes] in Hm.
  apply Glob.matchAnyRunes_exists in Hm as (pat & Hpat & Hm). apply Glob.matchRunes_sound in Hm.
  unfold Glob.patternRunes in Hpat. apply list_elem_of_fmap in Hpat as (res & -> & Hres).
  rewrite Forall_forall in Hr. specialize (Hr _ Hst0). rewrite Forall_forall in Hr. destruct (Hr _ Hres) as [->|[r ->]].
  - left. rewrite <- (app_nil_r (runes bucket)) in Hm. apply glob_literal_prefix in Hm as (w & Hw & Hm); [|by apply literal_runes].
    inversion Hm; subst. apply runes_prefix_ascii in Hw as (s' & -> & Hs'); [|done].
    destruct s' as [|c s']; [by rewrite append_nil_r|]. unfold runes in Hs'. cbn in Hs'. repeat case_match; discriminate Hs'.
  - right. assert (is_ascii (bucket +:+ "/") = true) as Hsl by (by rewrite is_ascii_append, Ha).
    rewrite <- append_assoc, runes_app_ascii in Hm by done. apply glob_literal_prefix in Hm as (w & Hw & _).
    + apply runes_prefix_ascii in Hw as (s' & -> & _); [|done]. exists s'. by rewrite append_assoc.
    + apply literal_runes; [done|rewrite no_char_append, Hstar; done|rewrite no_char_append, Hq; done].
Qed.

(** C25. Writing a policy and reading it back is the identity: the JSON of a
    policy that validates, for the bucket and the actions it names, is parsed
    to exactly what validation makes of it. *)
Theorem Parse_Marshal {CE} bucket (check : option (string -> option CE)) p0 p :
  canonical p0 -> @validate CE p0 = Ok p ->
  ValidateResourcesFor (CE := CE) p bucket = Ok tt ->
  checkActions check (map (fun st => (SAction st, Sid st)) (PStatement p)) = Ok tt ->
  Z.of_nat (strings.length (Marshal (policy_json p0))) <= MaxPolicyBytes ->
  Parse bucket (Marshal (policy_json p0)) check = Ok p.
Proof.
  intros Hcan Hv Hr Hc Hsz. assert (valid_policy p0) as Hvalid by (apply (validate_is_ok (CE := CE)); by rewrite Hv).
  destruct (policy_json_wf p0 Hcan Hvalid) as [Hw Hd].
  unfold Parse, Dialect_Parse. destruct (Z.ltb_spec MaxPolicyBytes (Z.of_nat (strings.length (Marshal (policy_json p0))))); [lia|].
  rewrite parse_Marshal by done. cbn [mbind option_bind]. rewrite document_read by done. cbn [backing dlen DVersion].
  rewrite take_ge by (rewrite length_map; lia). destruct Hcan as [Hco Hst]. rewrite convert_all_read by done. cbn [mbind result_bind].
  assert ({| Version := Version p0; PStatement := PStatement p0; compileOnce := false |} = p0) as -> by (destruct p0; cbn in *; by subst).
  rewrite Hv. cbn. rewrite Hr. cbn. by rewrite Hc.
Qed.

(** ** Witnesses *)

Definition demo_text : string := text_of
  "{'version':'2012-10-17','Statement':[{'Sid':'s','Effect':'Allow','Principal':{'S3RP':['acme/bob']},'Action':'s3:GetObject','Resource':['photos/*']}]}".

Definition demo_statement : Statement :=
  {| Sid := "s"; SEffect := "Allow"; SPrincipal := Some {| All := false; Users := ["acme/bob"] |}; NotPrincipal := None;
     SAction := ["s3:GetObject"]; SResource := ["photos/*"];
     SCondition := Some {| IPAddress := ["192.0.2.0/24"]; NotIPAddress := []; ipAddress := []; notIPAddress := []; compiled := false; invalid := false |};
     actionRunes := []; resourceRunes := [] |}.

Definition demo_document : Policy := {| Version := "2012-10-17"; PStatement := [demo_statement]; compileOnce := false |}.

Definition demo_parsed : Policy :=
  {| Version := "2012-10-17"; compileOnce := false; PStatement :=
    [{| Sid := "s"; SEffect := "Allow"; SPrincipal := Some {| All := false; Users := ["acme/bob"] |}; NotPrincipal := None;
        SAction := ["s3:GetObject"]; SResource := ["photos/*"]; SCondition := None; actionRunes := []; resourceRunes := [] |}] |}.

Definition no_errors (_ : string) : option unit := None.

Lemma demo_text_parses : Parse "photos" demo_text (Some no_errors) = Ok demo_parsed.
Proof. vm_refl. Qed.

Lemma Parse_sound_witness : valid_policy demo_parsed /\ Forall (fun st => Forall (of_bucket "photos") (SResource st)) (PStatement demo_parsed).
Proof.
  pose proof (Parse_sound default_dialect "photos" demo_text no_errors demo_parsed demo_text_parses) as (Hv & _ & Hr & _). split; [exact Hv|exact Hr].
Defined.

Lemma Parse_confined_witness :
  DEffect (Decide demo_parsed "acme/bob" "s3:GetObject" "photos/a.png" {| SourceIP := netip.Zero |}) = Allow /\
  ("photos/a.png" = "photos" \/ exists r, "photos/a.png" = "photos" +:+ "/" +:+ r).
Proof.
  assert (DEffect (Decide demo_parsed "acme/bob" "s3:GetObject" "photos/a.png" {| SourceIP := netip.Zero |}) = Allow) as H by vm_refl.
  split; [exact H|].
  apply (Parse_confined default_dialect "photos" demo_text (Some no_errors) demo_parsed "acme/bob" "s3:GetObject" "photos/a.png" {| SourceIP := netip.Zero |} demo_text_parses);
    [vm_refl..|]. rewrite H. discriminate.
Defined.

Definition demo_validated : Policy :=
  match @validate unit demo_document with Ok p => p | Err _ => demo_document end.

Lemma Parse_Marshal_witness : Parse "photos" (Marshal (policy_json demo_document)) (Some no_errors) = Ok demo_validated.
Proof.
  apply (Parse_Marshal "photos" (Some no_errors) demo_document demo_validated).
  - split; [reflexivity|]. repeat constructor; cbn; try (by vm_compute); done.
  - vm_refl.
  - vm_refl.
  - vm_refl.
  - vm_compute. discriminate.
Defined.

(** An array that follows a longer one under a repeated name keeps the members
    its elements do not set. *)
Example statement_reuse :
  (fun doc => map rEffect (take (dlen doc) (backing doc))) <$>
    (parse (text_of "{'Statement':[{'Effect':'Deny'},{'Effect':'Allow'}],'Statement':[{}]}") ≫= decode_document) = Some ["Deny"].
Proof. vm_refl. Qed.
Example null_action : StringOrSlice_UnmarshalJSON Null = Some [""].
Proof. vm_refl. Qed.
