(* ===== verification/Crypto.v ===== *)
(** * SHA-256 and HMAC-SHA-256 (Go's [crypto/sha256], [crypto/hmac])

    FIPS 180-4 and RFC 2104 on byte strings, executable and checked on
    published vectors.  The signature verifier is proved correct against these
    functions; no security property of them is assumed anywhere. *)

From S2P Require Import Prelude Unicode GoStrings.

Open Scope Z_scope.

Module sha256.

Definition Size : nat := 32.

Definition w32 (z : Z) : Z := Z.land z (Z.ones 32).
Definition rotr (n : Z) (x : Z) : Z := Z.lor (Z.shiftr x n) (w32 (Z.shiftl x (32 - n))).
Definition Ch (x y z : Z) : Z := Z.lxor (Z.land x y) (Z.land (Z.lxor x (Z.ones 32)) z).
Definition Maj (x y z : Z) : Z := Z.lxor (Z.lxor (Z.land x y) (Z.land x z)) (Z.land y z).
Definition S0 (x : Z) : Z := Z.lxor (Z.lxor (rotr 2 x) (rotr 13 x)) (rotr 22 x).
Definition S1 (x : Z) : Z := Z.lxor (Z.lxor (rotr 6 x) (rotr 11 x)) (rotr 25 x).
Definition s0 (x : Z) : Z := Z.lxor (Z.lxor (rotr 7 x) (rotr 18 x)) (Z.shiftr x 3).
Definition s1 (x : Z) : Z := Z.lxor (Z.lxor (rotr 17 x) (rotr 19 x)) (Z.shiftr x 10).

(** FIPS 180-4, 4.2.2 and 5.3.3: the constants are the first bits of the
    fractional parts of the cube roots and the square roots of the first
    primes, so they are computed rather than listed. *)
Definition is_prime (n : Z) : bool :=
  forallb (fun d => negb (n mod d =? 0)) (map Z.of_nat (seq 2 (Z.to_nat n - 2))).
Definition primes : list Z :=
  Eval vm_compute in List.filter is_prime (map Z.of_nat (seq 2 410)).

(** The largest [r] below [2^bits] whose cube is at most [n], bit by bit. *)
Fixpoint cbrt_bits (bits : nat) (n acc : Z) : Z :=
  match bits with
  | O => acc
  | S b => let r := acc + 2 ^ Z.of_nat b in cbrt_bits b n (if r * r * r <=? n then r else acc)
  end.

Definition K : list Z :=
  Eval vm_compute in map (fun p => w32 (cbrt_bits 40 (p * 2 ^ 96) 0)) (take 64 primes).

Definition H0 : list Z :=
  Eval vm_compute in map (fun p => w32 (Z.sqrt (p * 2 ^ 64))) (take 8 primes).

(** The message schedule, newest word first. *)
Fixpoint extend (n : nat) (w : list Z) : list Z :=
  match n with
  | O => w
  | S n => extend n (w32 (s1 (nth 1 w 0) + nth 6 w 0 + s0 (nth 14 w 0) + nth 15 w 0) :: w)
  end.

Definition round (st : list Z) (kw : Z * Z) : list Z :=
  match st with
  | [a; b; c; d; e; f; g; h] =>
    let t1 := h + S1 e + Ch e f g + kw.1 + kw.2 in
    let t2 := S0 a + Maj a b c in
    [w32 (t1 + t2); a; b; c; w32 (d + t1); e; f; g]
  | _ => st
  end.

Definition compress (st : list Z) (block : list Z) : list Z :=
  let w := reverse (extend 48 (reverse block)) in
  zip_with (fun x y => w32 (x + y)) st (fold_left round (zip K w) st).

(** Big-endian words of a list of bytes. *)
Fixpoint words (l : list Z) : list Z :=
  match l with
  | a :: b :: c :: d :: l => (((a * 256 + b) * 256 + c) * 256 + d) :: words l
  | _ => []
  end.

Definition word_bytes (w : Z) : list Z :=
  [Z.land (Z.shiftr w 24) 255; Z.land (Z.shiftr w 16) 255; Z.land (Z.shiftr w 8) 255; Z.land w 255].

Definition pad (l : list Z) : list Z :=
  let n := length l in
  let zeros := ((119 - n mod 64) mod 64)%nat in
  let bits := Z.of_nat n * 8 in
  l ++ [128] ++ replicate zeros 0 ++ word_bytes (Z.shiftr bits 32) ++ word_bytes (w32 bits).

Fixpoint blocks (fuel : nat) (st : list Z) (ws : list Z) : list Z :=
  match fuel, ws with
  | S f, _ :: _ => blocks f (compress st (take 16 ws)) (drop 16 ws)
  | _, _ => st
  end.

Definition sum_bytes (l : list Z) : list Z :=
  let ws := words (pad l) in
  concat (map word_bytes (blocks (length ws) H0 ws)).

Definition bytes_Z (s : string) : list Z := map byte_of (String.list_ascii_of_string s).
Definition Z_bytes (l : list Z) : string := String.string_of_list_ascii (map of_byte l).

(** [sha256.Sum256]. *)
Definition Sum256 (s : string) : string := Z_bytes (sum_bytes (bytes_Z s)).

End sha256.

Module hmac.

Definition pad_key (k : string) : list Z :=
  let k := if (64 <? strings.length k)%nat then sha256.Sum256 k else k in
  let l := sha256.bytes_Z k in
  l ++ replicate (64 - length l) 0.

(** [hmac.New(sha256.New, key)] over [data]. *)
Definition SHA256 (key data : string) : string :=
  let k := pad_key key in
  let inner := sha256.sum_bytes (map (Z.lxor 54) k ++ sha256.bytes_Z data) in
  sha256.Z_bytes (sha256.sum_bytes (map (Z.lxor 92) k ++ inner)).

End hmac.

(** ** Shape of the digests *)

Lemma length_Z_bytes l : strings.length (sha256.Z_bytes l) = length l.
Proof. unfold sha256.Z_bytes, strings.length. induction l as [|x l IH]; simpl; [done|]. by rewrite IH. Qed.

Lemma compress_length st b : length st = 8%nat -> length (sha256.compress st b) = 8%nat.
Proof.
  intros Hst. unfold sha256.compress. rewrite length_zip_with, Hst.
  assert (forall l st, length st = 8%nat -> length (fold_left sha256.round l st) = 8%nat) as H.
  { clear. induction l as [|kw l IH]; intros st Hst; simpl; [done|]. apply IH.
    do 8 (destruct st as [|? st]; [done|]). destruct st; [done|done]. }
  rewrite H; done.
Qed.

Lemma blocks_length fuel st ws : length st = 8%nat -> length (sha256.blocks fuel st ws) = 8%nat.
Proof.
  revert st ws; induction fuel as [|f IH]; intros st ws Hst; simpl; [done|].
  destruct ws; [done|]. apply IH. by apply compress_length.
Qed.

Lemma sum_bytes_length l : length (sha256.sum_bytes l) = 32%nat.
Proof.
  unfold sha256.sum_bytes. set (st := sha256.blocks _ _ _).
  assert (length st = 8%nat) as H by (by apply blocks_length).
  clearbody st. do 8 (destruct st as [|? st]; [done|]). by destruct st.
Qed.

Lemma Sum256_length s : strings.length (sha256.Sum256 s) = sha256.Size.
Proof. unfold sha256.Sum256. rewrite length_Z_bytes. apply sum_bytes_length. Qed.

Lemma hmac_length k d : strings.length (hmac.SHA256 k d) = sha256.Size.
Proof. unfold hmac.SHA256. rewrite length_Z_bytes. apply sum_bytes_length. Qed.

#[global] Arguments sha256.Sum256 : simpl never.
#[global] Arguments sha256.sum_bytes : simpl never.
#[global] Arguments hmac.SHA256 : simpl never.

(** ** Published vectors *)

Example sha256_abc : hex.EncodeToString (sha256.Sum256 "abc") = "ba7816bf8f01cfea414140de5dae2223b00361a396177a9cb410ff61f20015ad".
Proof. vm_refl. Qed.

Example sha256_empty : hex.EncodeToString (sha256.Sum256 "") = "e3b0c44298fc1c149afbf4c8996fb92427ae41e4649b934ca495991b7852b855".
Proof. vm_refl. Qed.

Example sha256_two_blocks :
  hex.EncodeToString (sha256.Sum256 "abcdbcdecdefdefgefghfghighijhijkijkljklmklmnlmnomnopnopq")
  = "248d6a61d20638b8e5c026930c3e6039a33ce45964ff2167f6ecedd419db06c1".
Proof. vm_refl. Qed.

Example hmac_rfc4231_2 :
  hex.EncodeToString (hmac.SHA256 "Jefe" "what do ya want for nothing?")
  = "5bdcc146bf60754e6a042426089575c75a003f089d2739839dec58b964ec3843".
Proof. vm_refl. Qed.
