(* ===== verification/GoNet.v ===== *)
(** * URLs, query strings, headers and requests (Go's [net/url], [net/http])

    What the gateway reads of a request.  A [url.Values] or [http.Header] is
    the list of its keys with their values, in the order the map happens to be
    iterated; keys are distinct ([ParseQuery] and [Header_Set] keep them so). *)

From S2P Require Import Prelude Unicode GoStrings.

Open Scope Z_scope.

Definition is_one_of (c : ascii) (cs : string) : bool := negb (no_char c cs).

Definition values := list (string * list string).

(** Operations common to both maps. *)
Fixpoint vget (m : values) (k : string) : list string :=
  match m with
  | [] => []
  | (k', vs) :: m => if bool_decide (k' = k) then vs else vget m k
  end.

Module url.

Inductive encoding := encodePath | encodePathSegment | encodeHost | encodeUserPassword | encodeQueryComponent.

Definition alnum (c : ascii) : bool :=
  let b := byte_of c in in_range b 97 122 || in_range b 65 90 || in_range b 48 57.

Definition shouldEscape (c : ascii) (mode : encoding) : bool :=
  if alnum c then false
  else if match mode with
          | encodeHost => is_one_of c "!$&'()*+,;=:[]<>" || (byte_of c =? 34)
          | _ => false
          end then false
  else if is_one_of c "-_.~" then false
  else if is_one_of c "$&+,/:;=?@" then
    match mode with
    | encodePath => is_one_of c "?"
    | encodePathSegment => is_one_of c "/;,?"
    | encodeUserPassword => is_one_of c "@/?:"
    | encodeQueryComponent => true
    | encodeHost => true
    end
  else true.

Definition upper_hex (v : Z) : ascii := of_byte (if v <? 10 then 48 + v else 55 + v).

Fixpoint escape (s : string) (mode : encoding) : string :=
  match s with
  | EmptyString => EmptyString
  | String c r =>
    if match mode with encodeQueryComponent => byte_of c =? 32 | _ => false end
    then String "+" (escape r mode)
    else if shouldEscape c mode
    then String "%" (String (upper_hex (byte_of c / 16)) (String (upper_hex (byte_of c mod 16)) (escape r mode)))
    else String c (escape r mode)
  end.

Definition hexv (c : ascii) : option Z :=
  match strconv.digit_val c with Some d => if d <? 16 then Some d else None | None => None end.

(** [unescape]; [None] is the escape or host error. *)
Fixpoint unescape (s : string) (mode : encoding) : option string :=
  match s with
  | EmptyString => Some EmptyString
  | String c r =>
    if ascii_dec c "%" then
      match r with
      | String h (String l r') =>
        match hexv h, hexv l with
        | Some hv, Some lv =>
          if match mode with encodeHost => (hv <? 8) && negb ((hv =? 2) && (lv =? 5)) | _ => false end
          then None
          else String (of_byte (hv * 16 + lv)) <$> unescape r' mode
        | _, _ => None
        end
      | _ => None
      end
    else if ascii_dec c "+" then
      String (match mode with encodeQueryComponent => " "%char | _ => "+"%char end) <$> unescape r mode
    else if match mode with encodeHost => (byte_of c <? 128) && shouldEscape c mode | _ => false end then None
    else String c <$> unescape r mode
  end.

Definition PathUnescape (s : string) : option string := unescape s encodePathSegment.
Definition QueryUnescape (s : string) : option string := unescape s encodeQueryComponent.

(** *** Values *)

Definition Values := values.

Fixpoint add (m : values) (k v : string) : values :=
  match m with
  | [] => [(k, [v])]
  | (k', vs) :: m => if bool_decide (k' = k) then (k', vs ++ [v]) :: m else (k', vs) :: add m k v
  end.

Definition Get (m : values) (k : string) : string := default "" (head (vget m k)).
Definition Has (m : values) (k : string) : bool := existsb (fun p => bool_decide (p.1 = k)) m.
Definition Del (m : values) (k : string) : values := filter (fun p => p.1 <> k) m.

(** One [&]-separated piece of a query; pieces that do not decode are
    dropped, as [URL.Query] does. *)
Definition parse_pair (m : values) (piece : string) : values :=
  if strings.Contains piece ";" then m
  else if bool_decide (piece = "") then m
  else
    let '(k, v, _) := strings.Cut piece "=" in
    match QueryUnescape k, QueryUnescape v with
    | Some k, Some v => add m k v
    | _, _ => m
    end.

Definition ParseQuery (q : string) : values := fold_left parse_pair (strings.Split q "&") [].

(** [Values.Encode]: sorted by key, the values of a key in order. *)
Definition insert_sorted (p : string * list string) (m : values) : values :=
  (fix go m := match m with
    | [] => [p]
    | q :: m => if strings.leb p.1 q.1 then p :: q :: m else q :: go m
    end) m.
Definition sort_keys (m : values) : values := foldr insert_sorted [] m.

Definition Encode (m : values) : string :=
  strings.Join (concat (map (fun '(k, vs) =>
    map (fun v => escape k encodeQueryComponent +:+ "=" +:+ escape v encodeQueryComponent) vs) (sort_keys m))) "&".

(** *** URL *)

Record URL := { Scheme : string; Opaque : string; Host : string; Path : string; RawPath : string; RawQuery : string }.

Definition Query (u : URL) : values := ParseQuery (RawQuery u).

Fixpoint valid_encoded (s : string) (mode : encoding) : bool :=
  match s with
  | EmptyString => true
  | String c r => (is_one_of c "!$&'()*+,;=:@[]%" || negb (shouldEscape c mode)) && valid_encoded r mode
  end.

Definition EscapedPath (u : URL) : string :=
  let fallback := if bool_decide (Path u = "*") then "*" else escape (Path u) encodePath in
  if negb (bool_decide (RawPath u = "")) && valid_encoded (RawPath u) encodePath then
    match unescape (RawPath u) encodePath with
    | Some p => if bool_decide (p = Path u) then RawPath u else fallback
    | None => fallback
    end
  else fallback.

(** [getScheme]: [None] is the missing-scheme error. *)
Definition scheme_char (first : bool) (c : ascii) : option bool :=
  let b := byte_of c in
  if in_range b 97 122 || in_range b 65 90 then Some true
  else if in_range b 48 57 || is_one_of c "+-." then Some (negb first)
  else None.

Fixpoint get_scheme (s : string) (first : bool) : option (option (string * string)) :=
  match s with
  | EmptyString => Some None
  | String c r =>
    if ascii_dec c ":" then if first then None else Some (Some ("", r))
    else match scheme_char first c with
         | Some true => match get_scheme r false with
                        | Some (Some (a, b)) => Some (Some (String c a, b))
                        | o => o
                        end
         | _ => Some None
         end
  end.

Fixpoint has_ctl (s : string) : bool :=
  match s with EmptyString => false | String c r => (byte_of c <? 32) || (byte_of c =? 127) || has_ctl r end.

Definition valid_userinfo_char (c : ascii) : bool := alnum c || is_one_of c "-._:~!$&'()*+,;=%@".

Fixpoint all_of (f : ascii -> bool) (s : string) : bool :=
  match s with EmptyString => true | String c s => f c && all_of f s end.

Definition last_cut (s : string) (c : ascii) : option (string * string) :=
  match strings.cut_at (strings.rev s) (String c "") with
  | Some (b, a) => Some (strings.rev a, strings.rev b)
  | None => None
  end.

Definition valid_port (p : string) : bool := all_of (fun c => in_range (byte_of c) 48 57) p.

(** [parseHost]: a bracketed literal closes and is followed by an optional
    port; otherwise the part after the last colon is a port. *)
Definition parse_host (h : string) : option string :=
  match h with
  | String "[" _ =>
    match last_cut h "]" with
    | Some (a, rest) =>
      match rest with
      | EmptyString => unescape h encodeHost
      | String ":" p => if valid_port p then unescape h encodeHost else None
      | _ => None
      end
    | None => None
    end
  | _ => match last_cut h ":" with
         | Some (_, p) => if valid_port p then unescape h encodeHost else None
         | None => unescape h encodeHost
         end
  end.

Definition parse_authority (a : string) : option string :=
  match last_cut a "@" with
  | None => parse_host a
  | Some (ui, h) =>
    h ← parse_host h;
    if all_of valid_userinfo_char ui && bool_decide (is_Some (unescape ui encodeUserPassword)) then Some h else None
  end.

Definition set_path (sch host query p : string) : option URL :=
  path ← unescape p encodePath;
  Some {| Scheme := sch; Opaque := ""; Host := host; Path := path;
          RawPath := if bool_decide (p = escape path encodePath) then "" else p; RawQuery := query |}.

(** [url.parse]; [viaRequest] distinguishes [ParseRequestURI] from [Parse]. *)
Definition parse (raw : string) (viaRequest : bool) : option URL :=
  if has_ctl raw || (bool_decide (raw = "") && viaRequest) then None
  else if bool_decide (raw = "*")
  then Some {| Scheme := ""; Opaque := ""; Host := ""; Path := "*"; RawPath := ""; RawQuery := "" |}
  else
    o ← get_scheme raw true;
    let '(sch, rest) := match o with Some (a, b) => (strings.ToLower a, b) | None => ("", raw) end in
    let '(rest, query, _) := strings.Cut rest "?" in
    let '(segment, _, _) := strings.Cut rest "/" in
    if negb (strings.HasPrefix rest "/") && negb (bool_decide (sch = ""))
    then Some {| Scheme := sch; Opaque := rest; Host := ""; Path := ""; RawPath := ""; RawQuery := query |}
    else if negb (strings.HasPrefix rest "/") && (viaRequest || negb (no_char ":" segment)) then None
    else match strings.CutPrefix rest "//" with
    | Some auth =>
      if negb (bool_decide (sch = "")) || (negb viaRequest && negb (strings.HasPrefix rest "///")) then
        let '(authority, path) := match strings.cut_at auth "/" with
          | Some (a, b) => (a, "/" +:+ b)
          | None => (auth, "")
          end in
        host ← parse_authority authority; set_path sch host query path
      else set_path sch "" query rest
    | None => set_path sch "" query rest
    end.

Definition ParseRequestURI (raw : string) : option URL := parse raw true.

(** [url.Parse]; the fragment only has to unescape. *)
Definition Parse (raw : string) : option URL :=
  let '(u, frag, _) := strings.Cut raw "#" in
  r ← parse u false;
  if bool_decide (frag = "") then Some r
  else match unescape frag encodePath with Some _ => Some r | None => None end.

End url.

Module http.

Definition Header := values.

Definition token_byte (c : ascii) : bool := url.alnum c || is_one_of c "!#$%&'*+-.^_`|~".

Fixpoint canon (upper : bool) (s : string) : string :=
  match s with
  | EmptyString => EmptyString
  | String c r =>
    let b := byte_of c in
    let b := if upper && in_range b 97 122 then b - 32 else if negb upper && in_range b 65 90 then b + 32 else b in
    String (of_byte b) (canon (b =? 45) r)
  end.

(** [http.CanonicalHeaderKey]. *)
Definition CanonicalHeaderKey (s : string) : string := if url.all_of token_byte s then canon true s else s.

Definition HGet (h : Header) (k : string) : string := default "" (head (vget h (CanonicalHeaderKey k))).
Definition HValues (h : Header) (k : string) : list string := vget h (CanonicalHeaderKey k).

(** [h[k] = vs], the key used as it is. *)
Fixpoint set_raw (h : Header) (k : string) (vs : list string) : Header :=
  match h with
  | [] => [(k, vs)]
  | (k', ws) :: h => if bool_decide (k' = k) then (k', vs) :: h else (k', ws) :: set_raw h k vs
  end.

Definition HSet (h : Header) (k v : string) : Header := set_raw h (CanonicalHeaderKey k) [v].

Record Request := {
  Method : string;
  RequestURI : string;
  URL : url.URL;
  Header_ : Header;
  Host : string;
  ContentLength : Z;
  RemoteAddr : string }.

End http.

Example canonical_1 : http.CanonicalHeaderKey "x-amz-content-SHA256" = "X-Amz-Content-Sha256".
Proof. vm_refl. Qed.
Example canonical_2 : http.CanonicalHeaderKey "bad header" = "bad header".
Proof. vm_refl. Qed.
Example query_1 : url.ParseQuery "a=1&b=%20x+y&a=2&c&;d=1&e=%zz" = [("a", ["1"; "2"]); ("b", [" x y"]); ("c", [""])].
Proof. vm_refl. Qed.
Example encode_1 : url.Encode [("b", ["x y"]); ("a", ["1"; "/"])] = "a=1&a=%2F&b=x+y".
Proof. vm_refl. Qed.
Example escaped_1 : url.EscapedPath <$> url.ParseRequestURI "/b/a%2Fb?x=1" = Some "/b/a%2Fb".
Proof. vm_refl. Qed.
Example escaped_2 : url.EscapedPath <$> url.ParseRequestURI "http://h:80/b/k%41" = Some "/b/k%41".
Proof. vm_refl. Qed.
