(* ===== verification/GoTime.v ===== *)
(** * Times (Go's [time]), for the formats the signatures use

    A parsed time is kept as its civil fields in UTC, [instant] is its number
    of nanoseconds since the Unix epoch, and the current time is such a number.
    [Sub] saturates and [Duration] arithmetic wraps, as int64 does. *)

From S2P Require Import Prelude Unicode GoStrings.

Open Scope Z_scope.

Module time.

Definition Second : Z := 1000000000.
Definition Minute : Z := 60 * Second.
Definition Hour : Z := 60 * Minute.

Record Time := { year : Z; month : Z; day : Z; hour : Z; minute : Z; sec : Z; nsec : Z }.

#[export] Instance Time_eq_dec : EqDecision Time.
Proof. solve_decision. Defined.

Definition leap (y : Z) : bool := ((y mod 4 =? 0) && negb (y mod 100 =? 0)) || (y mod 400 =? 0).

Definition days_in (y m : Z) : Z :=
  if m =? 2 then if leap y then 29 else 28
  else if (m =? 4) || (m =? 6) || (m =? 9) || (m =? 11) then 30 else 31.

(** Days from 1970-01-01 to a civil date (proleptic Gregorian). *)
Definition days_from_civil (y m d : Z) : Z :=
  let y := if m <=? 2 then y - 1 else y in
  let era := y / 400 in
  let yoe := y - era * 400 in
  let mp := if 2 <? m then m - 3 else m + 9 in
  let doy := (153 * mp + 2) / 5 + d - 1 in
  let doe := yoe * 365 + yoe / 4 - yoe / 100 + doy in
  era * 146097 + doe - 719468.

Definition instant (t : Time) : Z :=
  ((days_from_civil (year t) (month t) (day t) * 86400 + hour t * 3600 + minute t * 60 + sec t) * Second) + nsec t.

(** [a.Sub(b)], [t.Add(d)], [a.After(b)] on instants. *)
Definition Sub (a b : Z) : Z := sat64 (a - b).
Definition Add (a d : Z) : Z := a + d.
Definition After (a b : Z) : bool := b <? a.

(** Two decimal digits. *)
Definition two (n : Z) : string :=
  String (of_byte (48 + n / 10)) (String (of_byte (48 + n mod 10)) "").
Definition four (n : Z) : string := two (n / 100) +:+ two (n mod 100).

(** [t.Format("20060102")] and [t.Format("20060102T150405Z")]. *)
Definition FormatDate (t : Time) : string := four (year t) +:+ two (month t) +:+ two (day t).
Definition FormatAmz (t : Time) : string :=
  FormatDate t +:+ "T" +:+ two (hour t) +:+ two (minute t) +:+ two (sec t) +:+ "Z".

Definition dig (c : ascii) : option Z :=
  let b := byte_of c in if in_range b 48 57 then Some (b - 48) else None.

Definition get2 (s : string) : option (Z * string) :=
  match s with
  | String a (String b r) => x ← dig a; y ← dig b; Some (x * 10 + y, r)
  | _ => None
  end.

(** The leading decimal digits of [s]. *)
Fixpoint digit_run (s : string) : list Z * string :=
  match s with
  | String c r => match dig c with Some d => let '(l, r') := digit_run r in (d :: l, r') | None => ([], s) end
  | EmptyString => ([], s)
  end.

(** Nanoseconds of a fraction: the first nine digits. *)
Definition nanos (ds : list Z) : Z :=
  fold_left (fun acc d => acc * 10 + d) (take 9 (ds ++ replicate 9 0)) 0.

(** A fractional second is accepted after the seconds although the layout has
    none, as [time.Parse] does. *)
Definition fraction (s : string) : Z * string :=
  match s with
  | String c r =>
    if (byte_of c =? 46) || (byte_of c =? 44) then
      match digit_run r with
      | ([], _) => (0, s)
      | (ds, r') => (nanos ds, r')
      end
    else (0, s)
  | EmptyString => (0, s)
  end.

(** [time.Parse("20060102T150405Z", s)]. *)
Definition ParseAmz (s : string) : option Time :=
  '(yh, s) ← get2 s; '(yl, s) ← get2 s; '(mo, s) ← get2 s; '(d, s) ← get2 s;
  match s with
  | String "T" s =>
    '(h, s) ← get2 s; '(mi, s) ← get2 s; '(sc, s) ← get2 s;
    let '(ns, s) := fraction s in
    let y := yh * 100 + yl in
    if bool_decide (s = "Z") && in_range mo 1 12 && in_range d 1 (days_in y mo) &&
       (h <? 24) && (mi <? 60) && (sc <? 60)
    then Some {| year := y; month := mo; day := d; hour := h; minute := mi; sec := sc; nsec := ns |}
    else None
  | _ => None
  end.

(** One digit or two. *)
Definition get12 (s : string) : option (Z * string) :=
  match s with
  | String a r =>
    x ← dig a;
    match r with
    | String b r' => match dig b with Some y => Some (x * 10 + y, r') | None => Some (x, r) end
    | EmptyString => Some (x, r)
    end
  | EmptyString => None
  end.

Definition expect (c : ascii) (s : string) : option string :=
  match s with String a r => if bool_decide (a = c) then Some r else None | EmptyString => None end.

(** The zone of an RFC 3339 time, as seconds east of UTC: hours up to 24 and
    minutes up to 60 are accepted. *)
Definition zone (s : string) : option Z :=
  match s with
  | String sign r =>
    if bool_decide (s = "Z") then Some 0
    else
      '(hh, r) ← get2 r; r ← expect ":" r; '(mm, r) ← get2 r;
      if negb (bool_decide (r = "")) || (24 <? hh) || (60 <? mm) then None
      else if bool_decide (sign = "+"%char) then Some ((hh * 60 + mm) * 60)
      else if bool_decide (sign = "-"%char) then Some (- ((hh * 60 + mm) * 60))
      else None
  | EmptyString => None
  end.

(** The fields of "2006-01-02T15:04:05" and what follows. *)
Definition stamp (s : string) : option (Time * string) :=
  '(yh, s) ← get2 s; '(yl, s) ← get2 s; s ← expect "-" s; '(mo, s) ← get2 s; s ← expect "-" s; '(d, s) ← get2 s;
  s ← expect "T" s; '(h, s) ← get12 s; s ← expect ":" s; '(mi, s) ← get2 s; s ← expect ":" s; '(sc, s) ← get2 s;
  Some ({| year := yh * 100 + yl; month := mo; day := d; hour := h; minute := mi; sec := sc; nsec := 0 |}, s).

Definition in_calendar (t : Time) : bool :=
  in_range (month t) 1 12 && in_range (day t) 1 (days_in (year t) (month t)) && (hour t <? 24) && (minute t <? 60) && (sec t <? 60).

(** [time.Parse(time.RFC3339, s)], as its instant. *)
Definition ParseRFC3339 (s : string) : option Z :=
  '(t, s) ← stamp s;
  let '(ns, s) := fraction s in
  off ← zone s;
  if in_calendar t then Some (instant t + ns - off * Second) else None.

(** [time.Parse("2006-01-02T15:04:05.000Z", s)]: three digits of fraction. *)
Definition ParseMillis (s : string) : option Z :=
  '(t, s) ← stamp s;
  match s with
  | String p (String a (String b (String c r))) =>
    x ← dig a; y ← dig b; z ← dig c;
    if ((byte_of p =? 46) || (byte_of p =? 44)) && bool_decide (r = "Z") && in_calendar t
    then Some (instant t + (x * 100 + y * 10 + z) * 1000000) else None
  | _ => None
  end.

(** ** Round trip *)

Definition wf (t : Time) : Prop :=
  0 <= year t < 10000 /\ 1 <= month t <= 12 /\ 1 <= day t <= days_in (year t) (month t) /\
  0 <= hour t < 24 /\ 0 <= minute t < 60 /\ 0 <= sec t < 60 /\ 0 <= nsec t < Second.

Lemma dig_digit n : 0 <= n < 10 -> dig (of_byte (48 + n)) = Some n.
Proof.
  intros H. unfold dig. rewrite byte_of_of_byte by lia.
  replace (in_range (48 + n) 48 57) with true by (symmetry; unfold in_range; apply andb_true_iff; split; apply Z.leb_le; lia).
  f_equal. lia.
Qed.

#[local] Arguments get2 : simpl never.
#[local] Arguments two : simpl never.

Lemma get2_two n r : 0 <= n < 100 -> get2 (two n +:+ r) = Some (n, r).
Proof.
  intros H. unfold two. rewrite !append_cons. unfold get2. rewrite append_nil_l.
  rewrite !dig_digit by (try apply Z.mod_pos_bound; try (split; [apply Z.div_pos|apply Z.div_lt_upper_bound]); lia).
  simpl. f_equal. f_equal. pose proof (Z.div_mod n 10 ltac:(lia)). lia.
Qed.

Lemma get2_digits s n r : get2 s = Some (n, r) -> 0 <= n < 100 /\ s = two n +:+ r.
Proof.
  destruct s as [|a [|b s]]; [done..|]. unfold get2.
  destruct (dig a) as [x|] eqn:Ha; [|done]. destruct (dig b) as [y|] eqn:Hb; [|done]. simpl. intros [= <- <-].
  unfold dig in Ha, Hb.
  destruct (in_range (byte_of a) 48 57) eqn:Ia; [|done]. destruct (in_range (byte_of b) 48 57) eqn:Ib; [|done].
  unfold in_range in *. bools. injection Ha as <-. injection Hb as <-.
  split; [lia|]. unfold two. rewrite !append_cons, append_nil_l.
  rewrite Z.div_add_l, (Z.div_small (byte_of b - 48)), Z.add_0_r by lia.
  rewrite (Z.add_comm ((byte_of a - 48) * 10)), Z.mod_add, Z.mod_small by lia.
  replace (48 + (byte_of a - 48)) with (byte_of a) by lia. replace (48 + (byte_of b - 48)) with (byte_of b) by lia.
  by rewrite !of_byte_of.
Qed.

Lemma in_range_iff b lo hi : in_range b lo hi = true <-> lo <= b <= hi.
Proof. unfold in_range. rewrite andb_true_iff, !Z.leb_le. done. Qed.

Lemma days_in_bounds y m : 28 <= days_in y m <= 31.
Proof. unfold days_in. repeat case_match; lia. Qed.

Lemma ParseAmz_FormatAmz t : wf t -> nsec t = 0 -> ParseAmz (FormatAmz t) = Some t.
Proof.
  intros (Hy & Hm & Hd & Hh & Hmi & Hs & _) Hns.
  pose proof (days_in_bounds (year t) (month t)).
  unfold FormatAmz, FormatDate, four, ParseAmz. rewrite !append_assoc.
  rewrite get2_two by (split; [apply Z.div_pos|apply Z.div_lt_upper_bound]; lia). simpl.
  rewrite get2_two by (apply Z.mod_pos_bound; lia). simpl.
  do 2 (rewrite get2_two by lia; simpl).
  rewrite append_nil_l.
  do 3 (rewrite get2_two by lia; simpl).
  replace (year t / 100 * 100 + year t mod 100) with (year t) by (pose proof (Z.div_mod (year t) 100 ltac:(lia)); lia).
  rewrite (proj2 (in_range_iff (month t) 1 12)), (proj2 (in_range_iff (day t) 1 _)) by lia.
  rewrite !(proj2 (Z.ltb_lt _ _)) by lia. simpl. destruct t; simpl in *. by subst.
Qed.

(** ** The civil fields of an instant *)

(** Year, month and day of a day number. *)
Definition civil_from_days (n : Z) : Z * Z * Z :=
  let z := n + 719468 in
  let era := z / 146097 in
  let doe := z mod 146097 in
  let yoe := (doe - doe / 1460 + doe / 36524 - doe / 146096) / 365 in
  let doy := doe - (365 * yoe + yoe / 4 - yoe / 100) in
  let mp := (5 * doy + 2) / 153 in
  let d := doy - (153 * mp + 2) / 5 + 1 in
  let m := if mp <? 10 then mp + 3 else mp - 9 in
  (yoe + era * 400 + (if m <=? 2 then 1 else 0), m, d).

Definition civil (t : Z) : Time :=
  let s := t / Second in
  let '(y, m, d) := civil_from_days (s / 86400) in
  let r := s mod 86400 in
  {| year := y; month := m; day := d; hour := r / 3600; minute := r / 60 mod 60; sec := r mod 60; nsec := t mod Second |}.

(** The year of an era and the day of that year, from the day of the era. *)
Lemma doe_bounds doe : 0 <= doe < 146097 ->
  let yoe := (doe - doe / 1460 + doe / 36524 - doe / 146096) / 365 in
  0 <= yoe <= 399 /\ 0 <= doe - (365 * yoe + yoe / 4 - yoe / 100) <= 365.
Proof.
  intros H. cbv zeta. set (yoe := (doe - _ + _ - _) / 365).
  split; [unfold yoe; Z.to_euclidean_division_equations; lia|].
  assert (doe / 36524 = 0 \/ doe / 36524 = 1 \/ doe / 36524 = 2 \/ doe / 36524 = 3 \/ doe / 36524 = 4) as C
    by (Z.to_euclidean_division_equations; lia).
  assert (doe / 146096 = 0 \/ doe / 146096 = 1) as D by (Z.to_euclidean_division_equations; lia).
  assert (yoe / 100 = 0 \/ yoe / 100 = 1 \/ yoe / 100 = 2 \/ yoe / 100 = 3) as Y
    by (unfold yoe; Z.to_euclidean_division_equations; lia).
  destruct C as [C|[C|[C|[C|C]]]], D as [D|D], Y as [Y|[Y|[Y|Y]]]; unfold yoe in *; rewrite ?C, ?D, ?Y in *;
    Z.to_euclidean_division_equations; lia.
Qed.

Lemma days_civil n : let '(y, m, d) := civil_from_days n in days_from_civil y m d = n.
Proof.
  unfold civil_from_days. cbv zeta. set (z := n + 719468). set (era := z / 146097). set (doe := z mod 146097).
  pose proof (doe_bounds doe (Z.mod_pos_bound z 146097 eq_refl)) as [Hy Hdoy]. cbv zeta in Hy, Hdoy.
  set (yoe := (doe - doe / 1460 + doe / 36524 - doe / 146096) / 365) in *.
  set (doy := doe - (365 * yoe + yoe / 4 - yoe / 100)) in *.
  set (mp := (5 * doy + 2) / 153).
  assert (0 <= mp <= 11) as Hm by (unfold mp; Z.to_euclidean_division_equations; lia).
  set (m := if mp <? 10 then mp + 3 else mp - 9).
  assert ((if 2 <? m then m - 3 else m + 9) = mp) as Hmp.
  { unfold m. destruct (Z.ltb_spec mp 10); [rewrite (proj2 (Z.ltb_lt 2 _)) by lia|rewrite (proj2 (Z.ltb_ge 2 _)) by lia]; lia. }
  unfold days_from_civil. cbv zeta. rewrite Hmp.
  replace (if m <=? 2 then yoe + era * 400 + (if m <=? 2 then 1 else 0) - 1 else yoe + era * 400 + (if m <=? 2 then 1 else 0))
    with (yoe + era * 400) by (destruct (m <=? 2); lia).
  rewrite Z.div_add, Z.div_small by lia.
  replace (yoe + era * 400 - (0 + era) * 400) with yoe by lia. pose proof (Z.div_mod z 146097 ltac:(lia)). fold era doe in H. unfold doy. lia.
Qed.

Lemma instant_civil t : instant (civil t) = t.
Proof.
  unfold civil. cbv zeta. pose proof (days_civil (t / Second / 86400)) as Hd.
  destruct (civil_from_days (t / Second / 86400)) as [[y m] d]. unfold instant. cbn [year month day hour minute sec nsec]. rewrite Hd.
  pose proof (Z.div_mod t Second ltac:(done)). pose proof (Z.div_mod (t / Second) 86400 ltac:(lia)).
  set (r := t / Second mod 86400) in *.
  assert (r / 3600 * 3600 + r / 60 mod 60 * 60 + r mod 60 = r).
  { pose proof (Z.div_mod r 60 ltac:(lia)). pose proof (Z.div_mod (r / 60) 60 ltac:(lia)). rewrite Z.div_div in H2 by lia. change (60 * 60) with 3600 in H2. lia. }
  unfold Second in *. lia.
Qed.

(** ** Formatting an instant in UTC *)

Definition pad4 (n : Z) : string :=
  let s := strconv.FormatInt n in strings.take (4 - strings.length s) "000" +:+ s.
Definition year_string (y : Z) : string :=
  if y <? 0 then "-" +:+ pad4 (- y) else if y <? 10000 then four y else strconv.FormatInt y.

Definition date_time (t : Time) : string :=
  year_string (year t) +:+ "-" +:+ two (month t) +:+ "-" +:+ two (day t) +:+ "T" +:+
  two (hour t) +:+ ":" +:+ two (minute t) +:+ ":" +:+ two (sec t).

(** [t.Format(time.RFC3339)] and [t.Format("2006-01-02T15:04:05.000Z")]. *)
Definition FormatRFC3339 (t : Z) : string := date_time (civil t) +:+ "Z".
Definition three (n : Z) : string := String (of_byte (48 + n / 100)) (two (n mod 100)).
Definition FormatMillis (t : Z) : string := date_time (civil t) +:+ "." +:+ three (nsec (civil t) / 1000000) +:+ "Z".

Definition months : list string := ["Jan"; "Feb"; "Mar"; "Apr"; "May"; "Jun"; "Jul"; "Aug"; "Sep"; "Oct"; "Nov"; "Dec"].
Definition weekdays : list string := ["Sun"; "Mon"; "Tue"; "Wed"; "Thu"; "Fri"; "Sat"].

(** [t.Format(http.TimeFormat)]. *)
Definition FormatHTTP (t : Z) : string :=
  let c := civil t in
  nth (Z.to_nat ((t / Second / 86400 + 4) mod 7)) weekdays "" +:+ ", " +:+ two (day c) +:+ " " +:+
  nth (Z.to_nat (month c - 1)) months "" +:+ " " +:+ year_string (year c) +:+ " " +:+
  two (hour c) +:+ ":" +:+ two (minute c) +:+ ":" +:+ two (sec c) +:+ " GMT".

Example format_http : FormatHTTP 1704164645000000000 = "Tue, 02 Jan 2024 03:04:05 GMT".
Proof. vm_refl. Qed.
Example format_millis : FormatMillis 1704164645678000000 = "2024-01-02T03:04:05.678Z".
Proof. vm_refl. Qed.
Example format_zero : FormatRFC3339 (-62135596800000000000) = "0001-01-01T00:00:00Z".
Proof. vm_refl. Qed.

Example parse_ok : ParseAmz "20240229T235959Z" = Some {| year := 2024; month := 2; day := 29; hour := 23; minute := 59; sec := 59; nsec := 0 |}.
Proof. vm_refl. Qed.
Example parse_frac : nsec <$> ParseAmz "20240229T235959.25Z" = Some 250000000.
Proof. vm_refl. Qed.
Example parse_time_bad : map ParseAmz ["20230229T000000Z"; "20240101T240000Z"; "20240101T000000"; "2024-01-01"; "20240101t000000Z"] = replicate 5 None.
Proof. vm_refl. Qed.
Example epoch : instant {| year := 2024; month := 1; day := 1; hour := 0; minute := 0; sec := 0; nsec := 0 |} = 1704067200 * Second.
Proof. vm_refl. Qed.

Example rfc3339_zone : ParseRFC3339 "2024-01-01T9:00:00.5+09:00" = Some (1704067200 * Second + 500000000).
Proof. vm_refl. Qed.
Example rfc3339_bad : map ParseRFC3339 ["2024-01-01 00:00:00Z"; "2024-01-01T00:00:00"; "2024-1-01T00:00:00Z"; "2024-01-01T00:00:00+25:00"; "2024-01-01T00:00:00Zx"] = replicate 5 None.
Proof. vm_refl. Qed.

End time.
