(* ===== verification/Signer.v ===== *)
(** * Signing keys and their cache (src/sigv4/signer.go, key derivation)

    The direct-mapped cache of derived SigV4 signing keys.  The hash of
    [hash/maphash] under the cache's random seed is the field [seed], an
    arbitrary function.  [get_transparent] is the refinement: whatever the
    lookups before, a key comes out of the cache exactly as if it had just been
    derived. *)

From S2P Require Import Prelude Unicode GoStrings GoError Crypto.

Open Scope Z_scope.

Module sigv4.

Definition ErrUnknownKey : string := "sigv4.ErrUnknownKey".
Definition ErrInvalidToken : string := "sigv4.ErrInvalidToken".

(** ** Key derivation *)

Definition hmacSHA256 (key data : string) : string := hmac.SHA256 key data.

Definition SigningKeyFromDateKey (dateKey region : string) : string :=
  let k := hmacSHA256 dateKey region in
  let k := hmacSHA256 k "s3" in
  hmacSHA256 k "aws4_request".

Definition DeriveSigningKey (secret date region : string) : string :=
  SigningKeyFromDateKey (hmacSHA256 ("AWS4" +:+ secret) date) region.

Definition deriveSigningKey (secret date region : string) : string := DeriveSigningKey secret date region.

(** A store's derivation function, [None] for a nil [SigningKeyFunc]. *)
Definition SigningKeyFunc := string -> string -> result goerror string.

(** ** The cache *)

Record signingKeyID := { kAccessKeyID : string; kVersion : string; kDate : string; kRegion : string; kDerived : bool }.

#[export] Instance signingKeyID_eq_dec : EqDecision signingKeyID.
Proof. solve_decision. Defined.

Definition zeroID : signingKeyID := {| kAccessKeyID := ""; kVersion := ""; kDate := ""; kRegion := ""; kDerived := false |}.

Record signerSlot := { slKey : signingKeyID; slSigningKey : string }.

Record signerCache := {
  seed : string -> Z;
  slots : list signerSlot;
  hits : Z; misses : Z; displacements : Z }.

Definition u64 (z : Z) : Z := z mod 2 ^ 64.

Definition newSignerCache (seed : string -> Z) (size : Z) : signerCache :=
  let size := if size <? 1 then 1 else size in
  {| seed := seed; slots := replicate (Z.to_nat size) {| slKey := zeroID; slSigningKey := "" |};
     hits := 0; misses := 0; displacements := 0 |}.

Definition defaultSignerSlots : Z := 512.

Definition slot_index (c : signerCache) (akid : string) : nat :=
  Z.to_nat (u64 (seed c akid) mod Z.of_nat (length (slots c))).

(** The derivation a miss runs. *)
Definition derive_key (id : signingKeyID) (derive : option SigningKeyFunc) : result goerror string :=
  if kDerived id then
    match derive with
    | Some f =>
      match f (kDate id) (kRegion id) with
      | Ok k => if (strings.length k =? sha256.Size)%nat then Ok k
                else Err (Text [FS "signing key is "; FD (Z.of_nat (strings.length k)); FS " bytes, want "; FD (Z.of_nat sha256.Size)])
      | Err e => Err e
      end
    | None => Err (Panic "nil SigningKeyFunc called")
    end
  else Ok (deriveSigningKey (kVersion id) (kDate id) (kRegion id)).

Definition get (c : signerCache) (id : signingKeyID) (derive : option SigningKeyFunc) : result goerror string * signerCache :=
  let i := slot_index c (kAccessKeyID id) in
  let slot := default {| slKey := zeroID; slSigningKey := "" |} (slots c !! i) in
  if decide (slKey slot = id) then
    (Ok (slSigningKey slot),
     {| seed := seed c; slots := slots c; hits := u64 (hits c + 1); misses := misses c; displacements := displacements c |})
  else
    let c := {| seed := seed c; slots := slots c; hits := hits c; misses := u64 (misses c + 1); displacements := displacements c |} in
    match derive_key id derive with
    | Err e => (Err e, c)
    | Ok k =>
      let displaced := negb (bool_decide (kAccessKeyID (slKey slot) = "")) &&
                       negb (bool_decide (kAccessKeyID (slKey slot) = kAccessKeyID id)) in
      (Ok k, {| seed := seed c; slots := <[i := {| slKey := id; slSigningKey := k |}]> (slots c);
                hits := hits c; misses := misses c;
                displacements := if displaced then u64 (displacements c + 1) else displacements c |})
    end.

Record CacheStats := { Hits : Z; Misses : Z; Evictions : Z; Len : nat; Capacity : nat }.

Definition stats (c : signerCache) : CacheStats :=
  {| Hits := hits c; Misses := misses c; Evictions := displacements c;
     Len := length (filter (fun s => kAccessKeyID (slKey s) <> "") (slots c));
     Capacity := length (slots c) |}.

(** [SetSignerCacheSize]: a fresh cache that carries the counters over. *)
Definition resizeCache (c : signerCache) (seed : string -> Z) (n : Z) : signerCache :=
  let d := newSignerCache seed n in
  {| seed := sigv4.seed d; slots := slots d; hits := hits c; misses := misses c; displacements := displacements c |}.

(** ** Transparency *)

(** [keyfn] is the key each identifier stands for: the documented contract
    that a version changes whenever the secret does. *)
Definition consistent (keyfn : signingKeyID -> string) (c : signerCache) : Prop :=
  slots c <> [] /\ Forall (fun s => kVersion (slKey s) <> "" -> slSigningKey s = keyfn (slKey s)) (slots c).

Lemma consistent_new keyfn seed n : consistent keyfn (newSignerCache seed n).
Proof.
  unfold consistent, newSignerCache. simpl. split.
  - intros H. apply (f_equal length) in H. rewrite length_replicate in H. simpl in H.
    destruct (n <? 1) eqn:E; bools; lia.
  - by apply Forall_replicate.
Qed.

Lemma consistent_resize keyfn c seed n : consistent keyfn (resizeCache c seed n).
Proof. apply (consistent_new keyfn seed n). Qed.

Lemma slot_index_lt c akid : slots c <> [] -> (slot_index c akid < length (slots c))%nat.
Proof.
  intros H. unfold slot_index.
  assert (0 < Z.of_nat (length (slots c))) by (destruct (slots c); simpl; [done|lia]).
  pose proof (Z.mod_pos_bound (u64 (seed c akid)) (Z.of_nat (length (slots c))) ltac:(lia)). lia.
Qed.

Lemma get_transparent keyfn c id derive r c' :
  consistent keyfn c -> kVersion id <> "" ->
  (forall k, derive_key id derive = Ok k -> k = keyfn id) ->
  get c id derive = (r, c') ->
  consistent keyfn c' /\ (r = Ok (keyfn id) \/ r = derive_key id derive).
Proof.
  intros [Hne Hs] Hv Hk Hg. unfold get in Hg.
  pose proof (slot_index_lt c (kAccessKeyID id) Hne) as Hlt. apply lookup_lt_is_Some_2 in Hlt as [slot Hslot].
  rewrite Hslot in Hg. simpl in Hg.
  destruct (decide (slKey slot = id)) as [<-|Hmiss].
  - injection Hg as <- <-. split; [done|]. left. f_equal.
    rewrite Forall_lookup in Hs. by apply (Hs _ _ Hslot).
  - destruct (derive_key id derive) as [k|e] eqn:Hd; injection Hg as <- <-; (split; [|auto]); [|done].
    split; simpl.
    + intros H. apply (f_equal length) in H. rewrite length_insert in H. destruct (slots c); done.
    + apply Forall_insert; [done|]. simpl. intros _. auto.
Qed.

(** Caches a verifier can be in: fresh, resized, or after any lookup whose
    version is set, under one assignment of keys to identifiers. *)
Inductive reachable (keyfn : signingKeyID -> string) : signerCache -> Prop :=
| reach_new seed n : reachable keyfn (newSignerCache seed n)
| reach_resize c seed n : reachable keyfn c -> reachable keyfn (resizeCache c seed n)
| reach_get c id derive : reachable keyfn c -> kVersion id <> "" ->
    (forall k, derive_key id derive = Ok k -> k = keyfn id) ->
    reachable keyfn (get c id derive).2.

Lemma reachable_consistent keyfn c : reachable keyfn c -> consistent keyfn c.
Proof.
  induction 1 as [seed n|c seed n _ IH|c id derive _ IH Hv Hk]; [apply consistent_new|apply consistent_resize|].
  destruct (get c id derive) as [r c'] eqn:Hg. by eapply get_transparent.
Qed.

(** C19. Signing-key cache transparency: in every cache reachable by lookups
    and resizes, of any size and under any hash, a lookup by secret returns
    exactly the key derived from that secret, date and region (so a replaced
    secret never verifies with its predecessor's key, and colliding access keys
    never see each other's), and a lookup by version returns the key of that
    version or the store's error. *)
Theorem signer_cache_transparent keyfn c id derive :
  reachable keyfn c -> kVersion id <> "" ->
  (forall k, derive_key id derive = Ok k -> k = keyfn id) ->
  (kDerived id = false -> (get c id derive).1 = Ok (DeriveSigningKey (kVersion id) (kDate id) (kRegion id))) /\
  (kDerived id = true -> (get c id derive).1 = Ok (keyfn id) \/ (get c id derive).1 = derive_key id derive).
Proof.
  intros Hc%reachable_consistent Hv Hk. destruct (get c id derive) as [r c'] eqn:Hg.
  eapply get_transparent in Hg as [_ H]; [|done..]. simpl. split; [|done].
  intros Hd. unfold derive_key in *. rewrite Hd in *. specialize (Hk _ eq_refl).
  destruct H as [-> | ->]; [by rewrite <- Hk|done].
Qed.

Definition demo_id (secret : string) : signingKeyID :=
  {| kAccessKeyID := "AKID"; kVersion := secret; kDate := "20240101"; kRegion := "us-east-1"; kDerived := false |}.

Definition demo_keyfn (id : signingKeyID) : string := DeriveSigningKey (kVersion id) (kDate id) (kRegion id).

Lemma demo_keyfn_ok id : kDerived id = false -> forall k, derive_key id None = Ok k -> k = demo_keyfn id.
Proof. unfold derive_key, demo_keyfn, deriveSigningKey. intros ->. congruence. Qed.

Lemma signer_cache_transparent_witness :
  (get (get (newSignerCache (fun _ => 7) 1) (demo_id "old") None).2 (demo_id "new") None).1
  = Ok (DeriveSigningKey "new" "20240101" "us-east-1").
Proof.
  refine (proj1 (signer_cache_transparent demo_keyfn (get (newSignerCache (fun _ => 7) 1) (demo_id "old") None).2
    (demo_id "new") None _ _ _) eq_refl).
  - apply reach_get; [apply reach_new|discriminate|]. apply demo_keyfn_ok. reflexivity.
  - discriminate.
  - apply demo_keyfn_ok. reflexivity.
Defined.

End sigv4.
