(* ===== verification/Canonical.v ===== *)
(** * The SigV4 canonical request (src/sigv4/canonical.go)

    Built from the request as sent: method, path, sorted query, the signed
    headers in the order the client listed them, and the payload hash. *)

From S2P Require Import Prelude Unicode GoStrings GoNet GoTime GoError Crypto Signer.
Import sigv4.

Open Scope Z_scope.

Module canonical.

Definition sigV4Algorithm : string := "AWS4-HMAC-SHA256".

(** [checkSignedHeaderList]: the loop with the previous name. *)
Fixpoint check_names (prev : option string) (hasHost : bool) (names : list string) : result message unit :=
  match names with
  | [] => if hasHost then Ok tt else Err [FS "host is not a signed header"]
  | n :: names =>
    if bool_decide (n = "") || negb (bool_decide (n = strings.ToLower n))
    then Err [FS "signed header "; FQ n; FS " is not lower-case"]
    else if match prev with Some p => strings.leb n p | None => false end
    then Err [FS "signed headers are not sorted and unique at "; FQ n]
    else if bool_decide (n = "authorization") then Err [FS "the authorization header cannot be signed"]
    else check_names (Some n) (hasHost || bool_decide (n = "host")) names
  end.

Definition checkSignedHeaderList (names : list string) : result message unit := check_names None false names.

Definition canonicalURI (u : url.URL) : string :=
  let p :=
    if negb (bool_decide (url.Opaque u = "")) then
      let '(opaque, _, _) := strings.Cut (url.Opaque u) "?" in
      let opaque := strings.TrimPrefix opaque "//" in
      match strings.cut_at opaque "/" with Some (_, after) => "/" +:+ after | None => "" end
    else url.EscapedPath u in
  if bool_decide (p = "") then "/" else p.

Definition canonicalQuery (u : url.URL) (drop : string) : string :=
  let q := url.Query u in
  let q := if bool_decide (drop = "") then q else url.Del q drop in
  let q := map (fun '(k, vs) => (k, strings.Sort vs)) q in
  strings.ReplaceAll (url.Encode q) "+" "%20".

(** The loop of [collapseWhitespace]. *)
Fixpoint collapse (inRun : bool) (v : string) : string :=
  match v with
  | EmptyString => EmptyString
  | String c r =>
    if (byte_of c =? 32) || (byte_of c =? 9)
    then if inRun then collapse true r else String " " (collapse true r)
    else String c (collapse false r)
  end.

Definition collapseWhitespace (v : string) : string :=
  let v := strings.TrimSpace v in
  if negb (strings.Contains v "  ") && negb (strings.Contains v (String tab "")) then v
  else collapse false v.

Definition canonicalHeaderValue (r : http.Request) (name : string) : result goerror string :=
  let vals :=
    if bool_decide (name = "host") then
      [if bool_decide (http.Host r = "") then url.Host (http.URL r) else http.Host r]
    else if bool_decide (name = "content-length") then
      let vs := vget (http.Header_ r) "Content-Length" in
      if (length vs =? 0)%nat && (0 <? http.ContentLength r) then [strconv.FormatInt (http.ContentLength r)] else vs
    else vget (http.Header_ r) (http.CanonicalHeaderKey name) in
  if (length vals =? 0)%nat
  then Err (Text [FS "signed header "; FQ name; FS " is not present in the request"])
  else Ok (strings.Join (map collapseWhitespace vals) ",").

(** The header block, one line per signed header. *)
Fixpoint header_lines (r : http.Request) (names : list string) : result goerror string :=
  match names with
  | [] => Ok ""
  | n :: names =>
    match canonicalHeaderValue r n with
    | Err e => Err e
    | Ok v => match header_lines r names with
              | Ok rest => Ok (n +:+ ":" +:+ v +:+ lf +:+ rest)
              | Err e => Err e
              end
    end
  end.

Definition canonicalRequest (r : http.Request) (signedHeaders : list string) (dropQuery payloadHash : string) : result goerror string :=
  let u := default (http.URL r) (url.ParseRequestURI (http.RequestURI r)) in
  match header_lines r signedHeaders with
  | Err e => Err e
  | Ok lines =>
    Ok (http.Method r +:+ lf +:+ canonicalURI u +:+ lf +:+ canonicalQuery u dropQuery +:+ lf +:+
        lines +:+ lf +:+ strings.Join signedHeaders ";" +:+ lf +:+ payloadHash)
  end.

Definition signature (signingKey : string) (t : time.Time) (scope canonical : string) : string :=
  let h := sha256.Sum256 canonical in
  let sts := sigV4Algorithm +:+ lf +:+ time.FormatAmz t +:+ lf +:+ scope +:+ lf +:+ hex.EncodeToString h in
  hex.EncodeToString (hmacSHA256 signingKey sts).

(** ** The signed header list *)

Definition header_name_ok (n : string) : Prop := n <> "" /\ n = strings.ToLower n /\ n <> "authorization".

(** Strictly ascending by bytes, hence without duplicates. *)
Fixpoint ascending (prev : option string) (names : list string) : Prop :=
  match names with
  | [] => True
  | n :: names => match prev with Some p => strings.leb n p = false | None => True end /\ ascending (Some n) names
  end.

Lemma check_names_ok prev h names :
  check_names prev h names = Ok tt <->
  Forall header_name_ok names /\ ascending prev names /\ (h = true \/ "host" ∈ names).
Proof.
  revert prev h; induction names as [|n names IH]; intros prev h; cbn [check_names ascending].
  - split; [destruct h; [|done]; intros _; split; [constructor|auto]|].
    intros (_ & _ & [->|H]); [done|]. by apply not_elem_of_nil in H.
  - rewrite Forall_cons. unfold header_name_ok at 1.
    destruct (bool_decide (n = "")) eqn:H1; bools; simpl; [intuition congruence|].
    destruct (bool_decide (n = strings.ToLower n)) eqn:H2; bools; cbn [negb]; [|intuition congruence].
    destruct (match prev with Some p => strings.leb n p | None => false end) eqn:H3.
    { split; [done|]. intros (_ & [Hp _] & _). destruct prev; congruence. }
    destruct (bool_decide (n = "authorization")) eqn:H4; bools; [intuition congruence|].
    rewrite IH, elem_of_cons, orb_true_iff, bool_decide_eq_true.
    assert (match prev with Some p => strings.leb n p = false | None => True end) by (by destruct prev).
    intuition.
Qed.

(** [checkSignedHeaderList] accepts exactly the SigV4 shape: every name
    lower-case and not empty, in strictly ascending byte order, host among
    them, and never authorization. *)
Theorem checkSignedHeaderList_exact names :
  checkSignedHeaderList names = Ok tt <->
  Forall header_name_ok names /\ ascending None names /\ "host" ∈ names.
Proof. unfold checkSignedHeaderList. rewrite check_names_ok. intuition done. Qed.

(** ** Collapsed header values *)

(** No tab, and no two adjacent spaces. *)
Fixpoint no_runs (prev_space : bool) (v : string) : bool :=
  match v with
  | EmptyString => true
  | String c r =>
    negb (byte_of c =? 9) && negb (prev_space && (byte_of c =? 32)) && no_runs (byte_of c =? 32) r
  end.

Lemma collapse_no_runs b v : no_runs b (collapse b v) = true.
Proof.
  revert b; induction v as [|c v IH]; intros b; simpl; [done|].
  destruct ((byte_of c =? 32) || (byte_of c =? 9)) eqn:H.
  - destruct b; [apply IH|]. change (byte_of " " =? 32) with true. simpl. apply (IH true).
  - apply orb_false_iff in H as [H1 H2]. simpl. rewrite H1, H2. simpl. rewrite andb_false_r. simpl. apply IH.
Qed.

Lemma cut_at_None_cons c v sep : strings.cut_at (String c v) sep = None -> strings.cut_at v sep = None.
Proof. simpl. destruct (strings.CutPrefix _ _); [done|]. by destruct (strings.cut_at v sep) as [[]|]. Qed.

Lemma plain_no_runs v b :
  strings.cut_at v "  " = None -> strings.cut_at v (String tab "") = None ->
  (b = true -> match v with String c _ => byte_of c <> 32 | _ => True end) -> no_runs b v = true.
Proof.
  revert b; induction v as [|c v IH]; intros b H1 H2 Hb; cbn [no_runs]; [done|].
  assert (byte_of c <> 9) as Ht.
  { intros Hc. apply (byte_of_inj c tab) in Hc as ->. done. }
  rewrite (proj2 (Z.eqb_neq _ _) Ht). simpl.
  rewrite IH; [|by eapply cut_at_None_cons..|].
  - rewrite andb_true_r. apply negb_true_iff, andb_false_iff. destruct b; [right|by left].
    apply Z.eqb_neq. auto.
  - intros Hc%Z.eqb_eq. apply (byte_of_inj c " ") in Hc as ->. destruct v as [|d v]; [done|].
    intros Hd. apply (byte_of_inj d " ") in Hd as ->. done.
Qed.

(** A canonical header value never contains a tab or two adjacent spaces,
    whichever path [collapseWhitespace] takes. *)
Theorem collapseWhitespace_no_runs v : no_runs false (collapseWhitespace v) = true.
Proof.
  unfold collapseWhitespace, strings.Contains.
  destruct (strings.cut_at (strings.TrimSpace v) "  ") eqn:H1;
    destruct (strings.cut_at (strings.TrimSpace v) (String tab "")) eqn:H2; simpl; try apply collapse_no_runs.
  by apply plain_no_runs.
Qed.

End canonical.
