(* ===== verification/Verifier.v ===== *)
(** * The SigV4 verifier (src/sigv4/sigv4.go)

    Header and presigned authentication.  A [SecretLookup] is a function from
    the access key id and the presented session token; the verifier's state is
    its signing-key cache, threaded through every call; [now] is the current
    time in nanoseconds since the epoch.  A verification returns the result,
    the cache, and for a presigned request the request with its hoisted query
    parameters promoted to headers. *)

From S2P Require Import Prelude Unicode GoStrings GoNet GoTime GoError Crypto Signer Canonical.
Import sigv4 canonical.

Open Scope Z_scope.

Module verifier.

Definition maxClockSkew : Z := 15 * time.Minute.
Definition streamingSHA256 : string := "STREAMING-AWS4-HMAC-SHA256-PAYLOAD".
Definition streamingUnsignedT : string := "STREAMING-UNSIGNED-PAYLOAD-TRAILER".
Definition streamingSHA256T : string := "STREAMING-AWS4-HMAC-SHA256-PAYLOAD-TRAILER".
Definition amzPrefix : string := "x-amz-".
Definition maxPresignExpires : Z := 7 * 24 * time.Hour.

(** ** The Authorization header *)

Record authHeader := {
  aAccessKeyID : string; aDate : string; aRegion : string; aService : string;
  aSignedHeaders : list string; aSignature : string }.

Definition scope (a : authHeader) : string :=
  strings.Join [aDate a; aRegion a; aService a; "aws4_request"] "/".

(** One component of the header, folded into the fields read so far. *)
Definition parse_component (a : authHeader) (part : string) : result message authHeader :=
  let '(key, value, ok) := strings.Cut (strings.TrimSpace part) "=" in
  if negb ok then Err [FS "malformed component "; FQ part]
  else if bool_decide (key = "Credential") then
    match strings.Split value "/" with
    | [akid; date; region; service; last] =>
      if negb (bool_decide (last = "aws4_request")) then Err [FS "credential must end with aws4_request"]
      else Ok {| aAccessKeyID := akid; aDate := date; aRegion := region; aService := service;
                 aSignedHeaders := aSignedHeaders a; aSignature := aSignature a |}
    | _ => Err [FS "malformed credential "; FQ value]
    end
  else if bool_decide (key = "SignedHeaders") then
    Ok {| aAccessKeyID := aAccessKeyID a; aDate := aDate a; aRegion := aRegion a; aService := aService a;
          aSignedHeaders := strings.Split value ";"; aSignature := aSignature a |}
  else if bool_decide (key = "Signature") then
    Ok {| aAccessKeyID := aAccessKeyID a; aDate := aDate a; aRegion := aRegion a; aService := aService a;
          aSignedHeaders := aSignedHeaders a; aSignature := value |}
  else Err [FS "unknown component "; FQ key].

Definition parseAuthorizationHeader (v : string) : result message authHeader :=
  let '(algo, rest, ok) := strings.Cut v " " in
  if negb ok || negb (bool_decide (algo = sigV4Algorithm)) then Err [FS "unsupported algorithm"]
  else
    a ← foldM parse_component
          {| aAccessKeyID := ""; aDate := ""; aRegion := ""; aService := ""; aSignedHeaders := []; aSignature := "" |}
          (strings.Split rest ",");
    if bool_decide (aAccessKeyID a = "") || (length (aSignedHeaders a) =? 0)%nat || bool_decide (aSignature a = "")
    then Err [FS "missing component"]
    else Ok a.

(** ** Credentials *)

Record Credential := {
  SecretAccessKey : string;
  SigningKey : option SigningKeyFunc;
  SecretVersion : string;
  SessionToken : string }.

Definition SecretLookup := string -> string -> result goerror Credential.

Definition authFailure (reason akid : string) (detail : message) : goerror := Auth reason akid detail None.

Definition invalidTokenError : s3err.Error :=
  s3err.New 400 "InvalidToken" [FS "The provided token is malformed or otherwise invalid."].

Definition lookupSecret (lookup : SecretLookup) (accessKeyID sessionToken : string) : result s3err.Error Credential :=
  match lookup accessKeyID sessionToken with
  | Err err =>
    if errors.Is err ErrUnknownKey
    then Err (s3err.WithCause s3err.InvalidAccessKeyID (Auth "unknown-key" accessKeyID [] (Some err)))
    else if errors.Is err ErrInvalidToken
    then Err (s3err.WithCause invalidTokenError (Auth "invalid-token" accessKeyID [] (Some err)))
    else Err (s3err.Internal err "key lookup failed")
  | Ok cred =>
    let derives := bool_decide (is_Some (SigningKey cred)) in
    if Bool.eqb (negb derives) (bool_decide (SecretAccessKey cred = "")) ||
       (derives && bool_decide (SecretVersion cred = ""))
    then Err (s3err.Internal (Text [FS "credential must carry either a secret or a signing key with its secret version"]) "key lookup failed")
    else Ok cred
  end.

Definition signing_key_id (akid : string) (cred : Credential) (date region : string) : signingKeyID :=
  match SigningKey cred with
  | Some _ => {| kAccessKeyID := akid; kVersion := SecretVersion cred; kDate := date; kRegion := region; kDerived := true |}
  | None => {| kAccessKeyID := akid; kVersion := SecretAccessKey cred; kDate := date; kRegion := region; kDerived := false |}
  end.

Definition signingKey (c : signerCache) (akid : string) (cred : Credential) (date region : string)
    : result s3err.Error string * signerCache :=
  match get c (signing_key_id akid cred date region) (SigningKey cred) with
  | (Ok k, c) => (Ok k, c)
  | (Err err, c) =>
    (if errors.Is err ErrUnknownKey
     then Err (s3err.WithCause s3err.InvalidAccessKeyID (Auth "unknown-key" akid [] (Some err)))
     else Err (s3err.Internal err "signing key derivation failed"), c)
  end.

Definition validateSessionToken (akid expected presented : string) : result s3err.Error unit :=
  if bool_decide (expected = "") && bool_decide (presented = "") then Ok tt
  else if bool_decide (sha256.Sum256 expected = sha256.Sum256 presented) then Ok tt
  else
    let detail :=
      if bool_decide (expected = "") then "token presented for a long-lived key"
      else if bool_decide (presented = "") then "temporary credential used without its token"
      else "presented token does not match the key's" in
    Err (s3err.WithCause invalidTokenError (authFailure "invalid-token" akid [FS detail])).

Definition IsStreaming (payloadHash : string) : bool :=
  bool_decide (payloadHash = streamingSHA256) || bool_decide (payloadHash = streamingSHA256T) ||
  bool_decide (payloadHash = streamingUnsignedT).

(** ** Verified requests *)

Record Verified := {
  AccessKeyID : string;
  VSigningKey : string;
  Signature : string;
  SigningTime : time.Time;
  Scope : string;
  Region : string;
  PayloadHash : string;
  SignedHeaders : option (gset string) }.

Definition signedHeaderSet (names : list (list string)) : gset string :=
  list_to_set (map strings.ToLower (concat names)).

(** Names of x-amz-* headers outside the signed list, sorted. *)
Definition unsigned_amz (h : http.Header) (signedHeaders : list string) : list string :=
  let signed : gset string := list_to_set (map strings.ToLower signedHeaders) in
  strings.Sort (omap (fun '(name, _) =>
    let lname := strings.ToLower name in
    if strings.HasPrefix lname amzPrefix && negb (bool_decide (lname ∈ signed)) then Some lname else None) h).

Definition requireSignedAmzHeaders (akid : string) (h : http.Header) (signedHeaders : list string) : result s3err.Error unit :=
  match unsigned_amz h signedHeaders with
  | [] => Ok tt
  | unsigned =>
    Err (s3err.WithCause
      (s3err.New 403 "AccessDenied" [FS "There were headers present in the request which were not signed: "; FS (strings.Join unsigned ", ")])
      (authFailure "unsigned-headers" akid [FS (strings.Join unsigned ", ")]))
  end.

Definition checkSignature (c : signerCache) (r : http.Request) (akid : string) (cred : Credential) (date region : string)
    (t : time.Time) (signedHeaders : list string) (dropQuery payloadHash presented : string)
    : result s3err.Error string * signerCache :=
  let mismatch detail := Err (s3err.WithCause s3err.SignatureDoesNotMatch (authFailure "signature-mismatch" akid detail)) in
  match checkSignedHeaderList signedHeaders with
  | Err m => (mismatch m, c)
  | Ok _ =>
    match canonicalRequest r signedHeaders dropQuery payloadHash with
    | Err (Text m) => (Err (s3err.New 400 "InvalidRequest" m), c)
    | Err _ => (Err (s3err.New 400 "InvalidRequest" []), c)
    | Ok canon =>
      match signingKey c akid cred date region with
      | (Err e, c) => (Err e, c)
      | (Ok key, c) =>
        let sc := strings.Join [date; region; "s3"; "aws4_request"] "/" in
        if bool_decide (signature key t sc canon = presented) then (Ok key, c)
        else (mismatch [FS "client signed headers "; FQ (strings.Join signedHeaders ";")], c)
      end
    end
  end.

(** The verifier: the pinned region ("" for none) and the cache. *)
Record Verifier := { signers : signerCache; region : string }.

Definition with_cache (v : Verifier) (c : signerCache) : Verifier := {| signers := c; region := region v |}.

Definition verify_result := (result s3err.Error (Verified * http.Request) * Verifier)%type.

Definition bad_header (m : message) : s3err.Error := s3err.New 400 "AuthorizationHeaderMalformed" m.

Definition verifyHeaderRequest (v : Verifier) (now : Z) (r : http.Request) (lookup : SecretLookup) : verify_result :=
  let hdr := http.HGet (http.Header_ r) in
  let fail e : verify_result := (Err e, v) in
  match parseAuthorizationHeader (hdr "Authorization") with
  | Err m => fail (bad_header ([FS "The authorization header is malformed; "] ++ m ++ [FS "."]))
  | Ok auth =>
  if negb (bool_decide (aService auth = "s3"))
  then fail (bad_header [FS "The authorization header is malformed; incorrect service."]) else
  if negb (bool_decide (region v = "")) && negb (bool_decide (aRegion auth = region v))
  then fail (bad_header [FS "The authorization header is malformed; the region '"; FS (aRegion auth); FS "' is wrong; expecting '"; FS (region v); FS "'"]) else
  match requireSignedAmzHeaders (aAccessKeyID auth) (http.Header_ r) (aSignedHeaders auth) with
  | Err e => fail e
  | Ok _ =>
  let presentedToken := hdr "X-Amz-Security-Token" in
  match lookupSecret lookup (aAccessKeyID auth) presentedToken with
  | Err e => fail e
  | Ok cred =>
  match validateSessionToken (aAccessKeyID auth) (SessionToken cred) presentedToken with
  | Err e => fail e
  | Ok _ =>
  let amzDate := hdr "X-Amz-Date" in
  if bool_decide (amzDate = "") then fail (s3err.New 400 "InvalidRequest" [FS "Missing required header for this request: x-amz-date"]) else
  match time.ParseAmz amzDate with
  | None => fail (s3err.New 400 "InvalidRequest" [FS "Invalid x-amz-date header"])
  | Some t =>
  if negb (bool_decide (time.FormatDate t = aDate auth))
  then fail (bad_header [FS "The authorization header is malformed; the date in the credential scope does not match the x-amz-date header."]) else
  let d := time.Sub now (time.instant t) in
  if (maxClockSkew <? d) || (d <? - maxClockSkew)
  then fail (s3err.WithCause
    (s3err.New 403 "RequestTimeTooSkewed" [FS "The difference between the request time and the current time is too large."])
    (authFailure "time-skewed" (aAccessKeyID auth) [FS "signed at "; FD (time.instant t); FS ", now "; FD now])) else
  let payloadHash := hdr "X-Amz-Content-Sha256" in
  if bool_decide (payloadHash = "") then fail (s3err.New 400 "InvalidRequest" [FS "Missing required header for this request: x-amz-content-sha256"]) else
  match checkSignature (signers v) r (aAccessKeyID auth) cred (aDate auth) (aRegion auth) t (aSignedHeaders auth) "" payloadHash (aSignature auth) with
  | (Err e, c) => (Err e, with_cache v c)
  | (Ok key, c) =>
    (Ok ({| AccessKeyID := aAccessKeyID auth; VSigningKey := key; Signature := aSignature auth; SigningTime := t;
            Scope := scope auth; Region := aRegion auth; PayloadHash := payloadHash;
            SignedHeaders := Some (signedHeaderSet [aSignedHeaders auth]) |}, r), with_cache v c)
  end end end end end end.

(** ** Presigned requests *)

Definition presignAuthParams : list string :=
  ["X-Amz-Algorithm"; "X-Amz-Credential"; "X-Amz-Date"; "X-Amz-SignedHeaders"; "X-Amz-Signature"; "X-Amz-Security-Token"].

(** One query parameter promoted; the header and the names promoted so far. *)
Definition promote_one (acc : http.Header * list string) (kv : string * list string) : http.Header * list string :=
  let '(h, promoted) := acc in
  let '(k, vs) := kv in
  let lk := strings.ToLower k in
  if negb (strings.HasPrefix lk amzPrefix) ||
     bool_decide (lk ∈ "x-amz-expires" :: map strings.ToLower presignAuthParams) || (length vs =? 0)%nat
  then (h, promoted)
  else
    let h := if bool_decide (http.HGet h k = "")
             then http.set_raw h (http.CanonicalHeaderKey k) (strings.Sort vs) else h in
    (h, promoted ++ [lk]).

Definition with_header (r : http.Request) (h : http.Header) : http.Request :=
  {| http.Method := http.Method r; http.RequestURI := http.RequestURI r; http.URL := http.URL r; http.Header_ := h;
     http.Host := http.Host r; http.ContentLength := http.ContentLength r; http.RemoteAddr := http.RemoteAddr r |}.

Definition promoteHoistedQueryParams (r : http.Request) : http.Request * list string :=
  let '(h, promoted) := fold_left promote_one (url.Query (http.URL r)) (http.Header_ r, []) in
  (with_header r h, promoted).

Definition query_error (m : message) : s3err.Error := s3err.New 400 "AuthorizationQueryParametersError" m.

Definition verifyPresignedRequest (v : Verifier) (now : Z) (r : http.Request) (lookup : SecretLookup) : verify_result :=
  let query := url.Query (http.URL r) in
  let fail e : verify_result := (Err e, v) in
  match each (fun p => guard (length (vget query p) <=? 1)%nat (query_error [FS p; FS " must be specified only once"]))
             (presignAuthParams ++ ["X-Amz-Expires"]) with
  | Err e => fail e
  | Ok _ =>
  if negb (bool_decide (url.Get query "X-Amz-Algorithm" = sigV4Algorithm))
  then fail (query_error [FS "X-Amz-Algorithm only supports "; FQ "AWS4-HMAC-SHA256"]) else
  match strings.Split (url.Get query "X-Amz-Credential") "/" with
  | [akid; scopeDate; reg; service; last] =>
  if negb (bool_decide (last = "aws4_request"))
  then fail (query_error [FS "Error parsing the X-Amz-Credential parameter; the Credential is mal-formed"]) else
  if negb (bool_decide (service = "s3"))
  then fail (query_error [FS "Error parsing the X-Amz-Credential parameter; incorrect service"]) else
  if negb (bool_decide (region v = "")) && negb (bool_decide (reg = region v))
  then fail (query_error [FS "Error parsing the X-Amz-Credential parameter; the region '"; FS reg; FS "' is wrong; expecting '"; FS (region v); FS "'"]) else
  let signedHeaders := strings.Split (url.Get query "X-Amz-SignedHeaders") ";" in
  if bool_decide (default "" (head signedHeaders) = "") then fail (query_error [FS "X-Amz-SignedHeaders is required"]) else
  match requireSignedAmzHeaders akid (http.Header_ r) signedHeaders with
  | Err e => fail e
  | Ok _ =>
  match time.ParseAmz (url.Get query "X-Amz-Date") with
  | None => fail (query_error [FS "X-Amz-Date must be in the ISO8601 Long Format"])
  | Some t =>
  if negb (bool_decide (time.FormatDate t = scopeDate))
  then fail (query_error [FS "Invalid credential date. Date is not the same as X-Amz-Date."]) else
  match strconv.ParseInt (url.Get query "X-Amz-Expires") 10 64 with
  | None => fail (query_error [FS "X-Amz-Expires must be a positive integer"])
  | Some expires =>
  if expires <? 1 then fail (query_error [FS "X-Amz-Expires must be a positive integer"]) else
  let window := wrap64 (expires * time.Second) in
  if maxPresignExpires <? window
  then fail (query_error [FS "X-Amz-Expires must be less than a week (in seconds); that is, the given X-Amz-Expires must be less than 604800 seconds"]) else
  if time.After now (time.Add (time.instant t) window)
  then fail (s3err.WithCause (s3err.New 403 "AccessDenied" [FS "Request has expired"])
    (authFailure "expired" akid [FS "signed at "; FD (time.instant t); FS " for "; FD expires; FS "s"])) else
  if time.After (time.instant t) (time.Add now maxClockSkew)
  then fail (s3err.WithCause (s3err.New 403 "AccessDenied" [FS "Request is not valid yet"])
    (authFailure "not-yet-valid" akid [FS "signed at "; FD (time.instant t); FS ", now "; FD now])) else
  let presentedToken := url.Get query "X-Amz-Security-Token" in
  match lookupSecret lookup akid presentedToken with
  | Err e => fail e
  | Ok cred =>
  match validateSessionToken akid (SessionToken cred) presentedToken with
  | Err e => fail e
  | Ok _ =>
  let payloadHash := http.HGet (http.Header_ r) "X-Amz-Content-Sha256" in
  let payloadHash := if bool_decide (payloadHash = "") then "UNSIGNED-PAYLOAD" else payloadHash in
  match checkSignature (signers v) r akid cred scopeDate reg t signedHeaders "X-Amz-Signature" payloadHash (url.Get query "X-Amz-Signature") with
  | (Err e, c) => (Err e, with_cache v c)
  | (Ok key, c) =>
    let '(r', promoted) := promoteHoistedQueryParams r in
    (Ok ({| AccessKeyID := akid; VSigningKey := key; Signature := url.Get query "X-Amz-Signature"; SigningTime := t;
            Scope := strings.Join [scopeDate; reg; service; "aws4_request"] "/"; Region := reg; PayloadHash := payloadHash;
            SignedHeaders := Some (signedHeaderSet [signedHeaders; promoted]) |}, r'), with_cache v c)
  end end end end end end
  | _ => fail (query_error [FS "Error parsing the X-Amz-Credential parameter; the Credential is mal-formed"])
  end end.

Definition Verify (v : Verifier) (now : Z) (r : http.Request) (lookup : SecretLookup) : verify_result :=
  let hasQueryAuth := negb (bool_decide (url.Get (url.Query (http.URL r)) "X-Amz-Signature" = "")) in
  let hasHeaderAuth := negb (bool_decide (http.HGet (http.Header_ r) "Authorization" = "")) in
  if hasQueryAuth && hasHeaderAuth
  then (Err (s3err.New 400 "InvalidArgument" [FS "Only one auth mechanism allowed; only the X-Amz-Algorithm query parameter, Signature query string parameter or the Authorization header should be specified"]), v)
  else if hasQueryAuth then verifyPresignedRequest v now r lookup
  else if hasHeaderAuth then verifyHeaderRequest v now r lookup
  else (Err (s3err.WithCause s3err.AccessDenied (authFailure "no-auth" "" [FS "no Authorization header and no presigned query"])), v).

End verifier.
