(* ===== verification/VerifierFacts.v ===== *)
(** * Soundness of signature verification

    What a successful verification means: the presented signature is the HMAC
    of the canonical form of this very request under the key of the looked-up
    credential, nothing x-amz-* is outside the signature, and the signing time
    is within its window. *)

From S2P Require Import Prelude Unicode GoStrings GoNet GoTime GoError Crypto Signer Canonical Verifier.
Import sigv4 canonical verifier.

Open Scope Z_scope.

#[local] Arguments strings.ToLower : simpl never.
#[local] Arguments canonicalRequest : simpl never.
#[local] Arguments signature : simpl never.
#[local] Arguments time.ParseAmz : simpl never.
#[local] Arguments url.Query : simpl never.
#[local] Arguments url.Get : simpl never.
#[local] Arguments http.HGet : simpl never.
#[local] Arguments strings.Split : simpl never.
#[local] Arguments strings.Join : simpl never.
#[local] Arguments strconv.ParseInt : simpl never.
#[local] Arguments bool_decide : simpl never.

(** Walks a handler that returned success down its only successful path. *)
Ltac ok_path H :=
  repeat match type of H with
  | (match ?x with _ => _ end) = _ => destruct x eqn:?; try discriminate H
  end.

(** The credential contract a [SecretLookup] documents: a version stands for
    one secret, so one derivation per identifier. *)
Definition versioned_lookup (keyfn : signingKeyID -> string) (lookup : SecretLookup) : Prop :=
  forall akid token cred date region k,
    lookup akid token = Ok cred ->
    derive_key (signing_key_id akid cred date region) (SigningKey cred) = Ok k ->
    k = keyfn (signing_key_id akid cred date region).

(** The key a credential stands for in a scope. *)
Definition credential_key (keyfn : signingKeyID -> string) (akid : string) (cred : Credential) (date region : string) : string :=
  match SigningKey cred with
  | None => DeriveSigningKey (SecretAccessKey cred) date region
  | Some _ => keyfn (signing_key_id akid cred date region)
  end.

Lemma lookupSecret_ok lookup akid token cred :
  lookupSecret lookup akid token = Ok cred ->
  lookup akid token = Ok cred /\ forall date region, kVersion (signing_key_id akid cred date region) <> "".
Proof.
  unfold lookupSecret. intros H. ok_path H. injection H as <-. split; [done|]. intros date reg.
  match goal with Hc : _ || _ = false |- _ => apply orb_false_iff in Hc as [H1 H2] end.
  unfold signing_key_id. destruct (SigningKey _) as [f|]; simpl.
  - rewrite bool_decide_true in H1, H2 by eauto. simpl in *. by bools.
  - rewrite (bool_decide_false (is_Some None)) in H1 by (by intros []). simpl in H1.
    destruct (bool_decide (SecretAccessKey _ = "")) eqn:E; bools; [done|exact E].
Qed.

Lemma validateSessionToken_ok akid expected presented :
  validateSessionToken akid expected presented = Ok tt <-> sha256.Sum256 expected = sha256.Sum256 presented.
Proof.
  unfold validateSessionToken. destruct (bool_decide (expected = "") && bool_decide (presented = "")) eqn:E.
  - bools. subst. done.
  - destruct (bool_decide (sha256.Sum256 expected = _)) eqn:E'; bools; done.
Qed.

Lemma get_reachable keyfn c id derive r c' :
  reachable keyfn c -> kVersion id <> "" -> (forall k, derive_key id derive = Ok k -> k = keyfn id) ->
  get c id derive = (r, c') -> reachable keyfn c'.
Proof. intros Hc Hv Hk Hg. replace c' with (get c id derive).2 by (by rewrite Hg). by apply reach_get. Qed.

Lemma signingKey_ok keyfn c akid cred date reg k c' :
  reachable keyfn c -> kVersion (signing_key_id akid cred date reg) <> "" ->
  (forall k, derive_key (signing_key_id akid cred date reg) (SigningKey cred) = Ok k -> k = keyfn (signing_key_id akid cred date reg)) ->
  signingKey c akid cred date reg = (Ok k, c') ->
  k = credential_key keyfn akid cred date reg /\ reachable keyfn c'.
Proof.
  intros Hc Hv Hk H. unfold signingKey in H.
  destruct (get c (signing_key_id akid cred date reg) (SigningKey cred)) as [[k'|e] c''] eqn:Hg;
    [|by destruct (errors.Is e ErrUnknownKey)].
  injection H as -> ->. split; [|by eapply get_reachable].
  eapply get_transparent in Hg as [_ Hg]; [|by apply reachable_consistent|done|done].
  assert (k = keyfn (signing_key_id akid cred date reg)) as ->.
  { destruct Hg as [Hg|Hg]; [by injection Hg|]. symmetry in Hg. by apply Hk. }
  unfold credential_key. destruct (SigningKey cred) as [f|] eqn:Hf; [done|].
  symmetry. apply Hk. unfold derive_key, signing_key_id. rewrite Hf. done.
Qed.

Lemma checkSignature_ok keyfn c r akid cred date reg t sh drop ph presented k c' :
  reachable keyfn c -> kVersion (signing_key_id akid cred date reg) <> "" ->
  (forall k, derive_key (signing_key_id akid cred date reg) (SigningKey cred) = Ok k -> k = keyfn (signing_key_id akid cred date reg)) ->
  checkSignature c r akid cred date reg t sh drop ph presented = (Ok k, c') ->
  reachable keyfn c' /\ k = credential_key keyfn akid cred date reg /\ checkSignedHeaderList sh = Ok tt /\
  exists canon, canonicalRequest r sh drop ph = Ok canon /\
    presented = signature k t (strings.Join [date; reg; "s3"; "aws4_request"] "/") canon.
Proof.
  intros Hc Hv Hk H. unfold checkSignature in H. ok_path H. injection H as -> ->. bools.
  match goal with Hs : signingKey _ _ _ _ _ = _ |- _ => eapply signingKey_ok in Hs as [Hkey Hr]; [|done..] end.
  match goal with u : unit |- _ => destruct u end.
  split; [done|]. split; [exact Hkey|]. split; [done|]. eexists; split; [reflexivity|]. congruence.
Qed.

(** Every x-amz-* header of the request is in the signed list. *)
Definition amz_signed (h : http.Header) (sh : list string) : Prop :=
  forall name vs, (name, vs) ∈ h -> strings.HasPrefix (strings.ToLower name) amzPrefix = true ->
    strings.ToLower name ∈ map strings.ToLower sh.

Lemma requireSignedAmzHeaders_ok akid h sh : requireSignedAmzHeaders akid h sh = Ok tt <-> amz_signed h sh.
Proof.
  unfold requireSignedAmzHeaders, unsigned_amz, amz_signed, strings.Sort.
  set (f := fun '(name, _) => _).
  assert (merge_sort String.le (omap f h) = [] <-> omap f h = []) as Hsort.
  { pose proof (Permutation_length (merge_sort_Permutation String.le (omap f h))) as Hp.
    split; intros He; [rewrite He in Hp; symmetry in Hp; by apply nil_length_inv in Hp|by rewrite He]. }
  assert ((match merge_sort String.le (omap f h) with
    | [] => Ok tt
    | unsigned => Err (s3err.WithCause
        (s3err.New 403 "AccessDenied" [FS "There were headers present in the request which were not signed: "; FS (strings.Join unsigned ", ")])
        (authFailure "unsigned-headers" akid [FS (strings.Join unsigned ", ")])) end = Ok tt)
    <-> merge_sort String.le (omap f h) = []) as Hm by (by destruct (merge_sort String.le (omap f h))).
  rewrite Hm, Hsort, omap_nil. clear. subst f.
  assert (forall P : string * list string -> Prop, (forall x, P x) <-> (forall n vs, P (n, vs))) as Hpair.
  { intros P. split; [done|]. intros H [n vs]. apply H. }
  rewrite Hpair. apply forall_proper; intros name. apply forall_proper; intros vs. cbv beta iota.
  destruct (strings.HasPrefix (strings.ToLower name) amzPrefix); simpl; [|by intuition].
  destruct (bool_decide (strings.ToLower name ∈ _)) eqn:Hd; bools; rewrite elem_of_list_to_set in Hd; simpl; intuition done.
Qed.

(** The window a header-signed request must be in. *)
Lemma clock_skew_ok now t :
  (maxClockSkew <? time.Sub now t) || (time.Sub now t <? - maxClockSkew) = false ->
  - maxClockSkew <= now - t <= maxClockSkew.
Proof.
  intros H. bools. unfold time.Sub, sat64, int64_min, int64_max, maxClockSkew, time.Minute, time.Second in *. lia.
Qed.

(** What a verified request proves, whichever way it was signed. *)
Record authenticated (keyfn : signingKeyID -> string) (v : Verifier) (r : http.Request) (lookup : SecretLookup)
    (token : string) (sh : list string) (drop : string) (vr : Verified) : Prop := {
  au_key : exists cred, lookup (AccessKeyID vr) token = Ok cred /\
    sha256.Sum256 (SessionToken cred) = sha256.Sum256 token /\
    VSigningKey vr = credential_key keyfn (AccessKeyID vr) cred (time.FormatDate (SigningTime vr)) (Region vr);
  au_scope : Scope vr = strings.Join [time.FormatDate (SigningTime vr); Region vr; "s3"; "aws4_request"] "/";
  au_headers : checkSignedHeaderList sh = Ok tt;
  au_signature : exists canon, canonicalRequest r sh drop (PayloadHash vr) = Ok canon /\
    Signature vr = signature (VSigningKey vr) (SigningTime vr) (Scope vr) canon;
  au_region : region v = "" \/ Region vr = region v;
  au_amz : amz_signed (http.Header_ r) sh }.

(** Every x-amz-* header an operation can read (operations read headers by
    ASCII names) is in the signed set. *)
Definition amz_covered (r : http.Request) (vr : Verified) : Prop :=
  exists set, SignedHeaders vr = Some set /\
  forall name vs, (name, vs) ∈ http.Header_ r -> is_ascii name = true -> strings.HasPrefix (strings.ToLower name) amzPrefix = true ->
    strings.ToLower name ∈ set.

(** How a request presents its signature in the Authorization header: the key
    id, region, signed headers and signature of [vr] are the ones the header
    names, and x-amz-date is within the clock skew. *)
Definition presents_header (now : Z) (r : http.Request) (sh : list string) (vr : Verified) : Prop :=
  (exists auth, parseAuthorizationHeader (http.HGet (http.Header_ r) "Authorization") = Ok auth /\
     AccessKeyID vr = aAccessKeyID auth /\ Signature vr = aSignature auth /\ Region vr = aRegion auth /\
     time.FormatDate (SigningTime vr) = aDate auth /\ aService auth = "s3" /\ sh = aSignedHeaders auth) /\
  time.ParseAmz (http.HGet (http.Header_ r) "X-Amz-Date") = Some (SigningTime vr) /\
  - maxClockSkew <= now - time.instant (SigningTime vr) <= maxClockSkew.

(** How it presents it in the query of a presigned URL: the same fields from
    X-Amz-Credential, X-Amz-SignedHeaders, X-Amz-Signature and X-Amz-Date, and
    now is not later than the signing time plus the X-Amz-Expires the URL
    carries, which is positive and, as computed in wrapping 64-bit arithmetic,
    at most seven days. *)
Definition presents_query (now : Z) (r : http.Request) (sh : list string) (vr : Verified) : Prop :=
  let query := url.Query (http.URL r) in
  strings.Split (url.Get query "X-Amz-Credential") "/" =
    [AccessKeyID vr; time.FormatDate (SigningTime vr); Region vr; "s3"; "aws4_request"] /\
  sh = strings.Split (url.Get query "X-Amz-SignedHeaders") ";" /\
  Signature vr = url.Get query "X-Amz-Signature" /\
  time.ParseAmz (url.Get query "X-Amz-Date") = Some (SigningTime vr) /\
  exists expires, strconv.ParseInt (url.Get query "X-Amz-Expires") 10 64 = Some expires /\ 1 <= expires /\
    - maxClockSkew <= now - time.instant (SigningTime vr) <= expires * time.Second /\
    now - time.instant (SigningTime vr) <= wrap64 (expires * time.Second) <= maxPresignExpires /\
    (expires * time.Second <= int64_max -> expires * time.Second <= maxPresignExpires).

(** The signature [vr] records is the one the request presents, by one
    mechanism or the other, with [sh] as its signed headers; [drop] is the
    query parameter the canonical form leaves out. *)
Definition presents (now : Z) (r : http.Request) (sh : list string) (drop : string) (vr : Verified) : Prop :=
  (drop = "" /\ presents_header now r sh vr) \/ (drop = "X-Amz-Signature" /\ presents_query now r sh vr).

Lemma pinned_region (v : Verifier) (reg : string) :
  negb (bool_decide (region v = "")) && negb (bool_decide (reg = region v)) = false -> region v = "" \/ reg = region v.
Proof.
  destruct (bool_decide (region v = "")) eqn:E1; bools; [auto|].
  destruct (bool_decide (reg = region v)) eqn:E2; bools; [auto|done].
Qed.

Lemma elem_of_signedHeaderSet n names : n ∈ signedHeaderSet names <-> exists l, l ∈ names /\ n ∈ map strings.ToLower l.
Proof.
  unfold signedHeaderSet. rewrite elem_of_list_to_set, list_elem_of_fmap. setoid_rewrite list_elem_of_fmap.
  setoid_rewrite list_elem_of_In. setoid_rewrite in_concat. naive_solver.
Qed.

(** The successful path of [verifyHeaderRequest]. *)
Lemma header_sound keyfn v now r lookup vr r' v' :
  reachable keyfn (signers v) -> versioned_lookup keyfn lookup ->
  verifyHeaderRequest v now r lookup = (Ok (vr, r'), v') ->
  (exists sh, presents_header now r sh vr /\
              authenticated keyfn v r lookup (http.HGet (http.Header_ r) "X-Amz-Security-Token") sh "" vr) /\
  PayloadHash vr = http.HGet (http.Header_ r) "X-Amz-Content-Sha256" /\
  r' = r /\ amz_covered r' vr /\ reachable keyfn (signers v') /\ region v' = region v.
Proof.
  intros Hc Hl H. unfold verifyHeaderRequest in H. cbv zeta in H. ok_path H.
  injection H as <- <- <-.
  match goal with Hsk : (maxClockSkew <? _) || _ = false |- _ => apply clock_skew_ok in Hsk end.
  bools. repeat match goal with u : unit |- _ => destruct u end.
  match goal with Hlk : lookupSecret _ _ _ = Ok _ |- _ => apply lookupSecret_ok in Hlk as [Hlk Hver] end.
  match goal with Hs : checkSignature _ _ _ _ _ _ _ _ _ _ _ = _ |- _ =>
    eapply (checkSignature_ok keyfn) in Hs as (Hr & Hkey & Hsh & canon & Hcan & Hsig); [|done|done|by intros; eapply Hl] end.
  match goal with Ht : validateSessionToken _ _ _ = Ok tt |- _ => apply validateSessionToken_ok in Ht end.
  match goal with Hq : requireSignedAmzHeaders _ _ _ = Ok tt |- _ => apply requireSignedAmzHeaders_ok in Hq as Hamz end.
  match goal with Hp : _ && _ = false |- _ => apply pinned_region in Hp end.
  match goal with Hd : time.FormatDate _ = aDate ?a, Hv : aService ?a = "s3" |- _ => rewrite <- Hd in *; rename a into auth, Hd into Hdate, Hv into Hsvc end.
  assert (scope auth = strings.Join [aDate auth; aRegion auth; "s3"; "aws4_request"] "/") as Hscope
    by (unfold scope; by rewrite Hsvc).
  rewrite <- Hdate in Hscope. split; [|split; [done|split; [done|split]]].
  - exists (aSignedHeaders auth). split; [split; [eexists; split_and!; done|done]|].
    constructor; simpl; try done; eauto. exists canon. by rewrite Hscope.
  - eexists; split; [reflexivity|]. intros name vs Hin _ Hp. apply elem_of_signedHeaderSet.
    exists (aSignedHeaders auth). split; [left|eauto].
  - done.
Qed.

(** C6. Header authentication is sound.  If a request verifies, then the key id,
    date, region, signed headers and signature are those of its Authorization
    header, the credential is the one the lookup returns for that id and the
    presented token, the token rule holds, the presented signature is the SigV4
    signature of the canonical form of this request under that credential's key
    for the claimed date and region and the service s3, the date is that of
    x-amz-date, which is within 15 minutes of now, a pinned region matches,
    every x-amz-* header is signed, and the cache stays transparent. *)
Theorem verifyHeaderRequest_sound keyfn v now r lookup vr r' v' :
  reachable keyfn (signers v) -> versioned_lookup keyfn lookup ->
  verifyHeaderRequest v now r lookup = (Ok (vr, r'), v') ->
  (exists sh, presents_header now r sh vr /\
              authenticated keyfn v r lookup (http.HGet (http.Header_ r) "X-Amz-Security-Token") sh "" vr) /\
  PayloadHash vr = http.HGet (http.Header_ r) "X-Amz-Content-Sha256" /\
  r' = r /\ amz_covered r' vr /\ reachable keyfn (signers v') /\ region v' = region v.
Proof. apply header_sound. Qed.

(** ** Promotion of hoisted query parameters *)

Lemma canon_lower u s : is_ascii s = true -> ascii_lower (http.canon u s) = ascii_lower s.
Proof.
  revert u; induction s as [|c s IH]; intros u Hs; simpl in *; [done|]. bools. pose proof (byte_of_range c).
  set (b := if u && in_range (byte_of c) 97 122 then _ else _).
  assert (0 <= b < 256) as Hb.
  { subst b. unfold in_range. destruct u; simpl; repeat case_match; bools; lia. }
  rewrite IH by done. rewrite byte_of_of_byte by done. f_equal. f_equal.
  subst b. unfold ascii_lower_byte, in_range.
  destruct u; simpl; destruct (Z.leb_spec 97 (byte_of c)), (Z.leb_spec (byte_of c) 122), (Z.leb_spec 65 (byte_of c)),
    (Z.leb_spec (byte_of c) 90); simpl; try lia;
    repeat match goal with |- context [?x <=? ?y] => destruct (Z.leb_spec x y) end; simpl; lia.
Qed.

Lemma canon_ascii u s : is_ascii s = true -> is_ascii (http.canon u s) = true.
Proof.
  revert u; induction s as [|c s IH]; intros u Hs; simpl in *; [done|]. bools. pose proof (byte_of_range c).
  rewrite IH by done. rewrite andb_true_r.
  rewrite byte_of_of_byte; [apply Z.ltb_lt|]; unfold in_range; destruct u; simpl;
    destruct (Z.leb_spec 97 (byte_of c)), (Z.leb_spec (byte_of c) 122), (Z.leb_spec 65 (byte_of c)),
      (Z.leb_spec (byte_of c) 90); simpl; lia.
Qed.

Lemma token_ascii s : url.all_of http.token_byte s = true -> is_ascii s = true.
Proof.
  induction s as [|c s IH]; simpl; [done|]. intros [Hc Hs]%andb_true_iff. rewrite IH by done. rewrite andb_true_r.
  revert Hc. clear. destruct c as [[] [] [] [] [] [] [] []]; vm_compute; done.
Qed.

Lemma ascii_lower_ascii s : is_ascii s = true -> is_ascii (ascii_lower s) = true /\ ascii_lower (ascii_lower s) = ascii_lower s.
Proof.
  induction s as [|c s IH]; simpl; [done|]. intros H. bools. pose proof (byte_of_range c).
  pose proof (ascii_lower_byte_range (byte_of c) ltac:(lia)). destruct IH as [IH1 IH2]; [done|].
  rewrite byte_of_of_byte by lia. rewrite IH1, IH2. split; [rewrite andb_true_r; apply Z.ltb_lt; lia|].
  f_equal. f_equal. unfold ascii_lower_byte, in_range.
  destruct (Z.leb_spec 65 (byte_of c)), (Z.leb_spec (byte_of c) 90); simpl;
  repeat match goal with |- context [?x <=? ?y] => destruct (Z.leb_spec x y) end; simpl; lia.
Qed.

Lemma ToLower_idemp_ascii s : is_ascii s = true -> strings.ToLower (strings.ToLower s) = strings.ToLower s.
Proof.
  intros H. destruct (ascii_lower_ascii s H) as [H1 H2]. rewrite (ToLower_ascii s), ToLower_ascii by done. done.
Qed.

(** Canonicalisation changes only the case of a header name. *)
Lemma ToLower_CanonicalHeaderKey k : strings.ToLower (http.CanonicalHeaderKey k) = strings.ToLower k.
Proof.
  unfold http.CanonicalHeaderKey. destruct (url.all_of http.token_byte k) eqn:H; [|done].
  apply token_ascii in H. rewrite !ToLower_ascii by (done || by apply canon_ascii). by apply canon_lower.
Qed.

Lemma elem_of_set_raw h k vs n ws : (n, ws) ∈ http.set_raw h k vs -> (n, ws) ∈ h \/ n = k.
Proof.
  induction h as [|[k' vs'] h IH]; simpl; [intros [[= -> ->]|H]%elem_of_cons; [auto|by apply not_elem_of_nil in H]|].
  case_bool_decide as Hk; rewrite !elem_of_cons; intros [[= -> ->]|H]; auto. apply IH in H as [|]; auto.
Qed.

(** Promotion adds only headers it reports. *)
Lemma promote_fold q h p h' p' :
  fold_left promote_one q (h, p) = (h', p') ->
  (forall n, n ∈ p -> n ∈ p') /\
  forall name vs, (name, vs) ∈ h' -> (exists ws, (name, ws) ∈ h) \/ strings.ToLower name ∈ p'.
Proof.
  revert h p; induction q as [|[k vs] q IH]; intros h p H; simpl in H.
  { injection H as <- <-. split; [done|]. eauto. }
  destruct (_ || _ || _) eqn:Hskip; [by apply IH|].
  apply IH in H as [Hp Hh]. split; [intros n Hn; apply Hp; by apply elem_of_app; left|].
  intros name ws Hin. apply Hh in Hin as [[ws' Hin]|]; [|auto].
  assert (strings.ToLower k ∈ p') as Hk by (apply Hp, elem_of_app; right; by left).
  case_bool_decide; [|eauto]. apply elem_of_set_raw in Hin as [Hin|Hin]; [eauto|]. right. by rewrite Hin, ToLower_CanonicalHeaderKey.
Qed.

(** The successful path of [verifyPresignedRequest]. *)
Lemma presigned_sound keyfn v now r lookup vr r' v' :
  reachable keyfn (signers v) -> versioned_lookup keyfn lookup ->
  verifyPresignedRequest v now r lookup = (Ok (vr, r'), v') ->
  let query := url.Query (http.URL r) in
  (exists sh, presents_query now r sh vr /\
              authenticated keyfn v r lookup (url.Get query "X-Amz-Security-Token") sh "X-Amz-Signature" vr) /\
  (PayloadHash vr = http.HGet (http.Header_ r) "X-Amz-Content-Sha256" \/
   http.HGet (http.Header_ r) "X-Amz-Content-Sha256" = "" /\ PayloadHash vr = "UNSIGNED-PAYLOAD") /\
  r' = (promoteHoistedQueryParams r).1 /\ amz_covered r' vr /\ reachable keyfn (signers v') /\ region v' = region v.
Proof.
  intros Hc Hl H. unfold verifyPresignedRequest in H. cbv zeta in H. ok_path H.
  injection H as <- <- <-. bools. repeat match goal with u : unit |- _ => destruct u end. subst.
  match goal with Hlk : lookupSecret _ _ _ = Ok _ |- _ => apply lookupSecret_ok in Hlk as [Hlk Hver] end.
  match goal with Hs : checkSignature _ _ _ _ _ _ _ _ _ _ _ = _ |- _ =>
    eapply (checkSignature_ok keyfn) in Hs as (Hr & Hkey & Hsh & canon & Hcan & Hsig); [|done|done|by intros; eapply Hl] end.
  match goal with Ht : validateSessionToken _ _ _ = Ok tt |- _ => apply validateSessionToken_ok in Ht end.
  match goal with Hq : requireSignedAmzHeaders _ _ _ = Ok tt |- _ => apply requireSignedAmzHeaders_ok in Hq as Hamz end.
  match goal with Hp : _ && _ = false |- _ => apply pinned_region in Hp end.
  match goal with Hp : promoteHoistedQueryParams r = _ |- _ => rename Hp into Hprom end.
  cbv zeta. split; [|split; [|split; [done|split]]].
  - eexists. split; [|constructor; simpl; try done; eauto].
    split; [done|]. split; [done|]. split; [done|]. split; [done|]. simpl. unfold time.After, time.Add in *. bools.
    match goal with Hx : strconv.ParseInt _ _ _ = Some ?e |- _ =>
      exists e; pose proof (wrap64_le (e * time.Second)); pose proof (wrap64_id (e * time.Second)) end.
    unfold int64_min, int64_max, time.Second in *. split_and!; done || lia.
  - simpl. case_bool_decide; auto.
  - eexists; split; [reflexivity|]. intros name vs Hin Hasc Hp. apply elem_of_signedHeaderSet.
    unfold promoteHoistedQueryParams in Hprom. destruct (fold_left promote_one _ _) as [h' p'] eqn:Hf.
    injection Hprom as <- <-. apply promote_fold in Hf as [_ Hf]. simpl in Hin.
    apply Hf in Hin as [[ws Hin]|Hin].
    + eexists; split; [left|]. by eapply Hamz.
    + exists p'. split; [right; left|]. apply list_elem_of_fmap. eexists; split; [|exact Hin].
      by rewrite ToLower_idemp_ascii.
  - done.
Qed.

(** C7. Presigned authentication is sound.  As for header authentication, with
    the key id, date, region, signed headers and signature those the query
    names.  The URL is used within the window it was signed for: now is at most
    X-Amz-Expires seconds after its X-Amz-Date, and at most 15 minutes before
    it; X-Amz-Expires is a positive integer, and its window is at most seven
    days.  The code computes that window in wrapping 64-bit arithmetic: an
    expiry beyond the int64 range of nanoseconds is not refused, but the window
    it gives is the wrapped one, which only shortens it.  Every x-amz-* header
    the operation will read, promoted query parameters included, is covered by
    the signature. *)
Theorem verifyPresignedRequest_sound keyfn v now r lookup vr r' v' :
  reachable keyfn (signers v) -> versioned_lookup keyfn lookup ->
  verifyPresignedRequest v now r lookup = (Ok (vr, r'), v') ->
  let query := url.Query (http.URL r) in
  (exists sh, presents_query now r sh vr /\
              authenticated keyfn v r lookup (url.Get query "X-Amz-Security-Token") sh "X-Amz-Signature" vr) /\
  (PayloadHash vr = http.HGet (http.Header_ r) "X-Amz-Content-Sha256" \/
   http.HGet (http.Header_ r) "X-Amz-Content-Sha256" = "" /\ PayloadHash vr = "UNSIGNED-PAYLOAD") /\
  r' = (promoteHoistedQueryParams r).1 /\ amz_covered r' vr /\ reachable keyfn (signers v') /\ region v' = region v.
Proof. apply presigned_sound. Qed.

(** ** Requests on which the theorems apply *)

Definition demo_cred : Credential :=
  {| SecretAccessKey := "wJalrXUtnFEMI"; SigningKey := None; SecretVersion := ""; SessionToken := "" |}.

Definition demo_lookup : SecretLookup := fun akid _ =>
  if bool_decide (akid = "AKID") then Ok demo_cred else Err (Sentinel ErrUnknownKey).

Definition demo_verifier : Verifier := {| signers := newSignerCache (fun _ => 3) 2; region := "us-east-1" |}.

Definition demo_time : time.Time :=
  {| time.year := 2024; time.month := 5; time.day := 24; time.hour := 0; time.minute := 0; time.sec := 0; time.nsec := 0 |}.

Definition demo_url (q : string) : url.URL :=
  {| url.Scheme := ""; url.Opaque := ""; url.Host := ""; url.Path := "/photos/a b"; url.RawPath := ""; url.RawQuery := q |}.

Definition demo_request (q : string) (h : http.Header) : http.Request :=
  {| http.Method := "GET"; http.RequestURI := "/photos/a%20b?" +:+ q; http.URL := demo_url q; http.Header_ := h;
     http.Host := "s3.example.com"; http.ContentLength := 0; http.RemoteAddr := "192.0.2.1:1234" |}.

Definition demo_key : string := DeriveSigningKey (SecretAccessKey demo_cred) "20240524" "us-east-1".
Definition demo_scope : string := "20240524/us-east-1/s3/aws4_request".

Definition sign_with (r : http.Request) (sh : list string) (drop ph : string) : string :=
  match canonicalRequest r sh drop ph with Ok c => signature demo_key demo_time demo_scope c | Err _ => "" end.

Definition demo_headers : http.Header :=
  [("X-Amz-Date", ["20240524T000000Z"]); ("X-Amz-Content-Sha256", ["UNSIGNED-PAYLOAD"]); ("Range", ["bytes=0-9"])].

Definition demo_sh : list string := ["host"; "x-amz-content-sha256"; "x-amz-date"].

Definition demo_signed : http.Request :=
  demo_request "" (("Authorization",
    [sigV4Algorithm +:+ " Credential=AKID/" +:+ demo_scope +:+ ", SignedHeaders=" +:+ strings.Join demo_sh ";" +:+
     ", Signature=" +:+ sign_with (demo_request "" demo_headers) demo_sh "" "UNSIGNED-PAYLOAD"]) :: demo_headers).

Definition demo_now : Z := time.instant demo_time + 60 * time.Second.

Definition dummy_verified : Verified :=
  {| AccessKeyID := ""; VSigningKey := ""; Signature := ""; SigningTime := demo_time; Scope := ""; Region := "";
     PayloadHash := ""; SignedHeaders := None |}.

Definition out_verified (o : verify_result) : Verified := match o.1 with Ok (vr, _) => vr | Err _ => dummy_verified end.
Definition out_request (o : verify_result) : http.Request := match o.1 with Ok (_, r) => r | Err _ => demo_request "" [] end.

Lemma out_ok (o : verify_result) : is_ok o.1 = true -> o = (Ok (out_verified o, out_request o), o.2).
Proof. destruct o as [[[vr r]|e] v]; done. Qed.

Lemma demo_versioned : versioned_lookup demo_keyfn demo_lookup.
Proof.
  intros akid token cred date reg k H. unfold demo_lookup in H. case_bool_decide; [|done]. injection H as <-.
  apply demo_keyfn_ok. done.
Qed.

#[local] Notation demo_header_out := (verifyHeaderRequest demo_verifier demo_now demo_signed demo_lookup).

Lemma verifyHeaderRequest_sound_witness :
  is_ok demo_header_out.1 = true /\
  exists sh, presents_header demo_now demo_signed sh (out_verified demo_header_out).
Proof.
  assert (is_ok demo_header_out.1 = true) as H by vm_refl. split; [exact H|].
  destruct (verifyHeaderRequest_sound demo_keyfn demo_verifier demo_now demo_signed demo_lookup
    _ _ _ (reach_new _ _ _) demo_versioned (out_ok _ H)) as [[sh [Hp _]] _]. exact (ex_intro _ sh Hp).
Defined.

Definition demo_query : string :=
  "X-Amz-Algorithm=AWS4-HMAC-SHA256&X-Amz-Credential=AKID%2F20240524%2Fus-east-1%2Fs3%2Faws4_request" +:+
  "&X-Amz-Date=20240524T000000Z&X-Amz-Expires=3600&X-Amz-SignedHeaders=host&x-amz-meta-a=2&x-amz-meta-a=1".

Definition demo_presigned : http.Request :=
  demo_request (demo_query +:+ "&X-Amz-Signature=" +:+
    sign_with (demo_request demo_query []) ["host"] "X-Amz-Signature" "UNSIGNED-PAYLOAD") [].

#[local] Notation demo_presigned_out := (verifyPresignedRequest demo_verifier demo_now demo_presigned demo_lookup).

Lemma verifyPresignedRequest_sound_witness :
  is_ok demo_presigned_out.1 = true /\
  exists sh, presents_query demo_now demo_presigned sh (out_verified demo_presigned_out).
Proof.
  assert (is_ok demo_presigned_out.1 = true) as H by vm_refl. split; [exact H|].
  destruct (verifyPresignedRequest_sound demo_keyfn demo_verifier demo_now demo_presigned demo_lookup
    _ _ _ (reach_new _ _ _) demo_versioned (out_ok _ H)) as [[sh [Hp _]] _]. exact (ex_intro _ sh Hp).
Defined.

Example demo_promoted : http.HValues (http.Header_ (out_request demo_presigned_out)) "x-amz-meta-a" = ["1"; "2"].
Proof. vm_refl. Qed.

(** An expiry of more than 584 years wraps around and passes the one-week
    bound, as its wrapped duration is about 0.29 seconds; the window stays
    bounded because the same wrapped duration is the one that expires. *)
Example presign_expiry_wraps :
  604800 < 18446744074 /\ wrap64 (18446744074 * time.Second) <= maxPresignExpires /\ 0 < wrap64 (18446744074 * time.Second).
Proof. vm_compute. repeat split; discriminate. Qed.
