(* ===== verification/Checksum.v ===== *)
(** * Checksums (src/checksum/checksum.go)

    The S3 checksum algorithms as functions of the bytes written to the hash
    (Go's [hash/crc32], [hash/crc64], [crypto/sha1], [crypto/sha256],
    [crypto/sha512], [crypto/md5]; executable, checked on published vectors),
    base64, and the table of algorithms with the trailer declaration. *)

From S2P Require Import Prelude Unicode GoStrings GoNet Crypto.

Open Scope Z_scope.

Module hashes.

(** ** CRC, reflected *)

Fixpoint crc_bits (n : nat) (poly c : Z) : Z :=
  match n with
  | O => c
  | S n => crc_bits n poly (if Z.odd c then Z.lxor (Z.shiftr c 1) poly else Z.shiftr c 1)
  end.

Definition crc (bits poly : Z) (l : list Z) : Z :=
  Z.lxor (Z.ones bits) (fold_left (fun c b => crc_bits 8 poly (Z.lxor c b)) l (Z.ones bits)).

(** [n] bytes of [z], most significant first. *)
Fixpoint be_bytes (n : nat) (z : Z) : list Z :=
  match n with O => [] | S n => Z.land (Z.shiftr z (8 * Z.of_nat n)) 255 :: be_bytes n z end.

Definition crc32 (l : list Z) : list Z := be_bytes 4 (crc 32 0xedb88320 l).
Definition crc32c (l : list Z) : list Z := be_bytes 4 (crc 32 0x82f63b78 l).
Definition crc64nvme (l : list Z) : list Z := be_bytes 8 (crc 64 0x9a6c9329ac4bc9b5 l).

(** ** SHA-1 *)

Definition rotl (w n x : Z) : Z := Z.land (Z.lor (Z.shiftl x n) (Z.shiftr x (w - n))) (Z.ones w).

Fixpoint sha1_extend (n : nat) (w : list Z) : list Z :=
  match n with
  | O => w
  | S n => sha1_extend n (rotl 32 1 (Z.lxor (Z.lxor (nth 2 w 0) (nth 7 w 0)) (Z.lxor (nth 13 w 0) (nth 15 w 0))) :: w)
  end.

Definition sha1_round (st : nat * list Z) (w : Z) : nat * list Z :=
  match st with
  | (t, [a; b; c; d; e]) =>
    let '(f, k) :=
      if (t <? 20)%nat then (Z.lor (Z.land b c) (Z.land (Z.lxor b (Z.ones 32)) d), 0x5a827999)
      else if (t <? 40)%nat then (Z.lxor (Z.lxor b c) d, 0x6ed9eba1)
      else if (t <? 60)%nat then (Z.lor (Z.lor (Z.land b c) (Z.land b d)) (Z.land c d), 0x8f1bbcdc)
      else (Z.lxor (Z.lxor b c) d, 0xca62c1d6) in
    (S t, [sha256.w32 (rotl 32 5 a + f + e + k + w); a; rotl 32 30 b; c; d])
  | _ => st
  end.

Definition sha1_compress (st block : list Z) : list Z :=
  zip_with (fun x y => sha256.w32 (x + y)) st
    (fold_left sha1_round (reverse (sha1_extend 64 (reverse block))) (0%nat, st)).2.

Fixpoint chunks_of (fuel n : nat) (f : list Z -> list Z -> list Z) (st l : list Z) : list Z :=
  match fuel, l with
  | S fuel, _ :: _ => chunks_of fuel n f (f st (take n l)) (drop n l)
  | _, _ => st
  end.

Definition sha1 (l : list Z) : list Z :=
  let ws := sha256.words (sha256.pad l) in
  concat (map sha256.word_bytes (chunks_of (length ws) 16 sha1_compress
    [0x67452301; 0xefcdab89; 0x98badcfe; 0x10325476; 0xc3d2e1f0] ws)).

(** ** SHA-512 *)

Definition w64 (z : Z) : Z := Z.land z (Z.ones 64).
Definition rotr64 (n x : Z) : Z := rotl 64 (64 - n) x.

Definition K512 : list Z :=
  Eval vm_compute in map (fun p => w64 (sha256.cbrt_bits 70 (p * 2 ^ 192) 0)) (take 80 sha256.primes).
Definition H512 : list Z :=
  Eval vm_compute in map (fun p => w64 (Z.sqrt (p * 2 ^ 128))) (take 8 sha256.primes).

Fixpoint sha512_extend (n : nat) (w : list Z) : list Z :=
  match n with
  | O => w
  | S n =>
    let s0 := let x := nth 14 w 0 in Z.lxor (Z.lxor (rotr64 1 x) (rotr64 8 x)) (Z.shiftr x 7) in
    let s1 := let x := nth 1 w 0 in Z.lxor (Z.lxor (rotr64 19 x) (rotr64 61 x)) (Z.shiftr x 6) in
    sha512_extend n (w64 (s1 + nth 6 w 0 + s0 + nth 15 w 0) :: w)
  end.

Definition sha512_round (st : list Z) (kw : Z * Z) : list Z :=
  match st with
  | [a; b; c; d; e; f; g; h] =>
    let s1 := Z.lxor (Z.lxor (rotr64 14 e) (rotr64 18 e)) (rotr64 41 e) in
    let s0 := Z.lxor (Z.lxor (rotr64 28 a) (rotr64 34 a)) (rotr64 39 a) in
    let ch := Z.lxor (Z.land e f) (Z.land (Z.lxor e (Z.ones 64)) g) in
    let t1 := h + s1 + ch + kw.1 + kw.2 in
    [w64 (t1 + s0 + sha256.Maj a b c); a; b; c; w64 (d + t1); e; f; g]
  | _ => st
  end.

Definition sha512_compress (st block : list Z) : list Z :=
  zip_with (fun x y => w64 (x + y)) st
    (fold_left sha512_round (zip K512 (reverse (sha512_extend 64 (reverse block)))) st).

Fixpoint words64 (l : list Z) : list Z :=
  match l with
  | a :: b :: l => (a * 2 ^ 32 + b) :: words64 l
  | _ => []
  end.

Definition pad512 (l : list Z) : list Z :=
  let n := length l in
  l ++ [128] ++ replicate ((239 - n mod 128) mod 128)%nat 0 ++ be_bytes 16 (Z.of_nat n * 8).

Definition sha512 (l : list Z) : list Z :=
  let ws := words64 (sha256.words (pad512 l)) in
  concat (map (be_bytes 8) (chunks_of (length ws) 16 sha512_compress H512 ws)).

(** ** MD5 *)

Definition KMD5 : list Z := [
  0xd76aa478; 0xe8c7b756; 0x242070db; 0xc1bdceee; 0xf57c0faf; 0x4787c62a; 0xa8304613; 0xfd469501;
  0x698098d8; 0x8b44f7af; 0xffff5bb1; 0x895cd7be; 0x6b901122; 0xfd987193; 0xa679438e; 0x49b40821;
  0xf61e2562; 0xc040b340; 0x265e5a51; 0xe9b6c7aa; 0xd62f105d; 0x02441453; 0xd8a1e681; 0xe7d3fbc8;
  0x21e1cde6; 0xc33707d6; 0xf4d50d87; 0x455a14ed; 0xa9e3e905; 0xfcefa3f8; 0x676f02d9; 0x8d2a4c8a;
  0xfffa3942; 0x8771f681; 0x6d9d6122; 0xfde5380c; 0xa4beea44; 0x4bdecfa9; 0xf6bb4b60; 0xbebfbc70;
  0x289b7ec6; 0xeaa127fa; 0xd4ef3085; 0x04881d05; 0xd9d4d039; 0xe6db99e5; 0x1fa27cf8; 0xc4ac5665;
  0xf4292244; 0x432aff97; 0xab9423a7; 0xfc93a039; 0x655b59c3; 0x8f0ccc92; 0xffeff47d; 0x85845dd1;
  0x6fa87e4f; 0xfe2ce6e0; 0xa3014314; 0x4e0811a1; 0xf7537e82; 0xbd3af235; 0x2ad7d2bb; 0xeb86d391 ].

Definition md5_shift (i : nat) : Z :=
  nth (i mod 4) (nth (i / 16) [[7; 12; 17; 22]; [5; 9; 14; 20]; [4; 11; 16; 23]; [6; 10; 15; 21]] []) 0.

Definition md5_round (m : list Z) (st : nat * list Z) (k : Z) : nat * list Z :=
  match st with
  | (i, [a; b; c; d]) =>
    let nb := Z.lxor b (Z.ones 32) in
    let '(f, g) :=
      if (i <? 16)%nat then (Z.lor (Z.land b c) (Z.land nb d), i)
      else if (i <? 32)%nat then (Z.lor (Z.land d b) (Z.land (Z.lxor d (Z.ones 32)) c), (5 * i + 1) mod 16)%nat
      else if (i <? 48)%nat then (Z.lxor (Z.lxor b c) d, (3 * i + 5) mod 16)%nat
      else (Z.lxor c (Z.lor b (Z.lxor d (Z.ones 32))), (7 * i) mod 16)%nat in
    (S i, [d; sha256.w32 (b + rotl 32 (md5_shift i) (sha256.w32 (a + f + k + nth g m 0))); b; c])
  | _ => st
  end.

Definition md5_compress (st block : list Z) : list Z :=
  zip_with (fun x y => sha256.w32 (x + y)) st (fold_left (md5_round block) KMD5 (0%nat, st)).2.

Fixpoint words_le (l : list Z) : list Z :=
  match l with
  | a :: b :: c :: d :: l => (((d * 256 + c) * 256 + b) * 256 + a) :: words_le l
  | _ => []
  end.

Definition md5 (l : list Z) : list Z :=
  let n := length l in
  let padded := l ++ [128] ++ replicate ((119 - n mod 64) mod 64)%nat 0 ++ reverse (be_bytes 8 (Z.of_nat n * 8)) in
  let ws := words_le padded in
  concat (map (fun w => reverse (be_bytes 4 w))
    (chunks_of (length ws) 16 md5_compress [0x67452301; 0xefcdab89; 0x98badcfe; 0x10325476] ws)).

End hashes.

Module base64.

Definition digit (v : Z) : ascii :=
  of_byte (if v <? 26 then 65 + v else if v <? 52 then 71 + v else if v <? 62 then v - 4 else if v =? 62 then 43 else 47).

Fixpoint encode (l : list Z) : string :=
  match l with
  | [] => ""
  | [a] => String (digit (a / 4)) (String (digit (a mod 4 * 16)) "==")
  | [a; b] => String (digit (a / 4)) (String (digit (a mod 4 * 16 + b / 16)) (String (digit (b mod 16 * 4)) "="))
  | a :: b :: c :: l =>
    String (digit (a / 4)) (String (digit (a mod 4 * 16 + b / 16))
      (String (digit (b mod 16 * 4 + c / 64)) (String (digit (c mod 64)) (encode l))))
  end.

Definition value (c : ascii) : option Z :=
  let b := byte_of c in
  if in_range b 65 90 then Some (b - 65)
  else if in_range b 97 122 then Some (b - 71)
  else if in_range b 48 57 then Some (b + 4)
  else if b =? 43 then Some 62
  else if b =? 47 then Some 63
  else None.

(** Groups of four digits; padding only closes the last one, and the bits it
    leaves over are not looked at. *)
Fixpoint quads (s : string) : option (list Z) :=
  match s with
  | EmptyString => Some []
  | String a (String b (String c (String d r))) =>
    x ← value a; y ← value b;
    let first := (x * 4 + y / 16) in
    if (byte_of c =? 61) then
      if (byte_of d =? 61) && bool_decide (r = "") then Some [first] else None
    else
      z ← value c;
      let second := (y mod 16 * 16 + z / 4) in
      if (byte_of d =? 61) then if bool_decide (r = "") then Some [first; second] else None
      else w ← value d; rest ← quads r; Some (first :: second :: (z mod 4 * 64 + w) :: rest)
  | _ => None
  end.

Fixpoint drop_newlines (s : string) : string :=
  match s with
  | EmptyString => ""
  | String c r => if (byte_of c =? 10) || (byte_of c =? 13) then drop_newlines r else String c (drop_newlines r)
  end.

(** [base64.StdEncoding.DecodeString]: line ends are skipped. *)
Definition decode (s : string) : option (list Z) := quads (drop_newlines s).

(** *** Round trip *)

Lemma value_digit v : 0 <= v < 64 -> value (digit v) = Some v /\ byte_of (digit v) <> 61 /\ byte_of (digit v) <> 10 /\ byte_of (digit v) <> 13.
Proof.
  intros H. assert (v ∈ seqZ 0 64) as Hv by (apply elem_of_seqZ; lia).
  assert (Forall (fun v => value (digit v) = Some v /\ byte_of (digit v) <> 61 /\ byte_of (digit v) <> 10 /\ byte_of (digit v) <> 13) (seqZ 0 64)) as Ha
    by (apply (bool_decide_eq_true_1 _); vm_refl).
  exact (proj1 (Forall_forall _ _) Ha v Hv).
Qed.

Definition is_bytes (l : list Z) : Prop := Forall (fun b => 0 <= b < 256) l.

Lemma drop_digit v s : 0 <= v < 64 -> drop_newlines (String (digit v) s) = String (digit v) (drop_newlines s).
Proof.
  intros H. destruct (value_digit v H) as (_ & _ & H1 & H2). cbn [drop_newlines].
  by rewrite (proj2 (Z.eqb_neq _ _) H1), (proj2 (Z.eqb_neq _ _) H2).
Qed.

(** Three bytes are four sextets. *)
Lemma sextets a b c : 0 <= a < 256 -> 0 <= b < 256 -> 0 <= c < 256 ->
  (0 <= a / 4 < 64 /\ 0 <= a mod 4 * 16 + b / 16 < 64 /\ 0 <= b mod 16 * 4 + c / 64 < 64 /\ 0 <= c mod 64 < 64) /\
  a / 4 * 4 + (a mod 4 * 16 + b / 16) / 16 = a /\
  (a mod 4 * 16 + b / 16) mod 16 * 16 + (b mod 16 * 4 + c / 64) / 4 = b /\
  (b mod 16 * 4 + c / 64) mod 4 * 64 + c mod 64 = c.
Proof. intros. repeat split; Z.to_euclidean_division_equations; lia. Qed.

Lemma decode_group a b c l rest : 0 <= a < 256 -> 0 <= b < 256 -> 0 <= c < 256 ->
  quads (drop_newlines (encode l)) = Some rest ->
  quads (drop_newlines (encode (a :: b :: c :: l))) = Some (a :: b :: c :: rest).
Proof.
  intros Ha Hb Hc H. destruct (sextets a b c Ha Hb Hc) as ((S1 & S2 & S3 & S4) & E1 & E2 & E3).
  cbn [encode]. rewrite !drop_digit by done. cbn [quads].
  destruct (value_digit _ S1) as (-> & _), (value_digit _ S2) as (-> & _), (value_digit _ S3) as (V3 & N3 & _),
    (value_digit _ S4) as (V4 & N4 & _).
  cbn. rewrite (proj2 (Z.eqb_neq _ _) N3), V3. cbn. rewrite (proj2 (Z.eqb_neq _ _) N4), V4. cbn. rewrite H. cbn.
  by rewrite E1, E2, E3.
Qed.

Lemma base64_decode_encode l : is_bytes l -> decode (encode l) = Some l.
Proof.
  unfold decode. induction l as [l IH] using (induction_ltof1 _ (@length Z)); unfold ltof in IH. intros H.
  destruct l as [|a [|b [|c l]]]; [done| | |].
  - apply Forall_cons in H as [Ha _]. destruct (sextets a 0 0 Ha ltac:(lia) ltac:(lia)) as ((S1 & S2 & _) & E1 & _).
    rewrite Z.div_0_l, Z.add_0_r in * by lia.
    cbn [encode]. rewrite !drop_digit by done. cbn [drop_newlines quads].
    destruct (value_digit _ S1) as (-> & _), (value_digit _ S2) as (-> & _). cbn. by rewrite E1.
  - apply Forall_cons in H as [Ha H]. apply Forall_cons in H as [Hb _].
    destruct (sextets a b 0 Ha Hb ltac:(lia)) as ((S1 & S2 & S3 & _) & E1 & E2 & _).
    rewrite (Z.div_0_l 64), Z.add_0_r in * by lia.
    cbn [encode]. rewrite !drop_digit by done. cbn [drop_newlines quads].
    destruct (value_digit _ S1) as (-> & _), (value_digit _ S2) as (-> & _), (value_digit _ S3) as (V3 & N3 & _).
    cbn. rewrite (proj2 (Z.eqb_neq _ _) N3), V3. cbn. by rewrite E1, E2.
  - apply Forall_cons in H as [Ha H]. apply Forall_cons in H as [Hb H]. apply Forall_cons in H as [Hc H].
    apply decode_group; [done..|]. apply IH; [simpl; lia|done].
Qed.

Example decode_lines : decode (String (of_byte 10) "Zm9v" +:+ String (of_byte 13) "Yg==") = Some [102; 111; 111; 98].
Proof. vm_refl. Qed.
Example decode_bad : map decode ["Zg="; "Zg"; "Zm=v"; "Zg==Zg=="; "Z_8="] = replicate 5 None.
Proof. vm_refl. Qed.

End base64.

Module checksum.

Definition HeaderPrefix : string := "x-amz-checksum-".

(** A hash constructor, as the function from the bytes written to the sum. *)
Definition newHashFunc := list Z -> list Z.

Record Algorithm := { Name : string; newHash : option newHashFunc }.

Definition Header (a : Algorithm) : string := HeaderPrefix +:+ strings.ToLower (Name a).

Definition Computable (a : Algorithm) : bool := bool_decide (is_Some (newHash a)).

Definition algorithms : list Algorithm := [
  {| Name := "CRC32"; newHash := Some hashes.crc32 |};
  {| Name := "CRC32C"; newHash := Some hashes.crc32c |};
  {| Name := "CRC64NVME"; newHash := Some hashes.crc64nvme |};
  {| Name := "SHA1"; newHash := Some hashes.sha1 |};
  {| Name := "SHA256"; newHash := Some sha256.sum_bytes |};
  {| Name := "SHA512"; newHash := Some hashes.sha512 |};
  {| Name := "MD5"; newHash := Some hashes.md5 |};
  {| Name := "XXHASH64"; newHash := None |};
  {| Name := "XXHASH3"; newHash := None |};
  {| Name := "XXHASH128"; newHash := None |} ].

Definition Lookup (name : string) : option Algorithm :=
  List.find (fun a => strings.EqualFold (Name a) name) algorithms.

Definition NewHash (name : string) : option newHashFunc :=
  match Lookup name with Some a => newHash a | None => None end.

(** [Base64] of a hash to which [data] was written. *)
Definition Base64 (h : newHashFunc) (data : string) : string := base64.encode (h (sha256.bytes_Z data)).

(** [Values], keyed by algorithm name; nil and empty carry the same. *)
Definition Values := gmap string string.

Definition Values_Algorithm (v : Values) : string :=
  match List.find (fun a => negb (bool_decide (default "" (v !! Name a) = ""))) algorithms with
  | Some a => Name a
  | None => ""
  end.

Definition FromHeaders (h : http.Header) : Values :=
  fold_left (fun (v : Values) a =>
    let s := http.HGet h (Header a) in if bool_decide (s = "") then v else <[Name a := s]> v) algorithms ∅.

Definition SetHeaders (h : http.Header) (v : Values) (checksumType : string) : http.Header :=
  let h := fold_left (fun h a =>
    let s := default "" (v !! Name a) in if bool_decide (s = "") then h else http.HSet h (Header a) s) algorithms h in
  if bool_decide (checksumType = "") then h else http.HSet h "x-amz-checksum-type" checksumType.

(** [TrailerAlgorithm]; [Err tt] is [ErrUnsupportedTrailer]. *)
Definition trailer_step (alg : string) (t : string) : result unit string :=
  let t := strings.ToLower (strings.TrimSpace t) in
  if bool_decide (t = "") then Ok alg
  else match strings.CutPrefix t HeaderPrefix with
       | None => Err tt
       | Some a => if bool_decide (is_Some (NewHash a)) && bool_decide (alg = "") then Ok a else Err tt
       end.

Definition TrailerAlgorithm (h : http.Header) : result unit string :=
  foldM trailer_step "" (strings.Split (http.HGet h "x-amz-trailer") ",").

(** ** Theorems *)

(** A declared trailer is never dropped: [TrailerAlgorithm] returns either
    an algorithm whose hash can be computed, or the empty name only when every
    element of the header is blank. *)
Theorem TrailerAlgorithm_verifiable h alg :
  TrailerAlgorithm h = Ok alg ->
  is_Some (NewHash alg) /\ alg <> "" \/
  alg = "" /\ Forall (fun t => strings.ToLower (strings.TrimSpace t) = "") (strings.Split (http.HGet h "x-amz-trailer") ",").
Proof.
  unfold TrailerAlgorithm. generalize (strings.Split (http.HGet h "x-amz-trailer") ",") as l. intros l.
  assert (forall l alg0, (alg0 <> "" -> is_Some (NewHash alg0)) -> foldM trailer_step alg0 l = Ok alg ->
    is_Some (NewHash alg) /\ alg <> "" \/
    alg = alg0 /\ Forall (fun t => strings.ToLower (strings.TrimSpace t) = "") l) as Hgen.
  { clear l. induction l as [|t l IH]; intros alg0 H0 H; cbn [foldM] in H; [injection H as <-; right; split; [done|constructor]|].
    unfold trailer_step at 1 in H. destruct (bool_decide (strings.ToLower (strings.TrimSpace t) = "")) eqn:Ht; bools.
    - apply IH in H as [|[-> Hl]]; [by left| |done]. right. split; [done|]. by constructor.
    - destruct (strings.CutPrefix _ HeaderPrefix) as [a|]; [|done].
      destruct (bool_decide (is_Some (NewHash a)) && bool_decide (alg0 = "")) eqn:Ha; [|done].
      apply andb_true_iff in Ha as [Ha%bool_decide_eq_true _].
      assert (a <> "") as Hne.
      { intros ->. assert (NewHash "" = None) as Hn by vm_refl. rewrite Hn in Ha. by destruct Ha. }
      apply IH in H as [|[-> _]]; [by left|by left|done]. }
  intros H. by apply Hgen in H.
Qed.

Lemma TrailerAlgorithm_verifiable_witness :
  let h := [("X-Amz-Trailer", [" X-Amz-Checksum-CRC32C ,"])] in
  TrailerAlgorithm h = Ok "crc32c" /\
  (is_Some (NewHash "crc32c") /\ "crc32c" <> "" \/
   "crc32c" = "" /\ Forall (fun t => strings.ToLower (strings.TrimSpace t) = "") (strings.Split (http.HGet h "x-amz-trailer") ",")).
Proof.
  assert (TrailerAlgorithm [("X-Amz-Trailer", [" X-Amz-Checksum-CRC32C ,"])] = Ok "crc32c") as H by vm_refl.
  split; [exact H|]. exact (TrailerAlgorithm_verifiable _ _ H).
Defined.

Definition hexsum (name data : string) : option string :=
  (fun h => hex.EncodeToString (sha256.Z_bytes (h (sha256.bytes_Z data)))) <$> NewHash name.

Example vector_crc32 : hexsum "crc32" "123456789" = Some "cbf43926".
Proof. vm_refl. Qed.
Example vector_crc32c : hexsum "CRC32C" "123456789" = Some "e3069283".
Proof. vm_refl. Qed.
Example vector_crc64nvme : hexsum "CRC64NVME" "123456789" = Some "ae8b14860a799888".
Proof. vm_refl. Qed.
Example vector_sha1 : hexsum "sha1" "abc" = Some "a9993e364706816aba3e25717850c26c9cd0d89d".
Proof. vm_refl. Qed.
Example vector_sha512 : hexsum "sha512" "abc" = Some "ddaf35a193617abacc417349ae20413112e6fa4e89a97ea20a9eeee64b55d39a2192992a274fc1a836ba3c23a3feebbd454d4423643ce80e2a9ac94fa54ca49f".
Proof. vm_refl. Qed.
Example vector_md5 : hexsum "md5" "abc" = Some "900150983cd24fb0d6963f7d28e17f72".
Proof. vm_refl. Qed.
Example vector_base64 : (fun h => Base64 h "123456789") <$> NewHash "crc32" = Some "y/Q5Jg==".
Proof. vm_refl. Qed.

End checksum.
