(* ===== verification/Chunked.v ===== *)
(** * The aws-chunked body reader (src/sigv4/chunked.go)

    The reader's state is a record like Go's.  The buffered body is the bytes
    still to come ([input]) and the error after the last of them ([final]);
    what a single [bufio.Reader.Read] returns of them is a choice of the
    environment.  A hash is the string of bytes written to it since the last
    reset. *)

From S2P Require Import Prelude Unicode GoStrings GoTime GoError Crypto Signer Checksum Verifier.
Import sigv4 verifier.

Open Scope Z_scope.

Module chunked.

Definition EOF : goerror := Sentinel "io.EOF".
Definition ErrUnexpectedEOF : goerror := Sentinel "io.ErrUnexpectedEOF".

Definition is_EOF (e : goerror) : bool :=
  match e with Sentinel n => bool_decide (n = "io.EOF") | _ => false end.

Record chunkedReader := {
  input : string;
  final : goerror;
  signed : bool;
  trailer : bool;
  signingKey : string;
  timestamp : string;
  scope : string;
  prevSig : string;
  chunkSig : string;
  chunkHash : string;
  ckAlg : string;
  ckHash : option (checksum.newHashFunc * string);
  ckSeen : bool;
  remaining : Z;
  undecoded : Z;
  started : bool;
  eof : bool;
  err : option goerror }.

Definition incompleteBody (cause : goerror) : goerror :=
  s3err.as_error (s3err.WithCause (s3err.New 400 "IncompleteBody"
    [FS "You did not provide the number of bytes specified by the x-amz-decoded-content-length HTTP header."]) cause).

Definition maxChunkLineLen : nat := 8 * 1024.

Definition NewChunkedReader (body : string) (last : goerror) (vr : Verified) (trailerAlg : string) (decodedLength : Z) : chunkedReader :=
  let sg := bool_decide (PayloadHash vr = streamingSHA256) || bool_decide (PayloadHash vr = streamingSHA256T) in
  let tr := strings.HasSuffix (PayloadHash vr) "-TRAILER" in
  let ck := tr && negb (bool_decide (trailerAlg = "")) in
  {| input := body; final := last; signed := sg; trailer := tr;
     signingKey := if sg then VSigningKey vr else "";
     timestamp := if sg then time.FormatAmz (SigningTime vr) else "";
     scope := if sg then Scope vr else "";
     prevSig := if sg then Signature vr else "";
     chunkSig := ""; chunkHash := "";
     ckAlg := if ck then trailerAlg else "";
     ckHash := if ck then (fun h => (h, "")) <$> checksum.NewHash trailerAlg else None;
     ckSeen := false; remaining := 0; undecoded := decodedLength; started := false; eof := false; err := None |}.

(** *** Record updates *)

Definition set_input (cr : chunkedReader) (i : string) : chunkedReader :=
  {| input := i; final := final cr; signed := signed cr; trailer := trailer cr; signingKey := signingKey cr;
     timestamp := timestamp cr; scope := scope cr; prevSig := prevSig cr; chunkSig := chunkSig cr; chunkHash := chunkHash cr;
     ckAlg := ckAlg cr; ckHash := ckHash cr; ckSeen := ckSeen cr; remaining := remaining cr; undecoded := undecoded cr;
     started := started cr; eof := eof cr; err := err cr |}.

Definition set_chain (cr : chunkedReader) (prev cur hashed : string) : chunkedReader :=
  {| input := input cr; final := final cr; signed := signed cr; trailer := trailer cr; signingKey := signingKey cr;
     timestamp := timestamp cr; scope := scope cr; prevSig := prev; chunkSig := cur; chunkHash := hashed;
     ckAlg := ckAlg cr; ckHash := ckHash cr; ckSeen := ckSeen cr; remaining := remaining cr; undecoded := undecoded cr;
     started := started cr; eof := eof cr; err := err cr |}.

Definition set_progress (cr : chunkedReader) (rem und : Z) (st : bool) : chunkedReader :=
  {| input := input cr; final := final cr; signed := signed cr; trailer := trailer cr; signingKey := signingKey cr;
     timestamp := timestamp cr; scope := scope cr; prevSig := prevSig cr; chunkSig := chunkSig cr; chunkHash := chunkHash cr;
     ckAlg := ckAlg cr; ckHash := ckHash cr; ckSeen := ckSeen cr; remaining := rem; undecoded := und;
     started := st; eof := eof cr; err := err cr |}.

Definition set_checksum (cr : chunkedReader) (ck : option (checksum.newHashFunc * string)) (seen : bool) : chunkedReader :=
  {| input := input cr; final := final cr; signed := signed cr; trailer := trailer cr; signingKey := signingKey cr;
     timestamp := timestamp cr; scope := scope cr; prevSig := prevSig cr; chunkSig := chunkSig cr; chunkHash := chunkHash cr;
     ckAlg := ckAlg cr; ckHash := ck; ckSeen := seen; remaining := remaining cr; undecoded := undecoded cr;
     started := started cr; eof := eof cr; err := err cr |}.

Definition set_end (cr : chunkedReader) (e : bool) (er : option goerror) : chunkedReader :=
  {| input := input cr; final := final cr; signed := signed cr; trailer := trailer cr; signingKey := signingKey cr;
     timestamp := timestamp cr; scope := scope cr; prevSig := prevSig cr; chunkSig := chunkSig cr; chunkHash := chunkHash cr;
     ckAlg := ckAlg cr; ckHash := ckHash cr; ckSeen := ckSeen cr; remaining := remaining cr; undecoded := undecoded cr;
     started := started cr; eof := e; err := er |}.

(** *** Framing lines *)

(** The body of [readLine]: [acc] is the line so far, reversed, of length [n]. *)
Fixpoint scan_line (last : goerror) (n : nat) (acc : string) (s : string) : result goerror string * string :=
  match s with
  | EmptyString =>
    (if is_EOF last && (0 <? n)%nat then Ok (strings.TrimRight (strings.rev acc) ["013"; "010"]%char) else Err last, "")
  | String b r =>
    if byte_of b =? 10 then (Ok (strings.TrimRight (strings.rev acc) ["013"; "010"]%char), r)
    else if (maxChunkLineLen <=? n)%nat
    then (Err (Text [FS "chunk framing line exceeds "; FD (Z.of_nat maxChunkLineLen); FS " bytes"]), r)
    else scan_line last (S n) (String b acc) r
  end.

Definition readLine (cr : chunkedReader) : result goerror string * chunkedReader :=
  let '(line, rest) := scan_line (final cr) 0 "" (input cr) in (line, set_input cr rest).

Definition readCRLF (cr : chunkedReader) : result goerror unit * chunkedReader :=
  match input cr with
  | String a (String b rest) =>
    ((if (byte_of a =? 13) && (byte_of b =? 10) then Ok tt else Err (Text [FS "malformed chunk: expected CRLF"])),
     set_input cr rest)
  | _ => (Err (incompleteBody (if is_EOF (final cr) then ErrUnexpectedEOF else final cr)), set_input cr "")
  end.

Definition truncateForError (s : string) : string :=
  if (strings.length s <=? 64)%nat then s else strings.take 64 s +:+ "...".

(** The size and the declared signature of a chunk header line. *)
Definition parse_header (sg : bool) (line : string) : result goerror (Z * string) :=
  let '(sizeStr, ext, hasExt) := strings.Cut line ";" in
  match strconv.ParseInt sizeStr 16 64 with
  | None => Err (Text [FS "malformed chunk size "; FQ (truncateForError sizeStr)])
  | Some size =>
    if size <? 0 then Err (Text [FS "malformed chunk size "; FQ (truncateForError sizeStr)])
    else
      let '(name, value, _) := strings.Cut ext "=" in
      if hasExt && negb (bool_decide (name = "chunk-signature"))
      then Err (Text [FS "unknown chunk extension "; FQ (truncateForError name)])
      else
        let sig := if hasExt then value else "" in
        if sg && bool_decide (sig = "") then Err (Text [FS "missing chunk signature"]) else Ok (size, sig)
  end.

(** [readChunkHeader]; on an error the declared signature is left as it was,
    which nothing reads once the stream has failed. *)
Definition readChunkHeader (cr : chunkedReader) : result goerror Z * chunkedReader :=
  match readLine cr with
  | (Err e, cr) => (Err (if is_EOF e then incompleteBody ErrUnexpectedEOF else e), cr)
  | (Ok line, cr) =>
    match parse_header (signed cr) line with
    | Err e => (Err e, cr)
    | Ok (size, sig) => (Ok size, set_chain cr (prevSig cr) sig (chunkHash cr))
    end
  end.

(** *** The signature chain *)

Definition chunk_signature (key ts sc prev data : string) : string :=
  let stringToSign := strings.Join
    ["AWS4-HMAC-SHA256-PAYLOAD"; ts; sc; prev;
     hex.EncodeToString (sha256.Sum256 ""); hex.EncodeToString (sha256.Sum256 data)] lf in
  hex.EncodeToString (hmacSHA256 key stringToSign).

Definition verifyChunk (cr : chunkedReader) : result goerror unit * chunkedReader :=
  if negb (signed cr) then (Ok tt, cr)
  else
    let want := chunk_signature (signingKey cr) (timestamp cr) (scope cr) (prevSig cr) (chunkHash cr) in
    if bool_decide (want = chunkSig cr) then (Ok tt, set_chain cr (chunkSig cr) (chunkSig cr) "")
    else (Err (s3err.as_error s3err.SignatureDoesNotMatch), cr).

(** *** Trailers *)

Definition missing_trailer (alg : string) : goerror :=
  s3err.as_error (s3err.New 400 "BadDigest" [FS "The x-amz-checksum-"; FS alg; FS " trailer declared by x-amz-trailer is missing."]).

Definition bad_trailer (alg : string) : goerror :=
  s3err.as_error (s3err.New 400 "BadDigest" [FS "The "; FS (strings.ToUpper alg); FS " you specified did not match the calculated checksum."]).

(** Whether a trailer line is the declared checksum, and its value. *)
Definition checksum_line (alg line : string) : option string :=
  let '(name, value, ok) := strings.Cut line ":" in
  if ok && strings.EqualFold (strings.TrimSpace name) (checksum.HeaderPrefix +:+ alg)
  then Some (strings.TrimSpace value) else None.

(** The loop over trailer lines, each of which consumes at least one byte, so
    the length of the input is fuel enough ([trailers_total]). *)
Fixpoint trailers (fuel : nat) (cr : chunkedReader) : option (result goerror unit * chunkedReader) :=
  match fuel with
  | O => None
  | S fuel =>
    let finish cr :=
      Some (if bool_decide (is_Some (ckHash cr)) && negb (ckSeen cr) then Err (missing_trailer (ckAlg cr)) else Ok tt, cr) in
    match readLine cr with
    | (Err e, cr) => if is_EOF e then finish cr else Some (Err e, cr)
    | (Ok line, cr) =>
      if bool_decide (line = "") then finish cr
      else match ckHash cr with
      | None => trailers fuel cr
      | Some (h, data) =>
        match checksum_line (ckAlg cr) line with
        | None => trailers fuel cr
        | Some value =>
          if bool_decide (value = checksum.Base64 h data) then trailers fuel (set_checksum cr (ckHash cr) true)
          else Some (Err (bad_trailer (ckAlg cr)), cr)
        end
      end
    end
  end.

Definition discardTrailers (cr : chunkedReader) : result goerror unit * chunkedReader :=
  if negb (trailer cr) then (Ok tt, (readCRLF cr).2)
  else default (Err (Text [FS "unreachable"]), cr) (trailers (S (S (strings.length (input cr)))) cr).

Definition readTerminal (cr : chunkedReader) : result goerror unit * chunkedReader :=
  match readCRLF cr with
  | (Err e, cr) => (Err e, cr)
  | (Ok _, cr) =>
    match readChunkHeader cr with
    | (Err e, cr) => (Err e, cr)
    | (Ok size, cr) =>
      if negb (size =? 0)
      then (Err (Text [FS "chunk size "; FD size; FS " exceeds the remaining x-amz-decoded-content-length 0"]), cr)
      else match verifyChunk cr with
      | (Err e, cr) => (Err e, cr)
      | (Ok _, cr) =>
        match discardTrailers cr with
        | (Err e, cr) => (Err e, cr)
        | (Ok _, cr) => (Ok tt, set_end cr true (err cr))
        end
      end
    end
  end.

(** *** Reading *)

(** What one buffered read returns of the available bytes: nothing yet, or up
    to [upto] of them, and whether the final error is reported together with
    the last ones. *)
Record choice := { stall : bool; upto : nat; early : bool }.

Definition bufio_read (cr : chunkedReader) (len : nat) (c : choice) : string * option goerror * string :=
  if stall c then ("", None, input cr)
  else
    let n := Nat.min len (upto c) in
    let got := strings.take n (input cr) in
    let rest := strings.drop n (input cr) in
    let at_end := bool_decide (rest = "") && (early c || (bool_decide (got = "") && (0 <? len)%nat)) in
    (got, if at_end then Some (final cr) else None, rest).

Definition fail (cr : chunkedReader) (e : goerror) : string * option goerror * chunkedReader :=
  ("", Some e, set_end cr (eof cr) (Some e)).

(** The first part of [Read], entered with no bytes of a chunk pending: the
    framing up to the next chunk's data.  Go's loop runs at most once, since a
    chunk of size zero ends the stream and any other leaves bytes pending. *)
Definition next_chunk (cr : chunkedReader) : (string * option goerror * chunkedReader) + chunkedReader :=
  let '(r, cr) := if started cr then readCRLF cr else (Ok tt, cr) in
  match r with
  | Err e => inl (fail cr e)
  | Ok _ =>
    match readChunkHeader cr with
    | (Err e, cr) => inl (fail cr e)
    | (Ok size, cr) =>
      let cr := set_progress cr (remaining cr) (undecoded cr) true in
      if undecoded cr <? size
      then inl (fail cr (Text [FS "chunk size "; FD size; FS " exceeds the remaining x-amz-decoded-content-length "; FD (undecoded cr)]))
      else
        let cr := set_progress cr (remaining cr) (undecoded cr - size) true in
        if size =? 0 then
          match verifyChunk cr with
          | (Err e, cr) => inl (fail cr e)
          | (Ok _, cr) =>
            if negb (undecoded cr =? 0)
            then inl (fail cr (incompleteBody (Text [FS "stream complete with "; FD (undecoded cr); FS " bytes of x-amz-decoded-content-length undelivered"])))
            else match discardTrailers cr with
                 | (Err e, cr) => inl (fail cr e)
                 | (Ok _, cr) => inl ("", Some EOF, set_end cr true (err cr))
                 end
          end
        else inr (set_progress cr size (undecoded cr) true)
    end
  end.

(** The end of [Read]: a chunk is verified the moment its data is complete,
    and the terminal chunk and trailers with the last one, before the bytes are
    handed out. *)
Definition chunk_read (cr : chunkedReader) (got : string) : string * option goerror * chunkedReader :=
  if remaining cr =? 0 then
    match verifyChunk cr with
    | (Err e, cr) => fail cr e
    | (Ok _, cr) =>
      if undecoded cr =? 0 then
        match readTerminal cr with
        | (Err e, cr) => fail cr e
        | (Ok _, cr) => (got, None, cr)
        end
      else (got, None, cr)
    end
  else (got, None, cr).

(** The rest of [Read]: bytes of the current chunk. *)
Definition read_data (cr : chunkedReader) (len : nat) (c : choice) : string * option goerror * chunkedReader :=
  let len := if remaining cr <? Z.of_nat len then Z.to_nat (remaining cr) else len in
  let '(got, er, rest) := bufio_read cr len c in
  let cr := set_input cr rest in
  let cr := set_progress cr (remaining cr - Z.of_nat (strings.length got)) (undecoded cr) (started cr) in
  let cr := if signed cr then set_chain cr (prevSig cr) (chunkSig cr) (chunkHash cr +:+ got) else cr in
  let cr := set_checksum cr ((fun '(h, d) => (h, d +:+ got)) <$> ckHash cr) (ckSeen cr) in
  let er := match er with
            | Some e => if is_EOF e && (0 <? remaining cr) then Some (incompleteBody ErrUnexpectedEOF) else Some e
            | None => None
            end in
  match er with
  | Some e => if is_EOF e then chunk_read cr got else (got, Some e, set_end cr (eof cr) (Some e))
  | None => chunk_read cr got
  end.

Definition Read (cr : chunkedReader) (len : nat) (c : choice) : string * option goerror * chunkedReader :=
  match err cr with
  | Some e => ("", Some e, cr)
  | None =>
    if eof cr then ("", Some EOF, cr)
    else if remaining cr =? 0 then
      match next_chunk cr with
      | inl out => out
      | inr cr => read_data cr len c
      end
    else read_data cr len c
  end.

End chunked.
