(* ===== verification/ChunkedFacts.v ===== *)
(** * Integrity of aws-chunked bodies

    Whatever the reads and however the bytes arrive, a consumer of the reader
    gets only bytes of a chunk whose signature is verified before the chunk's
    last byte is handed out, never more than the declared length, and when it
    has the declared length the terminal chunk and the trailer checksum have
    been verified too. *)

From S2P Require Import Prelude Unicode GoStrings GoTime GoError Crypto Signer Checksum Verifier Chunked.
Import sigv4 verifier chunked.

Open Scope Z_scope.

Definition slen (s : string) : Z := Z.of_nat (strings.length s).
Definition cat (l : list string) : string := foldr (fun s acc => s +:+ acc) "" l.

Lemma slen_append s t : slen (s +:+ t) = slen s + slen t.
Proof. unfold slen. rewrite length_append. lia. Qed.

Lemma slen_nonneg s : 0 <= slen s.
Proof. unfold slen. lia. Qed.

Lemma slen_zero s : slen s = 0 -> s = "".
Proof. unfold slen. destruct s; [done|]. simpl. lia. Qed.

Lemma cat_snoc l s : cat (l ++ [s]) = cat l +:+ s.
Proof. induction l as [|x l IH]; simpl; [by rewrite append_nil_r, append_nil_l|]. by rewrite IH, append_assoc. Qed.

Lemma take_drop s n : strings.take n s +:+ strings.drop n s = s.
Proof.
  revert s; induction n as [|n IH]; intros [|c s]; simpl; try done. rewrite append_cons. by rewrite IH.
Qed.

Lemma take_length_le n s : (strings.length (strings.take n s) <= n)%nat.
Proof. revert s; induction n as [|n IH]; intros [|c s]; unfold strings.length in *; simpl; try lia. specialize (IH s). lia. Qed.

(** ** The framing, as a specification *)

Section Framing.
(** The error after the last byte, whether chunks are signed, and the inputs
    of the signature chain. *)
Context (last : goerror) (sg : bool) (key ts sc : string).

Definition crlf : string := cr +:+ lf.

(** A header line at the start of [before], leaving [after]. *)
Definition header (before after : string) (size : Z) (sig : string) : Prop :=
  exists line, scan_line last 0 "" before = (Ok line, after) /\ parse_header sg line = Ok (size, sig).

(** Every chunk but the first is preceded by the CRLF closing the previous. *)
Definition sep (ds : list string) (before after : string) : Prop :=
  match ds with [] => before = after | _ => before = crlf +:+ after end.

(** [frames s ds after s']: reading from the start of the body with the seed
    signature [s], the data chunks [ds] lead to [after], each carrying the
    signature of its data chained from the one before, the last being [s']. *)
Inductive frames (body seed : string) : list string -> string -> string -> Prop :=
| frames_nil : frames body seed [] body seed
| frames_snoc ds a s a1 a2 size sig d a3 :
    frames body seed ds a s -> sep ds a a1 -> header a1 a2 size sig ->
    a2 = d +:+ a3 -> slen d = size -> 0 < size ->
    (sg = true -> sig = chunk_signature key ts sc s d) ->
    frames body seed (ds ++ [d]) a3 (if sg then sig else s).

(** Bytes handed out of [body], of which at most [D] are decoded: the data of
    chunks whose signatures were verified, followed at most by bytes of the one
    chunk after them, whose size [cmp] bounds and which fits the length. *)
Definition backed (cmp : Z -> Z -> Prop) (body seed : string) (D : Z) (delivered : string) : Prop :=
  slen delivered <= Z.max 0 D /\
  exists ds a s part, frames body seed ds a s /\ delivered = cat ds +:+ part /\
    (part = "" \/ exists a1 a2 size sig rest, sep ds a a1 /\ header a1 a2 size sig /\ a2 = part +:+ rest /\
       cmp (slen part) size /\ slen (cat ds) + size <= D).

(** The lines following a position. *)
Inductive has_line : string -> string -> Prop :=
| has_line_here s l r : scan_line last 0 "" s = (Ok l, r) -> has_line s l
| has_line_later s l0 r l : scan_line last 0 "" s = (Ok l0, r) -> has_line r l -> has_line s l.

(** A whole body: data chunks, then a verified terminal chunk, then, when a
    checksum was declared, a trailer line carrying the checksum of the data. *)
Definition complete (body seed : string) (ck : option (string * checksum.newHashFunc)) (data : string) : Prop :=
  exists ds a s a1 a2 sig,
    frames body seed ds a s /\ data = cat ds /\ sep ds a a1 /\ header a1 a2 0 sig /\
    (sg = true -> sig = chunk_signature key ts sc s "") /\
    match ck with
    | Some (alg, h) => exists line, has_line a2 line /\ checksum_line alg line = Some (checksum.Base64 h data)
    | None => True
    end.

End Framing.

(** ** The helpers' effects *)

Lemma readCRLF_ok cr cr' : readCRLF cr = (Ok tt, cr') -> input cr = crlf +:+ input cr' /\ cr' = set_input cr (input cr').
Proof.
  unfold readCRLF. destruct (input cr) as [|a [|b rest]] eqn:Hi; try done.
  destruct ((byte_of a =? 13) && (byte_of b =? 10)) eqn:Hab; [|done]. intros [= <-]. bools. simpl. split; [|done].
  unfold crlf, GoStrings.cr, lf. rewrite !append_cons, !append_nil_l.
  by rewrite <- (of_byte_of a), <- (of_byte_of b), H, H0.
Qed.

Lemma parse_header_size sgd line size sig : parse_header sgd line = Ok (size, sig) -> 0 <= size.
Proof.
  unfold parse_header. destruct (strings.Cut line ";") as [[a b] c]. destruct (strconv.ParseInt a 16 64) as [n|]; [|done].
  destruct (n <? 0) eqn:Hn; [done|]. destruct (strings.Cut b "=") as [[d e] f]. destruct (_ && _); [done|].
  destruct (_ && _); [done|]. intros [= <- <-]. bools. lia.
Qed.

Lemma readChunkHeader_ok cr size cr' :
  readChunkHeader cr = (Ok size, cr') ->
  exists sig, header (final cr) (signed cr) (input cr) (input cr') size sig /\ 0 <= size /\
    cr' = set_chain (set_input cr (input cr')) (prevSig cr) sig (chunkHash cr).
Proof.
  unfold readChunkHeader, readLine. destruct (scan_line (final cr) 0 "" (input cr)) as [[line|e] rest] eqn:Hl; [|done].
  simpl. destruct (parse_header (signed cr) line) as [[sz sig]|e] eqn:Hp; [|done]. intros [= <- <-]. simpl.
  exists sig. split; [by exists line|]. split; [by eapply parse_header_size|done].
Qed.

Lemma verifyChunk_ok cr cr' :
  verifyChunk cr = (Ok tt, cr') ->
  if signed cr
  then chunkSig cr = chunk_signature (signingKey cr) (timestamp cr) (scope cr) (prevSig cr) (chunkHash cr) /\
       cr' = set_chain cr (chunkSig cr) (chunkSig cr) ""
  else cr' = cr.
Proof.
  unfold verifyChunk. destruct (signed cr); simpl; [|by intros [= <-]].
  destruct (bool_decide _) eqn:Hb; [|done]. bools. intros [= <-]. done.
Qed.

(** Only the input and the seen flag change while trailers are read. *)
Definition after_trailers (cr cr' : chunkedReader) : Prop :=
  cr' = set_checksum (set_input cr (input cr')) (ckHash cr) (ckSeen cr').

Lemma trailers_ok fuel cr cr' :
  trailers fuel cr = Some (Ok tt, cr') ->
  after_trailers cr cr' /\
  forall h d, ckHash cr = Some (h, d) ->
    ckSeen cr = true \/
    exists line, has_line (final cr) (input cr) line /\ checksum_line (ckAlg cr) line = Some (checksum.Base64 h d).
Proof.
  revert cr; induction fuel as [|fuel IH]; intros cr H; cbn [trailers] in H; [done|].
  unfold readLine in H. destruct (scan_line (final cr) 0 "" (input cr)) as [[line|e] rest] eqn:Hl; cbv iota beta zeta in H.
  - assert (forall cr1, final cr1 = final cr -> input cr1 = rest -> ckHash cr1 = ckHash cr -> ckAlg cr1 = ckAlg cr ->
      (forall h d, ckHash cr1 = Some (h, d) -> ckSeen cr1 = true \/
        exists line, has_line (final cr1) (input cr1) line /\ checksum_line (ckAlg cr1) line = Some (checksum.Base64 h d)) ->
      forall h d, ckHash cr = Some (h, d) -> ckSeen cr1 = true \/
        exists line, has_line (final cr) (input cr) line /\ checksum_line (ckAlg cr) line = Some (checksum.Base64 h d)) as Hlift.
    { intros cr1 Hf Hi Hh Ha Hrec h d Hhd. destruct (Hrec h d) as [|(l & Hin & Hc)]; [congruence|by left|].
      right. exists l. rewrite Hf, Hi in Hin. rewrite Ha in Hc. split; [by eapply has_line_later|done]. }
    destruct (bool_decide (line = "")).
    + simpl in H. destruct (bool_decide (is_Some (ckHash cr)) && negb (ckSeen cr)) eqn:Hs; [done|].
      injection H as <-. split; [by destruct cr|]. intros h d Hh. left. rewrite Hh in Hs.
      rewrite bool_decide_true in Hs by eauto. by destruct (ckSeen cr).
    + destruct (ckHash cr) as [[h d]|] eqn:Hh; simpl in H; rewrite Hh in H.
      * destruct (checksum_line (ckAlg cr) line) as [value|] eqn:Hv.
        -- destruct (bool_decide (value = _)) eqn:Hb; [|done]. bools. subst value.
           apply IH in H as [Hsame _]. split; [unfold after_trailers in *; rewrite Hsame; simpl; by rewrite Hh|].
           intros h' d' [= <- <-]. right. exists line. split; [by eapply has_line_here|done].
        -- apply IH in H as [Hsame Hrec]. split; [unfold after_trailers in *; rewrite Hsame; simpl; by rewrite Hh|].
           apply (Hlift (set_input cr rest)); done.
      * apply IH in H as [Hsame Hrec]. split; [unfold after_trailers in *; rewrite Hsame; simpl; by rewrite Hh|]. done.
  - destruct (is_EOF e); [|done].
    simpl in H. destruct (bool_decide (is_Some (ckHash cr)) && negb (ckSeen cr)) eqn:Hs; [done|].
    injection H as <-. split; [by destruct cr|]. intros h d Hh. left. rewrite Hh in Hs.
    rewrite bool_decide_true in Hs by eauto. by destruct (ckSeen cr).
Qed.

(** A line other than the final end of input consumes at least a byte. *)
Lemma scan_line_consumes lst n acc s line rest :
  scan_line lst n acc s = (Ok line, rest) -> (strings.length rest <= strings.length s)%nat /\
  (s <> "" -> (strings.length rest < strings.length s)%nat).
Proof.
  revert n acc; induction s as [|b s IH]; intros n acc H; cbn [scan_line] in H.
  - destruct (is_EOF lst && (0 <? n)%nat); [|done]. injection H as _ <-. done.
  - unfold strings.length in *. cbn [Strings.String.length].
    destruct (byte_of b =? 10); [injection H as _ <-; split; lia|].
    destruct (maxChunkLineLen <=? n)%nat; [done|]. apply IH in H as [H _]. split; lia.
Qed.

(** The fuel of the trailer loop is enough. *)
Lemma trailers_total fuel cr : (S (strings.length (input cr)) < fuel)%nat -> is_Some (trailers fuel cr).
Proof.
  revert cr; induction fuel as [|fuel IH]; intros cr Hf; [lia|]. cbn [trailers].
  unfold readLine. destruct (scan_line (final cr) 0 "" (input cr)) as [[line|e] rest] eqn:Hl; cbv iota beta zeta.
  - destruct (bool_decide (line = "")) eqn:Hline; [done|]. bools.
    assert (input cr <> "") as Hne.
    { intros He. rewrite He in Hl. cbn [scan_line] in Hl. rewrite andb_false_r in Hl. done. }
    apply scan_line_consumes in Hl as [_ Hl]. specialize (Hl Hne).
    assert (is_Some (trailers fuel (set_input cr rest)) /\
            is_Some (trailers fuel (set_checksum (set_input cr rest) (ckHash cr) true))) as [H1 H2].
    { split; apply IH; simpl; lia. }
    simpl. destruct (ckHash cr) as [[h d]|] eqn:Hh; [|done].
    destruct (checksum_line (ckAlg cr) line); [|done]. destruct (bool_decide _); [exact H2|done].
  - by destruct (is_EOF e).
Qed.

(** What [discardTrailers] establishes. *)
Lemma discardTrailers_ok cr cr' :
  discardTrailers cr = (Ok tt, cr') ->
  after_trailers cr cr' /\
  (trailer cr = true -> forall h d, ckHash cr = Some (h, d) -> ckSeen cr = false ->
    exists line, has_line (final cr) (input cr) line /\ checksum_line (ckAlg cr) line = Some (checksum.Base64 h d)).
Proof.
  unfold discardTrailers. destruct (trailer cr) eqn:Ht; cbn [negb].
  - destruct (trailers (S (S (strings.length (input cr)))) cr) as [[r c]|] eqn:H; cbn [default]; [|done].
    intros [= -> ->]. apply trailers_ok in H as [Hs H]. split; [done|]. intros _ h d Hh Hseen.
    destruct (H h d Hh) as [|]; [congruence|done].
  - intros [= <-]. split; [|done]. unfold after_trailers, readCRLF. destruct (input cr) as [|a [|b rest]] eqn:Hi; by destruct cr.
Qed.

(** ** The reader's invariant *)

Section Reader.
Context (body : string) (last : goerror) (sg tr : bool) (key ts sc seed alg : string)
        (ckdecl : option checksum.newHashFunc) (D : Z).
Context (Hck : is_Some ckdecl -> tr = true).

Definition declared : option (string * checksum.newHashFunc) := (fun h => (alg, h)) <$> ckdecl.

(** What never changes. *)
Record config (cr : chunkedReader) : Prop := {
  cfg_final : final cr = last; cfg_signed : signed cr = sg; cfg_trailer : trailer cr = tr;
  cfg_key : signingKey cr = key; cfg_ts : timestamp cr = ts; cfg_scope : scope cr = sc; cfg_alg : ckAlg cr = alg }.

(** The hashes have seen exactly the delivered bytes; [part] is the delivered
    part of the chunk in progress. *)
Record hashing (cr : chunkedReader) (part delivered : string) : Prop := {
  h_chunk : sg = true -> chunkHash cr = part;
  h_ck : ckHash cr = (fun h => (h, delivered)) <$> ckdecl;
  h_seen : ckSeen cr = false }.

Notation frames := (frames last sg key ts sc body seed).
Notation header := (header last sg).
Notation complete := (complete last sg key ts sc body seed declared).
Notation backed cmp := (backed last sg key ts sc cmp body seed D).

Inductive inv (cr : chunkedReader) (delivered : string) : Prop :=
| inv_idle ds :
    config cr -> err cr = None -> eof cr = false -> remaining cr = 0 ->
    frames ds (input cr) (prevSig cr) -> delivered = cat ds -> started cr = bool_decide (ds <> []) ->
    undecoded cr = D - slen delivered -> (ds <> [] -> 0 < undecoded cr) -> hashing cr "" delivered -> inv cr delivered
| inv_mid ds a s a1 a2 size part :
    config cr -> err cr = None -> eof cr = false -> started cr = true ->
    frames ds a s -> prevSig cr = s -> sep ds a a1 -> header a1 a2 size (chunkSig cr) -> a2 = part +:+ input cr ->
    remaining cr = size - slen part -> 0 < remaining cr -> delivered = cat ds +:+ part ->
    undecoded cr = D - slen (cat ds) - size -> 0 <= undecoded cr -> hashing cr part delivered -> inv cr delivered
| inv_eof : err cr = None -> eof cr = true -> complete delivered -> slen delivered = D -> inv cr delivered
| inv_failed e : err cr = Some e -> is_EOF e = false -> backed Z.le delivered -> inv cr delivered.

Lemma inv_strict cr delivered : inv cr delivered -> err cr = None -> backed Z.lt delivered.
Proof.
  intros [ds _ _ _ _ Hfr -> _ Hu Hpos _|ds a s a1 a2 size part _ _ _ _ Hfr _ Hsep Hhdr Ha2 Hr Hr0 -> Hu Hu0 _|_ _ Hc H|e He _ H] Herr; [split..|congruence].
  - destruct ds as [|d ds]; [simpl; unfold slen; simpl; lia|]. specialize (Hpos ltac:(done)). lia.
  - exists ds, (input cr), (prevSig cr), "". rewrite append_nil_r. split; [done|]. split; [done|by left].
  - rewrite slen_append. lia.
  - exists ds, a, s, part. split; [done|]. split; [done|]. right. exists a1, a2, size, (chunkSig cr), (input cr). split_and!; try done; lia.
  - lia.
  - destruct Hc as (ds & a & s & a1 & a2 & sig & Hfr & -> & _). exists ds, a, s, "". rewrite append_nil_r. split; [done|]. split; [done|by left].
Qed.

Lemma backed_weaken delivered : backed Z.lt delivered -> backed Z.le delivered.
Proof.
  intros (Hb & ds & a & s & part & Hfr & Hd & Hp). split; [done|]. exists ds, a, s, part. split; [done|]. split; [done|].
  destruct Hp as [|(a1 & a2 & size & sig & rest & ? & ? & ? & ? & ?)]; [by left|right]. exists a1, a2, size, sig, rest. split_and!; try done. lia.
Qed.

Lemma inv_backed cr delivered : inv cr delivered -> backed Z.le delivered.
Proof.
  intros Hinv. destruct (err cr) as [e|] eqn:He; [|by apply backed_weaken, (inv_strict cr)]. by destruct Hinv; try congruence.
Qed.

(** A failing read leaves the reader failed. *)
Lemma inv_fail cr cr' delivered e :
  backed Z.le delivered -> is_EOF e = false -> cr' = set_end cr (eof cr) (Some e) -> inv cr' delivered.
Proof. intros H He ->. by eapply inv_failed. Qed.

(** No error of the framing code is a plain end of file. *)
Lemma readCRLF_err cr e cr' : readCRLF cr = (Err e, cr') -> is_EOF e = false.
Proof. unfold readCRLF. destruct (input cr) as [|a [|b r]]; [intros [= <- _]..|]; try done. destruct (_ && _); [done|]. by intros [= <- _]. Qed.

Lemma readChunkHeader_err cr e cr' : readChunkHeader cr = (Err e, cr') -> is_EOF e = false.
Proof.
  unfold readChunkHeader, parse_header. destruct (readLine cr) as [[line|e'] cr1].
  - destruct (strings.Cut line ";") as [[x y] z]. destruct (strconv.ParseInt x 16 64) as [n|]; [|by intros [= <- _]].
    destruct (n <? 0); [by intros [= <- _]|]. destruct (strings.Cut y "=") as [[u v] w].
    destruct (z && _); [by intros [= <- _]|]. destruct (_ && _); [by intros [= <- _]|done].
  - intros [= <- _]. destruct (is_EOF e') eqn:H; [done|done].
Qed.

Lemma verifyChunk_err cr e cr' : verifyChunk cr = (Err e, cr') -> is_EOF e = false.
Proof. unfold verifyChunk. destruct (negb _); [done|]. destruct (bool_decide _); [done|]. by intros [= <- _]. Qed.

Lemma trailers_err fuel cr e cr' : trailers fuel cr = Some (Err e, cr') -> is_EOF e = false.
Proof.
  revert cr; induction fuel as [|f IH]; intros cr; cbn [trailers]; [done|].
  destruct (readLine cr) as [[line|e'] cr1]; cbv iota beta zeta.
  - destruct (bool_decide (line = "")); [destruct (_ && _); [by intros [= <- _]|done]|].
    destruct (ckHash cr1) as [[h d]|]; [|apply IH]. destruct (checksum_line _ _); [|apply IH].
    destruct (bool_decide _); [apply IH|by intros [= <- _]].
  - destruct (is_EOF e') eqn:He; [destruct (_ && _); [by intros [= <- _]|done]|]. by intros [= <- _].
Qed.

Lemma discardTrailers_err cr e cr' : discardTrailers cr = (Err e, cr') -> is_EOF e = false.
Proof.
  unfold discardTrailers. destruct (negb (trailer cr)); [done|].
  destruct (trailers _ cr) as [[r c]|] eqn:H; cbn [default]; [|by intros [= <- _]].
  intros [= -> ->]. by eapply trailers_err.
Qed.

Lemma readTerminal_err cr e cr' : readTerminal cr = (Err e, cr') -> is_EOF e = false.
Proof.
  unfold readTerminal. destruct (readCRLF cr) as [[u|e1] c1] eqn:H1; [|intros [= <- _]; by eapply readCRLF_err].
  destruct (readChunkHeader c1) as [[z|e2] c2] eqn:H2; [|intros [= <- _]; by eapply readChunkHeader_err].
  destruct (negb (z =? 0)); [by intros [= <- _]|].
  destruct (verifyChunk c2) as [[u3|e3] c3] eqn:H3; [|intros [= <- _]; by eapply verifyChunk_err].
  destruct (discardTrailers c3) as [[u4|e4] c4] eqn:H4; [done|]. intros [= <- _]; by eapply discardTrailers_err.
Qed.

(** The terminal chunk: header of size zero, verified, trailers read. *)
Lemma terminal_complete ds a cr cr1 cr2 cr3 rem und st :
  config cr -> frames ds a (prevSig cr) -> sep ds a (input cr) -> hashing cr "" (cat ds) ->
  readChunkHeader cr = (Ok 0, cr1) -> verifyChunk (set_progress cr1 rem und st) = (Ok tt, cr2) ->
  discardTrailers cr2 = (Ok tt, cr3) -> complete (cat ds) /\ err cr3 = err cr.
Proof.
  intros [F S T K TS SC A] Hfr Hsep [Hh1 Hh2 Hh3] Hhdr Hv Ht.
  apply readChunkHeader_ok in Hhdr as (sig & Hhdr & _ & Hcr1). rewrite F, S in Hhdr.
  apply verifyChunk_ok in Hv. apply discardTrailers_ok in Ht as [Hafter Ht]. unfold after_trailers in Hafter.
  assert (final cr2 = last /\ trailer cr2 = tr /\ ckHash cr2 = ckHash cr /\ ckSeen cr2 = false /\ ckAlg cr2 = alg /\
    input cr2 = input cr1 /\ err cr2 = err cr) as (F2 & T2 & H2 & N2 & A2 & I2 & E2).
  { rewrite Hcr1 in Hv. simpl in Hv. destruct (signed cr); [destruct Hv as [_ ->]|subst cr2]; by simpl. }
  split; [|rewrite Hafter; done].
  exists ds, a, (prevSig cr), (input cr), (input cr1), sig. split; [done|]. split; [done|]. split; [done|]. split; [done|].
  split.
  - intros Hsg. rewrite Hcr1 in Hv. simpl in Hv. rewrite S, Hsg in Hv. destruct Hv as [Hv _].
    rewrite Hv, K, TS, SC, Hh1 by done. done.
  - unfold declared. destruct ckdecl as [h|]; simpl; [|done].
    rewrite F2, A2, I2 in Ht. apply (Ht ltac:(rewrite T2; eauto) h (cat ds)); [|done]. rewrite H2. done.
Qed.

(** Data of a chunk in the reader, possibly all of it, not yet verified. *)
Record loaded (cr : chunkedReader) (part delivered : string) : Prop := {
  ld_config : config cr; ld_err : err cr = None; ld_eof : eof cr = false; ld_started : started cr = true;
  ld_frame : exists ds a a1 a2 size, frames ds a (prevSig cr) /\ sep ds a a1 /\ header a1 a2 size (chunkSig cr) /\
    a2 = part +:+ input cr /\ remaining cr = size - slen part /\ 0 < size /\ delivered = cat ds +:+ part /\
    undecoded cr = D - slen (cat ds) - size;
  ld_rem : 0 <= remaining cr; ld_und : 0 <= undecoded cr;
  ld_hash : hashing cr part delivered }.

(** A chunk whose data is complete is a verified frame. *)
Lemma verified_frame cr part delivered cr' :
  loaded cr part delivered -> remaining cr = 0 -> verifyChunk cr = (Ok tt, cr') ->
  exists ds d, delivered = cat (ds ++ [d]) /\ frames (ds ++ [d]) (input cr') (prevSig cr') /\ config cr' /\
    hashing cr' "" delivered /\ undecoded cr' = D - slen delivered /\ undecoded cr' = undecoded cr /\
    err cr' = None /\ eof cr' = false /\ remaining cr' = 0 /\ started cr' = true.
Proof.
  intros [[F S T K TS SC A] Herr Heof Hst (ds & a & a1 & a2 & size & Hfr & Hsep & Hhdr & Ha2 & Hrem & Hsz & Hdel & Hund) Hr0 Hu0 [Hh1 Hh2 Hh3]] Hz Hv.
  apply verifyChunk_ok in Hv. exists ds, part. rewrite cat_snoc. split; [done|].
  assert (slen part = size) as Hps by lia.
  assert (frames (ds ++ [part]) (input cr) (if sg then chunkSig cr else prevSig cr)) as Hfr'.
  { eapply frames_snoc; try done. intros Hsg. rewrite S, Hsg in Hv. destruct Hv as [-> _].
    rewrite K, TS, SC, Hh1 by done. done. }
  assert (undecoded cr = D - slen delivered) as Hund' by (rewrite Hdel, slen_append; lia).
  rewrite S in Hv. destruct sg eqn:Hsg.
  - destruct Hv as [_ ->]. simpl. split; [done|]. split; [constructor; simpl; congruence|].
    split; [by constructor|]. done.
  - subst cr'. split; [done|]. split; [constructor; congruence|]. split; [constructor; congruence|]. done.
Qed.

Lemma chunk_read_inv cr part delivered old got g er cr' :
  loaded cr part delivered -> delivered = old +:+ got -> backed Z.le old ->
  chunk_read cr got = (g, er, cr') ->
  inv cr' (old +:+ g) /\ ((er = None /\ err cr' = None) \/ exists e, er = Some e /\ is_EOF e = false /\ err cr' = Some e).
Proof.
  intros Hl Hdel Hold H. unfold chunk_read in H.
  assert (forall c e, is_EOF e = false -> fail c e = (g, er, cr') ->
    inv cr' (old +:+ g) /\ ((er = None /\ err cr' = None) \/ exists e, er = Some e /\ is_EOF e = false /\ err cr' = Some e)) as Hfail.
  { intros c e He Hf. injection Hf as <- <- <-. rewrite append_nil_r. split; [by eapply inv_fail|]. right. by exists e. }
  destruct (remaining cr =? 0) eqn:Hrem; bools.
  - destruct (verifyChunk cr) as [[[]|e] cr1] eqn:Hv; [|by eapply Hfail; [eapply verifyChunk_err|]].
    destruct (verified_frame _ _ _ _ Hl Hrem Hv) as (ds & d & Hdd & Hfr & Hcfg & Hh & Hu & Huu & He & Hf & Hr & Hs).
    destruct (undecoded cr1 =? 0) eqn:Hz; bools.
    + destruct (readTerminal cr1) as [[[]|e] cr2] eqn:Ht; [|by eapply Hfail; [eapply readTerminal_err|]].
      injection H as <- <- <-. rewrite <- Hdel. unfold readTerminal in Ht.
      destruct (readCRLF cr1) as [[[]|] c1] eqn:H1; [|done]. apply readCRLF_ok in H1 as [Hi Hc1].
      destruct (readChunkHeader c1) as [[z|] c2] eqn:H2; [|done]. destruct (z =? 0) eqn:Hz0; [|done]. bools. subst z. simpl in Ht.
      destruct (verifyChunk c2) as [[[]|] c3] eqn:H3; [|done].
      destruct (discardTrailers c3) as [[[]|] c4] eqn:H4; [|done]. injection Ht as <-.
      destruct (terminal_complete (ds ++ [d]) (input cr1) c1 c2 c3 c4 (remaining c2) (undecoded c2) (started c2)) as [Hcomp Herr4].
      * rewrite Hc1. destruct Hcfg. by constructor.
      * rewrite Hc1. done.
      * unfold sep. destruct ds; done.
      * rewrite Hc1, <- Hdd. destruct Hh. by constructor.
      * done.
      * replace (set_progress c2 (remaining c2) (undecoded c2) (started c2)) with c2 by (by destruct c2). done.
      * done.
      * assert (err c4 = None) as Herr5 by (rewrite Herr4, Hc1; simpl; done).
        split; [|by left]. apply inv_eof; [done|done|by rewrite Hdd|lia].
    + injection H as <- <- <-. split; [|by left]. rewrite <- Hdel.
      eapply (inv_idle _ _ (ds ++ [d])); try done.
      * rewrite Hs. symmetry. apply bool_decide_eq_true. by destruct ds.
      * intros _. destruct Hl. lia.
  - injection H as <- <- <-. split; [|left; split; [done|by destruct Hl]]. rewrite <- Hdel.
    destruct Hl as [Hcfg Herr Heof Hst (ds & a & a1 & a2 & size & Hfr & Hsep & Hhdr & Ha2 & Hr & Hsz & Hd & Hund) Hr0 Hu0 Hh].
    eapply (inv_mid _ _ ds a (prevSig cr) a1 a2 size part); try done. lia.
Qed.

(** Reading data keeps the reader loaded with what it handed out. *)
Lemma read_data_inv cr part delivered len c g er cr' :
  loaded cr part delivered -> 0 < remaining cr -> backed Z.le delivered ->
  read_data cr len c = (g, er, cr') ->
  inv cr' (delivered +:+ g) /\ ((er = None /\ err cr' = None) \/ exists e, er = Some e /\ is_EOF e = false /\ err cr' = Some e).
Proof.
  intros Hl Hr Hold H. unfold read_data in H.
  set (len' := if remaining cr <? Z.of_nat len then _ else _) in H.
  destruct (bufio_read cr len' c) as [[got er0] rest] eqn:Hb.
  assert (input cr = got +:+ rest /\ slen got <= remaining cr) as [Hin Hgot].
  { assert (Z.of_nat len' <= remaining cr) as Hlen.
    { subst len'. destruct (remaining cr <? Z.of_nat len) eqn:E; bools; lia. }
    unfold bufio_read in Hb. destruct (stall c); [injection Hb as <- <- <-; split; [done|unfold slen; simpl; lia]|].
    injection Hb as <- <- <-. split; [by rewrite take_drop|].
    pose proof (take_length_le (Nat.min len' (upto c)) (input cr)). unfold slen. lia. }
  cbv zeta in H. match type of H with context [chunk_read ?x got] => set (cr1 := x) in H end.
  assert (loaded cr1 (part +:+ got) (delivered +:+ got)) as Hl1.
  { destruct Hl as [[F S T K TS SC A] Herr Heof Hst (ds & a & a1 & a2 & size & Hfr & Hsep & Hhdr & Ha2 & Hrem & Hsz & Hd & Hund) Hr0 Hu0 [Hh1 Hh2 Hh3]].
    subst cr1. simpl. destruct (signed cr) eqn:Hsc; simpl.
    all: constructor; simpl; try done; try (constructor; simpl; congruence);
      [|unfold slen in *; lia|constructor; simpl; [intros Hs; first [rewrite Hh1 by done; done|congruence]|rewrite Hh2; by destruct ckdecl|done]].
    all: exists ds, a, a1, a2, size; split; [done|]; split; [done|]; split; [done|];
      split; [by rewrite Ha2, Hin, append_assoc|]; split; [unfold slen in *; rewrite length_append; lia|];
      split; [done|]; split; [by rewrite Hd, append_assoc|done]. }
  assert (backed Z.le (delivered +:+ got)) as Hnew.
  { destruct Hl1 as [_ _ _ _ (ds & a & a1 & a2 & size & Hfr & Hsep & Hhdr & Ha2 & Hrem & Hsz & Hd & Hund) Hr0 Hu0 _].
    split; [rewrite Hd, slen_append; lia|]. exists ds, a, (prevSig cr1), (part +:+ got). split; [done|]. split; [done|]. right.
    exists a1, a2, size, (chunkSig cr1), (input cr1). split_and!; try done; lia. }
  destruct er0 as [e|]; [|by eapply chunk_read_inv].
  set (e' := if is_EOF e && (0 <? remaining cr1) then incompleteBody ErrUnexpectedEOF else e) in *.
  assert ((if is_EOF e && (0 <? remaining cr1) then Some (incompleteBody ErrUnexpectedEOF) else Some e) = Some e') as He'
    by (subst e'; by destruct (_ && _)).
  rewrite He' in H. destruct (is_EOF e') eqn:Heof; [by eapply chunk_read_inv|].
  injection H as <- <- <-. split; [by apply (inv_fail cr1 _ _ e')|]. right. by exists e'.
Qed.

(** The framing between chunks: the stream ends verified, or fails, or the next
    chunk's data is due. *)
Lemma next_chunk_inv cr delivered :
  inv cr delivered -> err cr = None -> eof cr = false -> remaining cr = 0 ->
  match next_chunk cr with
  | inl (g, er, cr') => g = "" /\ inv cr' delivered /\
      ((er = Some EOF /\ eof cr' = true /\ err cr' = None) \/ exists e, er = Some e /\ is_EOF e = false /\ err cr' = Some e)
  | inr cr' => loaded cr' "" delivered /\ 0 < remaining cr'
  end.
Proof.
  intros Hinv He Hf Hr. pose proof (inv_backed _ _ Hinv) as Hbound.
  assert (forall c e, is_EOF e = false -> "" = "" /\ inv (set_end c (eof c) (Some e)) delivered /\
    ((Some e = Some EOF /\ eof (set_end c (eof c) (Some e)) = true /\ err (set_end c (eof c) (Some e)) = None) \/
     exists e', Some e = Some e' /\ is_EOF e' = false /\ err (set_end c (eof c) (Some e)) = Some e')) as Hfail.
  { intros c e Hne. split; [done|]. split; [by eapply inv_fail|]. right. by exists e. }
  destruct Hinv as [ds Hcfg _ _ _ Hfr Hdel Hst Hund Hpos Hh|ds a s a1 a2 size part|_ H|e H]; [|lia|congruence|congruence].
  unfold next_chunk.
  destruct (if started cr then readCRLF cr else (Ok tt, cr)) as [r cr0] eqn:Hsep.
  destruct r as [[]|e].
  2: { destruct (started cr); [|done]. apply Hfail. by eapply readCRLF_err. }
  assert (sep ds (input cr) (input cr0) /\ cr0 = set_input cr (input cr0)) as [Hsep' Hcr0].
  { rewrite Hst in Hsep. destruct ds as [|d ds]; simpl in Hsep.
    - injection Hsep as <-. split; [done|by destruct cr].
    - apply readCRLF_ok in Hsep as [? ?]. done. }
  clear Hsep. assert (config cr0) as Hcfg0 by (rewrite Hcr0; destruct Hcfg; by constructor).
  assert (hashing cr0 "" delivered) as Hh0 by (rewrite Hcr0; destruct Hh; by constructor).
  assert (undecoded cr0 = undecoded cr /\ err cr0 = None /\ eof cr0 = false /\ prevSig cr0 = prevSig cr /\ remaining cr0 = 0)
    as (Hu0 & He0 & Hf0 & Hp0 & Hr0) by (by rewrite Hcr0).
  destruct (readChunkHeader cr0) as [[size|e] cr1] eqn:Hhdr; [|apply Hfail; by eapply readChunkHeader_err].
  pose proof Hhdr as Hhdr0. apply readChunkHeader_ok in Hhdr as (sig & Hhdr & Hsz & Hcr1).
  assert (undecoded cr1 = undecoded cr) as Hu1 by (by rewrite Hcr1).
  simpl. destruct (undecoded cr1 <? size) eqn:Hlt; [by apply Hfail|]. bools.
  destruct (size =? 0) eqn:Hz; bools.
  - subst size. destruct (verifyChunk _) as [[[]|e] cr2] eqn:Hv; [|apply Hfail; by eapply verifyChunk_err].
    assert (undecoded cr2 = undecoded cr) as Hu2.
    { apply verifyChunk_ok in Hv. simpl in Hv. destruct (signed cr1); [destruct Hv as [_ ->]|subst cr2]; simpl; lia. }
    destruct (undecoded cr2 =? 0) eqn:Hu; simpl; [|by apply Hfail]. bools.
    destruct (discardTrailers cr2) as [[[]|e] cr3] eqn:Ht; [|apply Hfail; by eapply discardTrailers_err].
    rewrite <- Hp0 in Hfr. rewrite Hdel in Hh0.
    destruct (terminal_complete ds (input cr) cr0 cr1 cr2 cr3 _ _ _ Hcfg0 Hfr Hsep' Hh0 Hhdr0 Hv Ht) as [Hc Herr].
    assert (err (set_end cr3 true (err cr3)) = None) as Herr' by (simpl; by rewrite Herr).
    split; [done|]. split; [|by left]. by apply inv_eof; [..|by rewrite Hdel|lia].
  - destruct Hcfg0 as [F S T K TS SC A]. destruct Hh0 as [Hh1 Hh2 Hh3].
    split; [|simpl; lia]. rewrite Hcr1. constructor; simpl; try done; try lia.
    all: try (by constructor).
    + exists ds, (input cr), (input cr0), (input cr1), size. rewrite Hp0. rewrite F, S in Hhdr. split; [done|]. split; [done|].
      split; [done|]. split; [by rewrite append_nil_l|]. split; [unfold slen; simpl; lia|]. split; [lia|].
      split; [by rewrite append_nil_r|]. rewrite <- Hdel. lia.
Qed.

Lemma Read_inv cr delivered len c g er cr' :
  inv cr delivered -> Read cr len c = (g, er, cr') ->
  inv cr' (delivered +:+ g) /\
  ((er = None /\ err cr' = None) \/ (er = Some EOF /\ eof cr' = true /\ err cr' = None) \/ exists e, er = Some e /\ is_EOF e = false /\ err cr' = Some e).
Proof.
  intros Hinv H. pose proof (inv_backed _ _ Hinv) as Hbound. unfold Read in H. destruct (err cr) as [e|] eqn:He.
  { injection H as <- <- <-. rewrite append_nil_r. split; [done|]. right. right. exists e. split; [done|].
    destruct Hinv; try congruence. split; [|done]. congruence. }
  destruct (eof cr) eqn:Hf.
  { injection H as <- <- <-. rewrite append_nil_r. split; [done|]. by right; left. }
  assert (forall c0 part, loaded c0 part delivered -> 0 < remaining c0 -> read_data c0 len c = (g, er, cr') ->
    inv cr' (delivered +:+ g) /\ ((er = None /\ err cr' = None) \/ (er = Some EOF /\ eof cr' = true /\ err cr' = None) \/
      exists e, er = Some e /\ is_EOF e = false /\ err cr' = Some e)) as Hdata.
  { intros c0 part Hl Hr Hd. eapply read_data_inv in Hd as [? [|]]; eauto. }
  destruct (remaining cr =? 0) eqn:Hr; bools.
  - pose proof (next_chunk_inv _ _ Hinv He Hf Hr) as Hn. destruct (next_chunk cr) as [[[g1 er1] cr1]|cr1].
    + injection H as -> -> ->. destruct Hn as (-> & Hi & Hout). rewrite append_nil_r. split; [done|]. right.
      destruct Hout as [Hout|Hout]; [by left|by right].
    + destruct Hn. by eapply Hdata.
  - destruct Hinv as [ds Hcfg _ _ Hr0|ds a s a1 a2 size part Hcfg _ _ Hst Hfr Hp Hsep Hhdr Ha2 Hrem Hpos Hdel Hund Hu0 Hh|_ Hf'|e He']; [lia| |congruence|congruence].
    eapply (Hdata cr part); [|lia|done]. constructor; try done; [|lia]. subst s.
    exists ds, a, a1, a2, size. pose proof (slen_nonneg part). split; [done|]. split; [done|]. split; [done|]. split; [done|]. split; [done|]. split; [lia|done].
Qed.

End Reader.

(** ** Traces *)

(** A consumer's reads with the environment's choices, and the bytes it got. *)
Fixpoint reads (cr : chunkedReader) (l : list (nat * choice)) : string * option goerror * chunkedReader :=
  match l with
  | [] => ("", None, cr)
  | (len, c) :: l =>
    match Read cr len c with
    | (g, None, cr) => let '(g', e, cr) := reads cr l in (g +:+ g', e, cr)
    | (g, Some e, cr) => (g, Some e, cr)
    end
  end.

Lemma chunked_reads_inv body last sg tr key ts sc seed alg ckdecl D (Hck : is_Some ckdecl -> tr = true) cr delivered l g er cr' :
  inv body last sg tr key ts sc seed alg ckdecl D cr delivered -> err cr = None -> reads cr l = (g, er, cr') ->
  inv body last sg tr key ts sc seed alg ckdecl D cr' (delivered +:+ g) /\
  ((er = None /\ err cr' = None) \/ (er = Some EOF /\ eof cr' = true /\ err cr' = None) \/ exists e, er = Some e /\ is_EOF e = false /\ err cr' = Some e).
Proof.
  revert cr delivered g; induction l as [|[len c] l IH]; intros cr delivered g Hinv Hne H; cbn [reads] in H.
  { injection H as <- <- <-. rewrite append_nil_r. auto. }
  destruct (Read cr len c) as [[g1 er1] cr1] eqn:Hr. eapply Read_inv in Hr as [Hi Hout]; [|exact Hck|exact Hinv].
  destruct er1 as [e|]; [injection H as -> <- ->; auto|].
  assert (err cr1 = None) as Hne1 by (destruct Hout as [[_ ?]|[(? & _)|(? & ? & _)]]; done).
  destruct (reads cr1 l) as [[g' e'] cr2] eqn:Hl. injection H as <- <- <-.
  eapply IH in Hl as [Hi' Hout']; [|exact Hi|done]. by rewrite append_assoc in Hi'.
Qed.

(** The reader [NewChunkedReader] builds satisfies the invariant. *)
Lemma new_inv body last vr alg D :
  let cr := NewChunkedReader body last vr alg D in
  inv body last (signed cr) (trailer cr) (signingKey cr) (timestamp cr) (scope cr) (prevSig cr) (ckAlg cr) (fst <$> ckHash cr) D cr "" /\
  err cr = None /\ (is_Some (fst <$> ckHash cr) -> trailer cr = true).
Proof.
  intros cr. split; [|split; [done|]].
  - eapply (inv_idle _ _ _ _ _ _ _ _ _ _ _ _ _ []); try done;
      [apply frames_nil|unfold slen; simpl; lia|].
    constructor; try done. unfold cr, NewChunkedReader. simpl.
    destruct (strings.HasSuffix (PayloadHash vr) "-TRAILER" && negb (bool_decide (alg = ""))); [|done].
    by destruct (checksum.NewHash alg).
  - unfold cr, NewChunkedReader. simpl. destruct (strings.HasSuffix (PayloadHash vr) "-TRAILER"); [done|]. by intros [].
Qed.

(** ** Theorems *)

(** C4. Integrity of a decoded body.  For any body, any sequence of reads and
    any way the bytes arrive, however the reads end: the consumer never gets
    more than the declared length, and what it has is the data of chunks that
    were verified, each carrying the signature chained from the request's when
    chunks are signed, followed at most by bytes of the one chunk after them,
    which is the only unverified part.  While no error was reported these are
    fewer than that chunk has, so no chunk is handed out whole before its
    signature was checked.  If the reader reports the end, or the consumer has
    the declared length without an error, then nothing is unverified: the body
    is a complete sequence of chunks whose data is exactly what was delivered,
    the terminal chunk carries its signature too, and the trailer carries the
    declared checksum of that data. *)
Theorem chunked_reader_integrity body last vr alg D l g er cr' :
  let cr := NewChunkedReader body last vr alg D in
  let backed := fun cmp => backed last (signed cr) (signingKey cr) (timestamp cr) (scope cr) cmp body (prevSig cr) D g in
  reads cr l = (g, er, cr') ->
  backed Z.le /\ (er = None -> backed Z.lt) /\
  (er = Some EOF \/ (er = None /\ slen g = D /\ 0 < D) ->
    slen g = D /\
    complete last (signed cr) (signingKey cr) (timestamp cr) (scope cr) body (prevSig cr)
      (declared (ckAlg cr) (fst <$> ckHash cr)) g).
Proof.
  intros cr backed H. destruct (new_inv body last vr alg D) as (Hinv & Herr & Hck). fold cr in Hinv, Herr, Hck.
  eapply chunked_reads_inv in H as [Hi Hout]; [|exact Hck|exact Hinv|exact Herr]. rewrite append_nil_l in Hi.
  split; [by eapply inv_backed|]. split.
  { intros ->. eapply inv_strict; [exact Hi|]. destruct Hout as [[_ ?]|[(? & _)|(e & ? & _)]]; done. }
  intros Hend. destruct Hi as [ds Hcfg _ Hf Hr Hfr Hdel Hst Hund Hpos Hh|ds a s a1 a2 size part _ _ Hf _ _ _ _ _ _ Hr Hr0 Hdel Hu Hu0 _|_ _ Hc Hl|e He Hne].
  - destruct Hend as [->|(-> & Hl & HD)].
    { destruct Hout as [[? _]|[(_ & ? & _)|(e & [= <-] & ? & _)]]; [done|congruence|done]. }
    exfalso. destruct ds as [|d ds]; [rewrite Hdel in Hl; simpl in Hl; unfold slen in Hl; simpl in Hl; lia|].
    specialize (Hpos ltac:(done)). lia.
  - destruct Hend as [->|(-> & Hl & HD)].
    { destruct Hout as [[? _]|[(_ & ? & _)|(e & [= <-] & ? & _)]]; [done|congruence|done]. }
    exfalso. rewrite Hdel, slen_append in Hl. lia.
  - done.
  - exfalso. destruct Hend as [->|(-> & _)].
    + destruct Hout as [[? _]|[(_ & _ & ?)|(e' & [= <-] & ? & _)]]; [done|congruence|done].
    + destruct Hout as [[_ ?]|[(? & _)|(e' & ? & _)]]; congruence.
Qed.

(** ** A body on which the theorems apply *)

(** One data chunk, or the terminal one for empty data, as a client frames it. *)
Definition frame_text (hexsize sig data : string) : string :=
  hexsize +:+ ";chunk-signature=" +:+ sig +:+ crlf +:+ data.

Definition demo_vr : Verified :=
  {| AccessKeyID := "AKID"; VSigningKey := "0123456789abcdef0123456789abcdef"; Signature := "seed";
     SigningTime := {| time.year := 2024; time.month := 5; time.day := 24; time.hour := 0; time.minute := 0; time.sec := 0; time.nsec := 0 |};
     Scope := "20240524/us-east-1/s3/aws4_request"; Region := "us-east-1"; PayloadHash := streamingSHA256T; SignedHeaders := None |}.

Definition demo_sig (prev data : string) : string :=
  chunk_signature (VSigningKey demo_vr) "20240524T000000Z" (Scope demo_vr) prev data.

Definition demo_body : string :=
  let s1 := demo_sig "seed" "hel" in
  let s2 := demo_sig s1 "lo" in
  frame_text "3" s1 "hel" +:+ crlf +:+ frame_text "2" s2 "lo" +:+ crlf +:+ frame_text "0" (demo_sig s2 "") "" +:+
  "x-amz-checksum-crc32: NhCmhg==" +:+ crlf +:+ crlf.

Definition whole (n : nat) : nat * choice := (n, {| stall := false; upto := n; early := false |}).

#[local] Notation demo_reader := (NewChunkedReader demo_body EOF demo_vr "crc32" 5).

Lemma reads_surjective (o : string * option goerror * chunkedReader) : o = (o.1.1, o.1.2, o.2).
Proof. by destruct o as [[? ?] ?]. Qed.

Example demo_reads : (reads demo_reader [whole 2; whole 8; whole 8; whole 8]).1 = ("hello", Some EOF).
Proof. vm_refl. Qed.

Example demo_reads_bounded : (reads demo_reader [whole 3; whole 2]).1 = ("hello", None).
Proof. vm_refl. Qed.

Lemma chunked_reader_integrity_witness :
  slen (reads demo_reader [whole 3; whole 2]).1.1 = 5 /\
  backed EOF true (VSigningKey demo_vr) "20240524T000000Z" (Scope demo_vr) Z.lt demo_body "seed" 5 (reads demo_reader [whole 3; whole 1]).1.1.
Proof.
  split.
  - refine (proj1 (proj2 (proj2 (chunked_reader_integrity demo_body EOF demo_vr "crc32" 5 [whole 3; whole 2] _ _ _
      (reads_surjective (reads demo_reader [whole 3; whole 2])))) _)).
    right. split; [vm_refl|]. split; [vm_refl|lia].
  - refine (proj1 (proj2 (chunked_reader_integrity demo_body EOF demo_vr "crc32" 5 [whole 3; whole 1] _ _ _
      (reads_surjective (reads demo_reader [whole 3; whole 1])))) _). vm_refl.
Defined.
