(* ===== verification/PostPolicy.v ===== *)
(** * Browser-based POST uploads: the signed policy (src/sigv4/postpolicy.go)

    The form fields are a map from lower-cased names.  The document is the JSON
    tree of [json.parse]; a message that quotes a piece of the document ends
    where the quoted text would start.  Go ranges over a map in no particular
    order: the members of a condition object and the form fields are taken in
    the order of their lists, which only matters to which of several refusals
    is reported. *)

From S2P Require Import Prelude Unicode GoStrings GoNet GoTime GoError JSON Policy Dialect Crypto Signer Canonical Verifier Checksum.
Import policy dialect sigv4 canonical verifier.

Open Scope Z_scope.

Module postpolicy.

Definition maxPostPolicyBytes : Z := 20 * 1024.
Definition maxPostPolicyConditions : nat := 100.

Record PostPolicy := { Expiration : Z; MinLength : Z; MaxLength : Z }.

Record postCondition := { op : string; field : string; value : string }.

#[export] Instance postCondition_eq_dec : EqDecision postCondition.
Proof. solve_decision. Defined.

Definition fields := gmap string string.

Definition fget (fs : fields) (k : string) : string := default "" (fs !! k).

Definition invalidPolicyDocument (m : message) : s3err.Error := s3err.New 400 "InvalidPolicyDocument" (FS "Invalid Policy: " :: m).

(** ** The document *)

(** Into an int64 variable that holds zero. *)
Definition into_int64 (v : json.value) : option Z :=
  match v with
  | json.Null => Some 0
  | json.Number lit => strconv.ParseInt lit 10 64
  | _ => None
  end.

Record policyDoc := { docExpiration : string; docConditions : list json.value }.

Definition set_policy_member (doc : policyDoc) (m : string * json.value) : option policyDoc :=
  let '(k, v) := m in
  match member_named ["expiration"; "conditions"] k with
  | None => Some doc
  | Some n =>
    if bool_decide (n = "expiration") then
      s ← into_string (docExpiration doc) v; Some {| docExpiration := s; docConditions := docConditions doc |}
    else match v with
    | json.Null => Some {| docExpiration := docExpiration doc; docConditions := [] |}
    | json.Array l => Some {| docExpiration := docExpiration doc; docConditions := l |}
    | _ => None
    end
  end.

Fixpoint set_policy_members (doc : policyDoc) (l : list (string * json.value)) : option policyDoc :=
  match l with
  | [] => Some doc
  | m :: l => doc ← set_policy_member doc m; set_policy_members doc l
  end.

Definition decode_policy_doc (v : json.value) : option policyDoc :=
  let zero := {| docExpiration := ""; docConditions := [] |} in
  match v with json.Null => Some zero | json.Object l => set_policy_members zero l | _ => None end.

(** A condition, or a content-length-range. *)
Definition parseArrayCondition (rc : list json.value) : result s3err.Error (postCondition + (Z * Z)) :=
  let malformed := Err (invalidPolicyDocument [FS "malformed condition "]) in
  match rc with
  | [e0; e1; e2] =>
    match into_string "" e0 with
    | None => malformed
    | Some o =>
      let lop := strings.ToLower o in
      if bool_decide (lop = "eq") || bool_decide (lop = "starts-with") then
        match into_string "" e1 with
        | Some (String "$" name) =>
          match into_string "" e2 with
          | Some v => Ok (inl {| op := lop; field := strings.ToLower name; value := v |})
          | None => malformed
          end
        | _ => Err (invalidPolicyDocument [FS "condition field must reference a form field with $: "])
        end
      else if bool_decide (lop = "content-length-range") then
        match into_int64 e1, into_int64 e2 with
        | Some minLen, Some maxLen =>
          if (minLen <? 0) || (maxLen <? minLen)
          then Err (invalidPolicyDocument [FS "malformed content-length-range "])
          else Ok (inr (minLen, maxLen))
        | _, _ => Err (invalidPolicyDocument [FS "malformed content-length-range "])
        end
      else Err (invalidPolicyDocument [FS "unknown condition type "; FQ o])
    end
  | _ => malformed
  end.

(** One element of the conditions, after those folded so far. *)
Definition parse_condition (acc : PostPolicy * list postCondition) (rc : json.value) : result s3err.Error (PostPolicy * list postCondition) :=
  let '(pp, conds) := acc in
  match rc with
  | json.Object _ =>
    match into_map (into_string "") rc with
    | None => Err (invalidPolicyDocument [FS "malformed condition "])
    | Some obj => Ok (pp, conds ++ map (fun '(k, v) => {| op := "eq"; field := strings.ToLower k; value := v |}) obj)
    end
  | json.Array l =>
    c ← parseArrayCondition l;
    match c with
    | inl cond => Ok (pp, conds ++ [cond])
    | inr (lo, hi) =>
      Ok ({| Expiration := Expiration pp; MinLength := Z.max (MinLength pp) lo; MaxLength := Z.min (MaxLength pp) hi |}, conds)
    end
  | _ => Err (invalidPolicyDocument [FS "malformed condition "])
  end.

Definition parsePostPolicy (raw : string) : result s3err.Error (PostPolicy * list postCondition) :=
  match json.parse raw ≫= decode_policy_doc with
  | None => Err (invalidPolicyDocument [FS "malformed JSON: "])
  | Some doc =>
    if bool_decide (docExpiration doc = "") then Err (invalidPolicyDocument [FS "the 'expiration' element is required"]) else
    match time.ParseRFC3339 (docExpiration doc) with
    | None => Err (invalidPolicyDocument [FS "malformed 'expiration': "])
    | Some exp =>
      if (maxPostPolicyConditions <? length (docConditions doc))%nat
      then Err (invalidPolicyDocument [FD (Z.of_nat (length (docConditions doc))); FS " conditions, at most "; FD (Z.of_nat maxPostPolicyConditions); FS " are allowed"]) else
      acc ← foldM parse_condition ({| Expiration := exp; MinLength := 0; MaxLength := int64_max |}, []) (docConditions doc);
      if (MaxLength acc.1 <? MinLength acc.1) then Err (invalidPolicyDocument [FS "empty content-length-range"]) else Ok acc
    end
  end.

(** ** Evaluation *)

Definition denied (m : message) : s3err.Error := s3err.New 403 "AccessDenied" (FS "Invalid according to Policy: " :: m).

Definition check_condition (fs : fields) (c : postCondition) : result s3err.Error unit :=
  let failed o := Err (denied [FS "Policy Condition failed: ["; FQ o; FS ", "; FQ ("$" +:+ field c); FS ", "; FQ (value c); FS "]"]) in
  match fs !! field c with
  | None => Err (denied [FS "Policy Condition failed: "; FQ (op c); FS " on missing field "; FQ (field c)])
  | Some v =>
    if bool_decide (op c = "eq") then if bool_decide (v = value c) then Ok tt else failed "eq"
    else if bool_decide (op c = "starts-with") then if strings.HasPrefix v (value c) then Ok tt else failed "starts-with"
    else Ok tt
  end.

Definition check_covered (covered : gset string) (name : string) : result s3err.Error unit :=
  if bool_decide (name = "policy") || bool_decide (name = "x-amz-signature") then Ok tt
  else guard (bool_decide (name ∈ covered)) (denied [FS "Extra input fields: "; FS name]).

Definition evaluatePostPolicy (conds : list postCondition) (fs : fields) : result s3err.Error unit :=
  _ ← each (check_condition fs) conds;
  each (check_covered (list_to_set (map field conds))) (map fst (map_to_list fs)).

(** ** Verification *)

Definition invalid (m : message) : s3err.Error := s3err.New 400 "InvalidArgument" m.

Definition post_result := (result s3err.Error (Verified * PostPolicy) * Verifier)%type.

Definition VerifyPost (v : Verifier) (now : Z) (fs : fields) (lookup : SecretLookup) : post_result :=
  let fail e : post_result := (Err e, v) in
  if negb (bool_decide (fget fs "x-amz-algorithm" = sigV4Algorithm))
  then fail (invalid [FS "X-Amz-Algorithm only supports "; FQ sigV4Algorithm]) else
  match strings.Split (fget fs "x-amz-credential") "/" with
  | [akid; scopeDate; reg; service; last] =>
  if negb (bool_decide (last = "aws4_request"))
  then fail (invalid [FS "Error parsing the X-Amz-Credential form field; the Credential is mal-formed"]) else
  if negb (bool_decide (service = "s3"))
  then fail (invalid [FS "Error parsing the X-Amz-Credential form field; incorrect service"]) else
  if negb (bool_decide (region v = "")) && negb (bool_decide (reg = region v))
  then fail (invalid [FS "Error parsing the X-Amz-Credential form field; the region '"; FS reg; FS "' is wrong; expecting '"; FS (region v); FS "'"]) else
  match time.ParseAmz (fget fs "x-amz-date") with
  | None => fail (invalid [FS "X-Amz-Date must be in the ISO8601 Long Format"])
  | Some t =>
  if negb (bool_decide (time.FormatDate t = scopeDate))
  then fail (invalid [FS "Invalid credential date. Date is not the same as X-Amz-Date."]) else
  if time.After (time.instant t) (time.Add now maxClockSkew)
  then fail (s3err.WithCause (s3err.New 403 "AccessDenied" [FS "Request is not valid yet"])
    (authFailure "not-yet-valid" akid [FS "signed at "; FD (time.instant t); FS ", now "; FD now])) else
  if maxPresignExpires <? time.Sub now (time.instant t)
  then fail (s3err.WithCause (s3err.New 403 "AccessDenied" [FS "Request has expired"])
    (authFailure "expired" akid [FS "post policy signed at "; FD (time.instant t); FS ", more than "; FD maxPresignExpires; FS " ago"])) else
  let policyB64 := fget fs "policy" in
  if bool_decide (policyB64 = "") then fail (invalid [FS "Bucket POST must contain a field named 'policy'."]) else
  if maxPostPolicyBytes * 4 / 3 + 4 <? Z.of_nat (strings.length policyB64)
  then fail (invalid [FS "the policy document exceeds the maximum allowed size ("; FD maxPostPolicyBytes; FS " bytes)"]) else
  let sig := fget fs "x-amz-signature" in
  if bool_decide (sig = "") then fail (invalid [FS "Bucket POST must contain a field named 'x-amz-signature'."]) else
  let presentedToken := fget fs "x-amz-security-token" in
  match lookupSecret lookup akid presentedToken with
  | Err e => fail e
  | Ok cred =>
  match validateSessionToken akid (SessionToken cred) presentedToken with
  | Err e => fail e
  | Ok _ =>
  match signingKey (signers v) akid cred scopeDate reg with
  | (Err e, c) => (Err e, with_cache v c)
  | (Ok key, c) =>
  let fail e : post_result := (Err e, with_cache v c) in
  if negb (bool_decide (hex.EncodeToString (hmacSHA256 key policyB64) = sig))
  then fail (s3err.WithCause s3err.SignatureDoesNotMatch (authFailure "signature-mismatch" akid [FS "post policy"])) else
  match base64.decode policyB64 with
  | None => fail (invalid [FS "the policy form field is not valid base64"])
  | Some raw =>
  if maxPostPolicyBytes <? Z.of_nat (length raw)
  then fail (invalid [FS "the policy document exceeds the maximum allowed size ("; FD maxPostPolicyBytes; FS " bytes)"]) else
  match parsePostPolicy (string_of_bytes raw) with
  | Err e => fail e
  | Ok (pp, conds) =>
  if time.After now (Expiration pp)
  then fail (s3err.WithCause (s3err.New 403 "AccessDenied" [FS "Invalid according to Policy: Policy expired."])
    (authFailure "expired" akid [FS "post policy expired at "; FD (Expiration pp)])) else
  match evaluatePostPolicy conds fs with
  | Err e => fail (s3err.WithCause e (authFailure "post-policy" akid (s3err.Message e)))
  | Ok _ =>
    (Ok ({| AccessKeyID := akid; VSigningKey := key; Signature := sig; SigningTime := t;
            Scope := strings.Join [scopeDate; reg; service; "aws4_request"] "/"; Region := reg;
            PayloadHash := "UNSIGNED-PAYLOAD"; SignedHeaders := None |}, pp), with_cache v c)
  end end end end end end end
  | _ => fail (invalid [FS "Error parsing the X-Amz-Credential form field; the Credential is mal-formed"])
  end.

End postpolicy.
