(* ===== verification/PostPolicyFacts.v ===== *)
(** * Soundness of POST policy verification

    An accepted form is one whose policy the credential's key signed, and the
    policy speaks about the whole form: its conditions hold, and every field
    that is not the policy or its signature is under one of them. *)

From S2P Require Import Prelude Unicode GoStrings GoNet GoTime GoError JSON Policy Dialect Crypto Signer Canonical Verifier VerifierFacts Checksum PostPolicy.
Import policy dialect sigv4 canonical verifier postpolicy.

Open Scope Z_scope.

#[local] Arguments strings.ToLower : simpl never.
#[local] Arguments strings.Split : simpl never.
#[local] Arguments strings.Join : simpl never.
#[local] Arguments strings.HasPrefix : simpl never.
#[local] Arguments time.ParseAmz : simpl never.
#[local] Arguments time.ParseRFC3339 : simpl never.
#[local] Arguments strconv.ParseInt : simpl never.
#[local] Arguments bool_decide : simpl never.
#[local] Arguments into_map : simpl never.

(** ** Evaluation *)

Definition holds (fs : fields) (c : postCondition) : Prop :=
  exists v, fs !! field c = Some v /\ (op c = "eq" -> v = value c) /\ (op c = "starts-with" -> strings.HasPrefix v (value c) = true).

Lemma check_condition_ok fs c : check_condition fs c = Ok tt <-> holds fs c.
Proof.
  unfold check_condition, holds. destruct (fs !! field c) as [v|]; [|split; [done|by intros (v & ? & _)]].
  split.
  - intros H. exists v. split; [done|]. repeat case_bool_decide; try done.
    + split; [done|]. intros E. congruence.
    + split; [done|]. intros _. by destruct (strings.HasPrefix v (value c)).
  - intros (v' & [= ->] & He & Hs). repeat case_bool_decide; try done; [naive_solver|].
    by rewrite Hs.
Qed.

Lemma check_covered_ok cov name :
  check_covered cov name = Ok tt <-> name = "policy" \/ name = "x-amz-signature" \/ name ∈ cov.
Proof.
  unfold check_covered, guard.
  destruct (bool_decide (name = "policy")) eqn:E1, (bool_decide (name = "x-amz-signature")) eqn:E2; bools; simpl; [naive_solver..|].
  case_bool_decide; naive_solver.
Qed.

(** Every condition holds and every field is under a condition. *)
Definition satisfies (conds : list postCondition) (fs : fields) : Prop :=
  (forall c, c ∈ conds -> holds fs c) /\
  (forall name, is_Some (fs !! name) -> name = "policy" \/ name = "x-amz-signature" \/ exists c, c ∈ conds /\ field c = name).

Lemma evaluatePostPolicy_ok conds fs : evaluatePostPolicy conds fs = Ok tt <-> satisfies conds fs.
Proof.
  unfold evaluatePostPolicy, satisfies.
  assert (forall name, check_covered (list_to_set (map field conds)) name = Ok tt <->
            name = "policy" \/ name = "x-amz-signature" \/ exists c, c ∈ conds /\ field c = name) as Hc.
  { intros name. rewrite check_covered_ok, elem_of_list_to_set, list_elem_of_fmap. naive_solver. }
  assert ((forall name, is_Some (fs !! name) -> check_covered (list_to_set (map field conds)) name = Ok tt) <->
          each (check_covered (list_to_set (map field conds))) (map fst (map_to_list fs)) = Ok tt) as He.
  { rewrite each_ok, Forall_forall. split.
    - intros H name Hin. apply list_elem_of_fmap in Hin as ([k v] & -> & Hin). apply H. apply elem_of_map_to_list in Hin. eauto.
    - intros H name [v Hv]. apply H. apply list_elem_of_fmap. exists (name, v). split; [done|]. by apply elem_of_map_to_list. }
  split.
  - intros H. destruct (each (check_condition fs) conds) as [[]|] eqn:E; [|done]. simpl in H.
    split; [intros c Hin; apply check_condition_ok; by apply (proj1 (Forall_forall _ _) (proj1 (each_ok _ _) E))|]. intros name Hn. apply Hc. by apply He.
  - intros [H1 H2]. assert (each (check_condition fs) conds = Ok tt) as ->.
    { apply each_ok, Forall_forall. intros c Hin. apply check_condition_ok. auto. }
    simpl. apply He. intros name Hn. apply Hc. auto.
Qed.

(** ** The document *)

(** What one element of the document's conditions imposes. *)
Definition imposed (rc : json.value) (pp : PostPolicy) (conds : list postCondition) : Prop :=
  match rc with
  | json.Object _ => exists obj, into_map (into_string "") rc = Some obj /\
      forall k v, (k, v) ∈ obj -> {| op := "eq"; field := strings.ToLower k; value := v |} ∈ conds
  | json.Array l =>
    match parseArrayCondition l with
    | Ok (inl c) => c ∈ conds
    | Ok (inr (lo, hi)) => lo <= MinLength pp /\ MaxLength pp <= hi
    | Err _ => False
    end
  | _ => False
  end.

(** A later state of the fold: a narrower range and more conditions. *)
Definition narrows (a b : PostPolicy * list postCondition) : Prop :=
  Expiration b.1 = Expiration a.1 /\ MinLength a.1 <= MinLength b.1 /\ MaxLength b.1 <= MaxLength a.1 /\ a.2 ⊆ b.2.

#[local] Instance narrows_preorder : PreOrder narrows.
Proof.
  split; unfold narrows; [intros a; repeat split; [lia..|set_solver]|].
  intros a b c (E1 & ? & ? & ?) (E2 & ? & ? & ?). repeat split; [congruence|lia..|set_solver].
Qed.

Lemma imposed_narrows rc a b : narrows a b -> imposed rc a.1 a.2 -> imposed rc b.1 b.2.
Proof.
  intros (_ & Hmin & Hmax & Hsub). unfold imposed. destruct rc; try done.
  - destruct (parseArrayCondition l) as [[c|[lo hi]]|]; [set_solver|lia|done].
  - intros (obj & Ho & Hk). eauto 10.
Qed.

Definition known_op (c : postCondition) : Prop := op c = "eq" \/ op c = "starts-with".

Lemma parseArrayCondition_ok l r :
  parseArrayCondition l = Ok r -> match r with inl c => known_op c | inr (lo, hi) => 0 <= lo <= hi end.
Proof.
  intros H. unfold parseArrayCondition in H. cbv zeta in H. ok_path H; injection H as <-; unfold known_op; simpl; [|bools; lia].
  match goal with Hb : _ || _ = true |- _ => apply orb_true_iff in Hb as [Hb|Hb]; bools; auto end.
Qed.

Lemma parse_condition_ok acc rc acc' :
  parse_condition acc rc = Ok acc' ->
  narrows acc acc' /\ imposed rc acc'.1 acc'.2 /\ (0 <= MinLength acc.1 -> 0 <= MinLength acc'.1) /\
  (Forall known_op acc.2 -> Forall known_op acc'.2).
Proof.
  destruct acc as [pp conds]. unfold parse_condition, imposed, narrows. intros H. destruct rc; try done.
  - destruct (parseArrayCondition l) as [[c|[lo hi]]|] eqn:E; [| |done];
      simpl in H; injection H as <-; apply parseArrayCondition_ok in E; simpl.
    + repeat split; [lia..|set_solver|set_solver|lia|]. intros Hf. apply Forall_app. split; [done|]. by apply Forall_singleton.
    + repeat split; [lia..|set_solver|lia|lia|lia|done].
  - destruct (into_map (into_string "") (json.Object l)) as [obj|] eqn:E; [|done]. injection H as <-. simpl.
    repeat split; [lia..|set_solver| |lia|].
    + exists obj. split; [done|]. intros k v Hin. apply elem_of_app. right. apply list_elem_of_fmap. exists (k, v). done.
    + intros Hf. apply Forall_app. split; [done|]. apply Forall_forall. intros c Hin.
      apply list_elem_of_fmap in Hin as ([k v] & -> & _). by left.
Qed.

Lemma parse_conditions_ok l acc acc' :
  foldM parse_condition acc l = Ok acc' ->
  narrows acc acc' /\ (forall rc, rc ∈ l -> imposed rc acc'.1 acc'.2) /\ (0 <= MinLength acc.1 -> 0 <= MinLength acc'.1) /\
  (Forall known_op acc.2 -> Forall known_op acc'.2).
Proof.
  revert acc; induction l as [|rc l IH]; intros acc H; simpl in H.
  - injection H as <-. split; [done|]. split; [set_solver|done].
  - destruct (parse_condition acc rc) as [acc1|] eqn:E; [|done]. simpl in H.
    apply parse_condition_ok in E as (Hn & Hi & Hp & Hk). apply IH in H as (Hn' & Hi' & Hp' & Hk').
    split; [by etrans|]. split; [|auto].
    intros rc' [->|Hin]%elem_of_cons; [|auto]. by eapply imposed_narrows.
Qed.

(** The policy a document is: its deadline, the intersection of its size
    ranges, and its conditions, none left out. *)
Record policy_of (raw : string) (pp : PostPolicy) (conds : list postCondition) : Prop := {
  po_doc : exists doc, json.parse raw ≫= decode_policy_doc = Some doc /\
    time.ParseRFC3339 (docExpiration doc) = Some (Expiration pp) /\
    (length (docConditions doc) <= maxPostPolicyConditions)%nat /\
    forall rc, rc ∈ docConditions doc -> imposed rc pp conds;
  po_range : 0 <= MinLength pp <= MaxLength pp /\ MaxLength pp <= int64_max;
  po_ops : Forall known_op conds }.

Lemma parsePostPolicy_ok raw pp conds : parsePostPolicy raw = Ok (pp, conds) -> policy_of raw pp conds.
Proof.
  intros H. unfold parsePostPolicy in H. ok_path H.
  match type of H with (x ← ?f; _) = _ => destruct f as [acc|] eqn:Hf; [|done] end.
  simpl in H. destruct (MaxLength acc.1 <? MinLength acc.1) eqn:Hr; [done|]. injection H as Hacc. subst acc.
  apply parse_conditions_ok in Hf as ((He & Hmin & Hmax & _) & Hi & Hp & Hk). simpl in *. bools.
  constructor.
  - eexists. split; [done|]. split; [congruence|]. split; [lia|exact Hi].
  - lia.
  - by apply Hk.
Qed.

(** ** Verification *)

(** What an accepted form proves. *)
Record post_authenticated (keyfn : signingKeyID -> string) (v : Verifier) (now : Z) (lookup : SecretLookup) (fs : fields)
    (vr : Verified) (pp : PostPolicy) : Prop := {
  pa_key : exists cred, lookup (AccessKeyID vr) (fget fs "x-amz-security-token") = Ok cred /\
    sha256.Sum256 (SessionToken cred) = sha256.Sum256 (fget fs "x-amz-security-token") /\
    VSigningKey vr = credential_key keyfn (AccessKeyID vr) cred (time.FormatDate (SigningTime vr)) (Region vr);
  pa_signature : Signature vr = fget fs "x-amz-signature" /\
    Signature vr = hex.EncodeToString (hmacSHA256 (VSigningKey vr) (fget fs "policy"));
  pa_scope : strings.Split (fget fs "x-amz-credential") "/" =
    [AccessKeyID vr; time.FormatDate (SigningTime vr); Region vr; "s3"; "aws4_request"];
  pa_region : region v = "" \/ Region vr = region v;
  pa_time : time.ParseAmz (fget fs "x-amz-date") = Some (SigningTime vr) /\
    - maxClockSkew <= now - time.instant (SigningTime vr) <= maxPresignExpires;
  pa_policy : exists raw conds, base64.decode (fget fs "policy") = Some raw /\ Z.of_nat (length raw) <= maxPostPolicyBytes /\
    policy_of (string_of_bytes raw) pp conds /\ satisfies conds fs;
  pa_deadline : now <= Expiration pp }.

Lemma post_window_ok now t :
  time.After t (time.Add now maxClockSkew) = false -> (maxPresignExpires <? time.Sub now t) = false ->
  - maxClockSkew <= now - t <= maxPresignExpires.
Proof.
  unfold time.After, time.Add, time.Sub, sat64, int64_min, int64_max. intros H1 H2. bools.
  unfold maxPresignExpires, maxClockSkew, time.Hour, time.Minute, time.Second in *. lia.
Qed.

Lemma post_sound keyfn v now fs lookup vr pp v' :
  reachable keyfn (signers v) -> versioned_lookup keyfn lookup ->
  VerifyPost v now fs lookup = (Ok (vr, pp), v') ->
  post_authenticated keyfn v now lookup fs vr pp /\ reachable keyfn (signers v') /\ region v' = region v.
Proof.
  intros Hc Hl H. unfold VerifyPost in H. cbv zeta in H. ok_path H. injection H as <- <- <-.
  repeat match goal with u : unit |- _ => destruct u end.
  match goal with Ha : time.After (time.instant _) _ = false, Hb : (maxPresignExpires <? _) = false |- _ =>
    pose proof (post_window_ok _ _ Ha Hb) as Hwin; clear Ha Hb end.
  match goal with Hp : _ && _ = false |- _ => apply pinned_region in Hp end.
  unfold time.After in *. bools.
  match goal with Hlk : lookupSecret _ _ _ = Ok _ |- _ => apply lookupSecret_ok in Hlk as [Hlk Hver] end.
  match goal with Hs : signingKey _ _ _ _ _ = _ |- _ =>
    eapply (signingKey_ok keyfn) in Hs as [Hkey Hr]; [|done|done|by intros; eapply Hl] end.
  match goal with Ht : validateSessionToken _ _ _ = Ok tt |- _ => apply validateSessionToken_ok in Ht end.
  match goal with Hp : parsePostPolicy _ = Ok _ |- _ => apply parsePostPolicy_ok in Hp end.
  match goal with He : evaluatePostPolicy _ _ = Ok tt |- _ => apply evaluatePostPolicy_ok in He end.
  subst. split; [|done]. constructor; simpl; try done; eauto 10.
Qed.

(** C9. POST uploads are authenticated.  If a form verifies, the credential
    is the one the lookup returns for the id and token of the form, the
    presented signature is the HMAC of the form's base64 policy under that
    credential's key for the claimed date and region, the signing time is at
    most 15 minutes ahead and a week old, the policy decodes to at most 20 KiB
    and has not expired, no condition of the document is left out, every
    condition holds of the form, every field other than the policy and the
    signature is under a condition, the size range handed to the caller is
    inside every range of the document, and the cache stays transparent. *)
Theorem VerifyPost_sound keyfn v now fs lookup vr pp v' :
  reachable keyfn (signers v) -> versioned_lookup keyfn lookup ->
  VerifyPost v now fs lookup = (Ok (vr, pp), v') ->
  post_authenticated keyfn v now lookup fs vr pp /\ reachable keyfn (signers v') /\ region v' = region v.
Proof. apply post_sound. Qed.

(** ** A form on which the theorem applies *)

Definition demo_document : json.value := json.Object [
  ("expiration", json.Str "2024-05-24T01:00:00Z");
  ("conditions", json.Array [
    json.Object [("bucket", json.Str "photos"); ("x-amz-algorithm", json.Str sigV4Algorithm)];
    json.Array [json.Str "starts-with"; json.Str "$Key"; json.Str "user/"];
    json.Array [json.Str "eq"; json.Str "$x-amz-credential"; json.Str ("AKID/" +:+ demo_scope)];
    json.Array [json.Str "eq"; json.Str "$x-amz-date"; json.Str "20240524T000000Z"];
    json.Array [json.Str "content-length-range"; json.Number "1"; json.Number "1024"]])].

Definition demo_policy : string := base64.encode (bytes_of (json.Marshal demo_document)).

Definition demo_fields : fields := list_to_map [
  ("bucket", "photos"); ("key", "user/a.png"); ("x-amz-algorithm", sigV4Algorithm);
  ("x-amz-credential", "AKID/" +:+ demo_scope); ("x-amz-date", "20240524T000000Z");
  ("policy", demo_policy); ("x-amz-signature", hex.EncodeToString (hmacSHA256 demo_key demo_policy))].

#[local] Notation demo_post_out := (VerifyPost demo_verifier demo_now demo_fields demo_lookup).

Definition post_verified (o : post_result) : Verified := match o.1 with Ok (vr, _) => vr | Err _ => dummy_verified end.
Definition post_policy (o : post_result) : PostPolicy :=
  match o.1 with Ok (_, pp) => pp | Err _ => {| Expiration := 0; MinLength := 0; MaxLength := 0 |} end.

Lemma post_ok (o : post_result) : is_ok o.1 = true -> o = (Ok (post_verified o, post_policy o), o.2).
Proof. destruct o as [[[vr r]|e] v]; done. Qed.

Example demo_post_range : (MinLength (post_policy demo_post_out), MaxLength (post_policy demo_post_out)) = (1, 1024).
Proof. vm_refl. Qed.

(** An extra field, or a key outside the prefix, is refused. *)
Example demo_post_refused :
  map (fun fs => match (VerifyPost demo_verifier demo_now fs demo_lookup).1 with Ok _ => "" | Err e => s3err.Code e end)
    [<["acl":="public-read"]> demo_fields; <["key":="other/a.png"]> demo_fields; delete "key" demo_fields;
     <["x-amz-signature":="00"]> demo_fields] = ["AccessDenied"; "AccessDenied"; "AccessDenied"; "SignatureDoesNotMatch"].
Proof. vm_refl. Qed.

Lemma VerifyPost_sound_witness :
  is_ok demo_post_out.1 = true /\
  post_authenticated demo_keyfn demo_verifier demo_now demo_lookup demo_fields (post_verified demo_post_out) (post_policy demo_post_out).
Proof.
  assert (is_ok demo_post_out.1 = true) as H by vm_refl. split; [exact H|].
  exact (proj1 (VerifyPost_sound demo_keyfn demo_verifier demo_now demo_fields demo_lookup
    _ _ _ (reach_new _ _ _) demo_versioned (post_ok _ H))).
Defined.
