(* ===== verification/Cors.v ===== *)
(** * CORS rules (src/cors/cors.go)

    Rule matching, the preflight decision and the response headers.  A handler
    that writes a response is a function from the response headers so far. *)

From S2P Require Import Prelude Unicode GoStrings GoNet Glob.

Open Scope Z_scope.

Module cors.

Record Rule := {
  AllowedOrigins : list string;
  AllowedMethods : list string;
  AllowedHeaders : list string;
  ExposeHeaders : list string;
  MaxAgeSeconds : Z }.

Inductive rule_error := NoOrigin | NoMethod | UnsupportedMethod (m : string) | NegativeMaxAge.

Definition Validate (r : Rule) : result rule_error unit :=
  if (length (AllowedOrigins r) =? 0)%nat then Err NoOrigin
  else if (length (AllowedMethods r) =? 0)%nat then Err NoMethod
  else
    _ ← each (fun m => guard (bool_decide (m ∈ ["GET"; "PUT"; "POST"; "DELETE"; "HEAD"])) (UnsupportedMethod m)) (AllowedMethods r);
    if MaxAgeSeconds r <? 0 then Err NegativeMaxAge else Ok tt.

Definition rule_matches (origin method : string) (r : Rule) : bool :=
  existsb (fun o => Glob.Match o origin && bool_decide (method ∈ AllowedMethods r)) (AllowedOrigins r).

Definition Match (rules : list Rule) (origin method : string) : option Rule :=
  List.find (rule_matches origin method) rules.

Definition headerAllowed (allowed : list string) (header : string) : bool :=
  existsb (fun a => Glob.Match (strings.ToLower a) (strings.ToLower header)) allowed.

Definition setAllowOrigin (h : http.Header) (rule : Rule) (origin : string) : http.Header :=
  if bool_decide ("*" ∈ AllowedOrigins rule) then http.HSet h "Access-Control-Allow-Origin" "*"
  else http.HSet (http.HSet h "Access-Control-Allow-Origin" origin) "Access-Control-Allow-Credentials" "true".

(** [AllowPreflight]: the response headers when it is allowed (with status
    200), [None] when nothing has been written. *)
Definition AllowPreflight (h : http.Header) (req : http.Header) (rules : list Rule) : option http.Header :=
  let origin := http.HGet req "Origin" in
  match Match rules origin (http.HGet req "Access-Control-Request-Method") with
  | None => None
  | Some rule =>
    let reqHeaders := http.HGet req "Access-Control-Request-Headers" in
    if negb (forallb (fun t => let t := strings.TrimSpace t in bool_decide (t = "") || headerAllowed (AllowedHeaders rule) t)
                     (strings.Split reqHeaders ","))
    then None
    else
      let h := if bool_decide (reqHeaders = "") then h else http.HSet h "Access-Control-Allow-Headers" reqHeaders in
      let h := setAllowOrigin h rule origin in
      let h := http.HSet h "Access-Control-Allow-Methods" (strings.Join (AllowedMethods rule) ", ") in
      let h := if 0 <? MaxAgeSeconds rule then http.HSet h "Access-Control-Max-Age" (strconv.FormatInt (MaxAgeSeconds rule)) else h in
      Some (http.HSet h "Vary" "Origin, Access-Control-Request-Method, Access-Control-Request-Headers")
  end.

Definition SetHeaders (h : http.Header) (method : string) (req : http.Header) (rules : list Rule) : http.Header :=
  let origin := http.HGet req "Origin" in
  if bool_decide (origin = "") || (length rules =? 0)%nat then h
  else match Match rules origin method with
  | None => h
  | Some rule =>
    let h := setAllowOrigin h rule origin in
    let h := if (0 <? length (ExposeHeaders rule))%nat
             then http.HSet h "Access-Control-Expose-Headers" (strings.Join (ExposeHeaders rule) ", ") else h in
    http.HSet h "Vary" "Origin"
  end.

(** ** Header maps *)

Lemma vget_set_raw h k vs k' : vget (http.set_raw h k vs) k' = if bool_decide (k = k') then vs else vget h k'.
Proof.
  induction h as [|[k1 ws] h IH]; simpl.
  - by case_bool_decide.
  - destruct (decide (k1 = k)) as [->|Hk].
    + rewrite (bool_decide_true (k = k)) by done. simpl. by case_bool_decide.
    + rewrite (bool_decide_false (k1 = k)) by done. simpl. rewrite IH.
      destruct (decide (k = k')) as [->|]; [by rewrite (bool_decide_false (k1 = k'))|].
      by rewrite (bool_decide_false (k = k')).
Qed.

Lemma HGet_HSet h k v k' :
  http.HGet (http.HSet h k v) k' = if bool_decide (http.CanonicalHeaderKey k = http.CanonicalHeaderKey k') then v else http.HGet h k'.
Proof. unfold http.HGet, http.HSet. rewrite vget_set_raw. by case_bool_decide. Qed.

(** ** Theorems *)

Definition allow_origin (h : http.Header) : string := http.HGet h "Access-Control-Allow-Origin".
Definition allow_credentials (h : http.Header) : string := http.HGet h "Access-Control-Allow-Credentials".

(** Setting one header does not show under another name. *)
Ltac other_header := rewrite HGet_HSet; cbv beta; match goal with |- context [bool_decide ?P] =>
  replace (bool_decide P) with false by (symmetry; vm_compute; reflexivity) end; cbv iota.
Ltac same_header := rewrite HGet_HSet; match goal with |- context [bool_decide ?P] =>
  replace (bool_decide P) with true by (symmetry; vm_compute; reflexivity) end; cbv iota.

Lemma setAllowOrigin_get h rule origin :
  allow_origin (setAllowOrigin h rule origin) = (if bool_decide ("*" ∈ AllowedOrigins rule) then "*" else origin) /\
  (allow_credentials h = "" -> allow_credentials (setAllowOrigin h rule origin) = "true" -> ~ "*" ∈ AllowedOrigins rule).
Proof.
  unfold setAllowOrigin, allow_origin, allow_credentials. case_bool_decide as Hs.
  - split; [by same_header|]. other_header. intros ->. done.
  - split; [other_header; by same_header|done].
Qed.

(** A preflight is answered only under a rule of the bucket that allows the
    origin, the method and every requested header; the response then carries
    that rule's methods, and credentials are allowed only together with the
    concrete origin, never with the wildcard. *)
Theorem AllowPreflight_sound req rules h' :
  AllowPreflight [] req rules = Some h' ->
  exists rule, rule ∈ rules /\
    existsb (fun o => Glob.Match o (http.HGet req "Origin")) (AllowedOrigins rule) = true /\
    http.HGet req "Access-Control-Request-Method" ∈ AllowedMethods rule /\
    (forall t, t ∈ strings.Split (http.HGet req "Access-Control-Request-Headers") "," ->
       strings.TrimSpace t = "" \/ headerAllowed (AllowedHeaders rule) (strings.TrimSpace t) = true) /\
    http.HGet h' "Access-Control-Allow-Methods" = strings.Join (AllowedMethods rule) ", " /\
    (allow_origin h' = "*" \/ allow_origin h' = http.HGet req "Origin") /\
    (allow_credentials h' = "true" -> allow_origin h' = http.HGet req "Origin").
Proof.
  unfold AllowPreflight. destruct (Match rules _ _) as [rule|] eqn:Hm; [|done].
  destruct (negb _) eqn:Hh; [done|]. apply negb_false_iff in Hh. rewrite forallb_elem in Hh. intros [= <-].
  apply find_some in Hm as [Hin Hm]. apply existsb_elem in Hm as (o & Ho & Hm). bools.
  exists rule. split; [by apply list_elem_of_In|]. split; [apply existsb_elem; eauto|]. split; [done|].
  split; [intros t Ht; specialize (Hh t Ht); apply orb_true_iff in Hh as [?|?]; bools; auto|].
  split.
  - other_header. destruct (0 <? MaxAgeSeconds rule); [other_header|]; by same_header.
  - unfold allow_origin, allow_credentials.
    set (h0 := if bool_decide (http.HGet req "Access-Control-Request-Headers" = "") then _ else _).
    assert (allow_credentials h0 = "") as Hc0.
    { subst h0. unfold allow_credentials. case_bool_decide; [done|]. by other_header. }
    destruct (setAllowOrigin_get h0 rule (http.HGet req "Origin")) as [Hao Hac]. unfold allow_origin, allow_credentials in *.
    split; [|other_header; intros Hcred; other_header].
    + other_header. destruct (0 <? MaxAgeSeconds rule); repeat other_header; rewrite Hao; case_bool_decide; auto.
    + destruct (0 <? MaxAgeSeconds rule); repeat other_header;
        (assert (~ "*" ∈ AllowedOrigins rule) as Hn;
         [apply Hac; [done|]; revert Hcred; repeat other_header; done|]);
        rewrite Hao; by rewrite bool_decide_false.
Qed.

Definition demo_rule : Rule :=
  {| AllowedOrigins := ["https://*.example.com"]; AllowedMethods := ["GET"; "PUT"]; AllowedHeaders := ["x-amz-*"];
     ExposeHeaders := []; MaxAgeSeconds := 60 |}.

Definition demo_preflight : http.Header :=
  [("Origin", ["https://app.example.com"]); ("Access-Control-Request-Method", ["PUT"]);
   ("Access-Control-Request-Headers", ["X-Amz-Date, x-amz-acl"])].

Lemma AllowPreflight_sound_witness :
  exists h', AllowPreflight [] demo_preflight [demo_rule] = Some h' /\
    exists rule, rule ∈ [demo_rule] /\ http.HGet demo_preflight "Access-Control-Request-Method" ∈ AllowedMethods rule.
Proof.
  set (h' := match AllowPreflight [] demo_preflight [demo_rule] with Some h => h | None => [] end).
  assert (AllowPreflight [] demo_preflight [demo_rule] = Some h') as H by vm_refl.
  exists h'. split; [exact H|]. destruct (AllowPreflight_sound _ _ _ H) as (rule & H1 & _ & H3 & _). exists rule. exact (conj H1 H3).
Defined.

End cors.
