(* ===== verification/Store.v ===== *)
(** * Definitions the gateway reads (src/store/store.go, src/store/validate.go)

    Keys, buckets and backends, the read-only [Store] interface as a record of
    operations with the class of its documented laws, and the name rules. *)

From S2P Require Import Prelude Unicode GoStrings GoNet GoError Signer Policy Cors.

Open Scope Z_scope.

Module store.

Definition ErrNotFound : string := "store.ErrNotFound".
Definition ErrInvalidToken : string := "store.ErrInvalidToken".

Record BucketEntry := { EName : string; ECreatedAt : Z }.

(** [Metadata] is opaque to the gateway; a value stands for whatever the store
    attached. *)
Record Key := {
  AccessKeyID : string;
  SecretAccessKey : string;
  SigningKey : option sigv4.SigningKeyFunc;
  SecretVersion : string;
  KTenant : string;
  User : string;
  SessionToken : string;
  KPolicy : option policy.UserPolicy;
  KMetadata : option string }.

Record Backend := {
  Endpoint : string;
  Region : string;
  BBucket : string;
  BAccessKeyID : string;
  BSecretAccessKey : string;
  UsePathStyle : option bool }.

Record Bucket := {
  Tenant : string;
  Name : string;
  BBackend : Backend;
  CreatedAt : Z;
  PolicyText : string;
  BPolicy : option policy.Policy;
  CORS : list cors.Rule;
  BMetadata : option string }.

Definition DefaultRegion : string := "us-east-1".

Definition SetDefaults (b : Backend) (bucketName : string) : Backend :=
  {| Endpoint := Endpoint b;
     Region := if bool_decide (Region b = "") then DefaultRegion else Region b;
     BBucket := if bool_decide (BBucket b = "") then bucketName else BBucket b;
     BAccessKeyID := BAccessKeyID b;
     BSecretAccessKey := BSecretAccessKey b;
     UsePathStyle := match UsePathStyle b with Some v => Some v | None => Some (negb (bool_decide (Endpoint b = ""))) end |}.

Definition IsHTTPS (b : Backend) : bool :=
  if bool_decide (Endpoint b = "") then true
  else strings.HasPrefix (strings.ToLower (Endpoint b)) "https://".

(** ** Names *)

Definition lower_alnum (c : ascii) : bool := in_range (byte_of c) 97 122 || in_range (byte_of c) 48 57.

(** [^[a-z0-9][a-z0-9-]{1,61}[a-z0-9]$]. *)
Definition bucketNameRegexp (s : string) : bool :=
  match s with
  | String a r =>
    match strings.rev r with
    | String z m =>
      lower_alnum a && lower_alnum z && (1 <=? strings.length m)%nat && (strings.length m <=? 61)%nat &&
      policy.all_chars (fun c => lower_alnum c || (byte_of c =? 45)) m
    | EmptyString => false
    end
  | EmptyString => false
  end.

(** The charset of tenant and user names is the principal parts' one. *)
Definition principalPartRegexp (s : string) : bool := policy.name_pattern s.

Definition ValidateBucketName (name : string) : result goerror unit :=
  guard (bucketNameRegexp name) (Text [FS "invalid bucket name "; FQ name]).
Definition ValidateTenantName (name : string) : result goerror unit :=
  guard (principalPartRegexp name) (Text [FS "invalid tenant name "; FQ name]).
Definition ValidateUserName (name : string) : result goerror unit :=
  guard (principalPartRegexp name) (Text [FS "invalid user name "; FQ name]).

(** The endpoint is empty or an http(s) URL, and credentials come in pairs. *)
Definition Backend_Validate (b : Backend) : result goerror unit :=
  _ ← (if bool_decide (Endpoint b = "") then Ok tt
       else match url.Parse (Endpoint b) with
       | None => Err (Text [FS "invalid backend endpoint: "])
       | Some u => guard (bool_decide (url.Scheme u = "http") || bool_decide (url.Scheme u = "https"))
                     (Text [FS "backend endpoint must be an http(s) URL: "; FS (Endpoint b)])
       end);
  guard (Bool.eqb (bool_decide (BAccessKeyID b = "")) (bool_decide (BSecretAccessKey b = "")))
    (Text [FS "backend access_key_id and secret_access_key must be set together"]).

(** ** The interface *)

Record Store := {
  GetKey : string -> string -> result goerror Key;
  GetBucket : string -> string -> result goerror Bucket;
  GetBucketByName : string -> result goerror Bucket;
  ListBuckets : string -> result goerror (list BucketEntry) }.

(** What the interface documents: a tenant's lookup returns that tenant's
    bucket of that name, names are global, and a missing bucket is a not-found
    error. *)
Class StoreLaws (s : Store) : Prop := {
  get_bucket_own tenant bucket b : GetBucket s tenant bucket = Ok b -> Tenant b = tenant /\ Name b = bucket;
  get_by_name bucket b : GetBucketByName s bucket = Ok b -> Name b = bucket;
  get_bucket_complete bucket b : GetBucketByName s bucket = Ok b -> GetBucket s (Tenant b) bucket = Ok b;
  get_bucket_foreign tenant bucket b : GetBucketByName s bucket = Ok b -> Tenant b <> tenant ->
    exists e, GetBucket s tenant bucket = Err e /\ errors.Is e ErrNotFound = true;
  get_bucket_absent tenant bucket e : GetBucketByName s bucket = Err e -> errors.Is e ErrNotFound = true ->
    exists e', GetBucket s tenant bucket = Err e' /\ errors.Is e' ErrNotFound = true }.

(** ** Names are writable where they are used *)

Lemma all_chars_imp (f g : ascii -> bool) s :
  (forall c, f c = true -> g c = true) -> policy.all_chars f s = true -> policy.all_chars g s = true.
Proof. intros H. induction s as [|c s IH]; simpl; [done|]. intros. bools. rewrite H, IH; done. Qed.

End store.
