(* ===== verification/Authorize.v ===== *)
(** * Authorization (src/s3gw/auth.go, bucketpolicy.go, denyreason.go and
      [resolveBucket] of handler.go)

    Identity policy first, then the bucket policy under a baseline that depends
    on the tenant; bucket resolution with the cross-tenant visibility gate; the
    per-object authorizer DeleteObjects uses; and the explanations given to the
    operator. *)

From S2P Require Import Prelude Unicode GoStrings GoNet NetIP GoError Glob Signer Policy PolicyFacts Verifier Cors Store.
Import policy.

Open Scope Z_scope.

Module s3gw.

Record verifiedRequest := {
  Verified : verifier.Verified;
  Tenant : string;
  User : string;
  vrPolicy : option policy.UserPolicy;
  KeyMetadata : option string;
  vrSourceIP : netip.Addr }.

Definition principal (vr : verifiedRequest) : string := Tenant vr +:+ "/" +:+ User vr.

Definition requestContext (vr : verifiedRequest) : RequestContext := {| SourceIP := vrSourceIP vr |}.

(** ** Explanations *)

Record DenyReason := {
  Layer : string; RStatement : Z; RSid : string; RPrincipal : string; RAction : string; RResource : string;
  rerr : option goerror }.

Definition LayerUserPolicy : string := "user-policy".
Definition LayerBucketPolicy : string := "bucket-policy".
Definition LayerCrossTenant : string := "cross-tenant".
Definition LayerVisibility : string := "visibility".
Definition LayerCopySource : string := "copy-source".

(** A reason as the cause of an error. *)
Definition reason_error (r : DenyReason) : goerror :=
  Denied (Layer r) (RStatement r) (RSid r) (RPrincipal r) (RAction r) (RResource r) (rerr r).

Definition userPolicyReason (pr action : string) (d : Decision) : DenyReason :=
  {| Layer := LayerUserPolicy; RStatement := DStatement d; RSid := ""; RPrincipal := pr; RAction := action; RResource := ""; rerr := None |}.

Definition denyStatementReason (p : option Policy) (pr action resource : string) (i : Z) : DenyReason :=
  {| Layer := LayerBucketPolicy; RStatement := i;
     RSid := match p with
             | Some p => if (0 <=? i) && (i <? Z.of_nat (length (PStatement p)))
                         then match PStatement p !! Z.to_nat i with Some st => Sid st | None => "" end else ""
             | None => ""
             end;
     RPrincipal := pr; RAction := action; RResource := resource; rerr := None |}.

Definition crossTenantReason (pr action resource : string) : DenyReason :=
  {| Layer := LayerCrossTenant; RStatement := -1; RSid := ""; RPrincipal := pr; RAction := action; RResource := resource; rerr := None |}.

Definition bucketPolicyReason (p : option Policy) (pr action resource : string) (d : Decision) : DenyReason :=
  if negb (bool_decide (DEffect d = Deny)) then crossTenantReason pr action resource
  else denyStatementReason p pr action resource (DStatement d).

Definition visibilityReason (pr bucket : string) : DenyReason :=
  {| Layer := LayerVisibility; RStatement := -1; RSid := ""; RPrincipal := pr; RAction := ""; RResource := bucket; rerr := None |}.

Definition copySourceReason (pr action resource : string) (err : option goerror) : DenyReason :=
  {| Layer := LayerCopySource; RStatement := -1; RSid := ""; RPrincipal := pr; RAction := action; RResource := resource;
     rerr := Some (default (Sentinel store.ErrNotFound) err) |}.

Definition denied (r : DenyReason) : s3err.Error := s3err.WithCause s3err.AccessDenied (reason_error r).

(** [addDenial] on the denials of an operation. *)
Record Denial := { Reason : DenyReason; Keys : Z }.

Fixpoint addDenial (ds : list Denial) (r : DenyReason) : list Denial :=
  match ds with
  | [] => [{| Reason := r; Keys := 1 |}]
  | d :: ds =>
    if bool_decide (Layer (Reason d) = Layer r) && (RStatement (Reason d) =? RStatement r)
    then {| Reason := Reason d; Keys := Keys d + 1 |} :: ds
    else d :: addDenial ds r
  end.

(** ** One request *)

Definition authorize (vr : verifiedRequest) (b : store.Bucket) (action resource : string) : result s3err.Error unit :=
  let d := UserDecide (vrPolicy vr) action in
  if negb (bool_decide (DEffect d = Allow)) then Err (denied (userPolicyReason (principal vr) action d))
  else if negb (bool_decide (store.Tenant b = Tenant vr)) then
    match store.BPolicy b with
    | None => Err (denied (bucketPolicyReason None (principal vr) action resource {| DEffect := NoEffect; DStatement := -1 |}))
    | Some p =>
      let d := Decide p (principal vr) action resource (requestContext vr) in
      if negb (bool_decide (DEffect d = Allow))
      then Err (denied (bucketPolicyReason (Some p) (principal vr) action resource d)) else Ok tt
    end
  else
    match store.BPolicy b with
    | None => Ok tt
    | Some p =>
      let d := Decide p (principal vr) action resource (requestContext vr) in
      if bool_decide (DEffect d = Deny)
      then Err (denied (bucketPolicyReason (Some p) (principal vr) action resource d)) else Ok tt
    end.

(** ** Many objects *)

Record perObjectAuthorizer := {
  denyAll : bool;
  eval : DenyEvaluator;
  requireAllow : bool;
  allow : AllowEvaluator;
  pPrincipal : string;
  pAction : string;
  pPolicy : option Policy;
  userDecision : Decision }.

Definition no_deny : DenyEvaluator := {| denyResources := []; denyStatements := [] |}.
Definition no_allow : AllowEvaluator := {| allowResources := [] |}.

Definition newPerObjectAuthorizer (vr : verifiedRequest) (b : store.Bucket) (action : string) : perObjectAuthorizer :=
  let d := UserDecide (vrPolicy vr) action in
  let mk da ev ra al := {| denyAll := da; eval := ev; requireAllow := ra; allow := al; pPrincipal := principal vr;
                           pAction := action; pPolicy := store.BPolicy b; userDecision := d |} in
  if negb (bool_decide (DEffect d = Allow)) then mk true no_deny false no_allow
  else
    let rc := requestContext vr in
    if negb (bool_decide (store.Tenant b = Tenant vr)) then
      match store.BPolicy b with
      | None => mk true no_deny true no_allow
      | Some p =>
        let al := AllowEvaluatorFor p (principal vr) action rc in
        if AlwaysDenies al then mk true no_deny true al
        else mk false (DenyEvaluatorFor p (principal vr) action rc) true al
      end
    else
      match store.BPolicy b with
      | None => mk false no_deny false no_allow
      | Some p => mk false (DenyEvaluatorFor p (principal vr) action rc) false no_allow
      end.

Definition pdenies (a : perObjectAuthorizer) (resource : string) : bool :=
  if denyAll a then true
  else if negb (requireAllow a) then Denies (eval a) resource
  else negb (AllowsRunes (allow a) (runes resource)) || DeniesRunes (eval a) (runes resource).

Definition denyReason (a : perObjectAuthorizer) (resource : string) : DenyReason :=
  if negb (bool_decide (DEffect (userDecision a) = Allow)) then userPolicyReason (pPrincipal a) (pAction a) (userDecision a)
  else
    let i := DenyingStatement (eval a) (runes resource) in
    if 0 <=? i then denyStatementReason (pPolicy a) (pPrincipal a) (pAction a) resource i
    else crossTenantReason (pPrincipal a) (pAction a) resource.

Definition allowsEverything (a : perObjectAuthorizer) : bool :=
  negb (denyAll a) && negb (requireAllow a) && AlwaysAllows (eval a).

(** ** Bucket resolution *)

Definition resolveBucket (s : store.Store) (vr : verifiedRequest) (bucket : string) : result s3err.Error store.Bucket :=
  match store.GetBucket s (Tenant vr) bucket with
  | Ok b => Ok b
  | Err err =>
    if negb (errors.Is err store.ErrNotFound) then Err (s3err.Internal err "bucket lookup failed")
    else match store.GetBucketByName s bucket with
    | Err err =>
      if errors.Is err store.ErrNotFound then Err (s3err.WithCause s3err.AccessDenied err)
      else Err (s3err.Internal err "bucket lookup failed")
    | Ok b =>
      match store.BPolicy b with
      | Some p => if MentionsPrincipal p (principal vr) then Ok b
                  else Err (denied (visibilityReason (principal vr) bucket))
      | None => Err (denied (visibilityReason (principal vr) bucket))
      end
    end
  end.

(** ** Identity *)

(** [remoteIP]: an address with a port, or a bare one. *)
Definition parseAddrPort (s : string) : option netip.Addr :=
  match url.last_cut s ":" with
  | None => None
  | Some (host, port) =>
    let port_ok := match strconv.parse_unsigned 10 port with Some n => n <=? 65535 | None => false end in
    if negb port_ok then None
    else match host with
    | String "[" r =>
      match strings.CutSuffix r "]" with
      | Some inner => match netip.ParseAddr inner with Some (netip.V6 b z) => Some (netip.V6 b z) | _ => None end
      | None => None
      end
    | _ => match netip.ParseAddr host with Some (netip.V4 b) => Some (netip.V4 b) | _ => None end
    end
  end.

Definition remoteIP (remoteAddr : string) : netip.Addr :=
  match parseAddrPort remoteAddr with
  | Some a => a
  | None => default netip.Zero (netip.ParseAddr remoteAddr)
  end.

Definition signingKeyFunc (f : sigv4.SigningKeyFunc) : sigv4.SigningKeyFunc := fun date region =>
  match f date region with
  | Err e => if errors.Is e store.ErrNotFound then Err (Wrap [] [Sentinel sigv4.ErrUnknownKey; e]) else Err e
  | Ok k => Ok k
  end.

(** [secretLookup]; the key it resolves is the identity [verifyRequest] uses. *)
Definition secretLookup (s : store.Store) : verifier.SecretLookup := fun accessKeyID sessionToken =>
  match store.GetKey s accessKeyID sessionToken with
  | Err err =>
    if errors.Is err store.ErrNotFound then Err (Wrap [] [Sentinel sigv4.ErrUnknownKey; err])
    else if errors.Is err store.ErrInvalidToken then Err (Wrap [] [Sentinel sigv4.ErrInvalidToken; err])
    else Err err
  | Ok k =>
    Ok {| verifier.SecretAccessKey := store.SecretAccessKey k;
          verifier.SigningKey := signingKeyFunc <$> store.SigningKey k;
          verifier.SecretVersion := store.SecretVersion k;
          verifier.SessionToken := store.SessionToken k |}
  end.

(** [verifyRequest]: the key captured during the lookup is the store's answer
    for the id and token the verifier asked with. *)
Definition presented_token (r : http.Request) : string :=
  if negb (bool_decide (url.Get (url.Query (http.URL r)) "X-Amz-Signature" = ""))
  then url.Get (url.Query (http.URL r)) "X-Amz-Security-Token"
  else http.HGet (http.Header_ r) "X-Amz-Security-Token".

Definition verifyRequest (s : store.Store) (v : verifier.Verifier) (now : Z) (r : http.Request)
    : result s3err.Error (verifiedRequest * http.Request) * verifier.Verifier :=
  match verifier.Verify v now r (secretLookup s) with
  | (Err e, v) => (Err e, v)
  | (Ok (verified, r'), v) =>
    match store.GetKey s (verifier.AccessKeyID verified) (presented_token r) with
    | Err e => (Err (s3err.Internal e "key lookup failed"), v)
    | Ok key =>
      (Ok ({| Verified := verified; Tenant := store.KTenant key; User := store.User key; vrPolicy := store.KPolicy key;
              KeyMetadata := store.KMetadata key; vrSourceIP := remoteIP (http.RemoteAddr r) |}, r'), v)
    end
  end.

End s3gw.
