(* ===== verification/AuthorizeFacts.v ===== *)
(** * Correctness of authorization

    Tenant isolation of [authorize], agreement of the per-object authorizer
    with it, the visibility gate of [resolveBucket], and the identity a
    verified request acts under. *)

From S2P Require Import Prelude Unicode GoStrings GoNet NetIP GoError GoTime Glob Signer Canonical Policy PolicyFacts Verifier VerifierFacts Cors Store Authorize.
Import policy s3gw.

Open Scope Z_scope.

(** ** The specification: when a request is granted *)

(** The identity policy allows the action; in the own tenant the bucket policy
    does not deny it, in another tenant it allows it. *)
Record granted (vr : verifiedRequest) (b : store.Bucket) (action resource : string) : Prop := {
  gr_user : DEffect (UserDecide (vrPolicy vr) action) = Allow;
  gr_own : store.Tenant b = Tenant vr -> forall p, store.BPolicy b = Some p ->
    DEffect (Decide p (principal vr) action resource (requestContext vr)) <> Deny;
  gr_foreign : store.Tenant b <> Tenant vr -> exists p, store.BPolicy b = Some p /\
    DEffect (Decide p (principal vr) action resource (requestContext vr)) = Allow }.

(** What a client sees of an error: everything but the cause. *)
Definition client_view (e : s3err.Error) : Z * string * message * string :=
  (s3err.status e, s3err.Code e, s3err.Message e, s3err.Resource e).

(** The outcome [authorize] computes, with the reason of a refusal. *)
Definition refusal (vr : verifiedRequest) (b : store.Bucket) (action resource : string) : DenyReason :=
  let ud := UserDecide (vrPolicy vr) action in
  if bool_decide (DEffect ud = Allow)
  then bucketPolicyReason (store.BPolicy b) (principal vr) action resource
         match store.BPolicy b with
         | Some p => Decide p (principal vr) action resource (requestContext vr)
         | None => {| DEffect := NoEffect; DStatement := -1 |}
         end
  else userPolicyReason (principal vr) action ud.

Lemma authorize_cases vr b action resource :
  (authorize vr b action resource = Ok tt /\ granted vr b action resource) \/
  (authorize vr b action resource = Err (denied (refusal vr b action resource)) /\ ~ granted vr b action resource).
Proof.
  unfold authorize, refusal. case_bool_decide as Hu; simpl; [case_bool_decide as Ht; simpl|].
  - destruct (store.BPolicy b) as [p|] eqn:Hp; [|left; split; [done|constructor; naive_solver]].
    case_bool_decide as Hd.
    + right. split; [done|]. intros [_ Ho _]. by eapply Ho.
    + left. split; [done|]. constructor; naive_solver.
  - destruct (store.BPolicy b) as [p|] eqn:Hp.
    + case_bool_decide as Hd; simpl.
      * left. split; [done|]. constructor; naive_solver.
      * right. split; [done|]. intros [_ _ Hf]. naive_solver.
    + right. split; [done|]. intros [_ _ Hf]. naive_solver.
  - right. split; [done|]. by intros [].
Qed.

(** ** The per-object authorizer *)

Lemma Denies_no_deny resource : Denies no_deny resource = false.
Proof. done. Qed.

Lemma AlwaysDenies_AllowsRunes a r : AlwaysDenies a = true -> AllowsRunes a r = false.
Proof. unfold AlwaysDenies, AllowsRunes. by intros ->. Qed.

Lemma AlwaysAllows_Denies e r : AlwaysAllows e = true -> Denies e r = false.
Proof. unfold AlwaysAllows, Denies, DeniesRunes. by intros ->. Qed.

(** The bucket's policy, if any, is one the loader validated. *)
Definition policy_validated (b : store.Bucket) : Prop :=
  forall p, store.BPolicy b = Some p -> exists p0, @validate unit p0 = Ok p /\ compileOnce p0 = false.

Lemma pdenies_granted vr b action resource :
  policy_validated b ->
  pdenies (newPerObjectAuthorizer vr b action) resource = false <-> granted vr b action resource.
Proof.
  intros Hv. unfold newPerObjectAuthorizer. case_bool_decide as Hu; simpl.
  2: { split; [done|]. by intros []. }
  case_bool_decide as Ht; simpl; destruct (store.BPolicy b) as [p|] eqn:Hp; unfold pdenies; simpl.
  - rewrite <- not_true_iff_false, Denies_Decide. split; [constructor; naive_solver|]. intros [_ Ho _]. by apply Ho.
  - split; [constructor; naive_solver|done].
  - destruct (Hv p Hp) as (p0 & Hval & _).
    pose proof (Allows_Decide p (principal vr) action resource (requestContext vr) (validate_effects _ _ Hval)) as Ha.
    unfold AllowsResource, Denies in Ha.
    assert (granted vr b action resource <-> DEffect (Decide p (principal vr) action resource (requestContext vr)) = Allow) as ->.
    { split; [intros [_ _ Hf]; naive_solver|constructor; naive_solver]. }
    rewrite Ha. destruct (AlwaysDenies _) eqn:Had; simpl.
    + rewrite (AlwaysDenies_AllowsRunes _ (runes resource) Had). naive_solver.
    + rewrite orb_false_iff, negb_false_iff. naive_solver.
  - split; [done|]. intros [_ _ Hf]. naive_solver.
Qed.

Lemma DenyingStatement_reason p pr action resource rc :
  let i := DenyingStatement (DenyEvaluatorFor p pr action rc) (runes resource) in
  let d := Decide p pr action resource rc in
  (if 0 <=? i then denyStatementReason (Some p) pr action resource i else crossTenantReason pr action resource) =
  bucketPolicyReason (Some p) pr action resource d.
Proof.
  cbv zeta. rewrite DenyingStatement_Decide. unfold bucketPolicyReason.
  destruct (DEffect (Decide p pr action resource rc)) eqn:Hd; rewrite ?bool_decide_false by done; try done.
  rewrite bool_decide_true by done. simpl. assert (0 <= DStatement (Decide p pr action resource rc)) as Hi.
  { rewrite Decide_spec in *. unfold decide_spec in *. repeat case_match; simpl in *; try done; lia. }
  by apply Z.leb_le in Hi as ->.
Qed.

(** The shortcut of a cross-tenant request no Allow statement covers on any
    resource: the Deny statements are not scanned. *)
Definition nothing_allowed (vr : verifiedRequest) (b : store.Bucket) (action : string) : bool :=
  negb (bool_decide (store.Tenant b = Tenant vr)) &&
  match store.BPolicy b with
  | Some p => AlwaysDenies (AllowEvaluatorFor p (principal vr) action (requestContext vr))
  | None => false
  end.

Lemma denyReason_refusal vr b action resource :
  let a := newPerObjectAuthorizer vr b action in
  denyReason a resource =
  if bool_decide (DEffect (UserDecide (vrPolicy vr) action) = Allow) && nothing_allowed vr b action
  then crossTenantReason (principal vr) action resource
  else refusal vr b action resource.
Proof.
  unfold newPerObjectAuthorizer, refusal, nothing_allowed. cbv zeta.
  destruct (bool_decide (DEffect (UserDecide (vrPolicy vr) action) = Allow)) eqn:Hu; simpl;
    [|unfold denyReason; simpl; by rewrite Hu].
  destruct (bool_decide (store.Tenant b = Tenant vr)) eqn:Ht; simpl; destruct (store.BPolicy b) as [p|] eqn:Hp;
    unfold denyReason; simpl; rewrite ?Hu; simpl; try done.
  - apply DenyingStatement_reason.
  - destruct (AlwaysDenies _) eqn:Had; simpl; rewrite Hu; simpl; [done|apply DenyingStatement_reason].
Qed.

(** ** Summaries of refusals *)

Definition denial_id (d : Denial) : string * Z := (Layer (Reason d), RStatement (Reason d)).
Definition reason_id (r : DenyReason) : string * Z := (Layer r, RStatement r).

(** The entry of a (layer, statement) pair. *)
Definition entry (i : string * Z) (ds : list Denial) : option Denial := head (filter (fun d => denial_id d = i) ds).

Lemma entry_cons i d ds : entry i (d :: ds) = if decide (denial_id d = i) then Some d else entry i ds.
Proof. unfold entry. rewrite filter_cons. by case_decide. Qed.

Lemma same_id d r :
  bool_decide (Layer (Reason d) = Layer r) && (RStatement (Reason d) =? RStatement r) = bool_decide (denial_id d = reason_id r).
Proof.
  unfold denial_id, reason_id. case_bool_decide as Hl; simpl; [|rewrite bool_decide_false; congruence].
  destruct (Z.eqb_spec (RStatement (Reason d)) (RStatement r)); symmetry;
    [apply bool_decide_eq_true|apply bool_decide_eq_false]; congruence.
Qed.

Lemma entry_addDenial i ds r :
  entry i (addDenial ds r) =
  if decide (i = reason_id r)
  then Some match entry i ds with
            | Some d => {| Reason := Reason d; Keys := Keys d + 1 |}
            | None => {| Reason := r; Keys := 1 |}
            end
  else entry i ds.
Proof.
  induction ds as [|d ds IH]; simpl.
  { rewrite entry_cons. unfold denial_id. simpl. fold (reason_id r). repeat case_decide; congruence. }
  rewrite same_id. case_bool_decide as Hd; rewrite !entry_cons.
  - unfold denial_id at 1. simpl. fold (denial_id d). repeat case_decide; congruence.
  - rewrite IH. repeat case_decide; congruence.
Qed.

Lemma ids_addDenial i ds r : i ∈ (denial_id <$> addDenial ds r) <-> i = reason_id r \/ i ∈ (denial_id <$> ds).
Proof.
  induction ds as [|d ds IH]; simpl; [set_solver|]. rewrite same_id. case_bool_decide as Hd; simpl.
  - rewrite !elem_of_cons. unfold denial_id at 1. simpl. fold (denial_id d). naive_solver.
  - rewrite !elem_of_cons, IH. naive_solver.
Qed.

Lemma NoDup_addDenial ds r : NoDup (denial_id <$> ds) -> NoDup (denial_id <$> addDenial ds r).
Proof.
  induction ds as [|d ds IH]; simpl; [intros; apply NoDup_singleton|].
  intros [Hn Hd]%NoDup_cons. rewrite same_id. case_bool_decide as Heq; simpl; apply NoDup_cons; [done|].
  split; [|by apply IH]. rewrite ids_addDenial. intros [|]; done.
Qed.

(** The refusals of one pair, in the order they were met. *)
Definition of_id (i : string * Z) (rs : list DenyReason) : list DenyReason := filter (fun r => reason_id r = i) rs.

Lemma of_id_snoc i rs r : of_id i (rs ++ [r]) = of_id i rs ++ (if decide (i = reason_id r) then [r] else []).
Proof. unfold of_id. rewrite filter_app, filter_cons, filter_nil. repeat case_decide; congruence. Qed.

Lemma denials_entry rs i :
  entry i (fold_left addDenial rs []) =
  (fun r => {| Reason := r; Keys := Z.of_nat (length (of_id i rs)) |}) <$> head (of_id i rs).
Proof.
  induction rs as [|r rs IH] using rev_ind; [done|]. rewrite fold_left_app. simpl. rewrite entry_addDenial, IH.
  rewrite of_id_snoc. case_decide as Hi.
  - rewrite length_app. destruct (of_id i rs) as [|x l]; simpl; [done|]. do 2 f_equal. lia.
  - by rewrite app_nil_r.
Qed.

Lemma denials_NoDup rs : NoDup (denial_id <$> fold_left addDenial rs []).
Proof.
  induction rs as [|r rs IH] using rev_ind; [apply NoDup_nil_2|]. rewrite fold_left_app. by apply NoDup_addDenial.
Qed.


(** ** Bucket resolution *)

(** Who may see a bucket at all: its own tenant's users, and those its policy
    names in an Allow. *)
Definition visible (vr : verifiedRequest) (b : store.Bucket) : Prop :=
  store.Tenant b = Tenant vr \/ exists p, store.BPolicy b = Some p /\ MentionsPrincipal p (principal vr) = true.

(** The bucket [name] exists nowhere in [s], or is invisible to [vr]. *)
Definition hidden (s : store.Store) (vr : verifiedRequest) (name : string) : Prop :=
  (exists e, store.GetBucketByName s name = Err e /\ errors.Is e store.ErrNotFound = true) \/
  (exists b, store.GetBucketByName s name = Ok b /\ ~ visible vr b).

Section resolution.
Context (s : store.Store) `{!store.StoreLaws s}.

Lemma resolveBucket_ok vr name b :
  resolveBucket s vr name = Ok b -> store.Name b = name /\ visible vr b.
Proof.
  unfold resolveBucket. destruct (store.GetBucket s (Tenant vr) name) as [b'|e] eqn:Hg.
  { intros [= ->]. destruct (store.get_bucket_own _ _ _ Hg). split; [done|by left]. }
  destruct (errors.Is e store.ErrNotFound); [|done]. simpl.
  destruct (store.GetBucketByName s name) as [b'|e'] eqn:Hn; [|by destruct (errors.Is e' _)].
  apply store.get_by_name in Hn. destruct (store.BPolicy b') as [p|] eqn:Hp; [|done].
  destruct (MentionsPrincipal p (principal vr)) eqn:Hm; [|done].
  intros [= ->]. split; [done|]. right. eauto.
Qed.

Lemma resolveBucket_hidden vr name :
  hidden s vr name -> exists e, resolveBucket s vr name = Err e /\ client_view e = client_view s3err.AccessDenied.
Proof.
  unfold resolveBucket. intros [(e & Hn & He)|(b & Hn & Hv)].
  - destruct (store.get_bucket_absent (Tenant vr) _ _ Hn He) as (e' & -> & ->). simpl. rewrite Hn, He. eexists; split; [reflexivity|done].
  - destruct (decide (store.Tenant b = Tenant vr)) as [|Hne]; [by destruct Hv; left|].
    destruct (store.get_bucket_foreign _ _ _ Hn Hne) as (e' & -> & ->). simpl. rewrite Hn.
    destruct (store.BPolicy b) as [p|] eqn:Hp; [|eexists; split; [reflexivity|done]].
    destruct (MentionsPrincipal p (principal vr)) eqn:Hm; [|eexists; split; [reflexivity|done]].
    destruct Hv. right. eauto.
Qed.

Lemma resolveBucket_visible vr name b :
  store.GetBucketByName s name = Ok b -> visible vr b -> resolveBucket s vr name = Ok b.
Proof.
  intros Hn Hv. unfold resolveBucket. destruct (decide (store.Tenant b = Tenant vr)) as [Heq|Hne].
  { by rewrite <- Heq, (store.get_bucket_complete _ _ Hn). }
  destruct Hv as [?|(p & Hp & Hm)]; [done|].
  destruct (store.get_bucket_foreign _ _ _ Hn Hne) as (e & -> & ->). simpl. by rewrite Hn, Hp, Hm.
Qed.

End resolution.

Lemma granted_visible vr b action resource :
  policy_validated b -> granted vr b action resource -> visible vr b.
Proof.
  intros Hv [_ _ Hf]. destruct (decide (store.Tenant b = Tenant vr)) as [|Hne]; [by left|].
  destruct (Hf Hne) as (p & Hp & Hd). destruct (Hv p Hp) as (p0 & Hval & Hc). right. exists p. split; [done|].
  by eapply (grants_mentioned p0).
Qed.

(** ** Identity *)

(** Whatever path accepts a request, the credential came from the lookup for
    the id the signature names and the token the request presents. *)
Lemma Verify_lookup v now r lookup vr r' v' :
  verifier.Verify v now r lookup = (Ok (vr, r'), v') ->
  exists cred, lookup (verifier.AccessKeyID vr) (presented_token r) = Ok cred.
Proof.
  unfold verifier.Verify, presented_token. intros H.
  destruct (negb (bool_decide (url.Get (url.Query (http.URL r)) "X-Amz-Signature" = ""))) eqn:Hq; simpl in H.
  - destruct (negb _) in H; [done|]. unfold verifier.verifyPresignedRequest in H. cbv zeta in H. ok_path H.
    match goal with Hlk : verifier.lookupSecret _ _ _ = Ok _ |- _ => apply lookupSecret_ok in Hlk as [Hlk _] end.
    injection H as <- <- <-. simpl. eauto.
  - destruct (negb _) in H; [|done]. unfold verifier.verifyHeaderRequest in H. cbv zeta in H. ok_path H.
    match goal with Hlk : verifier.lookupSecret _ _ _ = Ok _ |- _ => apply lookupSecret_ok in Hlk as [Hlk _] end.
    injection H as <- <- <-. simpl. eauto.
Qed.

Lemma secretLookup_ok s akid token cred :
  secretLookup s akid token = Ok cred -> exists key, store.GetKey s akid token = Ok key /\
    verifier.SecretAccessKey cred = store.SecretAccessKey key /\ verifier.SessionToken cred = store.SessionToken key /\
    verifier.SecretVersion cred = store.SecretVersion key /\
    (verifier.SigningKey cred = None <-> store.SigningKey key = None).
Proof.
  unfold secretLookup. destruct (store.GetKey s akid token) as [key|e]; [|by repeat case_match].
  intros [= <-]. exists key. simpl. repeat split; [by destruct (store.SigningKey key)|by intros ->].
Qed.

(** ** Theorems *)

(** C5. [authorize] grants a request exactly when the identity policy allows
    the action and then, for a bucket of the requester's own tenant, the bucket
    policy does not deny it, or, for another tenant's bucket, the bucket policy
    allows it: without a policy, or without a matching Allow, nothing of another
    tenant is reachable.  A refusal shows the client AccessDenied and nothing
    else, and its cause names the requester, the action and the layer. *)
Theorem authorize_exact vr b action resource :
  match authorize vr b action resource with
  | Ok _ => granted vr b action resource
  | Err e =>
    ~ granted vr b action resource /\ client_view e = client_view s3err.AccessDenied /\
    exists r, s3err.Unwrap e = Some (reason_error r) /\ RPrincipal r = principal vr /\ RAction r = action /\
      (Layer r = LayerUserPolicy \/
       Layer r = LayerBucketPolicy /\ RResource r = resource \/
       Layer r = LayerCrossTenant /\ RResource r = resource /\ store.Tenant b <> Tenant vr)
  end.
Proof.
  destruct (authorize_cases vr b action resource) as [[-> Hg]|[-> Hg]]; [done|].
  split; [done|]. split; [done|]. exists (refusal vr b action resource). split; [done|]. unfold refusal.
  case_bool_decide as Hu; [|repeat split; auto]. unfold bucketPolicyReason. case_bool_decide as Hd; simpl; [repeat split; auto|].
  repeat split. right; right. repeat split. intros Ht. apply Hg. constructor; [done| |done].
  intros _ p Hp. by rewrite Hp in Hd.
Qed.

(** The reasons differ in one case: another tenant's policy has no Allow for
    the requester and action on any key, and a Deny statement of it matches the
    key.  [authorize] then names that statement, the per-object authorizer the
    cross-tenant baseline. *)
Definition baseline_instead (vr : verifiedRequest) (b : store.Bucket) (action resource : string) (r : DenyReason) : Prop :=
  store.Tenant b <> Tenant vr /\ r = crossTenantReason (principal vr) action resource /\
  exists p, store.BPolicy b = Some p /\ AlwaysDenies (AllowEvaluatorFor p (principal vr) action (requestContext vr)) = true /\
    let d := Decide p (principal vr) action resource (requestContext vr) in
    DEffect d = Deny /\ authorize vr b action resource = Err (denied (denyStatementReason (Some p) (principal vr) action resource (DStatement d))).

(** C18. The per-object authorizer of DeleteObjects agrees with [authorize] on
    every key of a bucket whose policy was validated (as the policies of a
    store are), and its shortcut answers only when no key can be denied.  The
    reason it gives for a refused key is the cause [authorize] gives, but for
    one case: when another tenant's policy has no Allow for the requester on
    any key and a Deny statement matches this one, [authorize] names the
    statement and the per-object authorizer the cross-tenant baseline. *)
Theorem perObjectAuthorizer_exact vr b action :
  policy_validated b ->
  let a := newPerObjectAuthorizer vr b action in
  (forall resource,
    (pdenies a resource = false <-> authorize vr b action resource = Ok tt) /\
    (pdenies a resource = true ->
      authorize vr b action resource = Err (denied (denyReason a resource)) \/ baseline_instead vr b action resource (denyReason a resource))) /\
  (allowsEverything a = true -> forall resource, authorize vr b action resource = Ok tt).
Proof.
  intros Hv a.
  assert (forall resource, pdenies a resource = false <-> authorize vr b action resource = Ok tt) as Hd.
  { intros resource. subst a. rewrite (pdenies_granted _ _ _ _ Hv).
    destruct (authorize_cases vr b action resource) as [[-> Hg]|[-> Hg]]; naive_solver. }
  split.
  - intros resource. split; [apply Hd|]. intros Hp.
    destruct (authorize_cases vr b action resource) as [[Ha Hg]|[Ha Hg]]; [apply Hd in Ha; congruence|].
    subst a. rewrite Ha, denyReason_refusal. destruct (_ && nothing_allowed _ _ _) eqn:Hn; [|by left].
    apply andb_true_iff in Hn as [Hu Hn]. unfold nothing_allowed in Hn. apply andb_true_iff in Hn as [Ht Hn].
    destruct (store.BPolicy b) as [p|] eqn:Hb; [|done]. unfold refusal in *. rewrite Hu, Hb in *. unfold bucketPolicyReason in *.
    destruct (bool_decide (DEffect (Decide p (principal vr) action resource (requestContext vr)) = Deny)) eqn:He; [right|by left].
    split; [by apply negb_true_iff, bool_decide_eq_false in Ht|]. split; [done|]. exists p. split_and!; [done|done|]. split; [by apply bool_decide_eq_true in He|done].
  - unfold allowsEverything. intros H resource. bools. apply Hd. unfold pdenies.
    match goal with H1 : denyAll _ = false, H2 : requireAllow _ = false |- _ => rewrite H1, H2 end. simpl.
    by apply AlwaysAllows_Denies.
Qed.

(** C17. Bucket resolution never shows a requester a bucket of another tenant
    whose policy does not name it, and does not let names be probed: whether
    the name exists nowhere or belongs to a tenant that never mentioned the
    requester, in whatever two stores, the response written is the same. *)
Theorem resolveBucket_isolation s1 s2 vr name method path requestID :
  store.StoreLaws s1 -> store.StoreLaws s2 ->
  (forall b, resolveBucket s1 vr name = Ok b -> store.Name b = name /\ visible vr b) /\
  (hidden s1 vr name -> hidden s2 vr name ->
    exists e1 e2, resolveBucket s1 vr name = Err e1 /\ resolveBucket s2 vr name = Err e2 /\
      (s3err.RStatus (s3err.Write method path e1 requestID) = s3err.RStatus (s3err.Write method path e2 requestID)) /\
      (client_view <$> s3err.RBody (s3err.Write method path e1 requestID)) =
      (client_view <$> s3err.RBody (s3err.Write method path e2 requestID)) /\
      client_view e1 = client_view s3err.AccessDenied).
Proof.
  intros H1 H2. split; [intros b; by apply resolveBucket_ok|].
  intros Hh1 Hh2. destruct (resolveBucket_hidden s1 vr name Hh1) as (e1 & -> & He1).
  destruct (resolveBucket_hidden s2 vr name Hh2) as (e2 & -> & He2).
  exists e1, e2. destruct e1, e2. unfold client_view, s3err.Write in *. simpl in *. injection He1. injection He2. intros. subst.
  repeat split; repeat case_match; done.
Qed.

(** The visibility gate is not in the way of a grant: a bucket on which
    the policies allow the requester anything resolves for it. *)
Theorem resolveBucket_reaches_grants s vr name b action resource :
  store.StoreLaws s -> store.GetBucketByName s name = Ok b -> policy_validated b ->
  authorize vr b action resource = Ok tt -> resolveBucket s vr name = Ok b.
Proof.
  intros Hs Hn Hv Ha. apply resolveBucket_visible; [done..|]. eapply granted_visible; [done|].
  destruct (authorize_cases vr b action resource) as [[_ Hg]|[He _]]; [exact Hg|]. congruence.
Qed.

Lemma verifyRequest_inv s v now r vr r' v' :
  verifyRequest s v now r = (Ok (vr, r'), v') ->
  exists key, store.GetKey s (verifier.AccessKeyID (Verified vr)) (presented_token r) = Ok key /\
    Tenant vr = store.KTenant key /\ User vr = store.User key /\ vrPolicy vr = store.KPolicy key /\
    vrSourceIP vr = remoteIP (http.RemoteAddr r) /\
    verifier.Verify v now r (secretLookup s) = (Ok (Verified vr, r'), v').
Proof.
  unfold verifyRequest. destruct (verifier.Verify v now r (secretLookup s)) as [[[ver r0]|e] v0] eqn:Hv; [|done].
  destruct (store.GetKey s _ _) as [key|e] eqn:Hk; [|done]. intros [= <- <- <-]. simpl. eauto 10.
Qed.

(** The identity a verified request acts under is that of the key the
    store returns for the access key id in the signature and the token
    presented: its tenant, user and policy, with the credential that verified
    the signature being this key's. *)
Theorem verifyRequest_identity s v now r vr r' v' :
  verifyRequest s v now r = (Ok (vr, r'), v') ->
  exists key, store.GetKey s (verifier.AccessKeyID (Verified vr)) (presented_token r) = Ok key /\
    Tenant vr = store.KTenant key /\ User vr = store.User key /\ vrPolicy vr = store.KPolicy key /\
    vrSourceIP vr = remoteIP (http.RemoteAddr r) /\
    verifier.Verify v now r (secretLookup s) = (Ok (Verified vr, r'), v').
Proof. apply verifyRequest_inv. Qed.

(** The store's answer is there whenever the signature verified. *)
Lemma verifyRequest_no_second_failure s v now r e v' :
  verifyRequest s v now r = (Err e, v') -> verifier.Verify v now r (secretLookup s) = (Err e, v').
Proof.
  unfold verifyRequest. destruct (verifier.Verify v now r (secretLookup s)) as [[[ver r0]|e'] v0] eqn:Hv; [|congruence].
  apply Verify_lookup in Hv as (cred & Hc). apply secretLookup_ok in Hc as (key & -> & _). done.
Qed.

(** The summary of per-key refusals has one entry per deciding layer and
    statement, no two for the same pair; its count is the number of keys that
    pair refused and its reason the first of them. *)
Theorem addDenial_summary rs :
  let ds := fold_left addDenial rs [] in
  NoDup (denial_id <$> ds) /\
  forall i, entry i ds = (fun r => {| Reason := r; Keys := Z.of_nat (length (of_id i rs)) |}) <$> head (of_id i rs).
Proof. split; [apply denials_NoDup|intros i; apply denials_entry]. Qed.

(** ** A store on which the theorems apply *)

Definition demo_backend : store.Backend :=
  {| store.Endpoint := "http://127.0.0.1:9000"; store.Region := "us-east-1"; store.BBucket := "photos"; store.BAccessKeyID := "k";
     store.BSecretAccessKey := "s"; store.UsePathStyle := Some true |}.

Definition demo_bucket : store.Bucket :=
  {| store.Tenant := "tenant-a"; store.Name := "photos"; store.BBackend := demo_backend; store.CreatedAt := 0;
     store.PolicyText := ""; store.BPolicy := Some (validated demo_policy); store.CORS := []; store.BMetadata := None |}.

Definition demo_store_key : store.Key :=
  {| store.AccessKeyID := "AKID"; store.SecretAccessKey := verifier.SecretAccessKey demo_cred; store.SigningKey := None;
     store.SecretVersion := ""; store.KTenant := "tenant-b"; store.User := "bob"; store.SessionToken := "";
     store.KPolicy := None; store.KMetadata := None |}.

Definition demo_store : store.Store :=
  {| store.GetKey akid _ := if bool_decide (akid = "AKID") then Ok demo_store_key else Err (Sentinel store.ErrNotFound);
     store.GetBucket t n := if bool_decide (t = "tenant-a") && bool_decide (n = "photos") then Ok demo_bucket else Err (Sentinel store.ErrNotFound);
     store.GetBucketByName n := if bool_decide (n = "photos") then Ok demo_bucket else Err (Sentinel store.ErrNotFound);
     store.ListBuckets t := Ok [] |}.

#[local] Instance demo_store_laws : store.StoreLaws demo_store.
Proof.
  constructor; simpl; intros.
  - case_bool_decide; simpl in *; [|done]. case_bool_decide; simpl in *; [|done]. by simplify_eq.
  - case_bool_decide; by simplify_eq.
  - case_bool_decide; by simplify_eq.
  - case_bool_decide; simplify_eq. rewrite bool_decide_false by (simpl in *; congruence). simpl. eauto.
  - case_bool_decide; simplify_eq. rewrite andb_false_r. eauto.
Qed.

Definition empty_store : store.Store :=
  {| store.GetKey _ _ := Err (Sentinel store.ErrNotFound); store.GetBucket _ _ := Err (Sentinel store.ErrNotFound);
     store.GetBucketByName _ := Err (Sentinel store.ErrNotFound); store.ListBuckets _ := Err (Sentinel store.ErrNotFound) |}.

#[local] Instance empty_store_laws : store.StoreLaws empty_store.
Proof. constructor; simpl; intros; simplify_eq; eauto. Qed.

Definition demo_vr (tenant user : string) : verifiedRequest :=
  {| Verified := dummy_verified; Tenant := tenant; User := user; vrPolicy := None; KeyMetadata := None;
     vrSourceIP := SourceIP office |}.

Lemma demo_policy_validated : policy_validated demo_bucket.
Proof. intros p [= <-]. exists demo_policy. split; [vm_refl|reflexivity]. Qed.

Lemma perObjectAuthorizer_exact_witness :
  pdenies (newPerObjectAuthorizer (demo_vr "tenant-b" "bob") demo_bucket "s3:GetObject") "photos/secret/x" = true /\
  (pdenies (newPerObjectAuthorizer (demo_vr "tenant-b" "bob") demo_bucket "s3:GetObject") "photos/a" = false <->
   authorize (demo_vr "tenant-b" "bob") demo_bucket "s3:GetObject" "photos/a" = Ok tt).
Proof.
  split; [vm_refl|].
  exact (proj1 (proj1 (perObjectAuthorizer_exact (demo_vr "tenant-b" "bob") demo_bucket "s3:GetObject" demo_policy_validated) "photos/a")).
Defined.

Lemma resolveBucket_isolation_witness :
  exists e1 e2, resolveBucket demo_store (demo_vr "tenant-d" "dan") "photos" = Err e1 /\
    resolveBucket empty_store (demo_vr "tenant-d" "dan") "photos" = Err e2 /\ e1 <> e2 /\
    client_view e1 = client_view s3err.AccessDenied.
Proof.
  destruct (proj2 (resolveBucket_isolation demo_store empty_store (demo_vr "tenant-d" "dan") "photos" "GET" "/photos" "id" _ _))
    as (e1 & e2 & H1 & H2 & _ & _ & H3).
  - right. exists demo_bucket. split; [reflexivity|]. intros [H|(p & Hp & Hm)]; [discriminate H|].
    injection Hp as <-. vm_compute in Hm. discriminate.
  - left. eexists. split; reflexivity.
  - exists e1, e2. split; [exact H1|]. split; [exact H2|]. split; [|exact H3].
    vm_compute in H1, H2. injection H1 as <-. injection H2 as <-. discriminate.
Defined.

Lemma resolveBucket_reaches_grants_witness :
  authorize (demo_vr "tenant-b" "bob") demo_bucket "s3:GetObject" "photos/a" = Ok tt /\
  resolveBucket demo_store (demo_vr "tenant-b" "bob") "photos" = Ok demo_bucket.
Proof.
  assert (authorize (demo_vr "tenant-b" "bob") demo_bucket "s3:GetObject" "photos/a" = Ok tt) as H by vm_refl.
  split; [exact H|].
  exact (resolveBucket_reaches_grants demo_store _ "photos" demo_bucket _ _ _ eq_refl demo_policy_validated H).
Defined.

#[local] Notation demo_verify_out := (verifyRequest demo_store demo_verifier demo_now demo_signed).

Lemma verifyRequest_identity_witness :
  exists vr r', demo_verify_out.1 = Ok (vr, r') /\ Tenant vr = "tenant-b" /\
    store.GetKey demo_store (verifier.AccessKeyID (Verified vr)) (presented_token demo_signed) = Ok demo_store_key.
Proof.
  assert (is_ok demo_verify_out.1 = true) as H by vm_refl.
  destruct demo_verify_out as [[[vr r']|e] v'] eqn:E; [|discriminate H].
  destruct (verifyRequest_identity demo_store demo_verifier demo_now demo_signed vr r' v' E) as (key & Hk & Ht & _).
  exists vr, r'. split; [reflexivity|]. simpl in Hk. case_bool_decide; [|discriminate Hk]. injection Hk as <-.
  split; [exact Ht|]. simpl. by rewrite bool_decide_true by assumption.
Defined.
