(* ===== verification/Breaker.v ===== *)
(** * Circuit breaker (src/s3gw/breaker.go)

    [ConsecutiveFailures] as a state machine whose events are the locked
    sections of [Allow] and [Report] with the clock values they read, the
    classification of an attempt's outcome, and the middleware around one
    attempt. *)

From S2P Require Import Prelude Unicode GoStrings GoNet GoError GoTime Signer Policy Cors Store.

Open Scope Z_scope.

Module breaker.

(** ** Attempts *)

(** How a backend is named to the observer: no path, query or userinfo. *)
Definition backendName (b : store.Backend) : string :=
  if bool_decide (store.Endpoint b = "") then "aws:" +:+ store.Region b
  else match url.Parse (store.Endpoint b) with
  | Some u => if bool_decide (url.Host u = "") then "backend:" +:+ store.Region b
              else url.Scheme u +:+ "://" +:+ url.Host u
  | None => "backend:" +:+ store.Region b
  end.

(** The result is (ok, report); [raw] is the status of the HTTP response the
    attempt carries, if it carries one. *)
Definition classifyAttempt (raw : option Z) (err : option goerror) : bool * bool :=
  let is_ t := match err with Some e => errors.Is e t | None => false end in
  if is_ context.Canceled then (false, false)
  else if is_ context.DeadlineExceeded then (false, true)
  else if match raw with Some s => 100 <=? s | None => false end
  then (match raw with Some s => s <? 500 | None => false end, true)
  else match err with
  | None => (true, true)
  | Some e =>
    match s3err.AsResponse e with
    | Some s => if 100 <=? s then (s <? 500, true) else (false, true)
    | None => (false, true)
    end
  end.

(** ** ConsecutiveFailures *)

Inductive breakerState := breakerClosed | breakerOpen | breakerHalfOpen.

#[export] Instance breakerState_eq_dec : EqDecision breakerState.
Proof. solve_decision. Defined.

Record ConsecutiveFailures := {
  n : Z;
  cooldown : Z;
  state : breakerState;
  failures : Z;
  since : Z;
  lastProbe : Z }.

Definition State (b : ConsecutiveFailures) : string :=
  match state b with breakerOpen => "open" | breakerHalfOpen => "half-open" | breakerClosed => "closed" end.

(** The instant of Go's zero time. *)
Definition zero_time : Z := -62135596800 * time.Second.

Definition NewConsecutiveFailures (k cooldown : Z) : ConsecutiveFailures :=
  {| n := if k <? 1 then 1 else k; cooldown := cooldown; state := breakerClosed; failures := 0;
     since := zero_time; lastProbe := zero_time |}.

Definition admit_probe (b : ConsecutiveFailures) (t : Z) : ConsecutiveFailures :=
  {| n := n b; cooldown := cooldown b; state := breakerHalfOpen; failures := failures b; since := since b; lastProbe := t |}.

(** [Allow] reads the clock for the test ([t1]) and again for the probe's
    time ([t2]). *)
Definition Allow (b : ConsecutiveFailures) (t1 t2 : Z) : bool * ConsecutiveFailures :=
  match state b with
  | breakerClosed => (true, b)
  | breakerOpen => if time.Sub t1 (since b) <? cooldown b then (false, b) else (true, admit_probe b t2)
  | breakerHalfOpen => if time.Sub t1 (lastProbe b) <? cooldown b then (false, b) else (true, admit_probe b t2)
  end.

Definition open (b : ConsecutiveFailures) (t : Z) : ConsecutiveFailures :=
  {| n := n b; cooldown := cooldown b; state := breakerOpen; failures := 0; since := t; lastProbe := lastProbe b |}.

Definition Report (b : ConsecutiveFailures) (ok : bool) (t : Z) : ConsecutiveFailures :=
  let set st f := {| n := n b; cooldown := cooldown b; state := st; failures := f; since := since b; lastProbe := lastProbe b |} in
  if ok then set breakerClosed 0
  else match state b with
  | breakerClosed =>
    let b' := set breakerClosed (failures b + 1) in
    if n b <=? failures b' then open b' t else b'
  | breakerHalfOpen => open b t
  | breakerOpen => b
  end.

(** [breakerMiddleware] around one attempt: a refusal answers 503 with the
    backend's name as the cause, without sending anything; [next] is the
    transport's answer (raw status, error). *)
Definition breakerMiddleware (backend : store.Backend) (b : ConsecutiveFailures) (t1 t2 t3 : Z)
    (next : unit -> option Z * option goerror) : option Z * option goerror * ConsecutiveFailures :=
  let '(admitted, b) := Allow b t1 t2 in
  if negb admitted
  then (None, Some (s3err.as_error (s3err.WithCause (s3err.New 503 "ServiceUnavailable" [FS "Service is unable to handle request."])
                                       (BreakerOpen (backendName backend)))), b)
  else
    let '(raw, err) := next tt in
    let '(ok, report) := classifyAttempt raw err in
    (raw, err, if report then Report b ok t3 else b).

(** ** Runs *)

Inductive event :=
| EAllow (t1 t2 : Z)
| EReport (ok : bool) (t : Z).

Definition step (b : ConsecutiveFailures) (e : event) : ConsecutiveFailures :=
  match e with EAllow t1 t2 => (Allow b t1 t2).2 | EReport ok t => Report b ok t end.

Definition run (b : ConsecutiveFailures) (es : list event) : ConsecutiveFailures := fold_left step es b.

(** The failures reported since the last success. *)
Definition trailing (es : list event) : Z :=
  fold_left (fun k e => match e with EReport true _ => 0 | EReport false _ => k + 1 | EAllow _ _ => k end) es 0.

(** The clock readings of an event, and a run under a clock that does not go
    back and starts at [t]. *)
Fixpoint timed (t : Z) (es : list event) : Prop :=
  match es with
  | [] => True
  | EAllow t1 t2 :: es => t <= t1 /\ t1 <= t2 /\ timed t2 es
  | EReport _ t1 :: es => t <= t1 /\ timed t1 es
  end.

Fixpoint end_time (t : Z) (es : list event) : Z :=
  match es with
  | [] => t
  | EAllow _ t2 :: es => end_time t2 es
  | EReport _ t1 :: es => end_time t1 es
  end.

(** How many attempts a run admits. *)
Fixpoint admissions (b : ConsecutiveFailures) (es : list event) : Z :=
  match es with
  | [] => 0
  | EAllow t1 t2 :: es =>
    (if (Allow b t1 t2).1 then 1 else 0) + admissions (Allow b t1 t2).2 es
  | EReport ok t :: es => admissions (Report b ok t) es
  end.

Definition no_success (es : list event) : Prop := Forall (fun e => match e with EReport true _ => False | _ => True end) es.

(** ** Invariants *)

Lemma step_n b e : n (step b e) = n b /\ cooldown (step b e) = cooldown b.
Proof. destruct e as [t1 t2|[] t]; unfold step, Allow, Report; destruct (state b); simpl; repeat case_match; done. Qed.

Lemma run_n es b : n (run b es) = n b /\ cooldown (run b es) = cooldown b.
Proof.
  revert b; induction es as [|e es IH]; intros b; [done|]. change (run b (e :: es)) with (run (step b e) es).
  destruct (IH (step b e)) as [-> ->]. apply step_n.
Qed.

Lemma Allow_shape b t1 t2 :
  (Allow b t1 t2).2 = b \/ (state b <> breakerClosed /\ (Allow b t1 t2).2 = admit_probe b t2 /\ (Allow b t1 t2).1 = true).
Proof. unfold Allow. destruct (state b) eqn:?; simpl; repeat case_match; simpl; auto; right; repeat split; congruence. Qed.

(** The link between the state and the history of reports: closed exactly
    below [n] consecutive failures, and then the counter is that number. *)
Definition tracks (b : ConsecutiveFailures) (k : Z) : Prop :=
  0 <= k /\ (state b = breakerClosed -> failures b = k /\ k < n b) /\ (state b <> breakerClosed -> n b <= k).

Definition count (k : Z) (e : event) : Z :=
  match e with EReport true _ => 0 | EReport false _ => k + 1 | EAllow _ _ => k end.

Lemma step_tracks b k e : 1 <= n b -> tracks b k -> tracks (step b e) (count k e).
Proof.
  intros Hn (Hk & Hc & Ho). destruct e as [t1 t2|ok t]; simpl.
  - destruct (Allow_shape b t1 t2) as [->|(Hs & -> & _)]; [by split|].
    unfold tracks, admit_probe; simpl. split; [done|]. split; [done|]. intros _. by apply Ho.
  - unfold Report, tracks. destruct ok; simpl; [split; [lia|]; split; [lia|done]|].
    destruct (state b) eqn:Hs; simpl.
    + destruct (Hc eq_refl) as [-> Hlt]. destruct (Z.leb_spec (n b) (k + 1)); simpl; split; try split; intros; try done; lia.
    + rewrite Hs. specialize (Ho ltac:(done)). split; [lia|]. split; [done|lia].
    + specialize (Ho ltac:(done)). split; [lia|]. split; [done|lia].
Qed.

Lemma run_tracks es b k : 1 <= n b -> tracks b k -> tracks (run b es) (fold_left count es k).
Proof.
  revert b k; induction es as [|e es IH]; intros b k Hn Ht; simpl; [done|].
  apply IH; [by rewrite (proj1 (step_n b e))|by apply step_tracks].
Qed.

(** ** The rate of probes *)

(** The instant after which the next probe is due, while not closed. *)
Definition mark (b : ConsecutiveFailures) : Z := match state b with breakerHalfOpen => lastProbe b | _ => since b end.

Lemma Sub_ltb a b c : int64_min < c <= int64_max -> (time.Sub a b <? c) = (a - b <? c).
Proof.
  unfold time.Sub, sat64, int64_min, int64_max. intros H. destruct (Z.ltb_spec (a - b) c); apply Z.ltb_lt || apply Z.ltb_ge; lia.
Qed.

Section rate.
Context (c : Z) (Hc : 0 < c <= int64_max).

Lemma Allow_open b t1 t2 :
  state b <> breakerClosed -> cooldown b = c ->
  Allow b t1 t2 = if t1 - mark b <? c then (false, b) else (true, admit_probe b t2).
Proof.
  intros Hs Hcd. unfold Allow, mark. assert (int64_min < c) by (unfold int64_min; lia).
  destruct (state b) eqn:E; [done| |]; rewrite Hcd, Sub_ltb by lia; done.
Qed.

Lemma admissions_bound es : forall b t,
  state b <> breakerClosed -> cooldown b = c -> mark b <= t -> timed t es -> no_success es ->
  admissions b es * c <= end_time t es - mark b.
Proof.
  induction es as [|e es IH]; intros b t Hs Hcd Hm Ht Hn; simpl; [lia|].
  apply Forall_cons in Hn as [He Hn]. destruct e as [t1 t2|ok t1]; simpl in *.
  - destruct Ht as (? & ? & Ht). rewrite (Allow_open b t1 t2 Hs Hcd).
    destruct (Z.ltb_spec (t1 - mark b) c) as [Hlt|Hge]; simpl.
    + pose proof (IH b t2 Hs Hcd ltac:(lia) Ht Hn). lia.
    + pose proof (IH (admit_probe b t2) t2 ltac:(done) Hcd ltac:(simpl; unfold mark; simpl; lia) Ht Hn) as Hb.
      unfold mark at 1 in Hb. simpl in Hb. lia.
  - destruct Ht as (? & Ht). destruct ok; [done|].
    assert (state (Report b false t1) = breakerOpen /\ cooldown (Report b false t1) = c /\ mark b <= mark (Report b false t1) <= t1)
      as (Hs' & Hcd' & Hm').
    { unfold Report, mark. destruct (state b) eqn:E; [done| |]; simpl; rewrite ?E; simpl.
      - unfold mark in Hm. rewrite E in Hm. repeat split; try done; lia.
      - unfold mark in Hm. rewrite E in Hm. repeat split; try done; lia. }
    pose proof (IH (Report b false t1) t1 ltac:(congruence) Hcd' ltac:(lia) Ht Hn). lia.
Qed.

End rate.

(** ** Theorems *)

(** C36. In every run of the breaker, attempts and reports interleaved in any
    way and whatever the clock says, the breaker is closed exactly while fewer
    than [n] failures have been reported since the last success (or the start),
    and a closed breaker admits every attempt. *)
Theorem breaker_closed_exactly k c es :
  let b := run (NewConsecutiveFailures k c) es in
  (state b = breakerClosed <-> trailing es < Z.max 1 k) /\
  (state b = breakerClosed -> forall t1 t2, Allow b t1 t2 = (true, b)).
Proof.
  intros b. assert (Z.max 1 k = n (NewConsecutiveFailures k c)) as Hn by (simpl; destruct (Z.ltb_spec k 1); lia).
  split; [|unfold Allow; by intros ->].
  assert (tracks b (trailing es)) as (_ & Hc & Ho).
  { apply run_tracks; [lia|]. repeat split; simpl; try done; destruct (Z.ltb_spec k 1); lia. }
  rewrite Hn, <- (proj1 (run_n es (NewConsecutiveFailures k c))). fold b. split; [intros Hs; by apply Hc|].
  intros Hlt. destruct (decide (state b = breakerClosed)) as [|Hs]; [done|]. apply Ho in Hs. lia.
Qed.

(** Once open and until a success is reported, the breaker admits at most
    one attempt per cooldown: over any run under a clock that does not go back,
    the attempts admitted times the cooldown fit in the time elapsed since it
    opened. *)
Theorem breaker_probe_rate b c t es :
  0 < c <= int64_max -> state b = breakerOpen -> cooldown b = c -> since b <= t -> timed t es -> no_success es ->
  admissions b es * c <= end_time t es - since b.
Proof.
  intros Hc Hs Hcd Ht Htm Hn. assert (mark b = since b) as Hm by (unfold mark; by rewrite Hs).
  rewrite <- Hm in *. apply (admissions_bound c Hc); try done. congruence.
Qed.

(** C37. The breaker never wedges: whatever happened, an attempt a cooldown
    after the opening or the last probe is admitted, and its success closes the
    breaker. *)
Theorem breaker_recovers k c es t1 t2 t3 :
  0 < c <= int64_max ->
  let b := run (NewConsecutiveFailures k c) es in
  mark b + c <= t1 ->
  exists b', Allow b t1 t2 = (true, b') /\ state (Report b' true t3) = breakerClosed /\ failures (Report b' true t3) = 0.
Proof.
  intros Hc b Ht. destruct (decide (state b = breakerClosed)) as [Hs|Hs].
  - unfold Allow. rewrite Hs. eexists; repeat split.
  - rewrite (Allow_open c Hc b t1 t2 Hs) by apply (run_n es (NewConsecutiveFailures k c)).
    destruct (Z.ltb_spec (t1 - mark b) c); [lia|]. eexists; repeat split.
Qed.

(** What the breaker learns from an attempt: nothing when the client went
    away; otherwise a success exactly when the backend answered below 500 (or
    nothing failed), so a 404 never opens it and a timeout always counts. *)
Theorem classifyAttempt_sound raw err :
  let '(ok, report) := classifyAttempt raw err in
  (report = false <-> exists e, err = Some e /\ errors.Is e context.Canceled = true) /\
  (ok = true -> report = true /\ (forall s, raw = Some s -> 100 <= s -> s < 500) /\
     (forall e, err = Some e -> errors.Is e context.DeadlineExceeded = false)) /\
  (forall s, raw = Some s -> 100 <= s < 500 -> report = true ->
     (forall e, err = Some e -> errors.Is e context.DeadlineExceeded = false) -> ok = true).
Proof.
  unfold classifyAttempt.
  destruct err as [e|]; [destruct (errors.Is e context.Canceled) eqn:Hc; [|destruct (errors.Is e context.DeadlineExceeded) eqn:Hd]|].
  - repeat split; try done; eauto.
  - repeat split; try done; [naive_solver|]. intros s _ _ _ H. specialize (H e eq_refl). congruence.
  - destruct raw as [s|]; [destruct (Z.leb_spec 100 s)|]; [|destruct (s3err.AsResponse e) as [s'|]; [destruct (Z.leb_spec 100 s')|]..];
      repeat split; intros; bools; simplify_eq; try done; try lia; try (by apply Z.ltb_lt; lia); naive_solver.
  - destruct raw as [s|]; [destruct (Z.leb_spec 100 s)|];
      repeat split; intros; bools; simplify_eq; try done; try lia; try (by apply Z.ltb_lt; lia); naive_solver.
Qed.

(** ** Witnesses *)

Definition demo_run : list event := [EReport false 10; EReport false 20].
Definition demo_open : ConsecutiveFailures := run (NewConsecutiveFailures 2 100) demo_run.

Lemma breaker_probe_rate_witness :
  state demo_open = breakerOpen /\
  admissions demo_open [EAllow 50 50; EAllow 120 121; EAllow 150 150; EAllow 221 222] * 100 <= 222 - 20.
Proof.
  split; [reflexivity|].
  refine (breaker_probe_rate demo_open 100 20 [EAllow 50 50; EAllow 120 121; EAllow 150 150; EAllow 221 222]
    ltac:(split; [done|by vm_compute]) eq_refl eq_refl ltac:(by vm_compute) ltac:(repeat split; by vm_compute) _).
  repeat constructor.
Defined.

Lemma breaker_recovers_witness :
  exists b', Allow demo_open 120 121 = (true, b') /\ state (Report b' true 130) = breakerClosed /\ failures (Report b' true 130) = 0.
Proof. apply (breaker_recovers 2 100 demo_run 120 121 130); [split; [done|by vm_compute]|by vm_compute]. Defined.

End breaker.
