(* ===== verification/Clients.v ===== *)
(** * Backend clients (src/s3gw/gateway.go, src/s3gw/gateway_api.go,
      src/s3gw/backend.go)

    The client of a backend definition, the cache it is kept in, and requests
    racing for it.  The LRU the cache is built on is a class with the behaviour
    its documentation promises; a client is the options it was built with and
    an identity, its connection pool. *)

From S2P Require Import Prelude Unicode GoStrings GoNet GoError Policy Cors Store Breaker.
From stdpp Require Import relations.

Open Scope Z_scope.

Module clients.

(** ** Keys *)

Record clientCacheKey := { endpoint : string; region : string; accessKeyID : string; secret : string; usePathStyle : bool }.

#[export] Instance clientCacheKey_eq_dec : EqDecision clientCacheKey.
Proof. solve_decision. Defined.

Definition newClientCacheKey (b : store.Backend) : clientCacheKey :=
  {| endpoint := store.Endpoint b; region := store.Region b; accessKeyID := store.BAccessKeyID b; secret := store.BSecretAccessKey b;
     usePathStyle := default false (store.UsePathStyle b) |}.

(** ** Building a client *)

(** What is inserted into the SDK's middleware stack. *)
Inductive apiOption := SwapComputePayloadSHA256ForUnsignedPayload | MergeRepeatedHeaders | BreakerMiddleware (backend : string).

(** [s3.Options] as far as the gateway sets it; without static credentials the
    default chain is used, without an endpoint the SDK resolves one. *)
Record Options := {
  Region : string; Credentials : option (string * string); BaseEndpoint : option string; UsePathStyle : bool;
  APIOptions : list apiOption; RequestChecksumCalculation : string; ResponseChecksumValidation : string }.

Definition base_options (b : store.Backend) : Options :=
  {| Region := store.Region b;
     Credentials := if bool_decide (store.BAccessKeyID b = "") then None else Some (store.BAccessKeyID b, store.BSecretAccessKey b);
     BaseEndpoint := if bool_decide (store.Endpoint b = "") then None else Some (store.Endpoint b);
     UsePathStyle := default false (store.UsePathStyle b);
     APIOptions := [SwapComputePayloadSHA256ForUnsignedPayload; MergeRepeatedHeaders];
     RequestChecksumCalculation := "when_required"; ResponseChecksumValidation := "when_required" |}.

Definition with_breaker (b : store.Backend) (guarded : bool) (o : Options) : Options :=
  if guarded
  then {| Region := Region o; Credentials := Credentials o; BaseEndpoint := BaseEndpoint o; UsePathStyle := UsePathStyle o;
          APIOptions := APIOptions o ++ [BreakerMiddleware (breaker.backendName b)];
          RequestChecksumCalculation := RequestChecksumCalculation o; ResponseChecksumValidation := ResponseChecksumValidation o |}
  else o.

(** What a service installs: options of its own, applied last, and a breaker;
    [loads] is whether [LoadDefaultConfig] succeeds. *)
Record service := {
  clientOptions : option (store.Backend -> list (Options -> Options));
  installed_breaker : option (store.Backend -> bool);
  loads : store.Backend -> option goerror }.

Definition newBackendClient (sv : service) (b : store.Backend) : result goerror Options :=
  match loads sv b with
  | Some err => Err (Wrap [FS "failed to load aws config: "] [err])
  | None =>
    let extra := match clientOptions sv with Some f => f b | None => [] end in
    let guarded := match installed_breaker sv with Some f => f b | None => false end in
    Ok (fold_left (fun o fn => fn o) extra (with_breaker b guarded (base_options b)))
  end.

(** [mergeRepeatedHeadersMiddleware] on the headers of a request. *)
Definition mergeRepeatedHeaders (h : http.Header) : http.Header :=
  map (fun kv => (kv.1, if (1 <? length kv.2)%nat then [strings.Join kv.2 ","] else kv.2)) h.

(** A client is its options and its connection pool. *)
Record client := { options : Options; pool : nat }.

(** ** The LRU *)

Class LRU (L V : Type) := {
  Get : L -> clientCacheKey -> option V * L;
  PeekOrAdd : L -> clientCacheKey -> V -> option V * nat * L;
  Add : L -> clientCacheKey -> V -> nat * L;
  Resize : L -> nat -> nat * L;
  Len : L -> nat;
  held : L -> clientCacheKey -> option V }.

(** What golang-lru documents: [Get] finds what is held and only marks it as
    used, [PeekOrAdd] leaves what is held and otherwise adds, [Add] replaces,
    and an operation that makes room drops entries (it returns how many) but
    invents none. *)
Class LRULaws {L V : Type} (H : LRU L V) : Prop := {
  get_held l k : (Get l k).1 = held l k;
  get_keeps l k k' : held (Get l k).2 k' = held l k';
  peek_held l k v v' : held l k = Some v' -> PeekOrAdd l k v = (Some v', 0%nat, l);
  peek_adds l k v : held l k = None ->
    exists n l', PeekOrAdd l k v = (None, n, l') /\ held l' k = Some v /\ forall k' v', k' <> k -> held l' k' = Some v' -> held l k' = Some v';
  add_adds l k v : held (Add l k v).2 k = Some v /\ forall k' v', k' <> k -> held (Add l k v).2 k' = Some v' -> held l k' = Some v';
  resize_drops l n k v : held (Resize l n).2 k = Some v -> held l k = Some v }.

Definition defaultClientCacheSize : nat := 128.

Section Cache.
Context {L : Type} `{LRU L client}.

(** The part of [Gateway] the clients are kept in; the counters are
    [atomic.Uint64]. *)
Record Clients := { lru : L; clientHits : Z; clientMisses : Z; clientEvictions : Z; clientCacheCap : Z }.

Definition plus64 (a : Z) (n : nat) : Z := (a + Z.of_nat n) mod 2 ^ 64.

(** [backendClient] up to the construction of a client it does not hold. *)
Definition lookup (c : Clients) (b : store.Backend) : option client * Clients :=
  let '(v, l) := Get (lru c) (newClientCacheKey b) in
  match v with
  | Some _ => (v, {| lru := l; clientHits := plus64 (clientHits c) 1; clientMisses := clientMisses c;
                     clientEvictions := clientEvictions c; clientCacheCap := clientCacheCap c |})
  | None => (v, {| lru := l; clientHits := clientHits c; clientMisses := plus64 (clientMisses c) 1;
                   clientEvictions := clientEvictions c; clientCacheCap := clientCacheCap c |})
  end.

(** [backendClient] from the constructed client on. *)
Definition publish (c : Clients) (b : store.Backend) (v : client) : client * Clients :=
  let '(previous, n, l) := PeekOrAdd (lru c) (newClientCacheKey b) v in
  (default v previous,
   {| lru := l; clientHits := clientHits c; clientMisses := clientMisses c; clientEvictions := plus64 (clientEvictions c) n;
      clientCacheCap := clientCacheCap c |}).

Definition build (sv : service) (n : nat) (b : store.Backend) : result goerror client :=
  match newBackendClient sv b with
  | Ok o => Ok {| options := o; pool := n |}
  | Err err => Err (Wrap [FS "failed to build backend client: "] [err])
  end.

(** [backendClient] of a request alone. *)
Definition backendClient (sv : service) (n : nat) (c : Clients) (b : store.Backend) : result goerror client * Clients :=
  match lookup c b with
  | (Some v, c) => (Ok v, c)
  | (None, c) =>
    match build sv n b with
    | Err e => (Err e, c)
    | Ok v => let '(v, c) := publish c b v in (Ok v, c)
    end
  end.

Definition SetClientCacheSize (c : Clients) (n : Z) : Clients :=
  let n := if n <? 1 then 1 else n in
  let '(dropped, l) := Resize (lru c) (Z.to_nat n) in
  {| lru := l; clientHits := clientHits c; clientMisses := clientMisses c; clientEvictions := plus64 (clientEvictions c) dropped;
     clientCacheCap := n |}.

Definition SetBackend (st : store.Store) (c : Clients) (bucket : string) (v : client) : result goerror Clients :=
  match store.GetBucketByName st bucket with
  | Err e => Err e
  | Ok b =>
    let '(n, l) := Add (lru c) (newClientCacheKey (store.BBackend b)) v in
    Ok {| lru := l; clientHits := clientHits c; clientMisses := clientMisses c; clientEvictions := plus64 (clientEvictions c) n;
          clientCacheCap := clientCacheCap c |}
  end.

Record CacheStats := { Hits : Z; Misses : Z; Evictions : Z; Entries : nat; Capacity : Z }.

Definition ClientCacheStats (c : Clients) : CacheStats :=
  {| Hits := clientHits c; Misses := clientMisses c; Evictions := clientEvictions c; Entries := Len (lru c); Capacity := clientCacheCap c |}.

(** ** Requests racing for clients

    A request holds no lock between its lookup, the construction of its client
    and its publication; each of these is one step. *)

Inductive request := Missed (b : store.Backend) | Built (b : store.Backend) (v : client).

Record state := {
  shared : Clients; running : list request; next : nat; answers : list (store.Backend * client); injected : list (clientCacheKey * client) }.

Inductive step (sv : service) (st : store.Store) : state -> state -> Prop :=
| step_hit s b v c : lookup (shared s) b = (Some v, c) ->
    step sv st s {| shared := c; running := running s; next := next s; answers := (b, v) :: answers s; injected := injected s |}
| step_miss s b c : lookup (shared s) b = (None, c) ->
    step sv st s {| shared := c; running := Missed b :: running s; next := next s; answers := answers s; injected := injected s |}
| step_build s b v rest : running s ≡ₚ Missed b :: rest -> build sv (next s) b = Ok v ->
    step sv st s {| shared := shared s; running := Built b v :: rest; next := S (next s); answers := answers s; injected := injected s |}
| step_fail s b e rest : running s ≡ₚ Missed b :: rest -> build sv (next s) b = Err e ->
    step sv st s {| shared := shared s; running := rest; next := S (next s); answers := answers s; injected := injected s |}
| step_publish s b v v' c rest : running s ≡ₚ Built b v :: rest -> publish (shared s) b v = (v', c) ->
    step sv st s {| shared := c; running := rest; next := next s; answers := (b, v') :: answers s; injected := injected s |}
| step_resize s n :
    step sv st s {| shared := SetClientCacheSize (shared s) n; running := running s; next := next s; answers := answers s; injected := injected s |}
| step_set s bucket b v c : store.GetBucketByName st bucket = Ok b -> SetBackend st (shared s) bucket v = Ok c ->
    step sv st s {| shared := c; running := running s; next := next s; answers := answers s;
                    injected := (newClientCacheKey (store.BBackend b), v) :: injected s |}.

Definition initial (l : L) : state :=
  {| shared := {| lru := l; clientHits := 0; clientMisses := 0; clientEvictions := 0; clientCacheCap := Z.of_nat defaultClientCacheSize |};
     running := []; next := 0; answers := []; injected := [] |}.

End Cache.

Arguments Clients : clear implicits.
Arguments state : clear implicits.

End clients.
