(* ===== verification/ClientsFacts.v ===== *)
(** * Backend clients are never mixed up

    However requests interleave, the client a request is given was built for
    its own endpoint and credentials, and a backend keeps one connection pool
    for as long as its client stays in the cache. *)

From S2P Require Import Prelude Unicode GoStrings GoNet GoError Policy Cors Store Breaker Clients.
From stdpp Require Import relations.
Import clients.

Open Scope Z_scope.

(** ** What a client is built from *)

(** The options come from the definition's cache key alone, then from what the
    service adds for the definition that was looked up first. *)
Definition customized (sv : service) (b : store.Backend) (o : Options) : Options :=
  fold_left (fun o fn => fn o) (match clientOptions sv with Some f => f b | None => [] end)
    (with_breaker b (match installed_breaker sv with Some f => f b | None => false end) o).

Definition built_for (sv : service) (b : store.Backend) (v : client) : Prop :=
  exists b', newClientCacheKey b' = newClientCacheKey b /\ options v = customized sv b' (base_options b).

Lemma base_options_key b b' : newClientCacheKey b = newClientCacheKey b' -> base_options b = base_options b'.
Proof. unfold newClientCacheKey, base_options. intros [= -> -> -> -> ->]. done. Qed.

Lemma build_for sv n b v : build sv n b = Ok v -> built_for sv b v /\ pool v = n.
Proof.
  unfold build, newBackendClient. destruct (loads sv b); [done|]. intros [= <-]. split; [exists b; done|done].
Qed.

Section Races.
Context {L : Type} {HL : LRU L client} {Laws : LRULaws HL} (sv : service) (st : store.Store).

#[local] Notation state := (state L).
#[local] Notation held_at s := (held (lru (shared s))).

Lemma lookup_spec (c c' : Clients L) b v :
  lookup c b = (v, c') -> v = held (lru c) (newClientCacheKey b) /\ forall k, held (lru c') k = held (lru c) k.
Proof.
  unfold lookup. pose proof (get_held (lru c) (newClientCacheKey b)) as Hg. pose proof (get_keeps (lru c) (newClientCacheKey b)) as Hk.
  destruct (Get _ _) as [w l]. simpl in *. destruct w; intros [= <- <-]; done.
Qed.

Lemma publish_spec (c c' : Clients L) b v v' :
  publish c b v = (v', c') ->
  held (lru c') (newClientCacheKey b) = Some v' /\
  (held (lru c) (newClientCacheKey b) = Some v' /\ lru c' = lru c \/
   held (lru c) (newClientCacheKey b) = None /\ v' = v /\
     forall k x, k <> newClientCacheKey b -> held (lru c') k = Some x -> held (lru c) k = Some x).
Proof.
  unfold publish. destruct (held (lru c) (newClientCacheKey b)) as [w|] eqn:Hh.
  - rewrite (peek_held _ _ v _ Hh). intros [= <- <-]. simpl. auto.
  - destruct (peek_adds _ _ v Hh) as (n & l & -> & Hl & Ho). intros [= <- <-]. simpl. auto.
Qed.

Lemma SetBackend_spec (c c' : Clients L) bucket b v :
  store.GetBucketByName st bucket = Ok b -> SetBackend st c bucket v = Ok c' ->
  held (lru c') (newClientCacheKey (store.BBackend b)) = Some v /\
  forall k x, k <> newClientCacheKey (store.BBackend b) -> held (lru c') k = Some x -> held (lru c) k = Some x.
Proof.
  intros Hb. unfold SetBackend. rewrite Hb. destruct (add_adds (lru c) (newClientCacheKey (store.BBackend b)) v) as [H1 H2].
  destruct (Add _ _ _) as [n l]. intros [= <-]. done.
Qed.

Lemma SetClientCacheSize_spec (c : Clients L) n k v : held (lru (SetClientCacheSize c n)) k = Some v -> held (lru c) k = Some v.
Proof.
  unfold SetClientCacheSize. cbv zeta. pose proof (resize_drops (lru c) (Z.to_nat (if n <? 1 then 1 else n)) k v) as Hr.
  destruct (Resize _ _) as [d l]. exact Hr.
Qed.

(** ** Isolation *)

Definition owned (s : state) (b : store.Backend) (v : client) : Prop := built_for sv b v \/ (newClientCacheKey b, v) ∈ injected s.

Record clean (s : state) : Prop := {
  cl_held b v : held_at s (newClientCacheKey b) = Some v -> owned s b v;
  cl_running b v : Built b v ∈ running s -> owned s b v;
  cl_answers b v : (b, v) ∈ answers s -> owned s b v }.

Lemma owned_key s b b' v : newClientCacheKey b = newClientCacheKey b' -> owned s b v -> owned s b' v.
Proof.
  intros Hk [(b0 & H0 & Ho)|Hi]; [left|right; by rewrite <- Hk].
  exists b0. split; [congruence|]. rewrite Ho. by rewrite (base_options_key _ _ Hk).
Qed.

Lemma step_clean s s' : step sv st s s' -> clean s -> clean s'.
Proof.
  intros Hs [Hh Hr Ha]. destruct Hs as [s b v c Hl|s b c Hl|s b v rest Hp Hb|s b e rest Hp Hb|s b v v' c rest Hp Hpub|s n|s bucket b v c Hb Hset].
  - apply lookup_spec in Hl as [Hv Hk]. constructor; cbn in *; auto; [intros b0 v0; rewrite Hk; apply Hh|].
    intros b0 v0 [[= -> ->]|Hin]%elem_of_cons; [by apply Hh|by apply Ha].
  - apply lookup_spec in Hl as [Hv Hk]. constructor; cbn in *; auto; [intros b0 v0; rewrite Hk; apply Hh|].
    intros b0 v0 [?|Hin]%elem_of_cons; [done|by apply Hr].
  - constructor; cbn in *; auto. intros b0 v0 [[= -> ->]|Hin]%elem_of_cons; [left; by eapply build_for|].
    apply Hr. rewrite Hp. by right.
  - constructor; cbn in *; auto. intros b0 v0 Hin. apply Hr. rewrite Hp. by right.
  - assert (owned s b v) as Hown by (apply Hr; rewrite Hp; by left).
    apply publish_spec in Hpub as (Hheld & Hcase).
    assert (owned s b v') as Hown' by (destruct Hcase as [[Hc _]|(_ & -> & _)]; auto).
    constructor; cbn in *.
    + intros b0 v0 H0. destruct (decide (newClientCacheKey b0 = newClientCacheKey b)) as [He|Hne].
      * rewrite He, Hheld in H0. injection H0 as <-. by apply (owned_key _ b).
      * apply Hh. destruct Hcase as [[_ <-]|(_ & _ & Hk)]; auto.
    + intros b0 v0 Hin. apply Hr. rewrite Hp. by right.
    + intros b0 v0 [[= -> ->]|Hin]%elem_of_cons; [exact Hown'|by apply Ha].
  - constructor; cbn in *; auto. intros b0 v0 H0%SetClientCacheSize_spec. by apply Hh.
  - assert (forall b0 v0, owned s b0 v0 ->
      owned {| shared := c; running := running s; next := next s; answers := answers s;
               injected := (newClientCacheKey (store.BBackend b), v) :: injected s |} b0 v0) as Hmono
      by (intros b0 v0 [?|?]; [by left|right; by right]).
    apply (SetBackend_spec _ _ _ _ _ Hb) in Hset as [Hheld Hk]. constructor; cbn in *; [|auto..].
    intros b0 v0 H0. destruct (decide (newClientCacheKey b0 = newClientCacheKey (store.BBackend b))) as [He|Hne]; [|by apply Hmono, Hh, Hk].
    rewrite He, Hheld in H0. injection H0 as <-. right. rewrite He. by left.
Qed.

Lemma reachable_clean s s' : rtc (step sv st) s s' -> clean s -> clean s'.
Proof. induction 1; eauto using step_clean. Qed.

(** ** One pool per backend *)

(** A step that neither drops the entry of [k] nor injects a client. *)
Definition keeps (k : clientCacheKey) (s s' : state) : Prop :=
  step sv st s s' /\ injected s' = injected s /\ is_Some (held_at s' k).

Lemma keeps_step k v s s' :
  keeps k s s' -> held_at s k = Some v ->
  held_at s' k = Some v /\ exists new, answers s' = new ++ answers s /\ forall b x, (b, x) ∈ new -> newClientCacheKey b = k -> x = v.
Proof.
  assert (forall l : list (store.Backend * client), exists new, l = new ++ l /\ forall b x, (b, x) ∈ new -> newClientCacheKey b = k -> x = v) as Hnone.
  { intros l. exists []. split; [done|]. intros b x Hin. by apply not_elem_of_nil in Hin. }
  assert (forall (b : store.Backend) (x : client) l, (newClientCacheKey b = k -> x = v) ->
    exists new, (b, x) :: l = new ++ l /\ forall b' x', (b', x') ∈ new -> newClientCacheKey b' = k -> x' = v) as Hone.
  { intros b x l Hx. exists [(b, x)]. split; [done|]. intros b' x' Hin%list_elem_of_singleton. by injection Hin as -> ->. }
  intros (Hs & Hinj & [w Hw]) Hk.
  destruct Hs as [s b v0 c Hl|s b c Hl|s b v0 rest Hp Hb|s b e rest Hp Hb|s b v0 v' c rest Hp Hpub|s n|s bucket b v0 c Hb Hset]; cbn in *; auto.
  - apply lookup_spec in Hl as [Hv Hkk]. rewrite Hkk. split; [done|]. apply Hone. congruence.
  - apply lookup_spec in Hl as [Hv Hkk]. rewrite Hkk. auto.
  - apply publish_spec in Hpub as (Hheld & Hcase). destruct (decide (k = newClientCacheKey b)) as [->|Hne].
    + destruct Hcase as [[Hc Hl]|(Hc & _)]; [|congruence]. rewrite Hl. split; [done|]. apply Hone. congruence.
    + split; [|apply Hone; congruence]. destruct Hcase as [[_ Hl]|(_ & _ & Ho)]; [by rewrite Hl|].
      rewrite Hw. rewrite (Ho _ _ Hne Hw) in Hk. done.
  - apply SetClientCacheSize_spec in Hw as Hw'. split; [congruence|auto].
  - exfalso. assert (length ((newClientCacheKey (store.BBackend b), v0) :: injected s) = length (injected s)) by congruence. simpl in *. lia.
Qed.

Lemma keeps_steps k v s s' :
  rtc (keeps k) s s' -> held_at s k = Some v ->
  exists new, answers s' = new ++ answers s /\ forall b x, (b, x) ∈ new -> newClientCacheKey b = k -> x = v.
Proof.
  induction 1 as [s|s s1 s2 H1 _ IH]; intros Hk; [exists []; split; [done|]; intros b x Hin; by apply not_elem_of_nil in Hin|].
  destruct (keeps_step _ _ _ _ H1 Hk) as (Hk1 & new1 & Ha1 & Hn1). destruct (IH Hk1) as (new2 & Ha2 & Hn2).
  exists (new2 ++ new1). split; [by rewrite Ha2, Ha1, app_assoc|]. intros b x [Hin|Hin]%elem_of_app; eauto.
Qed.

(** The client a request is answered with is the one the cache holds. *)
Lemma answered_held s s1 b v : step sv st s s1 -> answers s1 = (b, v) :: answers s -> held_at s1 (newClientCacheKey b) = Some v.
Proof.
  assert (forall l : list (store.Backend * client), l <> (b, v) :: l) as Hne
    by (intros l E; assert (length l = length ((b, v) :: l)) by congruence; simpl in *; lia).
  intros Hs Ha. destruct Hs as [s b0 v0 c Hl| | | |s b0 v0 v' c rest Hp Hpub| |]; cbn in *; try (by exfalso; eapply Hne).
  - injection Ha as -> ->. apply lookup_spec in Hl as [Hv Hk]. by rewrite Hk.
  - injection Ha as -> ->. by apply publish_spec in Hpub as [? _].
Qed.

End Races.

(** C22. Clients are never mixed up: along any interleaving of lookups,
    constructions, publications, resizes and injections from an empty cache,
    the client a request for a backend is answered with carries the region,
    endpoint, credentials and path style of that very backend, as the service
    customized them, unless it was injected for that key. *)
Theorem clients_isolated {L} {HL : LRU L client} {Laws : LRULaws HL} sv st l s b v :
  (forall k, held l k = None) -> rtc (step sv st) (initial l) s -> (b, v) ∈ answers s ->
  built_for sv b v \/ (newClientCacheKey b, v) ∈ injected s.
Proof.
  intros Hl Hr Ha. assert (clean sv (initial l)) as Hc.
  { constructor; cbn; intros b0 v0 H0; [by rewrite Hl in H0|by apply not_elem_of_nil in H0..]. }
  exact (cl_answers _ _ (reachable_clean _ _ _ _ Hr Hc) b v Ha).
Qed.

(** Racing requests converge: once a request for a backend has been
    answered, every request with the same cache key is answered with the very
    same client, its connection pool included, for as long as the entry is
    not dropped or replaced by an injection, however their steps interleave. *)
Theorem clients_converge {L} {HL : LRU L client} {Laws : LRULaws HL} sv st s s1 s2 b v :
  step sv st s s1 -> answers s1 = (b, v) :: answers s -> rtc (keeps sv st (newClientCacheKey b)) s1 s2 ->
  exists new, answers s2 = new ++ answers s1 /\
    forall b' x, (b', x) ∈ new -> newClientCacheKey b' = newClientCacheKey b -> x = v.
Proof. intros Hs Ha Hk. exact (keeps_steps sv st _ v _ _ Hk (answered_held sv st _ _ _ _ Hs Ha)). Qed.

(** ** An LRU and a race on which the theorems apply *)

(** Entries from the most to the least recently used; there is always room for
    one. *)
Record lru_list := { items : list (clientCacheKey * client); room : nat }.

Fixpoint assoc (l : list (clientCacheKey * client)) (k : clientCacheKey) : option client :=
  match l with [] => None | (k', v) :: l => if decide (k' = k) then Some v else assoc l k end.

Definition without (k : clientCacheKey) (l : list (clientCacheKey * client)) : list (clientCacheKey * client) := filter (fun e => e.1 <> k) l.

#[local] Instance list_lru : LRU lru_list client := {
  Get l k := match assoc (items l) k with
             | Some v => (Some v, {| items := (k, v) :: without k (items l); room := room l |})
             | None => (None, l) end;
  PeekOrAdd l k v := match assoc (items l) k with
                     | Some v' => (Some v', 0%nat, l)
                     | None => (None, length (items l) - room l, {| items := take (S (room l)) ((k, v) :: items l); room := room l |})%nat end;
  Add l k v := (length (without k (items l)) - room l, {| items := take (S (room l)) ((k, v) :: without k (items l)); room := room l |})%nat;
  Resize l n := (length (items l) - n, {| items := take n (items l); room := pred n |})%nat;
  Len l := length (items l);
  held l k := assoc (items l) k }.

Lemma assoc_without k k' l : k' <> k -> assoc (without k l) k' = assoc l k'.
Proof.
  intros Hne. induction l as [|[k0 v0] l IH]; [done|]. unfold without in *. rewrite filter_cons. cbn [fst assoc].
  destruct (decide (k0 <> k)) as [H0|H0]; cbn [assoc]; [by rewrite IH|].
  destruct (decide (k0 = k')) as [->|]; [by destruct H0|done].
Qed.

Lemma assoc_take n l k v : assoc (take n l) k = Some v -> assoc l k = Some v.
Proof.
  revert n; induction l as [|[k0 v0] l IH]; intros [|n]; cbn; try done. destruct (decide _); eauto.
Qed.

#[local] Instance list_lru_laws : LRULaws list_lru.
Proof.
  constructor; cbn; intros.
  - by destruct (assoc _ _).
  - destruct (assoc _ k) eqn:E; [|done]. cbn. destruct (decide (k = k')) as [<-|Hne]; [done|by apply assoc_without].
  - by rewrite H.
  - rewrite H. eexists _, _. split; [done|]. cbn. rewrite decide_True by done. split; [done|].
    intros k' v' Hne. rewrite decide_False by done. apply assoc_take.
  - rewrite decide_True by done. split; [done|]. intros k' v' Hne. rewrite decide_False by done.
    intros Ht%assoc_take. by rewrite assoc_without in Ht.
  - by eapply assoc_take.
Qed.

Definition plain_service : service := {| clientOptions := None; installed_breaker := None; loads := fun _ => None |}.
Definition no_store : store.Store :=
  {| store.GetKey _ _ := Err (Sentinel store.ErrNotFound); store.GetBucket _ _ := Err (Sentinel store.ErrNotFound);
     store.GetBucketByName _ := Err (Sentinel store.ErrNotFound); store.ListBuckets _ := Err (Sentinel store.ErrNotFound) |}.

(** Two buckets of one backend. *)
Definition demo_backend (bucket : string) : store.Backend :=
  {| store.Endpoint := "https://s3.example.com"; store.Region := "us-east-1"; store.BBucket := bucket; store.BAccessKeyID := "k";
     store.BSecretAccessKey := "s"; store.UsePathStyle := Some true |}.

Definition demo_client (n : nat) : client := {| options := base_options (demo_backend "a"); pool := n |}.
Definition counted (hits misses : Z) (l : list (clientCacheKey * client)) : Clients lru_list :=
  {| lru := {| items := l; room := 127 |}; clientHits := hits; clientMisses := misses; clientEvictions := 0; clientCacheCap := 128 |}.
Definition cached : list (clientCacheKey * client) := [(newClientCacheKey (demo_backend "a"), demo_client 0)].

(** Both requests miss, both build a client, the first publishes and the second
    is given the first one's. *)
Definition race_start : state lru_list := initial {| items := []; room := 127 |}.
Definition race_built : state lru_list :=
  {| shared := counted 0 2 []; running := [Built (demo_backend "b") (demo_client 1); Built (demo_backend "a") (demo_client 0)]; next := 2;
     answers := []; injected := [] |}.
Definition race_first : state lru_list :=
  {| shared := counted 0 2 cached; running := [Built (demo_backend "b") (demo_client 1)]; next := 2;
     answers := [(demo_backend "a", demo_client 0)]; injected := [] |}.
Definition race_end : state lru_list :=
  {| shared := counted 0 2 cached; running := []; next := 2;
     answers := [(demo_backend "b", demo_client 0); (demo_backend "a", demo_client 0)]; injected := [] |}.

Lemma race_builds : rtc (step plain_service no_store) race_start race_built.
Proof.
  eapply rtc_l; [apply (step_miss _ _ _ (demo_backend "a")); reflexivity|].
  eapply rtc_l; [apply (step_build _ _ _ (demo_backend "a") (demo_client 0) []); reflexivity|].
  eapply rtc_l; [apply (step_miss _ _ _ (demo_backend "b")); reflexivity|].
  eapply rtc_l; [apply (step_build _ _ _ (demo_backend "b") (demo_client 1) [Built (demo_backend "a") (demo_client 0)]); reflexivity|].
  apply rtc_refl.
Qed.

Lemma race_publishes : step plain_service no_store race_built race_first.
Proof.
  apply (step_publish _ _ race_built (demo_backend "a") (demo_client 0) (demo_client 0) (counted 0 2 cached) [Built (demo_backend "b") (demo_client 1)]);
    [apply perm_swap|reflexivity].
Qed.

Lemma race_finishes : step plain_service no_store race_first race_end.
Proof. apply (step_publish _ _ race_first (demo_backend "b") (demo_client 1) (demo_client 0) (counted 0 2 cached) []); reflexivity. Qed.

Lemma clients_isolated_witness :
  (demo_backend "b", demo_client 0) ∈ answers race_end /\
  (built_for plain_service (demo_backend "b") (demo_client 0) \/ (newClientCacheKey (demo_backend "b"), demo_client 0) ∈ injected race_end).
Proof.
  assert ((demo_backend "b", demo_client 0) ∈ answers race_end) as Ha by left. split; [exact Ha|].
  refine (clients_isolated plain_service no_store {| items := []; room := 127 |} race_end _ _ _ _ Ha); [reflexivity|].
  etrans; [exact race_builds|]. eapply rtc_l; [exact race_publishes|]. apply rtc_once, race_finishes.
Defined.

Lemma clients_converge_witness :
  exists new, answers race_end = new ++ answers race_first /\
    forall b' x, (b', x) ∈ new -> newClientCacheKey b' = newClientCacheKey (demo_backend "a") -> x = demo_client 0.
Proof.
  apply (clients_converge plain_service no_store race_built race_first race_end (demo_backend "a") (demo_client 0) race_publishes eq_refl).
  apply rtc_once. split; [exact race_finishes|]. split; [reflexivity|]. eexists. reflexivity.
Defined.
