(* ===== verification/Catalog.v ===== *)
(** * The catalog of S3 operations (src/s3op/s3op.go, src/s3op/s3op_gen.go)

    Every operation the gateway knows with the actions it authorizes, the list
    of all actions, and the check of action patterns written in policies. *)

From S2P Require Import Prelude Unicode GoStrings GoError Glob Policy PolicyFacts.

Open Scope Z_scope.

Module s3op.

Inductive Scope := ScopeService | ScopeBucket | ScopeObject.
Inductive Support := Supported | Refused.
Inductive Resource := OnTarget | OnCopySource | OnEachKey.

#[global] Instance Scope_eq_dec : EqDecision Scope. Proof. solve_decision. Defined.
#[global] Instance Support_eq_dec : EqDecision Support. Proof. solve_decision. Defined.
#[global] Instance Resource_eq_dec : EqDecision Resource. Proof. solve_decision. Defined.

Record Authorization := {
  Action : string;
  On : Resource;
  VersionAction : string;
  Header : string }.

#[global] Instance Authorization_eq_dec : EqDecision Authorization. Proof. solve_decision. Defined.

Record Operation := {
  Name : string;
  OpScope : Scope;
  OpSupport : Support;
  Authorizations : list Authorization;
  Note : string }.

#[global] Instance Operation_eq_dec : EqDecision Operation. Proof. solve_decision. Defined.

(** ** Names *)

Definition OpListBuckets : string := "ListBuckets".
Definition OpHeadBucket : string := "HeadBucket".
Definition OpListObjects : string := "ListObjects".
Definition OpListObjectsV2 : string := "ListObjectsV2".
Definition OpListObjectVersions : string := "ListObjectVersions".
Definition OpListMultipartUploads : string := "ListMultipartUploads".
Definition OpGetBucketLocation : string := "GetBucketLocation".
Definition OpGetBucketAcl : string := "GetBucketAcl".
Definition OpGetBucketPolicy : string := "GetBucketPolicy".
Definition OpGetBucketPolicyStatus : string := "GetBucketPolicyStatus".
Definition OpGetBucketCors : string := "GetBucketCors".
Definition OpGetBucketVersioning : string := "GetBucketVersioning".
Definition OpGetBucketEncryption : string := "GetBucketEncryption".
Definition OpGetBucketOwnershipControls : string := "GetBucketOwnershipControls".
Definition OpGetPublicAccessBlock : string := "GetPublicAccessBlock".
Definition OpGetObjectLockConfiguration : string := "GetObjectLockConfiguration".
Definition OpDeleteObjects : string := "DeleteObjects".
Definition OpPostObject : string := "PostObject".
Definition OpCreateBucket : string := "CreateBucket".
Definition OpDeleteBucket : string := "DeleteBucket".
Definition OpPutBucketAcl : string := "PutBucketAcl".
Definition OpPutBucketPolicy : string := "PutBucketPolicy".
Definition OpDeleteBucketPolicy : string := "DeleteBucketPolicy".
Definition OpPutBucketCors : string := "PutBucketCors".
Definition OpDeleteBucketCors : string := "DeleteBucketCors".
Definition OpPutBucketVersioning : string := "PutBucketVersioning".
Definition OpPutObjectLockConfiguration : string := "PutObjectLockConfiguration".
Definition OpPutBucketEncryption : string := "PutBucketEncryption".
Definition OpDeleteBucketEncryption : string := "DeleteBucketEncryption".
Definition OpPutBucketOwnershipControls : string := "PutBucketOwnershipControls".
Definition OpDeleteBucketOwnershipControls : string := "DeleteBucketOwnershipControls".
Definition OpPutPublicAccessBlock : string := "PutPublicAccessBlock".
Definition OpDeletePublicAccessBlock : string := "DeletePublicAccessBlock".
Definition OpGetObject : string := "GetObject".
Definition OpHeadObject : string := "HeadObject".
Definition OpGetObjectAttributes : string := "GetObjectAttributes".
Definition OpPutObject : string := "PutObject".
Definition OpCopyObject : string := "CopyObject".
Definition OpDeleteObject : string := "DeleteObject".
Definition OpGetObjectTagging : string := "GetObjectTagging".
Definition OpPutObjectTagging : string := "PutObjectTagging".
Definition OpDeleteObjectTagging : string := "DeleteObjectTagging".
Definition OpGetObjectAcl : string := "GetObjectAcl".
Definition OpGetObjectRetention : string := "GetObjectRetention".
Definition OpPutObjectRetention : string := "PutObjectRetention".
Definition OpGetObjectLegalHold : string := "GetObjectLegalHold".
Definition OpPutObjectLegalHold : string := "PutObjectLegalHold".
Definition OpPutObjectAcl : string := "PutObjectAcl".
Definition OpCreateMultipartUpload : string := "CreateMultipartUpload".
Definition OpUploadPart : string := "UploadPart".
Definition OpUploadPartCopy : string := "UploadPartCopy".
Definition OpCompleteMultipartUpload : string := "CompleteMultipartUpload".
Definition OpAbortMultipartUpload : string := "AbortMultipartUpload".
Definition OpListParts : string := "ListParts".

Definition ActionAbortMultipartUpload : string := "s3:AbortMultipartUpload".
Definition ActionBypassGovernanceRetention : string := "s3:BypassGovernanceRetention".
Definition ActionDeleteObject : string := "s3:DeleteObject".
Definition ActionDeleteObjectTagging : string := "s3:DeleteObjectTagging".
Definition ActionDeleteObjectVersion : string := "s3:DeleteObjectVersion".
Definition ActionDeleteObjectVersionTagging : string := "s3:DeleteObjectVersionTagging".
Definition ActionGetBucketAcl : string := "s3:GetBucketAcl".
Definition ActionGetBucketCORS : string := "s3:GetBucketCORS".
Definition ActionGetBucketLocation : string := "s3:GetBucketLocation".
Definition ActionGetBucketObjectLockConfiguration : string := "s3:GetBucketObjectLockConfiguration".
Definition ActionGetBucketOwnershipControls : string := "s3:GetBucketOwnershipControls".
Definition ActionGetBucketPolicy : string := "s3:GetBucketPolicy".
Definition ActionGetBucketPolicyStatus : string := "s3:GetBucketPolicyStatus".
Definition ActionGetBucketPublicAccessBlock : string := "s3:GetBucketPublicAccessBlock".
Definition ActionGetBucketVersioning : string := "s3:GetBucketVersioning".
Definition ActionGetEncryptionConfiguration : string := "s3:GetEncryptionConfiguration".
Definition ActionGetObject : string := "s3:GetObject".
Definition ActionGetObjectAcl : string := "s3:GetObjectAcl".
Definition ActionGetObjectLegalHold : string := "s3:GetObjectLegalHold".
Definition ActionGetObjectRetention : string := "s3:GetObjectRetention".
Definition ActionGetObjectTagging : string := "s3:GetObjectTagging".
Definition ActionGetObjectVersion : string := "s3:GetObjectVersion".
Definition ActionGetObjectVersionAcl : string := "s3:GetObjectVersionAcl".
Definition ActionGetObjectVersionTagging : string := "s3:GetObjectVersionTagging".
Definition ActionListAllMyBuckets : string := "s3:ListAllMyBuckets".
Definition ActionListBucket : string := "s3:ListBucket".
Definition ActionListBucketMultipartUploads : string := "s3:ListBucketMultipartUploads".
Definition ActionListBucketVersions : string := "s3:ListBucketVersions".
Definition ActionListMultipartUploadParts : string := "s3:ListMultipartUploadParts".
Definition ActionPutObject : string := "s3:PutObject".
Definition ActionPutObjectLegalHold : string := "s3:PutObjectLegalHold".
Definition ActionPutObjectRetention : string := "s3:PutObjectRetention".
Definition ActionPutObjectTagging : string := "s3:PutObjectTagging".
Definition ActionPutObjectVersionTagging : string := "s3:PutObjectVersionTagging".

(** ** The table *)

Definition auth (action : string) (on : Resource) : Authorization :=
  {| Action := action; On := on; VersionAction := ""; Header := "" |}.
Definition auth_versioned (action : string) (on : Resource) (version : string) : Authorization :=
  {| Action := action; On := on; VersionAction := version; Header := "" |}.
Definition auth_header (action : string) (on : Resource) (header : string) : Authorization :=
  {| Action := action; On := on; VersionAction := ""; Header := header |}.

Definition operations_1 : list Operation := [
  {| Name := OpListBuckets; OpScope := ScopeService; OpSupport := Supported;
     Authorizations := [auth ActionListAllMyBuckets OnTarget];
     Note := "answered from the store; lists the requester's own buckets, authorized by the user policy alone" |};
  {| Name := OpHeadBucket; OpScope := ScopeBucket; OpSupport := Supported;
     Authorizations := [auth ActionListBucket OnTarget];
     Note := "" |};
  {| Name := OpListObjects; OpScope := ScopeBucket; OpSupport := Supported;
     Authorizations := [auth ActionListBucket OnTarget];
     Note := "" |};
  {| Name := OpListObjectsV2; OpScope := ScopeBucket; OpSupport := Supported;
     Authorizations := [auth ActionListBucket OnTarget];
     Note := "" |};
  {| Name := OpListObjectVersions; OpScope := ScopeBucket; OpSupport := Supported;
     Authorizations := [auth ActionListBucketVersions OnTarget];
     Note := "" |};
  {| Name := OpListMultipartUploads; OpScope := ScopeBucket; OpSupport := Supported;
     Authorizations := [auth ActionListBucketMultipartUploads OnTarget];
     Note := "" |};
  {| Name := OpGetBucketLocation; OpScope := ScopeBucket; OpSupport := Supported;
     Authorizations := [auth ActionGetBucketLocation OnTarget];
     Note := "" |};
  {| Name := OpGetBucketAcl; OpScope := ScopeBucket; OpSupport := Supported;
     Authorizations := [auth ActionGetBucketAcl OnTarget];
     Note := "" |};
  {| Name := OpGetBucketPolicy; OpScope := ScopeBucket; OpSupport := Supported;
     Authorizations := [auth ActionGetBucketPolicy OnTarget];
     Note := "" |};
  {| Name := OpGetBucketPolicyStatus; OpScope := ScopeBucket; OpSupport := Supported;
     Authorizations := [auth ActionGetBucketPolicyStatus OnTarget];
     Note := "" |};
  {| Name := OpGetBucketCors; OpScope := ScopeBucket; OpSupport := Supported;
     Authorizations := [auth ActionGetBucketCORS OnTarget];
     Note := "" |};
  {| Name := OpGetBucketVersioning; OpScope := ScopeBucket; OpSupport := Supported;
     Authorizations := [auth ActionGetBucketVersioning OnTarget];
     Note := "" |};
  {| Name := OpGetBucketEncryption; OpScope := ScopeBucket; OpSupport := Supported;
     Authorizations := [auth ActionGetEncryptionConfiguration OnTarget];
     Note := "" |};
  {| Name := OpGetBucketOwnershipControls; OpScope := ScopeBucket; OpSupport := Supported;
     Authorizations := [auth ActionGetBucketOwnershipControls OnTarget];
     Note := "" |};
  {| Name := OpGetPublicAccessBlock; OpScope := ScopeBucket; OpSupport := Supported;
     Authorizations := [auth ActionGetBucketPublicAccessBlock OnTarget];
     Note := "" |};
  {| Name := OpGetObjectLockConfiguration; OpScope := ScopeBucket; OpSupport := Supported;
     Authorizations := [auth ActionGetBucketObjectLockConfiguration OnTarget];
     Note := "" |};
  {| Name := OpDeleteObjects; OpScope := ScopeBucket; OpSupport := Supported;
     Authorizations := [
      auth_versioned ActionDeleteObject OnEachKey ActionDeleteObjectVersion;
      auth_header ActionBypassGovernanceRetention OnEachKey "x-amz-bypass-governance-retention"];
     Note := "" |};
  {| Name := OpPostObject; OpScope := ScopeBucket; OpSupport := Supported;
     Authorizations := [auth ActionPutObject OnTarget; auth_header ActionPutObjectTagging OnTarget "x-amz-tagging"];
     Note := "browser-based POST upload; header names the form field" |} ].

Definition operations_2 : list Operation := [
  {| Name := OpCreateBucket; OpScope := ScopeBucket; OpSupport := Refused;
     Authorizations := [];
     Note := "buckets are created by the control plane" |};
  {| Name := OpDeleteBucket; OpScope := ScopeBucket; OpSupport := Refused;
     Authorizations := [];
     Note := "buckets are deleted by the control plane" |};
  {| Name := OpPutBucketAcl; OpScope := ScopeBucket; OpSupport := Refused;
     Authorizations := [];
     Note := "ACLs are disabled" |};
  {| Name := OpPutBucketPolicy; OpScope := ScopeBucket; OpSupport := Refused;
     Authorizations := [];
     Note := "bucket configuration is written where the bucket is created, not through the S3 API" |};
  {| Name := OpDeleteBucketPolicy; OpScope := ScopeBucket; OpSupport := Refused;
     Authorizations := [];
     Note := "bucket configuration is written where the bucket is created, not through the S3 API" |};
  {| Name := OpPutBucketCors; OpScope := ScopeBucket; OpSupport := Refused;
     Authorizations := [];
     Note := "bucket configuration is written where the bucket is created, not through the S3 API" |};
  {| Name := OpDeleteBucketCors; OpScope := ScopeBucket; OpSupport := Refused;
     Authorizations := [];
     Note := "bucket configuration is written where the bucket is created, not through the S3 API" |};
  {| Name := OpPutBucketVersioning; OpScope := ScopeBucket; OpSupport := Refused;
     Authorizations := [];
     Note := "bucket configuration is written where the bucket is created, not through the S3 API" |};
  {| Name := OpPutObjectLockConfiguration; OpScope := ScopeBucket; OpSupport := Refused;
     Authorizations := [];
     Note := "bucket configuration is written where the bucket is created, not through the S3 API" |};
  {| Name := OpPutBucketEncryption; OpScope := ScopeBucket; OpSupport := Refused;
     Authorizations := [];
     Note := "bucket configuration is written where the bucket is created, not through the S3 API" |};
  {| Name := OpDeleteBucketEncryption; OpScope := ScopeBucket; OpSupport := Refused;
     Authorizations := [];
     Note := "bucket configuration is written where the bucket is created, not through the S3 API" |};
  {| Name := OpPutBucketOwnershipControls; OpScope := ScopeBucket; OpSupport := Refused;
     Authorizations := [];
     Note := "bucket configuration is written where the bucket is created, not through the S3 API" |};
  {| Name := OpDeleteBucketOwnershipControls; OpScope := ScopeBucket; OpSupport := Refused;
     Authorizations := [];
     Note := "bucket configuration is written where the bucket is created, not through the S3 API" |};
  {| Name := OpPutPublicAccessBlock; OpScope := ScopeBucket; OpSupport := Refused;
     Authorizations := [];
     Note := "bucket configuration is written where the bucket is created, not through the S3 API" |};
  {| Name := OpDeletePublicAccessBlock; OpScope := ScopeBucket; OpSupport := Refused;
     Authorizations := [];
     Note := "bucket configuration is written where the bucket is created, not through the S3 API" |};
  {| Name := OpGetObject; OpScope := ScopeObject; OpSupport := Supported;
     Authorizations := [auth_versioned ActionGetObject OnTarget ActionGetObjectVersion];
     Note := "" |};
  {| Name := OpHeadObject; OpScope := ScopeObject; OpSupport := Supported;
     Authorizations := [auth_versioned ActionGetObject OnTarget ActionGetObjectVersion];
     Note := "" |};
  {| Name := OpGetObjectAttributes; OpScope := ScopeObject; OpSupport := Supported;
     Authorizations := [auth_versioned ActionGetObject OnTarget ActionGetObjectVersion];
     Note := "" |};
  {| Name := OpPutObject; OpScope := ScopeObject; OpSupport := Supported;
     Authorizations := [
      auth ActionPutObject OnTarget;
      auth_header ActionPutObjectTagging OnTarget "x-amz-tagging";
      auth_header ActionPutObjectRetention OnTarget "x-amz-object-lock-mode";
      auth_header ActionPutObjectRetention OnTarget "x-amz-object-lock-retain-until-date";
      auth_header ActionPutObjectLegalHold OnTarget "x-amz-object-lock-legal-hold"];
     Note := "" |};
  {| Name := OpCopyObject; OpScope := ScopeObject; OpSupport := Supported;
     Authorizations := [
      auth ActionPutObject OnTarget;
      auth_header ActionPutObjectTagging OnTarget "x-amz-tagging";
      auth_header ActionPutObjectRetention OnTarget "x-amz-object-lock-mode";
      auth_header ActionPutObjectRetention OnTarget "x-amz-object-lock-retain-until-date";
      auth_header ActionPutObjectLegalHold OnTarget "x-amz-object-lock-legal-hold";
      auth_versioned ActionGetObject OnCopySource ActionGetObjectVersion];
     Note := "" |};
  {| Name := OpDeleteObject; OpScope := ScopeObject; OpSupport := Supported;
     Authorizations := [
      auth_versioned ActionDeleteObject OnTarget ActionDeleteObjectVersion;
      auth_header ActionBypassGovernanceRetention OnTarget "x-amz-bypass-governance-retention"];
     Note := "" |} ].

Definition operations_3 : list Operation := [
  {| Name := OpGetObjectTagging; OpScope := ScopeObject; OpSupport := Supported;
     Authorizations := [auth_versioned ActionGetObjectTagging OnTarget ActionGetObjectVersionTagging];
     Note := "" |};
  {| Name := OpPutObjectTagging; OpScope := ScopeObject; OpSupport := Supported;
     Authorizations := [auth_versioned ActionPutObjectTagging OnTarget ActionPutObjectVersionTagging];
     Note := "" |};
  {| Name := OpDeleteObjectTagging; OpScope := ScopeObject; OpSupport := Supported;
     Authorizations := [auth_versioned ActionDeleteObjectTagging OnTarget ActionDeleteObjectVersionTagging];
     Note := "" |};
  {| Name := OpGetObjectAcl; OpScope := ScopeObject; OpSupport := Supported;
     Authorizations := [auth_versioned ActionGetObjectAcl OnTarget ActionGetObjectVersionAcl];
     Note := "" |};
  {| Name := OpGetObjectRetention; OpScope := ScopeObject; OpSupport := Supported;
     Authorizations := [auth ActionGetObjectRetention OnTarget];
     Note := "" |};
  {| Name := OpPutObjectRetention; OpScope := ScopeObject; OpSupport := Supported;
     Authorizations := [
      auth ActionPutObjectRetention OnTarget;
      auth_header ActionBypassGovernanceRetention OnTarget "x-amz-bypass-governance-retention"];
     Note := "" |};
  {| Name := OpGetObjectLegalHold; OpScope := ScopeObject; OpSupport := Supported;
     Authorizations := [auth ActionGetObjectLegalHold OnTarget];
     Note := "" |};
  {| Name := OpPutObjectLegalHold; OpScope := ScopeObject; OpSupport := Supported;
     Authorizations := [auth ActionPutObjectLegalHold OnTarget];
     Note := "" |};
  {| Name := OpPutObjectAcl; OpScope := ScopeObject; OpSupport := Refused;
     Authorizations := [];
     Note := "ACLs are disabled" |};
  {| Name := OpCreateMultipartUpload; OpScope := ScopeObject; OpSupport := Supported;
     Authorizations := [
      auth ActionPutObject OnTarget;
      auth_header ActionPutObjectTagging OnTarget "x-amz-tagging";
      auth_header ActionPutObjectRetention OnTarget "x-amz-object-lock-mode";
      auth_header ActionPutObjectRetention OnTarget "x-amz-object-lock-retain-until-date";
      auth_header ActionPutObjectLegalHold OnTarget "x-amz-object-lock-legal-hold"];
     Note := "" |};
  {| Name := OpUploadPart; OpScope := ScopeObject; OpSupport := Supported;
     Authorizations := [auth ActionPutObject OnTarget];
     Note := "" |};
  {| Name := OpUploadPartCopy; OpScope := ScopeObject; OpSupport := Supported;
     Authorizations := [
      auth ActionPutObject OnTarget;
      auth_versioned ActionGetObject OnCopySource ActionGetObjectVersion];
     Note := "" |};
  {| Name := OpCompleteMultipartUpload; OpScope := ScopeObject; OpSupport := Supported;
     Authorizations := [auth ActionPutObject OnTarget];
     Note := "" |};
  {| Name := OpAbortMultipartUpload; OpScope := ScopeObject; OpSupport := Supported;
     Authorizations := [auth ActionAbortMultipartUpload OnTarget];
     Note := "" |};
  {| Name := OpListParts; OpScope := ScopeObject; OpSupport := Supported;
     Authorizations := [auth ActionListMultipartUploadParts OnTarget];
     Note := "" |} ].

Definition operations : list Operation := operations_1 ++ operations_2 ++ operations_3.

Definition actions : list string := [
  ActionAbortMultipartUpload;
  ActionBypassGovernanceRetention;
  ActionDeleteObject;
  ActionDeleteObjectTagging;
  ActionDeleteObjectVersion;
  ActionDeleteObjectVersionTagging;
  ActionGetBucketAcl;
  ActionGetBucketCORS;
  ActionGetBucketLocation;
  ActionGetBucketObjectLockConfiguration;
  ActionGetBucketOwnershipControls;
  ActionGetBucketPolicy;
  ActionGetBucketPolicyStatus;
  ActionGetBucketPublicAccessBlock;
  ActionGetBucketVersioning;
  ActionGetEncryptionConfiguration;
  ActionGetObject;
  ActionGetObjectAcl;
  ActionGetObjectLegalHold;
  ActionGetObjectRetention;
  ActionGetObjectTagging;
  ActionGetObjectVersion;
  ActionGetObjectVersionAcl;
  ActionGetObjectVersionTagging;
  ActionListAllMyBuckets;
  ActionListBucket;
  ActionListBucketMultipartUploads;
  ActionListBucketVersions;
  ActionListMultipartUploadParts;
  ActionPutObject;
  ActionPutObjectLegalHold;
  ActionPutObjectRetention;
  ActionPutObjectTagging;
  ActionPutObjectVersionTagging ].
(** ** Lookups *)

Definition Operations : list Operation := operations.

Definition Lookup (name : string) : option Operation :=
  head (filter (fun op => Name op = name) operations).

Definition Actions : list string := actions.

Definition ErrUnknownAction : string := "s3op.ErrUnknownAction".

(** [UnknownActionError]: its own text, unwrapping to the sentinel. *)
Definition UnknownActionError (pattern : string) : goerror :=
  Wrap [FS "action "; FQ pattern; FS " matches no action the gateway authorizes"] [Sentinel ErrUnknownAction].

Definition CheckActionPattern (p : string) : result goerror unit :=
  let lp := strings.ToLower p in
  if existsb (fun a => Glob.Match lp (strings.ToLower a)) actions then Ok tt else Err (UnknownActionError p).

(** ** Theorems *)

(** The actions an authorization may check. *)
Definition auth_actions (a : Authorization) : list string :=
  Action a :: (if bool_decide (VersionAction a = "") then [] else [VersionAction a]).

Fixpoint ascending_strings (l : list string) : bool :=
  match l with
  | a :: (b :: _) as r => negb (strings.leb b a) && ascending_strings r
  | _ => true
  end.

Definition all_auth_actions : list string := operations ≫= fun op => Authorizations op ≫= auth_actions.

Lemma elem_of_all_auth_actions a :
  a ∈ all_auth_actions <-> exists op au, op ∈ operations /\ au ∈ Authorizations op /\ a ∈ auth_actions au.
Proof. unfold all_auth_actions. rewrite list_elem_of_bind. setoid_rewrite list_elem_of_bind. naive_solver. Qed.

Lemma actions_starless a : a ∈ actions -> Glob.starless (runes (strings.ToLower a)).
Proof.
  revert a. apply Forall_forall. unfold Glob.starless. apply (bool_decide_unpack _). by vm_compute.
Qed.

(** The catalog is consistent: operation names are distinct, [Lookup]
    finds every one of them, an operation authorizes something exactly when it
    is supported, and [Actions] is exactly the set of the actions of all
    authorizations, sorted and without repetition. *)
Theorem catalog_consistent :
  NoDup (Name <$> operations) /\
  (forall op, op ∈ operations -> Lookup (Name op) = Some op /\ (Authorizations op = [] <-> OpSupport op = Refused)) /\
  ascending_strings actions = true /\
  (forall a, a ∈ actions <-> exists op au, op ∈ operations /\ au ∈ Authorizations op /\ a ∈ auth_actions au).
Proof.
  split; [apply (bool_decide_unpack _); by vm_compute|].
  split; [apply Forall_forall, (bool_decide_unpack _); by vm_compute|].
  split; [vm_refl|]. intros a. rewrite <- elem_of_all_auth_actions. split; revert a.
  - apply Forall_forall, (bool_decide_unpack _). by vm_compute.
  - apply Forall_forall, (bool_decide_unpack _). by vm_compute.
Qed.

(** An action pattern is refused exactly when the documented wildcard
    language of policies matches none of the actions the gateway authorizes,
    and then a statement naming it applies to no request for any of them. *)
Theorem CheckActionPattern_exact p :
  (CheckActionPattern p = Ok tt <->
    exists a, a ∈ actions /\ Glob.glob (runes (strings.ToLower p)) (runes (strings.ToLower a))) /\
  (CheckActionPattern p <> Ok tt ->
    errors.Is (UnknownActionError p) ErrUnknownAction = true /\
    forall a, a ∈ actions -> Glob.matchAnyRunes (Glob.lowerPatternRunes [p]) (request_runes a) = false).
Proof.
  unfold CheckActionPattern. split.
  - trans (existsb (fun a => Glob.Match (strings.ToLower p) (strings.ToLower a)) actions = true); [by destruct (existsb _ _)|].
    rewrite existsb_elem. split.
    + intros (a & Ha & Hm). exists a. split; [done|]. by apply Glob.matchRunes_sound.
    + intros (a & Ha & Hm). exists a. split; [done|]. apply Glob.matchRunes_complete; [by apply actions_starless|done].
  - destruct (existsb _ _) eqn:He; [done|]. intros _. split; [reflexivity|]. intros a Ha.
    apply not_true_iff_false. rewrite Glob.matchAnyRunes_exists. intros (q & Hq & Hm).
    apply list_elem_of_singleton in Hq as ->. rewrite <- not_true_iff_false, existsb_elem in He.
    apply He. by exists a.
Qed.

End s3op.
