(* ===== verification/OpGen.v ===== *)
(** * The generator of the catalog (src/s3op/internal/s3opgen/s3opgen.go)

    The check of the decoded operations.json and the declarations the template
    prints for it: constants, and tables whose entries refer to the constants
    by name.  A reference to a name that is not declared is a file that does
    not compile.  encoding/json's decoder and go/format are outside: the
    decoded document is the input, the declarations are the output. *)

From S2P Require Import Prelude Unicode GoStrings GoError Catalog.

Open Scope Z_scope.

Module s3opgen.

Definition SourceFile : string := "operations.json".

Record authorization := { action : string; on : string; version_action : string; header : string }.
Record operation := { name : string; scope : string; support : string; authorizations : list authorization; note : string }.
Definition catalog := list operation.

Definition scopes (s : string) : option s3op.Scope :=
  if bool_decide (s = "service") then Some s3op.ScopeService
  else if bool_decide (s = "bucket") then Some s3op.ScopeBucket
  else if bool_decide (s = "object") then Some s3op.ScopeObject else None.

Definition supports (s : string) : option s3op.Support :=
  if bool_decide (s = "supported") then Some s3op.Supported
  else if bool_decide (s = "refused") then Some s3op.Refused else None.

Definition resources (s : string) : option s3op.Resource :=
  if bool_decide (s = "target") then Some s3op.OnTarget
  else if bool_decide (s = "copy-source") then Some s3op.OnCopySource
  else if bool_decide (s = "each-key") then Some s3op.OnEachKey else None.

(** [^[A-Z][A-Za-z0-9]*$] and the same behind [s3:]. *)
Definition upper (c : Z) : bool := in_range c 65 90.
Definition alnum (c : Z) : bool := upper c || in_range c 97 122 || in_range c 48 57.
Definition namePattern (s : string) : bool :=
  match bytes_of s with c :: l => upper c && forallb alnum l | [] => false end.
Definition actionPattern (s : string) : bool := strings.HasPrefix s "s3:" && namePattern (strings.TrimPrefix s "s3:").

Record constant := { CName : string; Value : string }.

(** ** The check *)

Definition validate_authorization (op : operation) (actionSet : gset string) (a : authorization) : result message (gset string) :=
  if negb (actionPattern (action a)) then Err [FS "operation "; FS (name op); FS ": action "; FQ (action a); FS ": not an s3: action"]
  else
    with_version ← (if bool_decide (version_action a = "") then Ok actionSet
      else if negb (actionPattern (version_action a)) then Err [FS "operation "; FS (name op); FS ": version action "; FQ (version_action a); FS ": not an s3: action"]
      else if negb (bool_decide (header a = "")) then Err [FS "operation "; FS (name op); FS ": action "; FS (action a); FS ": a header-conditional action has no version variant"]
      else Ok ({[version_action a]} ∪ actionSet));
    match resources (on a) with
    | None => Err [FS "operation "; FS (name op); FS ": action "; FS (action a); FS ": unknown resource "; FQ (on a)]
    | Some _ =>
      if negb (bool_decide (header a = strings.ToLower (header a))) then Err [FS "operation "; FS (name op); FS ": header "; FQ (header a); FS " must be lower case"]
      else Ok ({[action a]} ∪ with_version)
    end.

Definition validate_operation (st : gset string * gset string) (op : operation) : result message (gset string * gset string) :=
  let '(seen, actionSet) := st in
  if negb (namePattern (name op)) then Err [FS "operation name "; FQ (name op); FS ": not an S3 operation name"]
  else if bool_decide (name op ∈ seen) then Err [FS "operation "; FS (name op); FS ": duplicate"]
  else match scopes (scope op), supports (support op) with
  | None, _ => Err [FS "operation "; FS (name op); FS ": unknown scope "; FQ (scope op)]
  | _, None => Err [FS "operation "; FS (name op); FS ": unknown support "; FQ (support op)]
  | Some _, Some _ =>
    if bool_decide (support op = "refused") && (0 <? length (authorizations op))%nat
    then Err [FS "operation "; FS (name op); FS ": a refused operation authorizes nothing"]
    else
      actionSet ← foldM (validate_authorization op) actionSet (authorizations op);
      Ok ({[name op]} ∪ seen, actionSet)
  end.

Definition constant_of (a : string) : constant := {| CName := "Action" +:+ strings.TrimPrefix a "s3:"; Value := a |}.

Definition value_le (a b : constant) : Prop := String.le (Value a) (Value b).
#[export] Instance value_le_dec : RelDecision value_le.
Proof. intros a b. unfold value_le. apply _. Defined.

Definition validate (c : catalog) : result message (list constant) :=
  '(_, actionSet) ← foldM validate_operation (∅, ∅) c;
  Ok (merge_sort value_le (constant_of <$> elements actionSet)).

(** ** The file *)

(** What the template declares. *)
Record generated := { op_consts : list constant; action_consts : list constant; operations : list s3op.Operation; actions : list string }.

(** The value of a constant the file refers to. *)
Definition value_of (consts : list constant) (n : string) : option string :=
  Value <$> head (filter (fun c => CName c = n) consts).

(** [Action{{slice .Action 3}}]. *)
Definition action_name (a : string) : string := "Action" +:+ strings.drop 3 a.

Definition emit_authorization (consts : list constant) (a : authorization) : option s3op.Authorization :=
  act ← value_of consts (action_name (action a));
  on ← resources (on a);
  ver ← (if bool_decide (version_action a = "") then Some "" else value_of consts (action_name (version_action a)));
  Some {| s3op.Action := act; s3op.On := on; s3op.VersionAction := ver; s3op.Header := header a |}.

Definition emit_operation (ops consts : list constant) (o : operation) : option s3op.Operation :=
  n ← value_of ops ("Op" +:+ name o);
  sc ← scopes (scope o);
  su ← supports (support o);
  aus ← mapM (emit_authorization consts) (authorizations o);
  Some {| s3op.Name := n; s3op.OpScope := sc; s3op.OpSupport := su; s3op.Authorizations := aus; s3op.Note := note o |}.

Definition op_constant (o : operation) : constant := {| CName := "Op" +:+ name o; Value := name o |}.

(** [None] is a file that refers to what it does not declare. *)
Definition emit (c : catalog) (consts : list constant) : option generated :=
  let ops := op_constant <$> c in
  table ← mapM (emit_operation ops consts) c;
  acts ← mapM (fun k => value_of consts (CName k)) consts;
  Some {| op_consts := ops; action_consts := consts; operations := table; actions := acts |}.

(** [File] on the decoded document. *)
Definition File (c : catalog) : result message (option generated) :=
  match validate c with
  | Err m => Err (FS SourceFile :: FS ": " :: m)
  | Ok consts => Ok (emit c consts)
  end.

(** ** operations.json *)

Definition source : catalog := [
  {| name := "ListBuckets"; scope := "service"; support := "supported";
     authorizations := [{| action := "s3:ListAllMyBuckets"; on := "target"; version_action := ""; header := "" |}];
     note := "answered from the store; lists the requester's own buckets, authorized by the user policy alone" |};
  {| name := "HeadBucket"; scope := "bucket"; support := "supported";
     authorizations := [{| action := "s3:ListBucket"; on := "target"; version_action := ""; header := "" |}];
     note := "" |};
  {| name := "ListObjects"; scope := "bucket"; support := "supported";
     authorizations := [{| action := "s3:ListBucket"; on := "target"; version_action := ""; header := "" |}];
     note := "" |};
  {| name := "ListObjectsV2"; scope := "bucket"; support := "supported";
     authorizations := [{| action := "s3:ListBucket"; on := "target"; version_action := ""; header := "" |}];
     note := "" |};
  {| name := "ListObjectVersions"; scope := "bucket"; support := "supported";
     authorizations := [{| action := "s3:ListBucketVersions"; on := "target"; version_action := ""; header := "" |}];
     note := "" |};
  {| name := "ListMultipartUploads"; scope := "bucket"; support := "supported";
     authorizations := [{| action := "s3:ListBucketMultipartUploads"; on := "target"; version_action := ""; header := "" |}];
     note := "" |};
  {| name := "GetBucketLocation"; scope := "bucket"; support := "supported";
     authorizations := [{| action := "s3:GetBucketLocation"; on := "target"; version_action := ""; header := "" |}];
     note := "" |};
  {| name := "GetBucketAcl"; scope := "bucket"; support := "supported";
     authorizations := [{| action := "s3:GetBucketAcl"; on := "target"; version_action := ""; header := "" |}];
     note := "" |};
  {| name := "GetBucketPolicy"; scope := "bucket"; support := "supported";
     authorizations := [{| action := "s3:GetBucketPolicy"; on := "target"; version_action := ""; header := "" |}];
     note := "" |};
  {| name := "GetBucketPolicyStatus"; scope := "bucket"; support := "supported";
     authorizations := [{| action := "s3:GetBucketPolicyStatus"; on := "target"; version_action := ""; header := "" |}];
     note := "" |};
  {| name := "GetBucketCors"; scope := "bucket"; support := "supported";
     authorizations := [{| action := "s3:GetBucketCORS"; on := "target"; version_action := ""; header := "" |}];
     note := "" |};
  {| name := "GetBucketVersioning"; scope := "bucket"; support := "supported";
     authorizations := [{| action := "s3:GetBucketVersioning"; on := "target"; version_action := ""; header := "" |}];
     note := "" |};
  {| name := "GetBucketEncryption"; scope := "bucket"; support := "supported";
     authorizations := [{| action := "s3:GetEncryptionConfiguration"; on := "target"; version_action := ""; header := "" |}];
     note := "" |};
  {| name := "GetBucketOwnershipControls"; scope := "bucket"; support := "supported";
     authorizations := [{| action := "s3:GetBucketOwnershipControls"; on := "target"; version_action := ""; header := "" |}];
     note := "" |};
  {| name := "GetPublicAccessBlock"; scope := "bucket"; support := "supported";
     authorizations := [{| action := "s3:GetBucketPublicAccessBlock"; on := "target"; version_action := ""; header := "" |}];
     note := "" |};
  {| name := "GetObjectLockConfiguration"; scope := "bucket"; support := "supported";
     authorizations := [{| action := "s3:GetBucketObjectLockConfiguration"; on := "target"; version_action := ""; header := "" |}];
     note := "" |};
  {| name := "DeleteObjects"; scope := "bucket"; support := "supported";
     authorizations := [{| action := "s3:DeleteObject"; on := "each-key"; version_action := "s3:DeleteObjectVersion"; header := "" |};
       {| action := "s3:BypassGovernanceRetention"; on := "each-key"; version_action := ""; header := "x-amz-bypass-governance-retention" |}];
     note := "" |};
  {| name := "PostObject"; scope := "bucket"; support := "supported";
     authorizations := [{| action := "s3:PutObject"; on := "target"; version_action := ""; header := "" |};
       {| action := "s3:PutObjectTagging"; on := "target"; version_action := ""; header := "x-amz-tagging" |}];
     note := "browser-based POST upload; header names the form field" |};
  {| name := "CreateBucket"; scope := "bucket"; support := "refused";
     authorizations := [];
     note := "buckets are created by the control plane" |};
  {| name := "DeleteBucket"; scope := "bucket"; support := "refused";
     authorizations := [];
     note := "buckets are deleted by the control plane" |};
  {| name := "PutBucketAcl"; scope := "bucket"; support := "refused";
     authorizations := [];
     note := "ACLs are disabled" |};
  {| name := "PutBucketPolicy"; scope := "bucket"; support := "refused";
     authorizations := [];
     note := "bucket configuration is written where the bucket is created, not through the S3 API" |};
  {| name := "DeleteBucketPolicy"; scope := "bucket"; support := "refused";
     authorizations := [];
     note := "bucket configuration is written where the bucket is created, not through the S3 API" |};
  {| name := "PutBucketCors"; scope := "bucket"; support := "refused";
     authorizations := [];
     note := "bucket configuration is written where the bucket is created, not through the S3 API" |};
  {| name := "DeleteBucketCors"; scope := "bucket"; support := "refused";
     authorizations := [];
     note := "bucket configuration is written where the bucket is created, not through the S3 API" |};
  {| name := "PutBucketVersioning"; scope := "bucket"; support := "refused";
     authorizations := [];
     note := "bucket configuration is written where the bucket is created, not through the S3 API" |};
  {| name := "PutObjectLockConfiguration"; scope := "bucket"; support := "refused";
     authorizations := [];
     note := "bucket configuration is written where the bucket is created, not through the S3 API" |};
  {| name := "PutBucketEncryption"; scope := "bucket"; support := "refused";
     authorizations := [];
     note := "bucket configuration is written where the bucket is created, not through the S3 API" |};
  {| name := "DeleteBucketEncryption"; scope := "bucket"; support := "refused";
     authorizations := [];
     note := "bucket configuration is written where the bucket is created, not through the S3 API" |};
  {| name := "PutBucketOwnershipControls"; scope := "bucket"; support := "refused";
     authorizations := [];
     note := "bucket configuration is written where the bucket is created, not through the S3 API" |};
  {| name := "DeleteBucketOwnershipControls"; scope := "bucket"; support := "refused";
     authorizations := [];
     note := "bucket configuration is written where the bucket is created, not through the S3 API" |};
  {| name := "PutPublicAccessBlock"; scope := "bucket"; support := "refused";
     authorizations := [];
     note := "bucket configuration is written where the bucket is created, not through the S3 API" |};
  {| name := "DeletePublicAccessBlock"; scope := "bucket"; support := "refused";
     authorizations := [];
     note := "bucket configuration is written where the bucket is created, not through the S3 API" |};
  {| name := "GetObject"; scope := "object"; support := "supported";
     authorizations := [{| action := "s3:GetObject"; on := "target"; version_action := "s3:GetObjectVersion"; header := "" |}];
     note := "" |};
  {| name := "HeadObject"; scope := "object"; support := "supported";
     authorizations := [{| action := "s3:GetObject"; on := "target"; version_action := "s3:GetObjectVersion"; header := "" |}];
     note := "" |};
  {| name := "GetObjectAttributes"; scope := "object"; support := "supported";
     authorizations := [{| action := "s3:GetObject"; on := "target"; version_action := "s3:GetObjectVersion"; header := "" |}];
     note := "" |};
  {| name := "PutObject"; scope := "object"; support := "supported";
     authorizations := [{| action := "s3:PutObject"; on := "target"; version_action := ""; header := "" |};
       {| action := "s3:PutObjectTagging"; on := "target"; version_action := ""; header := "x-amz-tagging" |};
       {| action := "s3:PutObjectRetention"; on := "target"; version_action := ""; header := "x-amz-object-lock-mode" |};
       {| action := "s3:PutObjectRetention"; on := "target"; version_action := ""; header := "x-amz-object-lock-retain-until-date" |};
       {| action := "s3:PutObjectLegalHold"; on := "target"; version_action := ""; header := "x-amz-object-lock-legal-hold" |}];
     note := "" |};
  {| name := "CopyObject"; scope := "object"; support := "supported";
     authorizations := [{| action := "s3:PutObject"; on := "target"; version_action := ""; header := "" |};
       {| action := "s3:PutObjectTagging"; on := "target"; version_action := ""; header := "x-amz-tagging" |};
       {| action := "s3:PutObjectRetention"; on := "target"; version_action := ""; header := "x-amz-object-lock-mode" |};
       {| action := "s3:PutObjectRetention"; on := "target"; version_action := ""; header := "x-amz-object-lock-retain-until-date" |};
       {| action := "s3:PutObjectLegalHold"; on := "target"; version_action := ""; header := "x-amz-object-lock-legal-hold" |};
       {| action := "s3:GetObject"; on := "copy-source"; version_action := "s3:GetObjectVersion"; header := "" |}];
     note := "" |};
  {| name := "DeleteObject"; scope := "object"; support := "supported";
     authorizations := [{| action := "s3:DeleteObject"; on := "target"; version_action := "s3:DeleteObjectVersion"; header := "" |};
       {| action := "s3:BypassGovernanceRetention"; on := "target"; version_action := ""; header := "x-amz-bypass-governance-retention" |}];
     note := "" |};
  {| name := "GetObjectTagging"; scope := "object"; support := "supported";
     authorizations := [{| action := "s3:GetObjectTagging"; on := "target"; version_action := "s3:GetObjectVersionTagging"; header := "" |}];
     note := "" |};
  {| name := "PutObjectTagging"; scope := "object"; support := "supported";
     authorizations := [{| action := "s3:PutObjectTagging"; on := "target"; version_action := "s3:PutObjectVersionTagging"; header := "" |}];
     note := "" |};
  {| name := "DeleteObjectTagging"; scope := "object"; support := "supported";
     authorizations := [{| action := "s3:DeleteObjectTagging"; on := "target"; version_action := "s3:DeleteObjectVersionTagging"; header := "" |}];
     note := "" |};
  {| name := "GetObjectAcl"; scope := "object"; support := "supported";
     authorizations := [{| action := "s3:GetObjectAcl"; on := "target"; version_action := "s3:GetObjectVersionAcl"; header := "" |}];
     note := "" |};
  {| name := "GetObjectRetention"; scope := "object"; support := "supported";
     authorizations := [{| action := "s3:GetObjectRetention"; on := "target"; version_action := ""; header := "" |}];
     note := "" |};
  {| name := "PutObjectRetention"; scope := "object"; support := "supported";
     authorizations := [{| action := "s3:PutObjectRetention"; on := "target"; version_action := ""; header := "" |};
       {| action := "s3:BypassGovernanceRetention"; on := "target"; version_action := ""; header := "x-amz-bypass-governance-retention" |}];
     note := "" |};
  {| name := "GetObjectLegalHold"; scope := "object"; support := "supported";
     authorizations := [{| action := "s3:GetObjectLegalHold"; on := "target"; version_action := ""; header := "" |}];
     note := "" |};
  {| name := "PutObjectLegalHold"; scope := "object"; support := "supported";
     authorizations := [{| action := "s3:PutObjectLegalHold"; on := "target"; version_action := ""; header := "" |}];
     note := "" |};
  {| name := "PutObjectAcl"; scope := "object"; support := "refused";
     authorizations := [];
     note := "ACLs are disabled" |};
  {| name := "CreateMultipartUpload"; scope := "object"; support := "supported";
     authorizations := [{| action := "s3:PutObject"; on := "target"; version_action := ""; header := "" |};
       {| action := "s3:PutObjectTagging"; on := "target"; version_action := ""; header := "x-amz-tagging" |};
       {| action := "s3:PutObjectRetention"; on := "target"; version_action := ""; header := "x-amz-object-lock-mode" |};
       {| action := "s3:PutObjectRetention"; on := "target"; version_action := ""; header := "x-amz-object-lock-retain-until-date" |};
       {| action := "s3:PutObjectLegalHold"; on := "target"; version_action := ""; header := "x-amz-object-lock-legal-hold" |}];
     note := "" |};
  {| name := "UploadPart"; scope := "object"; support := "supported";
     authorizations := [{| action := "s3:PutObject"; on := "target"; version_action := ""; header := "" |}];
     note := "" |};
  {| name := "UploadPartCopy"; scope := "object"; support := "supported";
     authorizations := [{| action := "s3:PutObject"; on := "target"; version_action := ""; header := "" |};
       {| action := "s3:GetObject"; on := "copy-source"; version_action := "s3:GetObjectVersion"; header := "" |}];
     note := "" |};
  {| name := "CompleteMultipartUpload"; scope := "object"; support := "supported";
     authorizations := [{| action := "s3:PutObject"; on := "target"; version_action := ""; header := "" |}];
     note := "" |};
  {| name := "AbortMultipartUpload"; scope := "object"; support := "supported";
     authorizations := [{| action := "s3:AbortMultipartUpload"; on := "target"; version_action := ""; header := "" |}];
     note := "" |};
  {| name := "ListParts"; scope := "object"; support := "supported";
     authorizations := [{| action := "s3:ListMultipartUploadParts"; on := "target"; version_action := ""; header := "" |}];
     note := "" |}].

End s3opgen.
