(* ===== verification/OpGenFacts.v ===== *)
(** * Facts about the generator of the catalog

    What the check accepts, and that every file generated from an accepted
    source compiles and declares exactly what the source says. *)

From S2P Require Import Prelude Unicode GoStrings GoError Catalog OpGen.
Import s3opgen.

Open Scope Z_scope.

(** ** What is accepted *)

Definition named (a : authorization) : list string := action a :: (if bool_decide (version_action a = "") then [] else [version_action a]).

Definition wf_authorization (a : authorization) : Prop :=
  Forall (fun x => actionPattern x = true) (named a) /\ (version_action a = "" \/ header a = "") /\
  is_Some (resources (on a)) /\ header a = strings.ToLower (header a).

Definition wf_operation (o : operation) : Prop :=
  namePattern (name o) = true /\ is_Some (scopes (scope o)) /\ is_Some (supports (support o)) /\
  (support o = "refused" -> authorizations o = []) /\ Forall wf_authorization (authorizations o).

Definition accepted (c : catalog) : Prop := Forall wf_operation c /\ NoDup (name <$> c).

Definition actions_of (c : catalog) : list string := c ≫= fun o => authorizations o ≫= named.

Lemma validate_authorization_iff o S a S' :
  validate_authorization o S a = Ok S' <-> wf_authorization a /\ S' = {[action a]} ∪ ((if bool_decide (version_action a = "") then ∅ else {[version_action a]}) ∪ S).
Proof.
  unfold validate_authorization, wf_authorization, named.
  destruct (actionPattern (action a)) eqn:Ha; cbn [negb];
    [|split; [done|]; intros [[[H _]%Forall_cons_1 _] _]; congruence].
  rewrite Forall_cons, Ha. unfold mbind, result_bind.
  destruct (bool_decide_reflect (version_action a = "")) as [Hv|Hv]; [rewrite union_empty_l_L|rewrite Forall_singleton].
  2: destruct (actionPattern (version_action a)), (bool_decide_reflect (header a = "")); cbn [negb]; try naive_solver.
  all: destruct (resources (on a)); [|split; [done|]; intros ((_ & _ & [? ?] & _) & _); done].
  all: destruct (bool_decide_reflect (header a = strings.ToLower (header a))); cbn [negb]; [|split; [done|naive_solver]].
  all: split; [intros [= <-]; naive_solver|intros [_ ->]; done].
Qed.

Lemma validate_authorizations_iff o aus : forall S S',
  foldM (validate_authorization o) S aus = Ok S' <-> Forall wf_authorization aus /\ S' = list_to_set (aus ≫= named) ∪ S.
Proof.
  induction aus as [|a aus IH]; intros S S'; cbn [foldM].
  - change (list_to_set ([] ≫= named)) with (∅ : gset string). rewrite union_empty_l_L. split; [intros [= ->]; done|intros [_ ->]; done].
  - rewrite Forall_cons. destruct (validate_authorization o S a) as [S1|e] eqn:H1.
    + apply validate_authorization_iff in H1 as [Hw ->]. rewrite IH.
      assert (list_to_set (aus ≫= named) ∪ ({[action a]} ∪ ((if bool_decide (version_action a = "") then ∅ else {[version_action a]}) ∪ S)) =
        (list_to_set ((a :: aus) ≫= named) ∪ S : gset string)) as ->; [|naive_solver].
      rewrite bind_cons. unfold named at 2. case_bool_decide; cbn [app]; rewrite ?list_to_set_cons; set_solver.
    + split; [done|]. intros [[Hw _] _].
      assert (validate_authorization o S a = Ok ({[action a]} ∪ ((if bool_decide (version_action a = "") then ∅ else {[version_action a]}) ∪ S)))
        by (by apply validate_authorization_iff). congruence.
Qed.

Lemma validate_operation_iff seen S o seen' S' :
  validate_operation (seen, S) o = Ok (seen', S') <->
  wf_operation o /\ name o ∉ seen /\ seen' = {[name o]} ∪ seen /\ S' = list_to_set (authorizations o ≫= named) ∪ S.
Proof.
  unfold validate_operation, wf_operation.
  destruct (namePattern (name o)); cbn [negb]; [|naive_solver].
  case_bool_decide as Hs; [naive_solver|].
  destruct (scopes (scope o)); [|split; [done|]; intros ((_ & [? ?] & _) & _); done].
  destruct (supports (support o)); [|split; [done|]; intros ((_ & _ & [? ?] & _) & _); done].
  destruct (bool_decide (support o = "refused") && _) eqn:Hr.
  - apply andb_true_iff in Hr as [Hr%bool_decide_eq_true Hl%Nat.ltb_lt]. split; [done|].
    intros ((_ & _ & _ & Hn & _) & _). rewrite (Hn Hr) in Hl. simpl in Hl. lia.
  - assert (support o = "refused" -> authorizations o = []) as Hn.
    { intros Hsup. rewrite bool_decide_true in Hr by done. by destruct (authorizations o). }
    unfold mbind, result_bind. destruct (foldM _ S (authorizations o)) as [S1|e] eqn:Hf.
    + apply validate_authorizations_iff in Hf as [Hw ->]. split; [intros [= <- <-]; naive_solver|]. intros (_ & _ & -> & ->). done.
    + split; [done|]. intros ((_ & _ & _ & _ & Hw) & _).
      assert (foldM (validate_authorization o) S (authorizations o) = Ok (list_to_set (authorizations o ≫= named) ∪ S))
        by (by apply validate_authorizations_iff). congruence.
Qed.

Lemma validate_iff c : forall seen S seen' S',
  foldM validate_operation (seen, S) c = Ok (seen', S') <->
  Forall wf_operation c /\ NoDup (name <$> c) /\ Forall (fun o => name o ∉ seen) c /\
  seen' = list_to_set (name <$> c) ∪ seen /\ S' = list_to_set (actions_of c) ∪ S.
Proof.
  induction c as [|o c IH]; intros seen S seen' S'; cbn [foldM].
  - change (list_to_set (actions_of [])) with (∅ : gset string). change (list_to_set (name <$> [])) with (∅ : gset string).
    rewrite !union_empty_l_L. split; [intros [= -> ->]; split_and!; try done; constructor|intros (_ & _ & _ & -> & ->); done].
  - unfold actions_of. rewrite bind_cons, list_to_set_app_L. fold (actions_of c). rewrite fmap_cons, list_to_set_cons, !Forall_cons, NoDup_cons.
    destruct (validate_operation (seen, S) o) as [[seen1 S1]|e] eqn:H1.
    + apply validate_operation_iff in H1 as (Hw & Hn & -> & ->). rewrite IH.
      assert (Forall (fun o' => name o' ∉ {[name o]} ∪ seen) c <-> name o ∉ name <$> c /\ Forall (fun o' => name o' ∉ seen) c) as ->.
      { rewrite !Forall_forall, list_elem_of_fmap. set_solver. }
      rewrite !(assoc_L (∪)). rewrite (comm_L (∪) (list_to_set (name <$> c)) {[name o]}).
      rewrite (comm_L (∪) (list_to_set (actions_of c)) (list_to_set (authorizations o ≫= named))). naive_solver.
    + split; [done|]. intros ([Hw _] & _ & [Hn _] & _).
      assert (validate_operation (seen, S) o = Ok ({[name o]} ∪ seen, list_to_set (authorizations o ≫= named) ∪ S))
        by (by apply validate_operation_iff). congruence.
Qed.

(** ** Constants *)

Lemma action_split a : actionPattern a = true -> exists r, a = "s3:" +:+ r.
Proof. unfold actionPattern. intros [H _]%andb_true_iff. by apply HasPrefix_true. Qed.

Lemma constant_of_name a : actionPattern a = true -> CName (constant_of a) = action_name a.
Proof. intros [r ->]%action_split. unfold constant_of, action_name. cbn [CName]. rewrite TrimPrefix_append. by change (strings.drop 3 ("s3:" +:+ r)) with r. Qed.

Lemma action_name_inj a b : actionPattern a = true -> actionPattern b = true -> action_name a = action_name b -> a = b.
Proof.
  intros [r ->]%action_split [t ->]%action_split H. unfold action_name in H.
  change (strings.drop 3 ("s3:" +:+ r)) with r in H. change (strings.drop 3 ("s3:" +:+ t)) with t in H.
  by apply (inj (String.append "Action")) in H as ->.
Qed.

Lemma value_of_in consts c : NoDup (CName <$> consts) -> c ∈ consts -> value_of consts (CName c) = Some (Value c).
Proof.
  unfold value_of. induction consts as [|k consts IH]; [by intros _ ?%elem_of_nil|].
  rewrite fmap_cons, NoDup_cons, filter_cons, elem_of_cons. intros [Hk Hn] [->|Hc].
  - by rewrite decide_True.
  - rewrite decide_False; [by apply IH|]. intros E. apply Hk. rewrite E. by apply list_elem_of_fmap_2.
Qed.

#[export] Instance value_le_trans : Transitive value_le.
Proof. intros a b d. unfold value_le. apply transitivity. Qed.
#[export] Instance value_le_total : Total value_le.
Proof. intros a b. unfold value_le. apply (total String.le). Qed.

(** The constants of an accepted source. *)
Definition constants (c : catalog) : list constant := merge_sort value_le (constant_of <$> elements (list_to_set (actions_of c) ∪ ∅ : gset string)).

Lemma validate_exact_iff c consts : validate c = Ok consts <-> accepted c /\ consts = constants c.
Proof.
  unfold validate, accepted, constants, mbind, result_bind.
  destruct (foldM validate_operation (∅, ∅) c) as [[seen S]|e] eqn:H.
  - apply validate_iff in H as (Hw & Hn & _ & -> & ->). split; [intros [= <-]; done|]. intros [_ ->]. done.
  - split; [done|]. intros [[Hw Hn] _].
    assert (foldM validate_operation (∅, ∅) c = Ok (list_to_set (name <$> c) ∪ ∅, list_to_set (actions_of c) ∪ ∅)) as Hok; [|congruence].
    apply validate_iff. split_and!; try done. apply Forall_forall. set_solver.
Qed.

Lemma elem_of_constants c k : k ∈ constants c <-> exists a, a ∈ actions_of c /\ k = constant_of a.
Proof.
  unfold constants. rewrite merge_sort_Permutation, list_elem_of_fmap. setoid_rewrite elem_of_elements.
  setoid_rewrite elem_of_union. setoid_rewrite elem_of_list_to_set. set_solver.
Qed.

Lemma accepted_patterns c a : accepted c -> a ∈ actions_of c -> actionPattern a = true.
Proof.
  intros [Hw _] (o & Ha & Ho)%list_elem_of_bind. apply list_elem_of_bind in Ha as (au & Ha & Hau).
  rewrite Forall_forall in Hw. destruct (Hw o Ho) as (_ & _ & _ & _ & Hf). rewrite Forall_forall in Hf.
  destruct (Hf au Hau) as [Hp _]. rewrite Forall_forall in Hp. by apply Hp.
Qed.

Lemma constants_nodup c : accepted c -> NoDup (CName <$> constants c) /\ NoDup (Value <$> constants c).
Proof.
  intros Hc. unfold constants. rewrite merge_sort_Permutation, <- !list_fmap_compose.
  assert (forall a, a ∈ elements (list_to_set (actions_of c) ∪ ∅ : gset string) -> actionPattern a = true) as Hp.
  { intros a Ha. apply (accepted_patterns c); [done|]. rewrite elem_of_elements, elem_of_union, elem_of_list_to_set in Ha. set_solver. }
  split; apply NoDup_fmap_2_strong; try apply NoDup_elements; cbn; [|done].
  intros a b Ha Hb H. change (CName (constant_of a) = CName (constant_of b)) in H.
  rewrite !constant_of_name in H by auto. apply action_name_inj; auto.
Qed.

(** A reference to the constant of an action finds the action. *)
Lemma value_of_action c a : accepted c -> a ∈ actions_of c -> value_of (constants c) (action_name a) = Some a.
Proof.
  intros Hc Ha. rewrite <- constant_of_name by (by eapply accepted_patterns).
  apply (value_of_in (constants c) (constant_of a)); [by apply constants_nodup|]. apply elem_of_constants. eauto.
Qed.

(** ** The file *)

(** What the source says of an authorization and an operation. *)
Definition denotes_authorization (a : authorization) (b : s3op.Authorization) : Prop :=
  s3op.Action b = action a /\ resources (on a) = Some (s3op.On b) /\ s3op.VersionAction b = version_action a /\ s3op.Header b = header a.
Definition denotes (o : operation) (p : s3op.Operation) : Prop :=
  s3op.Name p = name o /\ scopes (scope o) = Some (s3op.OpScope p) /\ supports (support o) = Some (s3op.OpSupport p) /\
  s3op.Note p = note o /\ Forall2 denotes_authorization (authorizations o) (s3op.Authorizations p).

Lemma mapM_total {A B} (f : A -> option B) (P : A -> B -> Prop) l :
  (forall x, x ∈ l -> exists y, f x = Some y /\ P x y) -> exists k, mapM f l = Some k /\ Forall2 P l k.
Proof.
  induction l as [|x l IH]; intros H; [by exists []|].
  destruct (H x) as (y & Hy & Hp); [by left|]. destruct IH as (k & Hk & Hf); [intros; apply H; by right|].
  exists (y :: k). cbn. rewrite Hy. cbn. rewrite Hk. split; [done|]. by constructor.
Qed.

Lemma emit_authorization_total c a : accepted c -> (forall x, x ∈ named a -> x ∈ actions_of c) -> wf_authorization a ->
  exists b, emit_authorization (constants c) a = Some b /\ denotes_authorization a b.
Proof.
  intros Hc Hin (_ & _ & [res Hres] & _). unfold emit_authorization.
  rewrite (value_of_action c (action a)) by (done || (apply Hin; by left)). cbn. rewrite Hres. cbn.
  assert ((if bool_decide (version_action a = "") then Some "" else value_of (constants c) (action_name (version_action a))) = Some (version_action a)) as ->.
  { unfold named in Hin. case_bool_decide as Hv; [by rewrite Hv|]. apply value_of_action; [done|]. apply Hin. set_solver. }
  cbn. eexists. split; [done|]. done.
Qed.

Lemma emit_operation_total c o : accepted c -> o ∈ c -> exists p, emit_operation (op_constant <$> c) (constants c) o = Some p /\ denotes o p.
Proof.
  intros Hc Ho. pose proof Hc as [Hw Hn]. rewrite Forall_forall in Hw. destruct (Hw o Ho) as (_ & [sc Hsc] & [su Hsu] & _ & Hau).
  unfold emit_operation.
  assert (value_of (op_constant <$> c) ("Op" +:+ name o) = Some (name o)) as ->.
  { apply (value_of_in _ (op_constant o)); [|by apply list_elem_of_fmap_2].
    rewrite <- list_fmap_compose. rewrite (list_fmap_compose name (String.append "Op")). apply NoDup_fmap_2; [apply _|done]. }
  cbn. rewrite Hsc. cbn. rewrite Hsu. cbn.
  destruct (mapM_total (emit_authorization (constants c)) denotes_authorization (authorizations o)) as (aus & -> & Hf).
  { intros a Ha. apply emit_authorization_total; [done| |by rewrite Forall_forall in Hau; apply Hau].
    intros x Hx. apply list_elem_of_bind. exists o. split; [|done]. apply list_elem_of_bind. eauto. }
  cbn. eexists. split; [done|]. done.
Qed.

Lemma emit_total c : accepted c -> exists g, emit c (constants c) = Some g /\
  op_consts g = op_constant <$> c /\ action_consts g = constants c /\ Forall2 denotes c (operations g) /\ actions g = Value <$> constants c.
Proof.
  intros Hc. unfold emit.
  destruct (mapM_total (emit_operation (op_constant <$> c) (constants c)) denotes c) as (table & -> & Hf); [intros o Ho; by apply emit_operation_total|].
  cbn. assert (mapM (fun k => value_of (constants c) (CName k)) (constants c) = Some (Value <$> constants c)) as ->.
  { apply mapM_Some. apply Forall2_fmap_r.  apply Forall_Forall2_diag. apply Forall_forall. intros k Hk. apply value_of_in; [by apply constants_nodup|done]. }
  cbn. eexists. split; [done|]. done.
Qed.

Lemma denotes_actions c ops : Forall2 denotes c ops -> forall a,
  a ∈ actions_of c <-> exists p au, p ∈ ops /\ au ∈ s3op.Authorizations p /\ a ∈ s3op.auth_actions au.
Proof.
  assert (forall aus bus, Forall2 denotes_authorization aus bus -> aus ≫= named = bus ≫= s3op.auth_actions) as Hau.
  { induction 1 as [|x y aus bus (H1 & _ & H2 & _) _ IH]; [done|]. rewrite !bind_cons, IH. unfold named, s3op.auth_actions. by rewrite H1, H2. }
  intros H a. assert (actions_of c = ops ≫= fun p => s3op.Authorizations p ≫= s3op.auth_actions) as ->.
  { unfold actions_of. induction H as [|o p c ops (_ & _ & _ & _ & Hf) _ IH]; [done|]. by rewrite !bind_cons, IH, (Hau _ _ Hf). }
  rewrite list_elem_of_bind. setoid_rewrite list_elem_of_bind. naive_solver.
Qed.

Lemma idents_nodup c : accepted c -> NoDup (CName <$> (op_constant <$> c) ++ constants c).
Proof.
  intros Hc. rewrite fmap_app, NoDup_app. split_and!; [| |by apply constants_nodup].
  - rewrite <- list_fmap_compose, (list_fmap_compose name (String.append "Op")). apply NoDup_fmap_2; [apply _|]. apply Hc.
  - intros x (k & -> & (o & -> & _)%list_elem_of_fmap)%list_elem_of_fmap (j & Hx & (a & _ & ->)%elem_of_constants)%list_elem_of_fmap.
    discriminate Hx.
Qed.

(** C26. The catalog of the gateway is the one generated from operations.json.
    For any source, generation succeeds exactly when the source has the
    documented structure, and then the file compiles (no identifier is declared
    twice, none is missing), its table says of every operation what the source
    says, a refused operation authorizes nothing, and the list of actions is
    that of the authorizations, sorted and without repetition. *)
Theorem catalog_generated :
  (exists consts, File source = Ok (Some
     {| op_consts := op_constant <$> source; action_consts := consts; operations := s3op.operations; actions := s3op.actions |})) /\
  forall c, match File c with
  | Err _ => ~ accepted c
  | Ok None => False
  | Ok (Some g) =>
    accepted c /\ NoDup (CName <$> op_consts g ++ action_consts g) /\ Forall2 denotes c (operations g) /\
    Forall (fun p => s3op.OpSupport p = s3op.Refused -> s3op.Authorizations p = []) (operations g) /\
    StronglySorted String.le (actions g) /\ NoDup (actions g) /\
    forall a, a ∈ actions g <-> exists p au, p ∈ operations g /\ au ∈ s3op.Authorizations p /\ a ∈ s3op.auth_actions au
  end.
Proof.
  split; [eexists; vm_compute; reflexivity|]. intros c. unfold File.
  destruct (validate c) as [consts|e] eqn:Hv.
  - apply validate_exact_iff in Hv as [Hc ->]. destruct (emit_total c Hc) as (g & -> & -> & -> & Hd & ->).
    split_and!; [done|by apply idents_nodup|done| | |by apply constants_nodup|].
    + destruct Hc as [Hw _]. apply Forall_forall. intros p Hp.
      apply list_elem_of_lookup_1 in Hp as [i Hp]. destruct (Forall2_lookup_r _ _ _ _ _ Hd Hp) as (o & Ho & _ & _ & Hsu & _ & Hf).
      apply list_elem_of_lookup_2 in Ho. rewrite Forall_forall in Hw. destruct (Hw o Ho) as (_ & _ & _ & Hr & _).
      intros E. rewrite E in Hsu. rewrite Hr in Hf; [by inversion Hf|].
      unfold supports in Hsu. repeat case_bool_decide; done.
    + eapply (StronglySorted_fmap Value value_le); [done|]. apply (StronglySorted_merge_sort value_le).
    + intros a. rewrite <- (denotes_actions c _ Hd), list_elem_of_fmap. split.
      * intros (k & -> & (b & Hb & ->)%elem_of_constants). done.
      * intros Ha. exists (constant_of a). split; [done|]. apply elem_of_constants. eauto.
  - intros Hc. assert (validate c = Ok (constants c)) by (by apply validate_exact_iff). congruence.
Qed.
