(* ===== verification/Config.v ===== *)
(** * The static configuration and its store (src/config.go, src/store.go)

    The configuration as the YAML decoder leaves it, its defaults, its
    validation with the names that must be unique across tenants, what loading
    accepts, and the read-only store built from it. *)

From S2P Require Import Prelude Unicode GoStrings JSON GoNet GoError Glob NetIP Policy PolicyFacts Dialect DialectFacts Signer Cors Store Catalog.

Open Scope Z_scope.

Module config.

Definition DefaultListen : string := ":8080".

Record CircuitBreakerConfig := { Failures : Z; Cooldown : Z }.
Record MetricsConfig := { MTenant : bool; MBucket : bool }.
Record KeyConfig := { KAccessKeyID : string; KSecretAccessKey : string }.
Record UserConfig := { UName : string; Keys : list KeyConfig; UPolicy : list policy.ActionStatement }.

(** A missing backend is [None]. *)
Record BucketConfig := {
  BName : string;
  Backend : option store.Backend;
  BPolicyText : string;
  BCORS : list cors.Rule;
  BCreatedAt : Z }.

Record TenantConfig := { TName : string; Users : list UserConfig; Buckets : list BucketConfig }.

Record Config := {
  Listen : string;
  VirtualHostSuffix : string;
  CircuitBreaker : option CircuitBreakerConfig;
  Metrics : option MetricsConfig;
  StrictActions : bool;
  Tenants : list TenantConfig }.

(** ** Defaults *)

Definition bucket_defaults (b : BucketConfig) : BucketConfig :=
  {| BName := BName b; Backend := (fun be => store.SetDefaults be (BName b)) <$> Backend b; BPolicyText := BPolicyText b;
     BCORS := BCORS b; BCreatedAt := BCreatedAt b |}.

Definition SetDefaults (c : Config) : Config :=
  {| Listen := if bool_decide (Listen c = "") then DefaultListen else Listen c;
     VirtualHostSuffix := VirtualHostSuffix c; CircuitBreaker := CircuitBreaker c; Metrics := Metrics c; StrictActions := StrictActions c;
     Tenants := map (fun t => {| TName := TName t; Users := Users t; Buckets := map bucket_defaults (Buckets t) |}) (Tenants c) |}.

(** ** Errors, one constructor per message *)

Inductive config_error :=
| NoTenants
| BreakerFailures
| BreakerCooldown
| InvalidName (tenant : string) (e : goerror)
| DuplicateTenant (name : string)
| NoUsers (tenant : string)
| DuplicateUser (tenant user : string)
| NoKeys (tenant user : string)
| IncompleteKey (tenant user : string)
| DuplicateKey (tenant user id : string)
| InvalidUserPolicy (tenant user : string) (e : policy.perror goerror)
| UserPolicyTooLarge (tenant user : string) (n : nat)
| NoBuckets (tenant : string)
| DuplicateBucket (name : string)
| NoBackend (bucket : string)
| InvalidBackend (bucket : string) (e : goerror)
| SharedBackend (bucket backendBucket endpoint owner : string)
| InvalidBucketPolicy (bucket : string) (e : dialect.derror goerror)
| InvalidRule (bucket : string) (e : cors.rule_error)
| OnlyUnknownActions (errs : list (message * message * goerror)).

(** [errors.Is(err, s3op.ErrUnknownAction)] on what [Validate] returns. *)
Definition is_unknown_action (e : config_error) : bool :=
  match e with OnlyUnknownActions errs => existsb (fun x => errors.Is x.2 s3op.ErrUnknownAction) errs | _ => false end.

(** ** Validation *)

Definition CircuitBreaker_validate (c : CircuitBreakerConfig) : result config_error unit :=
  if Failures c <? 1 then Err BreakerFailures
  else if Cooldown c <=? 0 then Err BreakerCooldown
  else Ok tt.

Record configNames := {
  bucketNames : gset string;
  keyIDs : gset string;
  backendOwner : gmap string string;
  unknownActions : list (message * message * goerror) }.

Definition no_names : configNames := {| bucketNames := ∅; keyIDs := ∅; backendOwner := ∅; unknownActions := [] |}.

Definition with_keys (n : configNames) (ks : gset string) : configNames :=
  {| bucketNames := bucketNames n; keyIDs := ks; backendOwner := backendOwner n; unknownActions := unknownActions n |}.
Definition with_unknown (n : configNames) (errs : list (message * message * goerror)) : configNames :=
  {| bucketNames := bucketNames n; keyIDs := keyIDs n; backendOwner := backendOwner n; unknownActions := unknownActions n ++ errs |}.

(** The checker the configuration passes, as the policy package calls it. *)
Definition checker (a : string) : option goerror :=
  match s3op.CheckActionPattern a with Ok _ => None | Err e => Some e end.

(** [splitUnknownActions] on an error of the policy package: the names with
    the unknown actions recorded, and any other error. *)
Definition splitUnknownActions (n : configNames) (err : option (policy.perror goerror)) (prefix : message)
    : configNames * option (policy.perror goerror) :=
  match err with
  | Some (policy.UnknownActions errs) =>
    if existsb (fun x => errors.Is x.2 s3op.ErrUnknownAction) errs
    then (with_unknown n (map (fun x => (prefix, x.1, x.2)) errs), None)
    else (n, err)
  | _ => (n, err)
  end.

Definition error_of {E A} (r : result E A) : option E := match r with Ok _ => None | Err e => Some e end.

Definition validate_key (tenant user : string) (n : configNames) (k : KeyConfig) : result config_error configNames :=
  if bool_decide (KAccessKeyID k = "") || bool_decide (KSecretAccessKey k = "") then Err (IncompleteKey tenant user)
  else if bool_decide (KAccessKeyID k ∈ keyIDs n) then Err (DuplicateKey tenant user (KAccessKeyID k))
  else Ok (with_keys n ({[KAccessKeyID k]} ∪ keyIDs n)).

Definition user_policy (u : UserConfig) : policy.UserPolicy := {| policy.Statements := UPolicy u; policy.uCompileOnce := false |}.

Definition validateUser (n : configNames) (tenant : string) (u : UserConfig) : result config_error configNames :=
  if (length (Keys u) =? 0)%nat then Err (NoKeys tenant (UName u))
  else
    n ← foldM (validate_key tenant (UName u)) n (Keys u);
    if (length (UPolicy u) =? 0)%nat then Ok n
    else
      let err := error_of (policy.ValidateUserPolicy (Some (user_policy u)) (Some checker)) in
      match splitUnknownActions n err [FS "tenant "; FS tenant; FS ": user "; FS (UName u); FS ": policy "] with
      | (_, Some e) => Err (InvalidUserPolicy tenant (UName u) e)
      | (n, None) =>
        match dialect.MarshalUserPolicy (user_policy u) with
        | Err size => Err (UserPolicyTooLarge tenant (UName u) size)
        | Ok _ => Ok n
        end
      end.

(** The physical bucket a definition names. *)
Definition backend_bucket (name : string) (be : store.Backend) : string :=
  if bool_decide (store.BBucket be = "") then name else store.BBucket be.
Definition target (name : string) (be : store.Backend) : string := store.Endpoint be +:+ nul +:+ backend_bucket name be.

(** The policy and the CORS rules of a bucket. *)
Definition validate_policy (n : configNames) (tenant : string) (b : BucketConfig) : result config_error configNames :=
  if bool_decide (BPolicyText b = "") then Ok n
  else
    let parsed := dialect.Parse (BName b) (BPolicyText b) (Some checker) in
    match parsed with
    | Err (dialect.Invalid e) =>
      match splitUnknownActions n (Some e) [FS "tenant "; FS tenant; FS ": bucket "; FS (BName b); FS ": policy "] with
      | (_, Some e) => Err (InvalidBucketPolicy (BName b) (dialect.Invalid e))
      | (n, None) => Ok n
      end
    | Err e => Err (InvalidBucketPolicy (BName b) e)
    | Ok _ => Ok n
    end.

Definition validate_rule (b : BucketConfig) (r : cors.Rule) : result config_error unit :=
  match cors.Validate r with Ok _ => Ok tt | Err e => Err (InvalidRule (BName b) e) end.

Definition validateBucket (tenant : string) (n : configNames) (b : BucketConfig) : result config_error configNames :=
  match store.ValidateBucketName (BName b) with
  | Err e => Err (InvalidName tenant e)
  | Ok _ =>
    if bool_decide (BName b ∈ bucketNames n) then Err (DuplicateBucket (BName b))
    else match Backend b with
    | None => Err (NoBackend (BName b))
    | Some be =>
      match store.Backend_Validate be with
      | Err e => Err (InvalidBackend (BName b) e)
      | Ok _ =>
        let tg := target (BName b) be in
        match backendOwner n !! tg with
        | Some owner =>
          if negb (bool_decide (owner = tenant))
          then Err (SharedBackend (BName b) (backend_bucket (BName b) be) (store.Endpoint be) owner)
          else Ok tt
        | None => Ok tt
        end ≫= fun _ =>
        n ← validate_policy {| bucketNames := {[BName b]} ∪ bucketNames n; keyIDs := keyIDs n;
                               backendOwner := <[tg := tenant]> (backendOwner n); unknownActions := unknownActions n |} tenant b;
        _ ← each (validate_rule b) (BCORS b);
        Ok n
      end
    end
  end.

Definition validate_user (tenant : string) (s : configNames * gset string) (u : UserConfig) : result config_error (configNames * gset string) :=
  let '(n, names) := s in
  match store.ValidateUserName (UName u) with
  | Err e => Err (InvalidName tenant e)
  | Ok _ =>
    if bool_decide (UName u ∈ names) then Err (DuplicateUser tenant (UName u))
    else n ← validateUser n tenant u; Ok (n, {[UName u]} ∪ names)
  end.

Definition validateTenant (n : configNames) (t : TenantConfig) : result config_error configNames :=
  if (length (Users t) =? 0)%nat then Err (NoUsers (TName t))
  else
    '(n, _) ← foldM (validate_user (TName t)) (n, ∅) (Users t);
    if (length (Buckets t) =? 0)%nat then Err (NoBuckets (TName t))
    else foldM (validateBucket (TName t)) n (Buckets t).

Definition validate_tenant (s : configNames * gset string) (t : TenantConfig) : result config_error (configNames * gset string) :=
  let '(n, names) := s in
  match store.ValidateTenantName (TName t) with
  | Err e => Err (InvalidName (TName t) e)
  | Ok _ =>
    if bool_decide (TName t ∈ names) then Err (DuplicateTenant (TName t))
    else n ← validateTenant n t; Ok (n, {[TName t]} ∪ names)
  end.

Definition Validate (c : Config) : result config_error unit :=
  if (length (Tenants c) =? 0)%nat then Err NoTenants
  else
    _ ← match CircuitBreaker c with Some cb => CircuitBreaker_validate cb | None => Ok tt end;
    '(n, _) ← foldM validate_tenant (no_names, ∅) (Tenants c);
    if (length (unknownActions n) =? 0)%nat then Ok tt else Err (OnlyUnknownActions (unknownActions n)).

(** [LoadConfig] on the decoded document: the configuration and the warnings
    logged. *)
Definition LoadConfig (c : Config) : result config_error (Config * list (message * message * goerror)) :=
  let c := SetDefaults c in
  match Validate c with
  | Ok _ => Ok (c, [])
  | Err e =>
    if StrictActions c || negb (is_unknown_action e) then Err e
    else Ok (c, match e with OnlyUnknownActions errs => errs | _ => [] end)
  end.

(** ** The store *)

Record configStore := {
  keys : gmap string store.Key;
  tenants : gmap string (gmap string store.Bucket);
  byName : gmap string store.Bucket }.

(** A bucket of the store; [None] is the panic on a policy that does not parse
    (or a backend that is nil, which validation refuses). *)
Definition new_bucket (tenant : string) (b : BucketConfig) : option store.Bucket :=
  be ← Backend b;
  p ← (if bool_decide (BPolicyText b = "") then Some None
       else match @dialect.Parse goerror (BName b) (BPolicyText b) None with Ok p => Some (Some p) | Err _ => None end);
  Some {| store.Tenant := tenant; store.Name := BName b; store.BBackend := be; store.CreatedAt := BCreatedAt b;
          store.PolicyText := BPolicyText b; store.BPolicy := p; store.CORS := BCORS b; store.BMetadata := None |}.

Fixpoint add_buckets (tenant : string) (acc : gmap string store.Bucket * gmap string store.Bucket) (l : list BucketConfig)
    : option (gmap string store.Bucket * gmap string store.Bucket) :=
  match l with
  | [] => Some acc
  | b :: l => bk ← new_bucket tenant b; add_buckets tenant (<[BName b := bk]> acc.1, <[BName b := bk]> acc.2) l
  end.

Definition new_key (tenant : string) (u : UserConfig) (k : KeyConfig) : store.Key :=
  {| store.AccessKeyID := KAccessKeyID k; store.SecretAccessKey := KSecretAccessKey k; store.SigningKey := None; store.SecretVersion := "";
     store.KTenant := tenant; store.User := UName u; store.SessionToken := "";
     store.KPolicy := if (0 <? length (UPolicy u))%nat then Some (user_policy u) else None; store.KMetadata := None |}.

Definition add_user_keys (tenant : string) (acc : gmap string store.Key) (u : UserConfig) : gmap string store.Key :=
  fold_left (fun acc k => <[KAccessKeyID k := new_key tenant u k]> acc) (Keys u) acc.

Definition add_tenant (s : configStore) (t : TenantConfig) : option configStore :=
  '(buckets, byname) ← add_buckets (TName t) (∅, byName s) (Buckets t);
  Some {| keys := fold_left (add_user_keys (TName t)) (Users t) (keys s);
          tenants := <[TName t := buckets]> (tenants s);
          byName := byname |}.

Fixpoint add_tenants (s : configStore) (l : list TenantConfig) : option configStore :=
  match l with
  | [] => Some s
  | t :: l => s ← add_tenant s t; add_tenants s l
  end.

Definition NewConfigStore (c : Config) : option configStore :=
  add_tenants {| keys := ∅; tenants := ∅; byName := ∅ |} (Tenants c).

Definition not_found : goerror := Sentinel store.ErrNotFound.

Definition GetKey (s : configStore) (accessKeyID _token : string) : result goerror store.Key :=
  match keys s !! accessKeyID with Some k => Ok k | None => Err not_found end.
Definition GetBucket (s : configStore) (tenant bucket : string) : result goerror store.Bucket :=
  match tenants s !! tenant ≫= (fun m => m !! bucket) with Some b => Ok b | None => Err not_found end.
Definition GetBucketByName (s : configStore) (bucket : string) : result goerror store.Bucket :=
  match byName s !! bucket with Some b => Ok b | None => Err not_found end.

(** The entries come in the order the map is walked. *)
Definition ListBuckets (s : configStore) (tenant : string) : result goerror (list store.BucketEntry) :=
  match tenants s !! tenant with
  | None => Err not_found
  | Some m => Ok (map (fun e => {| store.EName := store.Name e.2; store.ECreatedAt := store.CreatedAt e.2 |}) (map_to_list m))
  end.

(** The configuration's implementation of the [Store] interface. *)
Definition as_store (s : configStore) : store.Store :=
  {| store.GetKey := GetKey s; store.GetBucket := GetBucket s; store.GetBucketByName := GetBucketByName s; store.ListBuckets := ListBuckets s |}.

End config.
