(* ===== verification/ConfigFacts.v ===== *)
(** * What loading a configuration establishes

    The names a loaded configuration declares are unique, no physical bucket
    is shared between tenants, and the store built from it satisfies the laws
    of the [Store] interface the gateway's theorems assume. *)

From S2P Require Import Prelude Unicode GoStrings JSON GoNet GoError Glob NetIP Policy PolicyFacts Dialect DialectFacts Signer Cors Store Catalog Config.
Import config.

Open Scope Z_scope.

(** ** What has been validated so far *)

Definition user_ids (u : UserConfig) : list string := map KAccessKeyID (Keys u).
Definition tenant_ids (t : TenantConfig) : list string := concat (map user_ids (Users t)).
Definition owned (t : TenantConfig) : list (string * BucketConfig) := map (fun b => (TName t, b)) (Buckets t).

Definition policy_parses (b : BucketConfig) : Prop :=
  BPolicyText b = "" \/ exists p, @dialect.Parse goerror (BName b) (BPolicyText b) None = Ok p.

(** A bucket that has passed, with its physical target claimed. *)
Definition claimed (owners : gmap string string) (e : string * BucketConfig) : Prop :=
  exists be, Backend e.2 = Some be /\ store.Backend_Validate be = Ok tt /\ store.ValidateBucketName (BName e.2) = Ok tt /\
    owners !! target (BName e.2) be = Some e.1 /\ policy_parses e.2.

(** The names recorded are those of the keys [K] and the buckets [B]. *)
Record names_inv (n : configNames) (K : list string) (B : list (string * BucketConfig)) : Prop := {
  ni_keys : keyIDs n = list_to_set K;
  ni_keys_unique : NoDup K;
  ni_buckets : bucketNames n = list_to_set (map (fun e => BName e.2) B);
  ni_buckets_unique : NoDup (map (fun e => BName e.2) B);
  ni_claimed : Forall (claimed (backendOwner n)) B }.

(** *** Keys and users *)

Lemma validate_keys_inv tenant user ks : forall n n' K B,
  foldM (validate_key tenant user) n ks = Ok n' -> names_inv n K B -> names_inv n' (K ++ map KAccessKeyID ks) B.
Proof.
  induction ks as [|k ks IH]; intros n n' K B H Hi; cbn in H; [injection H as <-; by rewrite app_nil_r|].
  unfold validate_key in H at 1. destruct (bool_decide (KAccessKeyID k = "") || _); [done|].
  destruct (bool_decide (KAccessKeyID k ∈ keyIDs n)) eqn:Hk; [done|]. apply bool_decide_eq_false in Hk.
  cbn [map]. rewrite (cons_middle (KAccessKeyID k)), app_assoc. eapply IH; [exact H|]. destruct Hi as [H1 H2 H3 H4 H5].
  constructor; [| |exact H3|exact H4|exact H5]; cbn [keyIDs with_keys].
  - rewrite H1, list_to_set_app_L. set_solver.
  - rewrite NoDup_app. split; [done|]. split; [|apply NoDup_singleton]. intros x Hx ->%list_elem_of_singleton. apply Hk. rewrite H1. by apply elem_of_list_to_set.
Qed.

Lemma split_names n err prefix n' o : splitUnknownActions n err prefix = (n', o) ->
  keyIDs n' = keyIDs n /\ bucketNames n' = bucketNames n /\ backendOwner n' = backendOwner n.
Proof. unfold splitUnknownActions. repeat case_match; intros; simplify_eq; done. Qed.

Lemma names_inv_ext n n' K B : keyIDs n' = keyIDs n /\ bucketNames n' = bucketNames n /\ backendOwner n' = backendOwner n ->
  names_inv n K B -> names_inv n' K B.
Proof. intros (Hk & Hb & Ho) [H1 H2 H3 H4 H5]. constructor; rewrite ?Hk, ?Hb, ?Ho; done. Qed.

Lemma validateUser_inv n tenant u n' K B : validateUser n tenant u = Ok n' -> names_inv n K B -> names_inv n' (K ++ user_ids u) B.
Proof.
  unfold validateUser. destruct (length (Keys u) =? 0)%nat; [done|]. destruct (foldM _ n (Keys u)) as [n1|] eqn:Hf; [|done]. cbn. intros H Hi.
  eapply validate_keys_inv in Hf; [|exact Hi]. destruct (length (UPolicy u) =? 0)%nat; [by injection H as <-|].
  destruct (splitUnknownActions _ _ _) as [n2 [e|]] eqn:Hs; [done|]. destruct (dialect.MarshalUserPolicy _); [|done]. injection H as <-.
  apply split_names in Hs. by eapply names_inv_ext.
Qed.

Lemma validate_users_inv tenant us : forall n names n' names' K B,
  foldM (validate_user tenant) (n, names) us = Ok (n', names') -> names_inv n K B -> names_inv n' (K ++ concat (map user_ids us)) B.
Proof.
  induction us as [|u us IH]; intros n names n' names' K B H Hi; cbn in H; [injection H as <- <-; by rewrite app_nil_r|].
  unfold store.ValidateUserName, guard in H. destruct (store.principalPartRegexp (UName u)); [|done]. destruct (bool_decide _); [done|].
  destruct (validateUser n tenant u) as [n1|] eqn:Hu; [|done]. cbn in H. eapply validateUser_inv in Hu; [|exact Hi].
  cbn [map concat]. rewrite app_assoc. by eapply IH.
Qed.

(** *** Buckets *)

Lemma validate_not_unknown {CE} p errs : @policy.validate CE p <> Err (policy.UnknownActions errs).
Proof.
  unfold policy.validate. destruct (negb _ && _ && _); [done|]. destruct (length _ =? 0)%nat; [done|]. destruct (_ <? length _)%nat; [done|].
  assert (forall sids i sts, @policy.validate_loop CE sids i sts <> Err (policy.UnknownActions errs)) as H.
  { intros sids i sts. revert sids i. induction sts as [|st sts IH]; intros sids i; cbn [policy.validate_loop]; [done|].
    repeat case_match; intros E; simplify_eq; by eapply IH. }
  destruct (policy.validate_loop ∅ 0 (policy.PStatement p)) eqn:E; [done|]. intros [= ->]. by apply H in E.
Qed.

Lemma resources_not_unknown {CE} p b errs : @policy.ValidateResourcesFor CE p b <> Err (policy.UnknownActions errs).
Proof.
  unfold policy.ValidateResourcesFor. generalize 0%nat. induction (policy.PStatement p) as [|st sts IH]; intros i; cbn [each_i]; [done|].
  destruct (each _ (policy.SResource st)) as [|e] eqn:E; [apply IH|]. intros [= ->].
  induction (policy.SResource st) as [|r rs IHr]; cbn [each] in E; [done|]. unfold guard in E at 1. destruct (_ || _); [by apply IHr|done].
Qed.

(** The checker only ever adds the unknown-action error: a text it does not
    refuse for anything else parses without it. *)
Lemma parse_without_checker (check : string -> option goerror) bucket text :
  match dialect.Parse bucket text (Some check) with
  | Ok _ | Err (dialect.Invalid (policy.UnknownActions _)) => exists p, @dialect.Parse goerror bucket text None = Ok p
  | _ => True
  end.
Proof.
  unfold dialect.Parse, dialect.Dialect_Parse. destruct (_ <? _); [done|]. destruct (json.parse text ≫= dialect.decode_document) as [doc|]; [|done].
  destruct (dialect.convert_all _ _ _) as [sts|e] eqn:Hconv; cbn [mbind result_bind].
  - destruct (policy.validate _) as [p|e] eqn:Hv; cbn; [|destruct e; try done; exfalso; by eapply validate_not_unknown].
    destruct (policy.ValidateResourcesFor p bucket) as [[]|e] eqn:Hr; cbn; [|destruct e; try done; exfalso; by eapply resources_not_unknown].
    destruct (length _ =? 0)%nat; cbn; by exists p.
  - destruct e; try done. exfalso. revert Hconv. generalize 0%nat. induction (take _ _) as [|rs l IH]; intros i; cbn [dialect.convert_all]; [done|].
    destruct (dialect.convert _ i rs) as [st|e'] eqn:Hc; cbn [mbind result_bind].
    + destruct (dialect.convert_all _ _ l) eqn:Hl; cbn; [done|]. intros [= ->]. by apply IH in Hl.
    + intros [= ->]. revert Hc. unfold dialect.convert. cbn [dialect.ResourcePrefix dialect.NormalizeResource dialect.default_dialect].
      assert (forall nm o x, @dialect.decodePrincipal goerror dialect.default_dialect nm o <> Err (dialect.Invalid x)) as Hp.
      { intros nm o x. unfold dialect.decodePrincipal. cbn [dialect.NormalizePrincipal dialect.default_dialect]. repeat case_match; try done. }
      destruct (dialect.decodePrincipal _ _ (dialect.rPrincipal rs)) as [pr|e1] eqn:H1; cbn [mbind result_bind]; [|intros [= ->]; by eapply Hp].
      destruct (dialect.decodePrincipal _ _ (dialect.rNotPrincipal rs)) as [npr|e2] eqn:H2; cbn [mbind result_bind]; [|intros [= ->]; by eapply Hp].
      done.
Qed.

Lemma validate_policy_inv n tenant b n' : validate_policy n tenant b = Ok n' ->
  policy_parses b /\ keyIDs n' = keyIDs n /\ bucketNames n' = bucketNames n /\ backendOwner n' = backendOwner n.
Proof.
  unfold validate_policy, policy_parses. destruct (bool_decide (BPolicyText b = "")) eqn:Ht; [bools; intros [= <-]; auto|].
  pose proof (parse_without_checker checker (BName b) (BPolicyText b)) as Hp.
  destruct (dialect.Parse (BName b) (BPolicyText b) (Some checker)) as [p|e]; [intros [= <-]; auto|].
  destruct e as [| | | | | |e]; try done. destruct (splitUnknownActions _ _ _) as [n1 [e1|]] eqn:Hs; [done|]. intros [= <-].
  split; [|by eapply split_names]. right. by destruct e.
Qed.

Lemma validateBucket_inv tenant n b n' K B : validateBucket tenant n b = Ok n' -> names_inv n K B -> names_inv n' K (B ++ [(tenant, b)]).
Proof.
  unfold validateBucket. destruct (store.ValidateBucketName (BName b)) as [[]|] eqn:Hname; [|done].
  destruct (bool_decide (BName b ∈ bucketNames n)) eqn:Hdup; [done|]. apply bool_decide_eq_false in Hdup.
  destruct (Backend b) as [be|] eqn:Hbe; [|done]. destruct (store.Backend_Validate be) as [[]|] eqn:Hbv; [|done].
  intros H [H1 H2 H3 H4 H5].
  assert (backendOwner n !! target (BName b) be = None \/ backendOwner n !! target (BName b) be = Some tenant) as Hown.
  { destruct (backendOwner n !! target (BName b) be) as [o|]; [|by left]. right. f_equal.
    destruct (negb (bool_decide (o = tenant))) eqn:E; [done|]. by bools. }
  destruct (match backendOwner n !! target (BName b) be with Some owner => _ | None => _ end) as [[]|]; [|done]. cbn [mbind result_bind] in H.
  destruct (validate_policy _ tenant b) as [n1|] eqn:Hp; [|done]. cbn in H. destruct (each _ (BCORS b)); [|done]. cbn in H. injection H as <-.
  apply validate_policy_inv in Hp as (Hpp & Hk & Hb & Ho). cbn [keyIDs bucketNames backendOwner] in Hk, Hb, Ho.
  constructor; rewrite ?Hk, ?Hb, ?Ho; [done|done| | |].
  - rewrite map_app, list_to_set_app_L, H3. cbn. set_solver.
  - rewrite map_app, NoDup_app. split; [done|]. split; [|apply NoDup_singleton]. intros x Hx ->%list_elem_of_singleton. apply Hdup. rewrite H3. by apply elem_of_list_to_set.
  - rewrite Forall_app. split.
    + eapply Forall_impl; [exact H5|]. intros [t b'] (be' & E1 & E2 & E3 & E4 & E5). exists be'. split_and!; try done. cbn [fst snd] in *.
      destruct (decide (target (BName b) be = target (BName b') be')) as [Heq|Hne].
      * rewrite Heq in *. rewrite lookup_insert_eq. destruct Hown; congruence.
      * by rewrite lookup_insert_ne.
    + constructor; [|constructor]. exists be. split_and!; try done. cbn [fst snd]. by rewrite lookup_insert_eq.
Qed.

Lemma validate_buckets_inv tenant bs : forall n n' K B,
  foldM (validateBucket tenant) n bs = Ok n' -> names_inv n K B -> names_inv n' K (B ++ map (fun b => (tenant, b)) bs).
Proof.
  induction bs as [|b bs IH]; intros n n' K B H Hi; cbn in H; [injection H as <-; by rewrite app_nil_r|].
  destruct (validateBucket tenant n b) as [n1|] eqn:Hb; [|done]. eapply validateBucket_inv in Hb; [|exact Hi].
  cbn [map]. rewrite (cons_middle (tenant, b)), app_assoc. by eapply IH.
Qed.

(** *** Tenants *)

Lemma validate_tenants_inv ts : forall n names n' names' K B,
  foldM validate_tenant (n, names) ts = Ok (n', names') -> names_inv n K B ->
  names_inv n' (K ++ concat (map tenant_ids ts)) (B ++ concat (map owned ts)) /\
  NoDup (map TName ts) /\ (forall t, t ∈ map TName ts -> t ∉ names).
Proof.
  induction ts as [|t ts IH]; intros n names n' names' K B H Hi; cbn in H.
  { injection H as <- <-. rewrite !app_nil_r. split_and!; [done|constructor|]. intros t Ht. by apply not_elem_of_nil in Ht. }
  destruct (store.ValidateTenantName (TName t)); [|done]. destruct (bool_decide (TName t ∈ names)) eqn:Hn; [done|]. apply bool_decide_eq_false in Hn.
  unfold validateTenant in H. destruct (length (Users t) =? 0)%nat; [done|].
  destruct (foldM (validate_user (TName t)) (n, ∅) (Users t)) as [[n1 us]|] eqn:Hu; [|done]. cbn [mbind result_bind] in H.
  destruct (length (Buckets t) =? 0)%nat; [done|]. destruct (foldM (validateBucket (TName t)) n1 (Buckets t)) as [n2|] eqn:Hb; [|done]. cbn [mbind result_bind] in H.
  eapply validate_users_inv in Hu; [|exact Hi]. eapply validate_buckets_inv in Hb; [|exact Hu].
  eapply IH in H as (H1 & H2 & H3); [|exact Hb]. cbn [map concat]. rewrite !app_assoc. split_and!; [done| |].
  - constructor; [|done]. intros Hin. apply H3 in Hin. set_solver.
  - intros x [->|Hx]%elem_of_cons; [done|]. apply H3 in Hx. set_solver.
Qed.

(** What an accepted configuration satisfies. *)
Definition config_ok (c : Config) : Prop :=
  NoDup (map TName (Tenants c)) /\
  exists n, names_inv n (concat (map tenant_ids (Tenants c))) (concat (map owned (Tenants c))).

(** *** No other failure looks like unknown actions *)

Definition other (e : config_error) : Prop := is_unknown_action e = false.

Lemma foldM_err {E A S} (P : E -> Prop) (f : S -> A -> result E S) l : forall s e,
  (forall s x e, f s x = Err e -> P e) -> foldM f s l = Err e -> P e.
Proof. induction l as [|x l IH]; intros s e Hf H; cbn in H; [done|]. destruct (f s x) eqn:E0; [by eapply IH|]. simplify_eq. by eapply Hf. Qed.

Lemma validateUser_other n tenant u e : validateUser n tenant u = Err e -> other e.
Proof.
  unfold validateUser. destruct (length _ =? 0)%nat; [by intros [= <-]|]. destruct (foldM _ n (Keys u)) as [n1|e1] eqn:Hf; cbn [mbind result_bind].
  - destruct (length _ =? 0)%nat; [done|]. destruct (splitUnknownActions _ _ _) as [n2 [e2|]]; [by intros [= <-]|].
    destruct (dialect.MarshalUserPolicy _); [done|by intros [= <-]].
  - intros [= <-]. eapply foldM_err; [|exact Hf]. unfold validate_key. intros s x e0. repeat case_match; by intros [= <-].
Qed.

Lemma validateBucket_other tenant n b e : validateBucket tenant n b = Err e -> other e.
Proof.
  unfold validateBucket. destruct (store.ValidateBucketName _); [|by intros [= <-]]. destruct (bool_decide _); [by intros [= <-]|].
  destruct (Backend b) as [be|]; [|by intros [= <-]]. destruct (store.Backend_Validate be); [|by intros [= <-]].
  destruct (match backendOwner n !! _ with Some owner => _ | None => _ end) as [[]|e1] eqn:Ho; cbn [mbind result_bind].
  - destruct (validate_policy _ tenant b) as [n1|e1] eqn:Hp; cbn [mbind result_bind].
    + destruct (each _ (BCORS b)) as [|e2] eqn:Hc; [done|]. intros [= <-]. induction (BCORS b) as [|r rs IH]; cbn in Hc; [done|].
      unfold validate_rule in Hc at 1. destruct (cors.Validate r); [by apply IH|by simplify_eq].
    + intros [= <-]. unfold validate_policy in Hp. repeat case_match; simplify_eq; done.
  - intros [= <-]. repeat case_match; simplify_eq; done.
Qed.

Lemma validate_tenant_other s t e : validate_tenant s t = Err e -> other e.
Proof.
  destruct s as [n names]. cbn [validate_tenant]. destruct (store.ValidateTenantName _); [|by intros [= <-]]. destruct (bool_decide _); [by intros [= <-]|].
  unfold validateTenant. destruct (length _ =? 0)%nat; [by intros [= <-]|].
  destruct (foldM (validate_user _) _ _) as [[n1 us]|e1] eqn:Hu; cbn [mbind result_bind].
  - destruct (length _ =? 0)%nat; [by intros [= <-]|]. destruct (foldM (validateBucket _) n1 _) as [n2|e2] eqn:Hb; cbn; [done|].
    intros [= <-]. eapply foldM_err; [|exact Hb]. apply validateBucket_other.
  - intros [= <-]. eapply foldM_err; [|exact Hu]. intros [n1 us] u e0. cbn. destruct (store.ValidateUserName _); [|by intros [= <-]].
    destruct (bool_decide _); [by intros [= <-]|]. destruct (validateUser n1 (TName t) u) eqn:E; cbn; [done|]. intros [= <-]. by eapply validateUser_other.
Qed.

Lemma Validate_inv c : Validate c = Ok tt \/ (exists e, Validate c = Err e /\ is_unknown_action e = true) -> config_ok c.
Proof.
  intros H. unfold Validate in H. destruct (length (Tenants c) =? 0)%nat; [by destruct H as [|(e & [= <-] & He)]|].
  destruct (match CircuitBreaker c with Some cb => _ | None => _ end) as [[]|e0] eqn:Hcb; cbn [mbind result_bind] in H.
  2: { exfalso. destruct H as [|(e & [= <-] & He)]; [done|]. destruct (CircuitBreaker c) as [cb|]; [|done].
       unfold CircuitBreaker_validate in Hcb. repeat case_match; simplify_eq; done. }
  destruct (foldM validate_tenant _ _) as [[n names]|e0] eqn:Hf; cbn [mbind result_bind] in H.
  2: { exfalso. destruct H as [|(e & [= <-] & He)]; [done|]. apply (foldM_err other) in Hf; [unfold other in Hf; congruence|apply validate_tenant_other]. }
  eapply (validate_tenants_inv _ _ _ _ _ [] []) in Hf as (Hf & Hn & _); [split; [done|by exists n]|].
  constructor; cbn; try done; constructor.
Qed.

Lemma LoadConfig_inv c c' w : LoadConfig c = Ok (c', w) -> c' = SetDefaults c /\ config_ok c'.
Proof.
  unfold LoadConfig. destruct (Validate (SetDefaults c)) as [[]|e] eqn:Hv; [intros [= <- <-]|].
  - split; [done|]. apply Validate_inv. by left.
  - destruct (_ || _) eqn:Hs; [done|]. intros [= <- <-]. bools. split; [done|]. apply Validate_inv. right. by exists e.
Qed.

(** ** The store of an accepted configuration *)

Lemma NoDup_map_elem {A B} (f : A -> B) l x y : NoDup (map f l) -> x ∈ l -> y ∈ l -> f x = f y -> x = y.
Proof.
  induction l as [|z l IH]; [intros _ Hx; by apply not_elem_of_nil in Hx|]. cbn [map]. intros [Hz Hn]%NoDup_cons Hx Hy Hf.
  apply elem_of_cons in Hx as [->|Hx], Hy as [->|Hy]; [done| | |by apply IH]; exfalso; apply Hz; [rewrite Hf|rewrite <- Hf]; by apply list_elem_of_fmap_2.
Qed.

Definition all_owned (c : Config) : list (string * BucketConfig) := concat (map owned (Tenants c)).

Lemma new_bucket_Some t b : claimed ∅ (t, b) \/ (exists m, claimed m (t, b)) -> is_Some (new_bucket t b).
Proof.
  intros [(be & Hb & _ & _ & _ & Hp)|(m & be & Hb & _ & _ & _ & Hp)]; unfold new_bucket; cbn [snd] in *; rewrite Hb; cbn;
    (destruct (bool_decide (BPolicyText b = "")) eqn:Ht; [by eexists|]; bools; destruct Hp as [|[p ->]]; [done|by eexists]).
Qed.

Lemma new_bucket_fields t b bk : new_bucket t b = Some bk ->
  store.Tenant bk = t /\ store.Name bk = BName b /\ Backend b = Some (store.BBackend bk) /\ store.CreatedAt bk = BCreatedAt b.
Proof.
  unfold new_bucket. destruct (Backend b); [|done]. cbn. destruct (if bool_decide _ then _ else _); [|done]. cbn. by intros [= <-].
Qed.

(** A map holds exactly the given buckets besides what it held. *)
Definition extends (m m' : gmap string store.Bucket) (t : string) (l : list BucketConfig) : Prop :=
  forall x bk, m' !! x = Some bk <-> m !! x = Some bk \/ exists b, b ∈ l /\ BName b = x /\ new_bucket t b = Some bk.

Lemma add_buckets_spec t l : forall acc,
  Forall (fun b => is_Some (new_bucket t b)) l -> NoDup (map BName l) ->
  (forall b, b ∈ l -> acc.1 !! BName b = None /\ acc.2 !! BName b = None) ->
  exists r, add_buckets t acc l = Some r /\ extends acc.1 r.1 t l /\ extends acc.2 r.2 t l.
Proof.
  assert (forall (m m' : gmap string store.Bucket) b l bk, m !! BName b = None -> new_bucket t b = Some bk -> extends (<[BName b := bk]> m) m' t l -> extends m m' t (b :: l)) as Hstep.
  { intros m m' b l0 bk Hm Hbk He x bk'. rewrite (He x bk'). setoid_rewrite elem_of_cons. destruct (decide (BName b = x)) as [<-|Hne].
    - rewrite lookup_insert_eq, Hm. split; [intros [[= <-]|(b' & ?)]; eauto; right; naive_solver|].
      intros [|(b' & [->|Hb'] & Hn & Hnb)]; [done|left; congruence|right; eauto].
    - rewrite lookup_insert_ne by done. naive_solver. }
  induction l as [|b l IH]; intros acc Hs Hn Hacc.
  { exists acc. split_and!; [done|intros x bk; split; [by left|intros [|(b & Hb & _)]; [done|by apply not_elem_of_nil in Hb]]..]. }
  apply Forall_cons in Hs as [[bk Hbk] Hs]. cbn [map] in Hn. apply NoDup_cons in Hn as [Hb Hn]. cbn [add_buckets]. rewrite Hbk. cbn [mbind option_bind].
  destruct (Hacc b ltac:(left)) as [H1 H2].
  destruct (IH (<[BName b:=bk]> acc.1, <[BName b:=bk]> acc.2) Hs Hn) as (r & Hr & E1 & E2).
  { intros b' Hb'. assert (BName b <> BName b') by (intros E; apply Hb; rewrite E; by apply list_elem_of_fmap_2).
    cbn [fst snd]. rewrite !lookup_insert_ne by done. apply Hacc. by right. }
  exists r. split; [done|]. cbn [fst snd] in E1, E2. split; eapply Hstep; eauto.
Qed.

(** The maps of a store that holds the buckets [B] of the tenants [T]. *)
Record holds (s : configStore) (T : list string) (B : list (string * BucketConfig)) : Prop := {
  h_name x bk : byName s !! x = Some bk <-> exists t b, (t, b) ∈ B /\ BName b = x /\ new_bucket t b = Some bk;
  h_tenant t m : tenants s !! t = Some m -> t ∈ T /\ forall x bk, m !! x = Some bk <-> exists b, (t, b) ∈ B /\ BName b = x /\ new_bucket t b = Some bk;
  h_known t : t ∈ T -> is_Some (tenants s !! t) }.

Lemma owned_elem t u b : (u, b) ∈ owned t <-> u = TName t /\ b ∈ Buckets t.
Proof.
  unfold owned. rewrite list_elem_of_fmap. split; [intros (b' & [= -> ->] & Hb); done|]. intros [-> Hb]. by exists b.
Qed.

Lemma add_tenant_holds s T B t :
  holds s T B -> TName t ∉ T -> (forall u b, (u, b) ∈ B -> u ∈ T) ->
  NoDup (map (fun e => BName e.2) (B ++ owned t)) -> Forall (fun e => is_Some (new_bucket e.1 e.2)) (owned t) ->
  exists s', add_tenant s t = Some s' /\ holds s' (T ++ [TName t]) (B ++ owned t) /\ keys s' = fold_left (add_user_keys (TName t)) (Users t) (keys s).
Proof.
  intros [Hn Ht Hk] Hnew HB Hdup Hsome. rewrite map_app in Hdup. apply NoDup_app in Hdup as (_ & Hdis & Hdup).
  assert (map (fun e => BName e.2) (owned t) = map BName (Buckets t)) as Hmap by (unfold owned; by rewrite map_map).
  rewrite Hmap in Hdup. unfold owned in Hsome. rewrite Forall_map in Hsome. cbn in Hsome.
  destruct (add_buckets_spec (TName t) (Buckets t) (∅, byName s) Hsome Hdup) as ([m1 m2] & Hadd & E1 & E2).
  { intros b Hb. cbn. split; [done|]. destruct (byName s !! BName b) as [bk|] eqn:E; [|done]. exfalso. apply Hn in E as (u & b' & Hin & Hname & _).
    apply (Hdis (BName b)); [rewrite <- Hname; exact (list_elem_of_fmap_2 (fun e => BName e.2) _ _ Hin)|rewrite Hmap; by apply list_elem_of_fmap_2]. }
  unfold add_tenant. rewrite Hadd. eexists. split; [reflexivity|]. split; [|done]. cbn [fst snd] in E1, E2. constructor; cbn [byName tenants].
  - intros x bk. rewrite (E2 x bk), Hn. setoid_rewrite elem_of_app. setoid_rewrite owned_elem. naive_solver.
  - intros u m Hu. destruct (decide (TName t = u)) as [<-|Hne].
    + rewrite lookup_insert_eq in Hu. injection Hu as <-. split; [set_solver|]. intros x bk. rewrite (E1 x bk), lookup_empty.
      setoid_rewrite elem_of_app. setoid_rewrite owned_elem. split; [intros [|(b & Hb & Hx & Hnb)]; [done|by exists b; auto]|].
      intros (b & [Hin|[_ Hb]] & Hx & Hnb); [apply HB in Hin; done|right; by exists b].
    + rewrite lookup_insert_ne in Hu by done. apply Ht in Hu as [Hu Hm]. split; [set_solver|]. intros x bk. rewrite Hm. setoid_rewrite elem_of_app. setoid_rewrite owned_elem. naive_solver.
  - intros u [Hu|Hu%list_elem_of_singleton]%elem_of_app.
    + destruct (decide (TName t = u)) as [<-|Hne]; [by rewrite lookup_insert_eq; eexists|]. rewrite lookup_insert_ne by done. by apply Hk.
    + subst u. rewrite lookup_insert_eq. by eexists.
Qed.

Lemma add_tenants_holds ts : forall s T B,
  holds s T B -> NoDup (T ++ map TName ts) -> (forall u b, (u, b) ∈ B -> u ∈ T) ->
  NoDup (map (fun e => BName e.2) (B ++ concat (map owned ts))) -> Forall (fun e => is_Some (new_bucket e.1 e.2)) (concat (map owned ts)) ->
  exists s', add_tenants s ts = Some s' /\ holds s' (T ++ map TName ts) (B ++ concat (map owned ts)) /\
    keys s' = fold_left (fun ks t => fold_left (add_user_keys (TName t)) (Users t) ks) ts (keys s).
Proof.
  induction ts as [|t ts IH]; intros s T B Hh HT HB Hdup Hsome; cbn [map concat add_tenants].
  { exists s. rewrite !app_nil_r. done. }
  cbn [map concat] in *. rewrite app_assoc in Hdup. apply Forall_app in Hsome as [Hs1 Hs2].
  destruct (add_tenant_holds s T B t Hh) as (s1 & Ha & Hh1 & Hk1); [|done| |done|].
  - apply NoDup_app in HT as (_ & Hd & _). intros Hin. apply (Hd _ Hin). left.
  - rewrite map_app in Hdup. by apply NoDup_app in Hdup as [Hdup _].
  - rewrite Ha. cbn [mbind option_bind]. rewrite (cons_middle (TName t)) in HT |- *. rewrite app_assoc in HT |- *. rewrite app_assoc.
    destruct (IH s1 (T ++ [TName t]) (B ++ owned t) Hh1 HT) as (s' & Hs' & Hh' & Hk'); [|done|done|].
    + intros u b [Hu|Hu]%elem_of_app; [set_solver|]. apply owned_elem in Hu as [-> _]. set_solver.
    + exists s'. split; [done|]. split; [done|]. cbn [fold_left]. by rewrite Hk', Hk1.
Qed.

(** *** Keys *)

Definition user_keys (tenant : string) (u : UserConfig) : list (string * store.Key) :=
  map (fun k => (KAccessKeyID k, new_key tenant u k)) (Keys u).
Definition tenant_keys (t : TenantConfig) : list (string * store.Key) := concat (map (user_keys (TName t)) (Users t)).

Lemma concat_map_fst {A} (f : A -> list (string * store.Key)) (g : A -> list string) l :
  (forall x, (f x).*1 = g x) -> (concat (map f l)).*1 = concat (map g l).
Proof. intros H. induction l as [|x l IH]; [done|]. cbn [map concat]. by rewrite fmap_app, IH, H. Qed.

Lemma tenant_keys_ids t : (tenant_keys t).*1 = tenant_ids t.
Proof.
  apply concat_map_fst. intros u. unfold user_keys, user_ids. rewrite <- list_fmap_compose. done.
Qed.

Lemma keys_fold ts acc :
  fold_left (fun ks t => fold_left (add_user_keys (TName t)) (Users t) ks) ts acc =
  fold_left (fun acc e => <[e.1 := e.2]> acc) (concat (map tenant_keys ts)) acc.
Proof.
  revert acc. induction ts as [|t ts IH]; intros acc; [done|]. cbn [fold_left map concat]. rewrite fold_left_app, <- IH. f_equal. unfold tenant_keys.
  generalize (TName t) as n. intros n. clear. revert acc. induction (Users t) as [|u us IH]; intros acc; [done|]. cbn [fold_left map concat]. rewrite fold_left_app, <- IH. f_equal.
  unfold add_user_keys, user_keys. revert acc. induction (Keys u) as [|k ks IHk]; intros acc; [done|]. cbn [fold_left map]. by rewrite IHk.
Qed.

Lemma tenant_keys_elem t u k : u ∈ Users t -> k ∈ Keys u -> (KAccessKeyID k, new_key (TName t) u k) ∈ tenant_keys t.
Proof.
  intros Hu Hk. apply list_elem_of_In, in_concat. exists (user_keys (TName t) u). split; apply list_elem_of_In; [by apply list_elem_of_fmap_2|].
  by apply (list_elem_of_fmap_2 (fun k => (KAccessKeyID k, new_key (TName t) u k))).
Qed.

Lemma all_keys_elem ts id key : (id, key) ∈ concat (map tenant_keys ts) ->
  exists t u k, t ∈ ts /\ u ∈ Users t /\ k ∈ Keys u /\ id = KAccessKeyID k /\ key = new_key (TName t) u k.
Proof.
  intros H. apply list_elem_of_In, in_concat in H as (l & Hl & H). apply in_map_iff in Hl as (t & <- & Ht).
  apply in_concat in H as (l & Hl & H). apply in_map_iff in Hl as (u & <- & Hu). apply in_map_iff in H as (k & [= <- <-] & Hk).
  exists t, u, k. rewrite !list_elem_of_In. done.
Qed.

(** *** The interface *)

Section Accepted.
Context (c : Config) (Hok : config_ok c).

Lemma accepted_buckets : Forall (fun e => is_Some (new_bucket e.1 e.2)) (all_owned c).
Proof.
  destruct Hok as (_ & n & [_ _ _ _ Hc]). eapply Forall_impl; [exact Hc|]. intros [t b] H. apply new_bucket_Some. right. by eexists.
Qed.

Lemma accepted_names : NoDup (map (fun e => BName e.2) (all_owned c)).
Proof. by destruct Hok as (_ & n & []). Qed.

Lemma accepted_store : exists s, NewConfigStore c = Some s /\ holds s (map TName (Tenants c)) (all_owned c) /\
  keys s = fold_left (fun acc e => <[e.1 := e.2]> acc) (concat (map tenant_keys (Tenants c))) ∅.
Proof.
  destruct (add_tenants_holds (Tenants c) {| keys := ∅; tenants := ∅; byName := ∅ |} [] []) as (s & Hs & Hh & Hk).
  - constructor; cbn.
    + intros x bk. rewrite lookup_empty. split; [done|]. intros (t & b & Hb & _). by apply not_elem_of_nil in Hb.
    + intros t m. by rewrite lookup_empty.
    + intros t Ht. by apply not_elem_of_nil in Ht.
  - apply Hok.
  - intros u b Hb. by apply not_elem_of_nil in Hb.
  - apply accepted_names.
  - apply accepted_buckets.
  - exists s. split; [done|]. split; [done|]. rewrite <- keys_fold. exact Hk.
Qed.

Context (s : configStore) (Hh : holds s (map TName (Tenants c)) (all_owned c)).

Lemma get_bucket_iff t x bk : GetBucket s t x = Ok bk <-> exists b, (t, b) ∈ all_owned c /\ BName b = x /\ new_bucket t b = Some bk.
Proof.
  unfold GetBucket. destruct Hh as [_ Ht Hk]. destruct (tenants s !! t) as [m|] eqn:E; cbn.
  - destruct (Ht _ _ E) as [_ Hm]. rewrite <- Hm. destruct (m !! x); naive_solver.
  - split; [done|]. intros (b & Hb & _). exfalso. assert (t ∈ map TName (Tenants c)) as Hin; [|apply Hk in Hin as [? ?]; congruence].
    unfold all_owned in Hb. apply list_elem_of_In, in_concat in Hb as (l & Hl & Hb). apply in_map_iff in Hl as (tc & <- & Htc).
    apply list_elem_of_In, owned_elem in Hb as [-> _]. apply list_elem_of_fmap_2. by apply list_elem_of_In.
Qed.

Lemma get_by_name_iff x bk : GetBucketByName s x = Ok bk <-> exists t b, (t, b) ∈ all_owned c /\ BName b = x /\ new_bucket t b = Some bk.
Proof. unfold GetBucketByName. destruct Hh as [Hn _ _]. rewrite <- Hn. destruct (byName s !! x); naive_solver. Qed.

Lemma accepted_laws : store.StoreLaws (as_store s).
Proof.
  constructor; cbn [as_store store.GetBucket store.GetBucketByName].
  - intros t x b (bc & _ & <- & Hb)%get_bucket_iff. by apply new_bucket_fields in Hb as (? & ? & _).
  - intros x b (t & bc & _ & <- & Hb)%get_by_name_iff. by apply new_bucket_fields in Hb as (_ & ? & _).
  - intros x b (t & bc & Hin & Hx & Hb)%get_by_name_iff. apply get_bucket_iff. destruct (new_bucket_fields _ _ _ Hb) as (-> & _). by exists bc.
  - intros t x b (t' & bc & Hin & Hx & Hb)%get_by_name_iff Hne. exists not_found. split; [|by vm_compute].
    destruct (GetBucket s t x) as [bk|e] eqn:E; [|unfold GetBucket in E; case_match; simplify_eq; done].
    exfalso. apply get_bucket_iff in E as (bc' & Hin' & Hx' & _). destruct (new_bucket_fields _ _ _ Hb) as (Ht & _).
    assert ((t', bc) = (t, bc')) as [= -> ->]; [|done]. eapply (NoDup_map_elem (fun e => BName e.2)); [apply accepted_names|done|done|]. cbn. congruence.
  - intros t x e He _. exists not_found. split; [|by vm_compute].
    destruct (GetBucket s t x) as [bk|e'] eqn:E; [|unfold GetBucket in E; case_match; simplify_eq; done].
    apply get_bucket_iff in E as (bc & Hin & Hx & Hb). assert (GetBucketByName s x = Ok bk) as Hk by (apply get_by_name_iff; eauto). congruence.
Qed.

Lemma owned_by t b : t ∈ Tenants c -> (TName t, b) ∈ all_owned c <-> b ∈ Buckets t.
Proof.
  intros Ht. unfold all_owned. rewrite list_elem_of_In, in_concat. setoid_rewrite in_map_iff. split.
  - intros (l & (tc & <- & Htc) & Hb). apply list_elem_of_In, owned_elem in Hb as [Hname Hb]. assert (t = tc) as ->; [|done].
    eapply (NoDup_map_elem TName); [apply Hok|done|by apply list_elem_of_In|done].
  - intros Hb. exists (owned t). split; [exists t; split; [done|by apply list_elem_of_In]|]. apply list_elem_of_In. by apply owned_elem.
Qed.

Lemma owned_tenant t b : (t, b) ∈ all_owned c -> exists tc, tc ∈ Tenants c /\ t = TName tc /\ b ∈ Buckets tc.
Proof.
  unfold all_owned. intros Hb. apply list_elem_of_In, in_concat in Hb as (l & Hl & Hb). apply in_map_iff in Hl as (tc & <- & Htc).
  apply list_elem_of_In, owned_elem in Hb as [-> Hb]. exists tc. split; [by apply list_elem_of_In|done].
Qed.

(** The entry a configured bucket is listed as. *)
Definition entry_of (b : BucketConfig) : store.BucketEntry := {| store.EName := BName b; store.ECreatedAt := BCreatedAt b |}.

Lemma tenant_bucket_names t : t ∈ Tenants c -> NoDup (map BName (Buckets t)).
Proof.
  intros Ht. assert (NoDup (map (fun e => BName e.2) (map (fun b => (TName t, b)) (Buckets t)))) as Hd; [|by rewrite map_map in Hd].
  pose proof accepted_names as Hn. apply list_elem_of_In in Ht. apply in_split in Ht as (l1 & l2 & Ht).
  unfold all_owned in Hn. rewrite Ht, map_app, concat_app in Hn. cbn [map concat] in Hn.
  rewrite !map_app in Hn. apply NoDup_app in Hn as (_ & _ & Hn). by apply NoDup_app in Hn as (Hn & _).
Qed.

Lemma list_buckets_entries t : t ∈ Tenants c -> exists entries, ListBuckets s (TName t) = Ok entries /\ entries ≡ₚ map entry_of (Buckets t).
Proof.
  intros Ht. unfold ListBuckets. destruct Hh as [_ Hten Hk]. destruct (Hk (TName t)) as [m Hm]; [by apply list_elem_of_fmap_2|]. rewrite Hm. eexists. split; [done|].
  destruct (Hten _ _ Hm) as [_ Hm'].
  assert (forall x bk, (x, bk) ∈ map_to_list m -> store.Name bk = x) as Hx.
  { intros x bk Hin. apply elem_of_map_to_list in Hin. apply Hm' in Hin as (b & _ & <- & Hb). by apply new_bucket_fields in Hb as (_ & ? & _). }
  apply NoDup_Permutation.
  - apply (NoDup_fmap_1 store.EName). rewrite <- list_fmap_compose.
    rewrite (list_fmap_ext _ fst); [apply NoDup_fst_map_to_list|]. intros i [x bk] Hin. apply list_elem_of_lookup_2 in Hin. by apply Hx.
  - apply (NoDup_fmap_1 store.EName). rewrite <- list_fmap_compose. by apply tenant_bucket_names.
  - intros e. rewrite !list_elem_of_fmap. split.
    + intros ([x bk] & -> & Hin%elem_of_map_to_list). apply Hm' in Hin as (b & Hb & Hbx & Hnb). exists b. split; [|by apply owned_by].
      apply new_bucket_fields in Hnb as (_ & Hn & _ & Hc). unfold entry_of. cbn. by rewrite Hn, Hc.
    + intros (b & -> & Hb). pose proof accepted_buckets as Hs. rewrite Forall_forall in Hs.
      destruct (Hs (TName t, b) ltac:(by apply owned_by)) as [bk Hbk]. exists (BName b, bk). cbn in Hbk. split.
      * apply new_bucket_fields in Hbk as (_ & Hn & _ & Hc). unfold entry_of. cbn. by rewrite Hn, Hc.
      * apply elem_of_map_to_list, Hm'. exists b. split_and!; [by apply owned_by|done|done].
Qed.

Lemma list_buckets_unknown t : t ∉ map TName (Tenants c) -> ListBuckets s t = Err not_found.
Proof.
  intros Ht. unfold ListBuckets. destruct (tenants s !! t) as [m|] eqn:E; [|done]. destruct Hh as [_ Hten _]. by destruct (Hten _ _ E).
Qed.

End Accepted.

(** ** Theorems *)

Lemma backend_bucket_default name be : backend_bucket name (store.SetDefaults be name) = store.BBucket (store.SetDefaults be name).
Proof. unfold backend_bucket, store.SetDefaults. cbn. destruct (bool_decide (store.BBucket be = "")) eqn:E; by repeat case_bool_decide. Qed.

(** C21. Tenants are separated by the configuration: in a configuration
    [LoadConfig] accepts, warnings or not, tenant names, bucket names and access
    key ids are unique across all tenants, and two buckets with the same
    endpoint and the same backend bucket belong to one tenant. *)
Theorem LoadConfig_separates c c' warnings :
  LoadConfig c = Ok (c', warnings) ->
  NoDup (map TName (Tenants c')) /\ NoDup (concat (map tenant_ids (Tenants c'))) /\
  NoDup (map (fun e => BName e.2) (all_owned c')) /\
  (forall t1 b1 be1 t2 b2 be2, (t1, b1) ∈ all_owned c' -> (t2, b2) ∈ all_owned c' -> Backend b1 = Some be1 -> Backend b2 = Some be2 ->
    store.Endpoint be1 = store.Endpoint be2 -> store.BBucket be1 = store.BBucket be2 -> t1 = t2).
Proof.
  intros [Hc' Hok]%LoadConfig_inv. destruct Hok as (Ht & n & [_ Hk _ Hb Hcl]). split_and!; [done..|].
  assert (forall t b be, (t, b) ∈ all_owned c' -> Backend b = Some be -> backendOwner n !! (store.Endpoint be +:+ nul +:+ store.BBucket be) = Some t) as H.
  { intros t b be Hin Hbe. rewrite Forall_forall in Hcl. destruct (Hcl _ Hin) as (be' & Hbe' & _ & _ & Ho & _). cbn [fst snd] in *.
    rewrite Hbe in Hbe'. injection Hbe' as <-. unfold target in Ho. replace (store.BBucket be) with (backend_bucket (BName b) be); [done|].
    subst c'. unfold all_owned in Hin. apply list_elem_of_In, in_concat in Hin as (l & Hl & Hin). apply in_map_iff in Hl as (tc & <- & Htc).
    apply list_elem_of_In, owned_elem in Hin as [_ Hin]. cbn in Htc. apply in_map_iff in Htc as (t0 & <- & _). cbn in Hin.
    apply list_elem_of_fmap in Hin as (b0 & -> & _). cbn in *. destruct (Backend b0); [|done]. cbn in Hbe. injection Hbe as <-. apply backend_bucket_default. }
  intros t1 b1 be1 t2 b2 be2 H1 H2 E1 E2 He Hbk. apply (H _ _ _ H1) in E1. apply (H _ _ _ H2) in E2. rewrite He, Hbk in E1. congruence.
Qed.

(** A key as it is configured: the tenant and user it stands under, the policy
    of that user when it has statements, and no session token, derived key,
    version or metadata. *)
Record configured_key (t : TenantConfig) (u : UserConfig) (k : KeyConfig) (key : store.Key) : Prop := {
  ck_id : store.AccessKeyID key = KAccessKeyID k;
  ck_secret : store.SecretAccessKey key = KSecretAccessKey k;
  ck_tenant : store.KTenant key = TName t;
  ck_user : store.User key = UName u;
  ck_policy : store.KPolicy key = match UPolicy u with [] => None | _ => Some (user_policy u) end;
  ck_plain : store.SigningKey key = None /\ store.SecretVersion key = "" /\ store.SessionToken key = "" /\ store.KMetadata key = None }.

(** A bucket as it is configured: its tenant, name, backend, creation time and
    CORS rules, and the policy its text parses to. *)
Record configured_bucket (t : TenantConfig) (b : BucketConfig) (bk : store.Bucket) : Prop := {
  cb_tenant : store.Tenant bk = TName t;
  cb_name : store.Name bk = BName b;
  cb_backend : Backend b = Some (store.BBackend bk);
  cb_created : store.CreatedAt bk = BCreatedAt b;
  cb_cors : store.CORS bk = BCORS b;
  cb_text : store.PolicyText bk = BPolicyText b;
  cb_policy : match store.BPolicy bk with
              | None => BPolicyText b = ""
              | Some p => BPolicyText b <> "" /\ @dialect.Parse goerror (BName b) (BPolicyText b) None = Ok p
              end;
  cb_plain : store.BMetadata bk = None }.

Lemma new_key_configured t u k : configured_key t u k (new_key (TName t) u k).
Proof. constructor; try done. cbn. by destruct (UPolicy u). Qed.

Lemma new_bucket_configured t b bk : new_bucket (TName t) b = Some bk -> configured_bucket t b bk.
Proof.
  unfold new_bucket. destruct (Backend b) as [be|] eqn:Hb; [|done]. cbn [mbind option_bind].
  destruct (bool_decide_reflect (BPolicyText b = "")) as [He|He]; cbn [mbind option_bind].
  - intros [= <-]. by constructor.
  - destruct (dialect.Parse _ _ _) as [p|] eqn:Hp; [|done]. cbn. intros [= <-]. by constructor.
Qed.

(** C20. The configuration store implements the [Store] interface: for every
    accepted configuration building it does not panic and the laws the gateway
    relies on hold of it.  It holds exactly what is configured: every key of
    every user is found, whatever session token is presented, with its secret,
    tenant, user and policy; every bucket is found, under its tenant and by its
    name alone, with its backend, parsed policy, CORS rules and creation time;
    a tenant's listing is exactly the names and creation times of its buckets;
    whatever a lookup finds is one of these, and a lookup of anything else
    answers not found. *)
Theorem NewConfigStore_refines c c' warnings :
  LoadConfig c = Ok (c', warnings) ->
  exists s, NewConfigStore c' = Some s /\ store.StoreLaws (as_store s) /\
    (forall t u k token, t ∈ Tenants c' -> u ∈ Users t -> k ∈ Keys u ->
       exists key, store.GetKey (as_store s) (KAccessKeyID k) token = Ok key /\ configured_key t u k key) /\
    (forall id token, match store.GetKey (as_store s) id token with
       | Ok key => exists t u k, t ∈ Tenants c' /\ u ∈ Users t /\ k ∈ Keys u /\ id = KAccessKeyID k /\ configured_key t u k key
       | Err e => e = not_found end) /\
    (forall t b, t ∈ Tenants c' -> b ∈ Buckets t ->
       exists bk, store.GetBucket (as_store s) (TName t) (BName b) = Ok bk /\ store.GetBucketByName (as_store s) (BName b) = Ok bk /\
         configured_bucket t b bk) /\
    (forall tenant name, match store.GetBucket (as_store s) tenant name with
       | Ok bk => exists t b, t ∈ Tenants c' /\ b ∈ Buckets t /\ tenant = TName t /\ name = BName b /\ configured_bucket t b bk
       | Err e => e = not_found end) /\
    (forall name, match store.GetBucketByName (as_store s) name with
       | Ok bk => exists t b, t ∈ Tenants c' /\ b ∈ Buckets t /\ name = BName b /\ configured_bucket t b bk
       | Err e => e = not_found end) /\
    (forall t, t ∈ Tenants c' -> exists entries, store.ListBuckets (as_store s) (TName t) = Ok entries /\ entries ≡ₚ map entry_of (Buckets t)) /\
    (forall tenant, tenant ∉ map TName (Tenants c') -> store.ListBuckets (as_store s) tenant = Err not_found).
Proof.
  intros [_ Hok]%LoadConfig_inv. destruct (accepted_store c' Hok) as (s & Hs & Hh & Hk). exists s.
  assert ((concat (map tenant_keys (Tenants c'))).*1 = concat (map tenant_ids (Tenants c'))) as Hids by (apply concat_map_fst, tenant_keys_ids).
  assert (NoDup (concat (map tenant_keys (Tenants c'))).*1) as Hnd by (rewrite Hids; by destruct Hok as (_ & n & [])).
  split; [done|]. split; [by eapply accepted_laws|]. split_and!.
  - intros t u k token Ht Hu Hkk. exists (new_key (TName t) u k). split; [|apply new_key_configured].
    cbn. unfold GetKey. rewrite Hk, (fold_insert_lookup _ _ (KAccessKeyID k) (new_key (TName t) u k)); [done|done|].
    apply list_elem_of_In, in_concat. exists (tenant_keys t). split; [apply in_map, list_elem_of_In, Ht|]. apply list_elem_of_In. by apply tenant_keys_elem.
  - intros id token. cbn. unfold GetKey. destruct (keys s !! id) as [key|] eqn:E; [|done].
    destruct (decide (id ∈ (concat (map tenant_keys (Tenants c'))).*1)) as [Hin|Hin]; [|by rewrite Hk, fold_insert_None in E].
    apply list_elem_of_fmap in Hin as ([id' key'] & -> & Hin). cbn [fst] in *.
    rewrite Hk, (fold_insert_lookup _ _ _ _ Hnd Hin) in E. injection E as <-.
    destruct (all_keys_elem _ _ _ Hin) as (t & u & k & Ht & Hu & Hkk & -> & ->). exists t, u, k. split_and!; [done..|apply new_key_configured].
  - intros t b Ht Hb. assert ((TName t, b) ∈ all_owned c') as Hin by (by apply owned_by).
    pose proof (accepted_buckets c' Hok) as Hsome. rewrite Forall_forall in Hsome. destruct (Hsome _ Hin) as [bk Hbk]. cbn in Hbk. exists bk.
    split_and!; [apply (get_bucket_iff c' s Hh); by exists b|apply (get_by_name_iff c' s Hh); by exists (TName t), b|by apply new_bucket_configured].
  - intros tenant name. cbn. destruct (GetBucket s tenant name) as [bk|e] eqn:E; [|unfold GetBucket in E; case_match; by simplify_eq].
    apply (get_bucket_iff c' s Hh) in E as (b & (t & Ht & -> & Hb)%owned_tenant & <- & Hnb). apply new_bucket_configured in Hnb. eauto 10.
  - intros name. cbn. destruct (GetBucketByName s name) as [bk|e] eqn:E; [|unfold GetBucketByName in E; case_match; by simplify_eq].
    apply (get_by_name_iff c' s Hh) in E as (tn & b & (t & Ht & -> & Hb)%owned_tenant & <- & Hnb). apply new_bucket_configured in Hnb. eauto 10.
  - intros t Ht. by apply (list_buckets_entries c' Hok s Hh).
  - intros tenant Ht. by apply (list_buckets_unknown c' s Hh).
Qed.

(** ** Witnesses *)

Definition demo_backend (endpoint bucket : string) : store.Backend :=
  {| store.Endpoint := endpoint; store.Region := ""; store.BBucket := bucket; store.BAccessKeyID := ""; store.BSecretAccessKey := ""; store.UsePathStyle := None |}.

Definition demo_bucket_config (name endpoint bucket policy : string) : BucketConfig :=
  {| BName := name; Backend := Some (demo_backend endpoint bucket); BPolicyText := policy; BCORS := []; BCreatedAt := 0 |}.

Definition demo_user (name id : string) : UserConfig :=
  {| UName := name; Keys := [{| KAccessKeyID := id; KSecretAccessKey := "secret" |}]; UPolicy := [] |}.

Definition demo_config (second : string) : Config :=
  {| Listen := ""; VirtualHostSuffix := ""; CircuitBreaker := Some {| Failures := 3; Cooldown := 1000 |}; Metrics := None; StrictActions := false;
     Tenants := [
       {| TName := "acme"; Users := [demo_user "alice" "AK1"];
          Buckets := [demo_bucket_config "photos" "http://minio:9000" "" demo_text; demo_bucket_config "album" "http://minio:9000" "photos" ""] |};
       {| TName := "corp"; Users := [demo_user "carol" "AK2"]; Buckets := [demo_bucket_config "logs" second "photos" ""] |}] |}.

Lemma demo_config_loads : LoadConfig (demo_config "http://other:9000") = Ok (SetDefaults (demo_config "http://other:9000"), []).
Proof. vm_refl. Qed.

Lemma LoadConfig_separates_witness : NoDup (map TName (Tenants (SetDefaults (demo_config "http://other:9000")))).
Proof. exact (proj1 (LoadConfig_separates _ _ _ demo_config_loads)). Defined.

Lemma NewConfigStore_refines_witness :
  exists s, NewConfigStore (SetDefaults (demo_config "http://other:9000")) = Some s /\ store.StoreLaws (as_store s) /\
    forall name, match store.GetBucketByName (as_store s) name with
      | Ok bk => exists t b, t ∈ Tenants (SetDefaults (demo_config "http://other:9000")) /\ b ∈ Buckets t /\ name = BName b /\ configured_bucket t b bk
      | Err e => e = not_found end.
Proof.
  destruct (NewConfigStore_refines _ _ _ demo_config_loads) as (s & Hs & Hl & _ & _ & _ & _ & Hn & _). exists s. split; [exact Hs|]. split; [exact Hl|exact Hn].
Defined.

(** A backend bucket another tenant already uses is refused. *)
Example demo_shared : LoadConfig (demo_config "http://minio:9000") = Err (SharedBackend "logs" "photos" "http://minio:9000" "acme").
Proof. vm_refl. Qed.

(** The physical bucket is compared by the spelling of its endpoint: the same
    server with a slash or another case is another one. *)
Lemma demo_shared_respelled :
  is_ok (LoadConfig (demo_config "http://minio:9000/")) = true /\ is_ok (LoadConfig (demo_config "http://MINIO:9000")) = true.
Proof. split; vm_refl. Qed.
