(* ===== verification/Headers.v ===== *)
(** * Request headers (src/s3gw/headers.go, sse.go, acl.go, checksums.go)

    Headers read in view of what the signature covers, the refusal of x-amz-*
    headers no operation reads, the encryption and ACL checks, and the policy
    on checksum algorithms. *)

From S2P Require Import Prelude Unicode GoStrings GoNet GoError Crypto Checksum Policy Signer Canonical Verifier VerifierFacts.

Open Scope Z_scope.

Module headers.

(** ** Names *)

Definition hdrStorageClass : string := "x-amz-storage-class".
Definition hdrCopySource : string := "x-amz-copy-source".
Definition hdrTagging : string := "x-amz-tagging".
Definition hdrObjectLockMode : string := "x-amz-object-lock-mode".
Definition hdrObjectLockRetainUntil : string := "x-amz-object-lock-retain-until-date".
Definition hdrObjectLockLegalHold : string := "x-amz-object-lock-legal-hold".
Definition hdrBypassGovernanceRetention : string := "x-amz-bypass-governance-retention".
Definition hdrSSE : string := "x-amz-server-side-encryption".
Definition hdrSSEKMSKeyID : string := "x-amz-server-side-encryption-aws-kms-key-id".
Definition hdrSSECAlgo : string := "x-amz-server-side-encryption-customer-algorithm".
Definition hdrCopySSECAlgo : string := "x-amz-copy-source-server-side-encryption-customer-algorithm".
Definition amzMetaPrefix : string := "x-amz-meta-".

Definition knownAmzHeaders : list string := [
  "x-amz-date"; "x-amz-content-sha256"; "x-amz-security-token";
  "x-amz-decoded-content-length"; "x-amz-trailer";
  "x-amz-user-agent";
  "x-amz-checksum-algorithm"; "x-amz-checksum-type"; "x-amz-checksum-mode";
  "x-amz-sdk-checksum-algorithm";
  hdrStorageClass; hdrTagging; "x-amz-tagging-directive"; "x-amz-metadata-directive";
  hdrCopySource; "x-amz-copy-source-if-match"; "x-amz-copy-source-if-none-match";
  "x-amz-copy-source-if-modified-since"; "x-amz-copy-source-if-unmodified-since";
  "x-amz-copy-source-range"; "x-amz-mp-object-size";
  hdrSSE; hdrSSEKMSKeyID;
  "x-amz-acl"; "x-amz-grant-read"; "x-amz-grant-write";
  "x-amz-grant-read-acp"; "x-amz-grant-write-acp"; "x-amz-grant-full-control";
  hdrObjectLockMode; hdrObjectLockRetainUntil; hdrObjectLockLegalHold;
  "x-amz-bypass-governance-retention";
  "x-amz-object-attributes"; "x-amz-max-parts"; "x-amz-part-number-marker";
  "x-amz-if-match-size"; "x-amz-if-match-last-modified-time" ].

(** ** Checksum policy *)

Definition ChecksumSupport := Z.
Definition ChecksumRefused : ChecksumSupport := 0.
Definition ChecksumForwarded : ChecksumSupport := 1.
Definition ChecksumVerified : ChecksumSupport := 2.

Definition ChecksumSupport_String (s : ChecksumSupport) : string :=
  if s =? ChecksumForwarded then "forwarded" else if s =? ChecksumVerified then "verified" else "refused".

Definition defaultChecksumSupport : gmap string ChecksumSupport := list_to_map [
  ("CRC32", ChecksumVerified);
  ("CRC32C", ChecksumVerified);
  ("CRC64NVME", ChecksumVerified);
  ("SHA1", ChecksumVerified);
  ("SHA256", ChecksumVerified) ].

Definition DefaultChecksumSupport : list (string * ChecksumSupport) :=
  map (fun a => (checksum.Name a, default ChecksumRefused (defaultChecksumSupport !! checksum.Name a))) checksum.algorithms.

Record checksumPolicy := { byName : gmap string ChecksumSupport; byHeader : gmap string ChecksumSupport }.

(** The map argument is the list of its entries in the order they are ranged
    over, which only decides which error is reported first. *)
Definition policy_entry (p : checksumPolicy) (e : string * ChecksumSupport) : result goerror checksumPolicy :=
  let '(name, s) := e in
  match checksum.Lookup name with
  | None => Err (Text [FS "checksum support: "; FQ name; FS " is not an S3 checksum algorithm"])
  | Some a =>
    if negb (bool_decide (name = checksum.Name a))
    then Err (Text [FS "checksum support: write "; FQ name; FS " as "; FQ (checksum.Name a)])
    else if (s <? ChecksumRefused) || (ChecksumVerified <? s)
    then Err (Text [FS "checksum support: invalid support "; FD s; FS " for "; FS (checksum.Name a)])
    else if (s =? ChecksumVerified) && negb (checksum.Computable a)
    then Err (Text [FS "checksum support: "; FS (checksum.Name a); FS " cannot be verified by the gateway; offer it as forwarded"])
    else Ok {| byName := <[checksum.Name a := s]> (byName p); byHeader := <[checksum.Header a := s]> (byHeader p) |}
  end.

Definition newChecksumPolicy (m : list (string * ChecksumSupport)) : result goerror checksumPolicy :=
  foldM policy_entry {| byName := ∅; byHeader := ∅ |} m.

(** [SetChecksumSupport] on the policy in force: an error changes nothing. *)
Definition SetChecksumSupport (current : checksumPolicy) (m : list (string * ChecksumSupport)) : result goerror unit * checksumPolicy :=
  match newChecksumPolicy m with Ok p => (Ok tt, p) | Err e => (Err e, current) end.

Definition byName_get (p : checksumPolicy) (name : string) : ChecksumSupport := default ChecksumRefused (byName p !! name).

Definition support (p : checksumPolicy) (name : string) : ChecksumSupport :=
  byName_get p (match checksum.Lookup name with Some a => checksum.Name a | None => "" end).

Definition knownHeader (p : checksumPolicy) (lname : string) : bool :=
  negb (default ChecksumRefused (byHeader p !! lname) =? ChecksumRefused).

Definition offered (p : checksumPolicy) (v : checksum.Values) : checksum.Values :=
  filter (fun kv => byName_get p kv.1 <> ChecksumRefused) v.

(** ** Signed headers *)

Record signedHeader := { h : http.Header; signed : gset string }.

(** [newSignedHeader]: a nil set covers nothing. *)
Definition newSignedHeader (hd : http.Header) (s : option (gset string)) : signedHeader :=
  {| h := hd; signed := default ∅ s |}.

(** The form fields of a POST upload, all of them covered. *)
Definition postFieldHeader (fields : list (string * string)) : signedHeader :=
  {| h := fold_left (fun hd f => http.HSet hd f.1 f.2) fields [];
     signed := list_to_set (map (fun f => strings.ToLower f.1) fields) |}.

Definition Signed (s : signedHeader) (name : string) : string :=
  if bool_decide (strings.ToLower name ∈ signed s) then http.HGet (h s) name else "".

Definition Attribute (s : signedHeader) (name : string) : string := http.HGet (h s) name.

Definition AttributeValues (s : signedHeader) (name : string) : list string := http.HValues (h s) name.

Definition SignedValues (s : signedHeader) (name : string) : list string :=
  if bool_decide (strings.ToLower name ∈ signed s) then http.HValues (h s) name else [].

Definition AmzMeta (s : signedHeader) : gmap string string :=
  fold_left (fun md kv =>
    let lk := strings.ToLower kv.1 in
    match strings.CutPrefix lk amzMetaPrefix, kv.2 with
    | Some name, v :: _ => if bool_decide (lk ∈ signed s) then <[name := v]> md else md
    | _, _ => md
    end) (h s) ∅.

(** The lower-cased names no operation reads. *)
Definition unknown_amz (checksums : checksumPolicy) (hd : http.Header) : list string :=
  omap (fun kv =>
    let lname := strings.ToLower kv.1 in
    if negb (strings.HasPrefix lname "x-amz-") || bool_decide (lname ∈ knownAmzHeaders) || knownHeader checksums lname ||
       strings.HasPrefix lname amzMetaPrefix
    then None else Some lname) hd.

Definition checkKnownAmzHeaders (s : signedHeader) (checksums : checksumPolicy) : result s3err.Error unit :=
  match unknown_amz checksums (h s) with
  | [] => Ok tt
  | unknown => Err (s3err.NotImplemented [FS ("header " +:+ strings.Join (strings.Sort unknown) ", ")])
  end.

(** ** Encryption *)

Definition checkSSEC (hdr : signedHeader) : result s3err.Error unit :=
  guard (bool_decide (Attribute hdr hdrSSECAlgo = "") && bool_decide (Attribute hdr hdrCopySSECAlgo = ""))
    (s3err.NotImplemented [FS "SSE-C"]).

Definition checkSSE (hdr : signedHeader) : result s3err.Error unit :=
  let v := Signed hdr hdrSSE in
  _ ← guard (bool_decide (v ∈ [""; "AES256"; "aws:kms"]))
        (s3err.New 400 "InvalidArgument" [FS "The encryption method specified is not supported"]);
  guard (bool_decide (Signed hdr hdrSSEKMSKeyID = "") || bool_decide (v = "aws:kms"))
    (s3err.New 400 "InvalidArgument" [FS hdrSSEKMSKeyID; FS " can only be used with aws:kms"]).

(** The two directions of an installed [KMSKeyMapper], for the operation at
    hand; [None] is no mapper. *)
Record KMSKeyMapper := { KToBackend : string -> string; KToClient : string -> string }.

(** [applySSE]: the encryption and key id sent to the backend. *)
Definition applySSE (kmsKey : option KMSKeyMapper) (hdr : signedHeader) : result s3err.Error (string * option string) :=
  _ ← checkSSE hdr;
  let v := Signed hdr hdrSSE in
  let id := Signed hdr hdrSSEKMSKeyID in
  let id := match kmsKey with Some m => if bool_decide (v = "aws:kms") then KToBackend m id else id | None => id end in
  Ok (v, if bool_decide (id = "") then None else Some id).

Definition clientKMSKeyID (kmsKey : option KMSKeyMapper) (keyID : option string) : option string :=
  match keyID, kmsKey with
  | Some id, Some m => let v := KToClient m id in if bool_decide (v = "") then None else Some v
  | _, _ => keyID
  end.

Definition setSSEHeaders (hd : http.Header) (enc : string) (kmsKeyID : option string) : http.Header :=
  let hd := if bool_decide (enc = "") then hd else http.HSet hd hdrSSE enc in
  match kmsKeyID with Some id => http.HSet hd hdrSSEKMSKeyID id | None => hd end.

(** ** ACLs *)

Definition errACLNotSupported : s3err.Error :=
  s3err.New 400 "AccessControlListNotSupported" [FS "The bucket does not allow ACLs"].

Definition aclGrantHeaders : list string :=
  ["x-amz-grant-read"; "x-amz-grant-write"; "x-amz-grant-read-acp"; "x-amz-grant-write-acp"; "x-amz-grant-full-control"].

Definition checkACLHeader (hdr : signedHeader) : result s3err.Error unit :=
  if existsb (fun name => (0 <? length (AttributeValues hdr name))%nat) aclGrantHeaders then Err errACLNotSupported
  else guard (bool_decide (Attribute hdr "x-amz-acl" ∈ [""; "private"; "bucket-owner-full-control"])) errACLNotSupported.

Definition bypassGovernanceRetention (hdr : signedHeader) : bool :=
  bool_decide (Signed hdr hdrBypassGovernanceRetention = "true").

(** ** Checks on checksums *)

Definition checksumAlgorithm (p : checksumPolicy) (hdr : signedHeader) : result s3err.Error string :=
  let v := Signed hdr "x-amz-checksum-algorithm" in
  if bool_decide (v = "") then Ok ""
  else match checksum.Lookup v with
  | None => Err (s3err.New 400 "InvalidRequest" [FS "Value for x-amz-checksum-algorithm header is invalid."])
  | Some a =>
    if support p (checksum.Name a) =? ChecksumRefused
    then Err (s3err.NotImplemented [FS ("checksum algorithm " +:+ checksum.Name a)])
    else Ok (checksum.Name a)
  end.

Definition checkChecksums (p : checksumPolicy) (v : checksum.Values) : result s3err.Error unit :=
  each (fun kv : string * string => guard (negb (support p kv.1 =? ChecksumRefused))
          (s3err.NotImplemented [FS ("checksum algorithm " +:+ kv.1)])) (map_to_list v).

Definition checkTrailer (p : checksumPolicy) (alg : string) : result s3err.Error unit :=
  guard (bool_decide (alg = "") || (support p alg =? ChecksumVerified))
    (s3err.New 501 "NotImplemented" [FS "The trailer declared by x-amz-trailer is not supported."]).

Definition reportAlgorithm (p : checksumPolicy) (name : string) : string :=
  if bool_decide (name = "") || (support p name =? ChecksumRefused) then "" else name.

Definition reportAlgorithms (p : checksumPolicy) (algs : list string) : list string :=
  filter (fun n => n <> "") (map (reportAlgorithm p) algs).

(** ** Lemmas on the checksum policy *)

Lemma Lookup_Name a : a ∈ checksum.algorithms -> checksum.Lookup (checksum.Name a) = Some a.
Proof.
  revert a. apply Forall_forall. unfold checksum.algorithms. repeat (apply Forall_cons; split; [reflexivity|]). constructor.
Qed.

Lemma Lookup_elem name a : checksum.Lookup name = Some a -> a ∈ checksum.algorithms.
Proof. intros [H _]%List.find_some. by apply list_elem_of_In. Qed.

Lemma Header_inj a b :
  a ∈ checksum.algorithms -> b ∈ checksum.algorithms -> checksum.Header a = checksum.Header b -> checksum.Name a = checksum.Name b.
Proof.
  assert (NoDup (checksum.Header <$> checksum.algorithms)) as Hn by (apply (bool_decide_unpack _); by vm_compute).
  intros [i Hi]%list_elem_of_lookup [j Hj]%list_elem_of_lookup He.
  assert (i = j) as <-; [|congruence]. eapply NoDup_lookup; [exact Hn|rewrite list_lookup_fmap, Hi; reflexivity|].
  rewrite list_lookup_fmap, Hj. simpl. by rewrite He.
Qed.

(** What a policy under construction guarantees. *)
Record policy_ok (p : checksumPolicy) : Prop := {
  po_headers a : a ∈ checksum.algorithms -> byHeader p !! checksum.Header a = byName p !! checksum.Name a;
  po_verified a : a ∈ checksum.algorithms -> byName p !! checksum.Name a = Some ChecksumVerified -> checksum.Computable a = true;
  po_names n s : byName p !! n = Some s -> n ∈ (checksum.Name <$> checksum.algorithms);
  po_range n s : byName p !! n = Some s -> s ∈ [ChecksumRefused; ChecksumForwarded; ChecksumVerified] }.

Lemma policy_entry_ok p e p' : policy_ok p -> policy_entry p e = Ok p' ->
  policy_ok p' /\ byName p' = <[e.1 := e.2]> (byName p).
Proof.
  intros [Hh Hv Hm Hr]. destruct e as [name s]. simpl. intros H.
  destruct (checksum.Lookup name) as [a|] eqn:Hl; [|done].
  destruct (bool_decide (name = checksum.Name a)) eqn:Hn; simpl in H; [|done].
  destruct ((s <? ChecksumRefused) || (ChecksumVerified <? s)) eqn:Hs; [done|].
  destruct ((s =? ChecksumVerified) && negb (checksum.Computable a)) eqn:Hc; [done|]. injection H as <-. bools. subst name.
  apply Lookup_elem in Hl. split; [|done]. unfold ChecksumRefused, ChecksumForwarded, ChecksumVerified in *. constructor; cbn [byName byHeader].
  - intros b Hb. destruct (decide (checksum.Name a = checksum.Name b)) as [Heq|Hne].
    + assert (a = b) as -> by (apply Lookup_Name in Hl, Hb; congruence). by rewrite !lookup_insert_eq.
    + rewrite !lookup_insert_ne by (try done; intros ?; by apply Hne, Header_inj). by apply Hh.
  - intros b Hb. destruct (decide (checksum.Name a = checksum.Name b)) as [Heq|Hne].
    + assert (a = b) as -> by (apply Lookup_Name in Hl, Hb; congruence). rewrite lookup_insert_eq. intros [= ->].
      rewrite Z.eqb_refl in Hc. simpl in Hc. by apply negb_false_iff.
    + rewrite lookup_insert_ne by done. by apply Hv.
  - intros n s'. destruct (decide (checksum.Name a = n)) as [<-|Hne]; [intros _; by apply list_elem_of_fmap_2|].
    rewrite lookup_insert_ne by done. apply Hm.
  - intros n s'. destruct (decide (checksum.Name a = n)) as [->|Hne].
    + rewrite lookup_insert_eq. intros [= <-]. assert (s = 0 \/ s = 1 \/ s = 2) as [->|[->| ->]] by lia; set_solver.
    + rewrite lookup_insert_ne by done. apply Hr.
Qed.

Lemma foldM_policy m : forall p p', policy_ok p -> foldM policy_entry p m = Ok p' ->
  policy_ok p' /\ byName p' = fold_left (fun acc e => <[e.1 := e.2]> acc) m (byName p).
Proof.
  induction m as [|e m IH]; intros p p' Hp H; simpl in H; [by injection H as <-|].
  destruct (policy_entry p e) as [p1|] eqn:He; [|done]. apply policy_entry_ok in He as [Hp1 He]; [|done].
  apply IH in H as [Hp' H]; [|done]. split; [done|]. simpl. by rewrite H, He.
Qed.

Lemma newChecksumPolicy_ok m p : newChecksumPolicy m = Ok p ->
  policy_ok p /\ byName p = fold_left (fun acc e => <[e.1 := e.2]> acc) m ∅.
Proof. apply foldM_policy. constructor; simpl; [done|intros; by rewrite lookup_empty in *..]. Qed.

Lemma vget_elem (m : values) k v vs : vget m k = v :: vs -> (k, v :: vs) ∈ m.
Proof.
  induction m as [|[k' vs'] m IH]; simpl; [done|]. case_bool_decide; [intros ->; subst; left|intros; right; auto].
Qed.

(** ** Theorems *)

(** A checksum policy built from a support map offers exactly what the map
    lists: an algorithm has the listed support and is refused when not listed;
    its value header is accepted exactly when it is not refused; one offered as
    verified is one the gateway computes; a declared trailer that passes both
    checks names an algorithm whose hash exists; and values shown to a client
    are only those of offered algorithms. *)
Theorem checksum_policy_exact m p :
  newChecksumPolicy m = Ok p -> NoDup m.*1 ->
  (forall a, a ∈ checksum.algorithms ->
    (forall s, (checksum.Name a, s) ∈ m -> support p (checksum.Name a) = s) /\
    (checksum.Name a ∉ m.*1 -> support p (checksum.Name a) = ChecksumRefused) /\
    knownHeader p (checksum.Header a) = negb (support p (checksum.Name a) =? ChecksumRefused) /\
    (support p (checksum.Name a) = ChecksumVerified -> is_Some (checksum.newHash a))) /\
  (forall alg, checkTrailer p alg = Ok tt -> alg <> "" -> is_Some (checksum.NewHash alg)) /\
  (forall v n x, offered p v !! n = Some x -> v !! n = Some x /\ byName_get p n <> ChecksumRefused).
Proof.
  intros [[Hh Hv Hm Hr] Hb]%newChecksumPolicy_ok Hn.
  assert (forall a, a ∈ checksum.algorithms -> support p (checksum.Name a) = byName_get p (checksum.Name a)) as Hsup.
  { intros a Ha. unfold support. by rewrite Lookup_Name. }
  assert (forall a, a ∈ checksum.algorithms -> support p (checksum.Name a) = ChecksumVerified -> is_Some (checksum.newHash a)) as Hver.
  { intros a Ha. rewrite Hsup by done. unfold byName_get. destruct (byName p !! checksum.Name a) eqn:E; simpl; [|done].
    intros ->. apply Hv in E; [|done]. unfold checksum.Computable in E. by bools. }
  split; [|split].
  - intros a Ha. split; [|split; [|split]].
    + intros s Hin. rewrite Hsup by done. unfold byName_get. by rewrite Hb, (fold_insert_lookup m ∅ _ _ Hn Hin).
    + intros Hni. rewrite Hsup by done. unfold byName_get. by rewrite Hb, fold_insert_None, lookup_empty.
    + rewrite Hsup by done. unfold knownHeader, byName_get. by rewrite Hh.
    + by apply Hver.
  - unfold checkTrailer, guard. intros alg H Hne. rewrite bool_decide_false in H by done. simpl in H.
    destruct (Z.eqb_spec (support p alg) ChecksumVerified) as [Hs|]; [|done].
    unfold support in Hs. unfold checksum.NewHash. destruct (checksum.Lookup alg) as [a|] eqn:Hl.
    + apply Hver; [by eapply Lookup_elem|]. rewrite Hsup; [done|by eapply Lookup_elem].
    + unfold byName_get in Hs. assert (byName p !! "" = None) as Hnone; [|by rewrite Hnone in Hs].
      destruct (byName p !! "") eqn:E; [|done]. apply Hm in E.
      assert ("" ∉ (checksum.Name <$> checksum.algorithms)) by (apply (bool_decide_unpack _); by vm_compute). done.
  - intros v n x H. by apply (map_lookup_filter_Some (M := gmap string)) in H.
Qed.

(** After verification, reading a header through [Signed] loses nothing:
    for every x-amz-* name the gateway reads, the value [Signed] returns is the
    header's value, as a request carrying one the signature does not cover has
    been refused. *)
Theorem Signed_complete r vr name :
  amz_covered r vr -> url.all_of http.token_byte name = true ->
  strings.HasPrefix (strings.ToLower name) verifier.amzPrefix = true ->
  let s := newSignedHeader (http.Header_ r) (verifier.SignedHeaders vr) in
  Signed s name = Attribute s name /\ SignedValues s name = AttributeValues s name.
Proof.
  intros (set & Hs & Hc) Ht Hp. unfold newSignedHeader, Signed, SignedValues, Attribute, AttributeValues. simpl. rewrite Hs. simpl.
  case_bool_decide as Hin; [done|]. unfold http.HGet, http.HValues.
  destruct (vget (http.Header_ r) (http.CanonicalHeaderKey name)) as [|v vs] eqn:Hv; [done|].
  apply vget_elem in Hv. exfalso. apply Hin. rewrite <- ToLower_CanonicalHeaderKey. eapply Hc; [exact Hv| |by rewrite ToLower_CanonicalHeaderKey].
  unfold http.CanonicalHeaderKey. rewrite Ht. apply canon_ascii. by apply token_ascii.
Qed.

(** [checkKnownAmzHeaders] accepts a request exactly when each of its
    x-amz-* headers is one some operation reads, the value header of an offered
    checksum, or user metadata; otherwise it answers NotImplemented. *)
Theorem checkKnownAmzHeaders_exact s p :
  (checkKnownAmzHeaders s p = Ok tt <->
    forall name vs, (name, vs) ∈ h s -> strings.HasPrefix (strings.ToLower name) "x-amz-" = true ->
      strings.ToLower name ∈ knownAmzHeaders \/ knownHeader p (strings.ToLower name) = true \/
      strings.HasPrefix (strings.ToLower name) amzMetaPrefix = true) /\
  (forall e, checkKnownAmzHeaders s p = Err e -> s3err.status e = 501).
Proof.
  unfold checkKnownAmzHeaders. split.
  - trans (unknown_amz p (h s) = []); [by destruct (unknown_amz p (h s))|]. unfold unknown_amz. rewrite omap_nil. split.
    + intros H name vs Hin Hp. specialize (H (name, vs) Hin). simpl in H. rewrite Hp in H. simpl in H.
      case_bool_decide; [auto|]. simpl in H. destruct (knownHeader p _); [auto|]. simpl in H.
      destruct (strings.HasPrefix _ amzMetaPrefix); [auto|done].
    + intros H [name vs] Hin. simpl. destruct (strings.HasPrefix (strings.ToLower name) "x-amz-") eqn:Hp; simpl; [|done].
      destruct (H name vs Hin Hp) as [Hk|[Hk|Hk]].
      * by rewrite bool_decide_true.
      * by rewrite Hk, orb_true_r.
      * by rewrite Hk, !orb_true_r.
  - intros e. destruct (unknown_amz p (h s)); [done|]. by intros [= <-].
Qed.

(** ** Witnesses *)

Definition demo_checksums : checksumPolicy :=
  match newChecksumPolicy DefaultChecksumSupport with Ok p => p | Err _ => {| byName := ∅; byHeader := ∅ |} end.

Lemma checksum_policy_exact_witness :
  newChecksumPolicy DefaultChecksumSupport = Ok demo_checksums /\
  (forall alg, checkTrailer demo_checksums alg = Ok tt -> alg <> "" -> is_Some (checksum.NewHash alg)).
Proof.
  assert (newChecksumPolicy DefaultChecksumSupport = Ok demo_checksums) as H.
  { unfold demo_checksums. destruct (newChecksumPolicy _) eqn:E; [reflexivity|]. vm_compute in E. discriminate E. }
  split; [exact H|]. apply (checksum_policy_exact _ _ H). apply (bool_decide_unpack _). by vm_compute.
Defined.

Lemma demo_covered : amz_covered (demo_request "" demo_headers)
  {| verifier.AccessKeyID := ""; verifier.VSigningKey := ""; verifier.Signature := ""; verifier.SigningTime := demo_time;
     verifier.Scope := ""; verifier.Region := ""; verifier.PayloadHash := "";
     verifier.SignedHeaders := Some {["x-amz-date"; "x-amz-content-sha256"]} |}.
Proof.
  eexists; split; [reflexivity|]. intros name vs Hin _ Hp. simpl in Hin.
  repeat (apply elem_of_cons in Hin as [[= -> ->]|Hin]; [first [vm_compute in Hp; discriminate Hp|apply (bool_decide_unpack _); by vm_compute]|]).
  by apply not_elem_of_nil in Hin.
Qed.

Lemma Signed_complete_witness :
  Attribute (newSignedHeader demo_headers (Some {["x-amz-date"; "x-amz-content-sha256"]})) "x-amz-date" = "20240524T000000Z" /\
  Signed (newSignedHeader demo_headers (Some {["x-amz-date"; "x-amz-content-sha256"]})) "x-amz-date" =
  Attribute (newSignedHeader demo_headers (Some {["x-amz-date"; "x-amz-content-sha256"]})) "x-amz-date".
Proof. split; [vm_refl|]. apply (Signed_complete _ _ "x-amz-date" demo_covered); vm_refl. Defined.

End headers.
