(* ===== verification/Body.v ===== *)
(** * Request bodies (requestBody and the readers around it in
      src/s3gw/proxy.go, lengthBoundedBody in src/s3gw/postobject.go)

    [io.Reader] is a class: a read is asked for up to [len] bytes, and a
    [choice] stands for how much the transport has ready.  The payload
    verifier, the length bound and the limit wrap another reader, as in Go, and
    [requestBody] picks the one a request needs. *)

From S2P Require Import Prelude Unicode GoStrings GoNet GoError Crypto Signer Verifier Checksum Chunked Store Headers.
Import verifier chunked headers.

Open Scope Z_scope.

(** [io.Reader]. *)
Class Reader (R : Type) := read : R -> nat -> choice -> string * option goerror * R.

Module body.

(** ** The request's own body: its bytes, then its final error. *)
Record source := { data : string; last : goerror }.

#[export] Instance source_reader : Reader source := fun s len c =>
  if stall c then ("", None, s)
  else
    let n := Nat.min len (upto c) in
    let got := strings.take n (data s) in
    let rest := strings.drop n (data s) in
    let at_end := bool_decide (rest = "") && (early c || (bool_decide (got = "") && (0 <? len)%nat)) in
    (got, if at_end then Some (last s) else None, {| data := rest; last := last s |}).

#[export] Instance chunked_reader : Reader chunkedReader := chunked.Read.

(** ** [payloadVerifier] *)

Section Wrappers.
Context {R : Type} `{Reader R}.

Record payloadVerifier := { pr : R; ph : string; want : string; premaining : Z; pdone : bool }.

Definition newPayloadVerifier (r : R) (wanted : string) (length : Z) : payloadVerifier :=
  {| pr := r; ph := ""; want := strings.ToLower wanted; premaining := length; pdone := false |}.

Definition payload_read (v : payloadVerifier) (len : nat) (c : choice) : string * option goerror * payloadVerifier :=
  let '(got, err, r) := read (pr v) len c in
  let hashed := ph v +:+ got in
  let rem := premaining v - Z.of_nat (strings.length got) in
  let at_eof := match err with Some e => is_EOF e | None => false end in
  if negb (pdone v) && ((rem <=? 0) || at_eof) then
    let v := {| pr := r; ph := hashed; want := want v; premaining := rem; pdone := true |} in
    if bool_decide (hex.EncodeToString (sha256.Sum256 hashed) = want v) then (got, err, v)
    else ("", Some (s3err.as_error s3err.ContentSHA256Mismatch), v)
  else (got, err, {| pr := r; ph := hashed; want := want v; premaining := rem; pdone := pdone v |}).

(** ** [lengthBoundedBody] *)

Record lengthBoundedBody := { lr : R; ln : Z; lmax : Z }.

Definition entity_too_large : goerror :=
  s3err.as_error (s3err.New 400 "EntityTooLarge" [FS "Your proposed upload exceeds the maximum allowed size"]).

Definition bounded_read (b : lengthBoundedBody) (len : nat) (c : choice) : string * option goerror * lengthBoundedBody :=
  let '(got, err, r) := read (lr b) len c in
  let n := ln b + Z.of_nat (strings.length got) in
  let b := {| lr := r; ln := n; lmax := lmax b |} in
  if lmax b <? n then (got, Some entity_too_large, b) else (got, err, b).

(** ** [io.LimitReader] *)

Record LimitReader := { under : R; left_ : Z }.

Definition limit_read (l : LimitReader) (len : nat) (c : choice) : string * option goerror * LimitReader :=
  if left_ l <=? 0 then ("", Some EOF, l)
  else
    let len := if left_ l <? Z.of_nat len then Z.to_nat (left_ l) else len in
    let '(got, err, r) := read (under l) len c in
    (got, err, {| under := r; left_ := left_ l - Z.of_nat (strings.length got) |}).

(** ** Reading on

    The bytes a sequence of reads hands out, up to the first error. *)
Fixpoint reads (r : R) (l : list (nat * choice)) : string * option goerror * R :=
  match l with
  | [] => ("", None, r)
  | (len, c) :: l =>
    let '(got, err, r) := read r len c in
    match err with
    | Some e => (got, Some e, r)
    | None => let '(more, err, r) := reads r l in (got +:+ more, err, r)
    end
  end.

(** [io.ReadAll]: [None] while the sequence of reads has not ended it. *)
Definition ReadAll (r : R) (l : list (nat * choice)) : option (result goerror string) :=
  match reads r l with
  | (_, None, _) => None
  | (got, Some e, _) => Some (if is_EOF e then Ok got else Err e)
  end.

End Wrappers.

Arguments payloadVerifier : clear implicits.
Arguments lengthBoundedBody : clear implicits.
Arguments LimitReader : clear implicits.

#[export] Instance payload_reader {R} `{Reader R} : Reader (payloadVerifier R) := payload_read.
#[export] Instance bounded_reader {R} `{Reader R} : Reader (lengthBoundedBody R) := bounded_read.
#[export] Instance limit_reader {R} `{Reader R} : Reader (LimitReader R) := limit_read.

(** ** [requestBody] *)

Definition isHexSHA256 (s : string) : bool :=
  (strings.length s =? 64)%nat &&
  forallb (fun c => in_range c 48 57 || in_range c 97 102 || in_range c 65 70) (runes s).

Inductive reader :=
| RawBody (s : source)
| SignedBody (v : payloadVerifier source)
| StreamBody (cr : chunkedReader).

Definition body_read (b : reader) (len : nat) (c : choice) : string * option goerror * reader :=
  match b with
  | RawBody s => let '(g, e, s) := read s len c in (g, e, RawBody s)
  | SignedBody v => let '(g, e, v) := read v len c in (g, e, SignedBody v)
  | StreamBody cr => let '(g, e, cr) := read cr len c in (g, e, StreamBody cr)
  end.

#[export] Instance body_reader : Reader reader := body_read.

(** A request as a handler reads it: the header the signature covered, the
    facts of the signature, the body and its declared length. *)
Record input := {
  ichecksums : checksumPolicy;
  ihdr : signedHeader;
  iverified : Verified;
  ibody : source;
  icontentLength : Z }.

Definition missing_length (m : string) : s3err.Error := s3err.New 411 "MissingContentLength" [FS m].

Definition requestBody (i : input) : result s3err.Error (reader * Z) :=
  match checksum.TrailerAlgorithm (h (ihdr i)) with
  | Err _ => Err (s3err.WithCause (s3err.New 501 "NotImplemented" [FS "The trailer declared by x-amz-trailer is not supported."]) (Text []))
  | Ok trailerAlg =>
    _ ← checkTrailer (ichecksums i) trailerAlg;
    if negb (bool_decide (trailerAlg = "")) && negb (strings.HasSuffix (PayloadHash (iverified i)) "-TRAILER")
    then Err (s3err.New 400 "InvalidRequest" [FS "x-amz-trailer is declared but the payload carries no trailer."])
    else if IsStreaming (PayloadHash (iverified i)) then
      let decodedLength := Signed (ihdr i) "x-amz-decoded-content-length" in
      if bool_decide (decodedLength = "")
      then Err (missing_length "You must provide the x-amz-decoded-content-length HTTP header.")
      else match strconv.ParseInt decodedLength 10 64 with
           | None => Err (s3err.New 400 "InvalidRequest" [FS "Invalid x-amz-decoded-content-length header"])
           | Some length =>
             if length <? 0 then Err (s3err.New 400 "InvalidRequest" [FS "Invalid x-amz-decoded-content-length header"])
             else Ok (StreamBody (NewChunkedReader (data (ibody i)) (last (ibody i)) (iverified i) trailerAlg length), length)
           end
    else if icontentLength i <? 0 then Err (missing_length "You must provide the Content-Length HTTP header.")
    else if isHexSHA256 (PayloadHash (iverified i))
    then Ok (SignedBody (newPayloadVerifier (ibody i) (PayloadHash (iverified i)) (icontentLength i)), icontentLength i)
    else Ok (RawBody (ibody i), icontentLength i)
  end.

(** [trailerChecksumAlgorithm]. *)
Definition trailerChecksumAlgorithm (b : store.Backend) (hd : http.Header) : string :=
  match checksum.TrailerAlgorithm hd with
  | Err _ => ""
  | Ok alg => if bool_decide (alg = "") || negb (store.IsHTTPS b) then "" else strings.ToUpper alg
  end.

Definition maxXMLBodySize : Z := 16 * 1024 * 1024.

Definition malformed_xml : s3err.Error :=
  s3err.New 400 "MalformedXML" [FS "The XML you provided was not well-formed or did not validate against our published schema."].

(** [readXMLBody], for the decoder of one document type and a sequence of
    reads; [None] while that sequence has not ended the body. *)
Definition readXMLBody {A} (Unmarshal : string -> option A) (i : input) (l : list (nat * choice)) : option (result s3err.Error A) :=
  match requestBody i with
  | Err e => Some (Err e)
  | Ok (r, _) =>
    match ReadAll {| under := r; left_ := maxXMLBodySize |} l with
    | None => None
    | Some (Err err) =>
      Some (match s3err.AsError err with
            | Some e => Err e
            | None => Err (s3err.WithCause (s3err.New 400 "InvalidRequest" [FS "failed to read request body"]) err)
            end)
    | Some (Ok text) =>
      Some (match Unmarshal text with
            | Some v => Ok v
            | None => Err (s3err.WithCause malformed_xml (Text []))
            end)
    end
  end.

(** ** Headers of a body *)

Definition md5_size : nat := 16.

Definition contentMD5Header (hdr : signedHeader) : result s3err.Error (option string) :=
  match AttributeValues hdr "Content-MD5" with
  | [] => Ok None
  | v :: _ =>
    match base64.decode v with
    | Some b => if (length b =? md5_size)%nat then Ok (Some v) else Err (s3err.New 400 "InvalidDigest" [FS "The Content-MD5 you specified was invalid."])
    | None => Err (s3err.New 400 "InvalidDigest" [FS "The Content-MD5 you specified was invalid."])
    end
  end.

Definition contentEncodingWithoutAWSChunked (v : string) : string :=
  if bool_decide (v = "") then ""
  else strings.Join (filter (fun e => e <> "" /\ e <> "aws-chunked") (map strings.TrimSpace (strings.Split v ","))) ", ".

End body.
