(* ===== verification/BodyFacts.v ===== *)
(** * Integrity of request bodies

    What the payload verifier guarantees of the bytes handed to the backend,
    whatever the sizes of the reads, and what the limit on XML bodies means for
    it. *)

From S2P Require Import Prelude Unicode GoStrings GoNet GoError Crypto Signer Verifier Checksum Chunked ChunkedFacts Store Headers Body.
Import verifier chunked headers body.

Open Scope Z_scope.

#[local] Arguments strings.ToLower : simpl never.
#[local] Arguments sha256.Sum256 : simpl never.
#[local] Arguments hex.EncodeToString : simpl never.
#[local] Arguments bool_decide : simpl never.

(** An invariant of single reads holds along a sequence of them. *)
Lemma reads_inv {R} `{Reader R} (I : string -> R -> Prop) (Q : string -> goerror -> Prop) :
  (forall acc r len c got err r', I acc r -> read r len c = (got, err, r') ->
     match err with None => I (acc +:+ got) r' | Some e => Q (acc +:+ got) e end) ->
  forall l acc r g err r', I acc r -> body.reads r l = (g, err, r') ->
     match err with None => I (acc +:+ g) r' | Some e => Q (acc +:+ g) e end.
Proof.
  intros Hstep. induction l as [|[len c] l IH]; intros acc r g err r' Hi Hr; simpl in Hr.
  - injection Hr as <- <- <-. by rewrite append_nil_r.
  - destruct (read r len c) as [[got er] r1] eqn:Hread. specialize (Hstep _ _ _ _ _ _ _ Hi Hread).
    destruct er as [e|]; [injection Hr as <- <- <-; exact Hstep|].
    destruct (body.reads r1 l) as [[more er] r2] eqn:Hmore. injection Hr as <- <- <-.
    specialize (IH _ _ _ _ _ Hstep Hmore). by rewrite append_assoc in IH.
Qed.

Lemma source_read_ok s len c got err s' :
  read s len c = (got, err, s') ->
  data s = got +:+ data s' /\ last s' = last s /\ (strings.length got <= len)%nat /\ (err = None \/ err = Some (last s) /\ data s' = "").
Proof.
  unfold read, source_reader. intros Hr. destruct (stall c); [injection Hr as <- <- <-; split; [done|]; split; [done|]; split; [simpl; lia|by left]|].
  injection Hr as <- <- <-. simpl. rewrite take_drop. repeat split.
  - etrans; [apply take_length_le|lia].
  - destruct (bool_decide (strings.drop _ _ = "")) eqn:E; bools; [|by left]. case_match; [by right|by left].
Qed.

Definition digest (s : string) : string := hex.EncodeToString (sha256.Sum256 s).

(** ** The payload verifier *)

Section Payload.
Context (whole : string) (L : goerror) (N : Z) (w : string).

(** [acc] has been handed out of [whole]. *)
Record pinv (acc : string) (v : payloadVerifier source) : Prop := {
  pi_hash : ph v = acc;
  pi_split : whole = acc +:+ data (pr v);
  pi_last : last (pr v) = L;
  pi_want : want v = w;
  pi_rem : premaining v = N - slen acc;
  pi_done : pdone v = true -> N <= slen acc /\ digest acc = w;
  pi_full : acc <> "" -> N <= slen acc -> digest acc = w }.

(** What the verifier reports with the end of the stream. *)
Definition pend (g : string) (e : goerror) : Prop := is_EOF e = true -> g = whole /\ digest g = w /\ e = L.

Hypothesis Hfit : slen whole <= N.

Lemma payload_step acc v len c got err v' :
  pinv acc v -> read v len c = (got, err, v') ->
  match err with None => pinv (acc +:+ got) v' | Some e => pend (acc +:+ got) e end.
Proof.
  intros [Hh Hs Hl Hw Hr Hd Hf] Hread. unfold read, payload_reader, payload_read in Hread.
  destruct (read (pr v) len c) as [[g er] s'] eqn:Hsrc. apply source_read_ok in Hsrc as (Hsplit & Hl' & _ & Her).
  assert (whole = (acc +:+ g) +:+ data s') as Hs' by (rewrite append_assoc; congruence).
  assert (Hlen : slen whole = slen (acc +:+ g) + slen (data s')) by (rewrite Hs' at 1; apply slen_append).
  pose proof (slen_nonneg (data s')) as Hpos.
  assert (Hrem : premaining v - Z.of_nat (strings.length g) = N - slen (acc +:+ g)) by (rewrite slen_append; unfold slen in *; lia).
  rewrite Hrem, Hh in Hread.
  destruct (pdone v) eqn:Hdone.
  - destruct (Hd eq_refl) as [HN Hdig]. assert (g = "") as ->.
    { apply slen_zero. rewrite slen_append in *. pose proof (slen_nonneg g). lia. }
    simpl in Hread. injection Hread as <- <- <-. rewrite append_nil_r in *.
    destruct Her as [->|[-> Hend]]; [constructor; simpl; first [done|congruence|auto]|].
    intros _. rewrite Hend, append_nil_r in Hs'. split; [done|]. split; [done|]. congruence.
  - simpl in Hread.
    destruct ((N - slen (acc +:+ g) <=? 0) || match er with Some e => is_EOF e | None => false end) eqn:Hcheck.
    + case_bool_decide as Hdig; injection Hread as <- <- <-.
      * simpl in Hdig. destruct Her as [->|[-> Hend]].
        -- apply orb_true_iff in Hcheck as [Hcheck|]; [|done]. bools.
           constructor; simpl; try done; [congruence|intros _; split; [lia|unfold digest; congruence]|intros _ _; unfold digest; congruence].
        -- intros _. rewrite Hend, append_nil_r in Hs'. split; [done|]. split; [unfold digest; congruence|]. congruence.
      * intros HE. done.
    + injection Hread as <- <- <-. apply orb_false_iff in Hcheck as [Hc1 Hc2]. bools.
      destruct Her as [->|[-> Hend]].
      * constructor; simpl; try done; [congruence|lia].
      * intros HE. congruence.
Qed.

End Payload.

(** C11. A body with a signed hash is handed out whole and verified, or not at
    all: however it is read, if the reader reports the end of the stream, or
    has given out as many bytes as were declared, then the bytes given out
    have the signed SHA-256; at the end of the stream they are the body the
    client sent.  (net/http delivers at most Content-Length bytes.) *)
Theorem payload_integrity (src : source) (wanted : string) (N : Z) l g er v' :
  slen (data src) <= N ->
  body.reads (newPayloadVerifier src wanted N) l = (g, er, v') ->
  (er = Some EOF -> g = data src /\ digest g = strings.ToLower wanted) /\
  (er = None -> slen g = N -> 0 < N -> digest g = strings.ToLower wanted).
Proof.
  intros Hfit Hr.
  assert (pinv (data src) (last src) N (strings.ToLower wanted) "" (newPayloadVerifier src wanted N)) as Hi
    by (constructor; simpl; try done; unfold slen; simpl; lia).
  pose proof (reads_inv _ _ (payload_step (data src) (last src) N (strings.ToLower wanted) Hfit) l _ _ _ _ _ Hi Hr) as Hend.
  rewrite append_nil_l in Hend. split.
  - intros ->. destruct (Hend eq_refl) as (? & ? & _). done.
  - intros -> Hg HN. eapply pi_full; [exact Hend| |lia]. intros ->. unfold slen in Hg. simpl in Hg. lia.
Qed.

(** ** Limited bodies *)

Section Limit.
Context {R : Type} `{Reader R} (I : string -> R -> Prop) (Q : string -> goerror -> Prop) (M : Z).

(** A read is never given more than it was asked for. *)
Hypothesis step : forall acc r len c got err r', I acc r -> read r len c = (got, err, r') ->
  (strings.length got <= len)%nat /\ match err with None => I (acc +:+ got) r' | Some e => Q (acc +:+ got) e end.

Definition linv (acc : string) (l : LimitReader R) : Prop := I acc (under l) /\ left_ l = M - slen acc /\ 0 <= left_ l.

(** The reader's own end, or the limit reached. *)
Definition lend (g : string) (e : goerror) : Prop := Q g e \/ (e = EOF /\ slen g = M /\ exists r, I g r).

Lemma limit_step acc l len c got err l' :
  linv acc l -> read l len c = (got, err, l') ->
  match err with None => linv (acc +:+ got) l' | Some e => lend (acc +:+ got) e end.
Proof.
  intros (Hi & Hleft & Hpos) Hread. unfold read, limit_reader, limit_read in Hread.
  destruct (left_ l <=? 0) eqn:E; bools.
  - injection Hread as <- <- <-. rewrite append_nil_r. right. split; [done|]. split; [lia|eauto].
  - destruct (read (under l) _ c) as [[g er] r'] eqn:Hr. apply (step _ _ _ _ _ _ _ Hi) in Hr as [Hlen Hout].
    injection Hread as <- <- <-. destruct er as [e|]; [by left|]. split; [done|]. simpl. rewrite slen_append. unfold slen in *.
    destruct (left_ l <? Z.of_nat len) eqn:E2; bools; lia.
Qed.

Lemma limit_ReadAll r l res :
  0 <= M -> I "" r -> ReadAll {| under := r; left_ := M |} l = Some res ->
  exists g e, lend g e /\ res = (if is_EOF e then Ok g else Err e).
Proof.
  intros HM Hi Hr. unfold ReadAll in Hr.
  destruct (body.reads {| under := r; left_ := M |} l) as [[g [e|]] l'] eqn:E; [|done]. injection Hr as <-.
  assert (linv "" {| under := r; left_ := M |}) as Hl by (split; [done|]; split; [unfold slen; simpl; lia|done]).
  pose proof (reads_inv _ _ limit_step l _ _ _ _ _ Hl E) as Hend. rewrite append_nil_l in Hend. eauto.
Qed.

End Limit.

(** The verifier as [requestBody] returns it. *)
Definition signed_inv (whole : string) (L : goerror) (N : Z) (w acc : string) (r : reader) : Prop :=
  exists v, r = SignedBody v /\ pinv whole L N w acc v.

Lemma signed_read v len c got err r' :
  read (SignedBody v) len c = (got, err, r') -> exists v', r' = SignedBody v' /\ read v len c = (got, err, v').
Proof.
  change (read (SignedBody v) len c) with (let '(g, e, v0) := read v len c in (g, e, SignedBody v0)).
  destruct (read v len c) as [[g e] v0]. intros [= <- <- <-]. eauto.
Qed.

Lemma payload_read_len v len c got err v' :
  @read (payloadVerifier source) _ v len c = (got, err, v') -> (strings.length got <= len)%nat.
Proof.
  unfold read, payload_reader, payload_read. destruct (read (pr v) len c) as [[g e] s'] eqn:E.
  apply source_read_ok in E as (_ & _ & Hl & _). cbv zeta.
  destruct (negb (pdone v) && _); [destruct (bool_decide _)|]; intros [= <- <- <-]; simpl; lia.
Qed.

Lemma signed_step whole L N w acc r len c got err r' :
  slen whole <= N -> signed_inv whole L N w acc r -> read r len c = (got, err, r') ->
  (strings.length got <= len)%nat /\
  match err with None => signed_inv whole L N w (acc +:+ got) r' | Some e => pend whole L w (acc +:+ got) e end.
Proof.
  intros Hfit (v & -> & Hi) Hr. apply signed_read in Hr as (v' & -> & Hr).
  split; [by eapply payload_read_len|]. apply (payload_step _ _ _ _ Hfit _ _ _ _ _ _ _ Hi) in Hr.
  destruct err; [done|]. by exists v'.
Qed.

Lemma new_signed_inv src wanted N :
  slen (data src) <= N -> signed_inv (data src) (last src) N (strings.ToLower wanted) "" (SignedBody (newPayloadVerifier src wanted N)).
Proof. intros Hfit. eexists. split; [done|]. constructor; simpl; try done; unfold slen; simpl; lia. Qed.

(** The value of x-amz-content-sha256 is a SHA-256 in hexadecimal: 64
    characters, each a hexadecimal digit of either case. *)
Definition hex_digest (s : string) : Prop :=
  strings.length s = 64%nat /\
  Forall (fun c => c ∈ String.list_ascii_of_string "0123456789abcdefABCDEF") (String.list_ascii_of_string s).

Lemma hex_digit_spec c :
  c ∈ String.list_ascii_of_string "0123456789abcdefABCDEF" ->
  byte_of c < 128 /\ (in_range (byte_of c) 48 57 || in_range (byte_of c) 97 102 || in_range (byte_of c) 65 70) = true.
Proof. simpl. rewrite !elem_of_cons, elem_of_nil. intros H. destruct_or!; try done; subst; vm_compute; done. Qed.

Lemma hex_digest_isHexSHA256 s : hex_digest s -> isHexSHA256 s = true.
Proof.
  intros [Hlen Hall]. unfold isHexSHA256. rewrite Hlen. simpl. clear Hlen.
  induction s as [|c s IH]; [done|]. simpl in Hall. apply Forall_cons in Hall as [[Hc Hd]%hex_digit_spec Hs].
  rewrite runes_ascii_cons by done. cbn [forallb]. rewrite Hd. auto.
Qed.

Lemma isHexSHA256_not_streaming s : isHexSHA256 s = true -> IsStreaming s = false.
Proof.
  intros Hhex. apply not_true_iff_false. intros Hs. unfold IsStreaming, streamingSHA256, streamingSHA256T, streamingUnsignedT in Hs.
  repeat (apply orb_true_iff in Hs as [Hs|Hs]); bools; subst; done.
Qed.

(** A request whose payload hash is one is read through the verifier of that
    hash, or refused. *)
Lemma requestBody_verifies i r n :
  hex_digest (PayloadHash (iverified i)) -> requestBody i = Ok (r, n) ->
  r = SignedBody (newPayloadVerifier (ibody i) (PayloadHash (iverified i)) (icontentLength i)) /\ n = icontentLength i.
Proof.
  intros Hhex%hex_digest_isHexSHA256 H. unfold requestBody in H.
  destruct (checksum.TrailerAlgorithm _) as [alg|]; [|done]. destruct (checkTrailer _ _) as [[]|]; [|done]. cbn [mbind result_bind] in H.
  destruct (_ && _); [done|]. rewrite (isHexSHA256_not_streaming _ Hhex), Hhex in H.
  destruct (icontentLength i <? 0); [done|]. by injection H as <- <-.
Qed.

(** C35. A document [readXMLBody] hands to an operation is the one the client
    signed: when x-amz-content-sha256 is a SHA-256 in hexadecimal and the
    declared length, which the transport holds the body to, is at most 16 MiB,
    a document returned was decoded from exactly the body of the request, and
    the SHA-256 of that body is the signed one.  Nothing is assumed of the
    reader: that such a request is read through the verifier, or refused, is
    part of what is shown. *)
Theorem readXMLBody_integrity {A} (Unmarshal : string -> option A) i l a :
  hex_digest (PayloadHash (iverified i)) -> slen (data (ibody i)) <= icontentLength i <= maxXMLBodySize ->
  readXMLBody Unmarshal i l = Some (Ok a) ->
  Unmarshal (data (ibody i)) = Some a /\ digest (data (ibody i)) = strings.ToLower (PayloadHash (iverified i)).
Proof.
  intros Hh [Hfit HM] H. unfold readXMLBody in H. destruct (requestBody i) as [[r n]|e] eqn:Hb; [|done].
  apply requestBody_verifies in Hb as [-> _]; [|done]. destruct (ReadAll _ l) as [res|] eqn:E; [|done].
  eapply (limit_ReadAll (signed_inv (data (ibody i)) (last (ibody i)) (icontentLength i) (strings.ToLower (PayloadHash (iverified i))))) in E
    as (g & e & Hend & ->); [|intros; by eapply signed_step|done|by apply new_signed_inv].
  destruct (is_EOF e) eqn:HE; [|destruct (s3err.AsError e); done].
  destruct (Unmarshal g) as [b|] eqn:Hu; [|done]. injection H as <-.
  destruct Hend as [Hend|(_ & Hg & r & v & _ & Hi)]; [destruct (Hend HE) as (-> & Hd & _); done|].
  assert (g = data (ibody i)) as <-.
  { pose proof (pi_split _ _ _ _ _ _ Hi) as Hs. rewrite Hs in Hfit. rewrite slen_append in Hfit.
    rewrite Hs. rewrite (slen_zero (data (pr v))); [by rewrite append_nil_r|]. pose proof (slen_nonneg (data (pr v))). lia. }
  split; [done|]. eapply pi_full; [exact Hi| |lia]. intros ->. unfold slen in Hg. done.
Qed.

(** ** Beyond the limit *)

(** With more bytes than the limit still to come the verifier never gets to
    check. *)
Lemma unverified_step M acc r len c got err r' whole L N w :
  slen whole <= N -> M < slen whole ->
  (exists v, r = SignedBody v /\ pinv whole L N w acc v) -> slen acc + Z.of_nat len <= M -> is_EOF L = true ->
  read r len c = (got, err, r') -> err = None /\ signed_inv whole L N w (acc +:+ got) r'.
Proof.
  intros Hfit Hlong (v & -> & Hi) Hroom HL Hr. apply signed_read in Hr as (v' & -> & Hr).
  pose proof (payload_read_len _ _ _ _ _ _ Hr) as Hlen.
  pose proof (payload_step _ _ _ _ Hfit _ _ _ _ _ _ _ Hi Hr) as Hout.
  destruct err as [e|]; [|split; [done|by exists v']].
  exfalso. unfold read, payload_reader, payload_read in Hr.
  destruct (read (pr v) len c) as [[g er] s'] eqn:Hsrc. apply source_read_ok in Hsrc as (Hsplit & Hl' & Hgl & Her).
  destruct Hi as [Hh Hs Hl Hw Hrem Hd Hf].
  assert (Hw' : slen whole = slen acc + slen g + slen (data s')) by (rewrite Hs, Hsplit, !slen_append; lia).
  assert (slen (data s') > 0) by (unfold slen in *; lia).
  destruct Her as [->|[-> Hend]]; [|rewrite Hend in *; unfold slen in *; simpl in *; lia].
  destruct (pdone v); [destruct (Hd eq_refl) as [Hn _]; unfold slen in *; lia|].
  assert ((premaining v - Z.of_nat (strings.length g) <=? 0) = false) as Hz by (apply Z.leb_gt; unfold slen in *; lia).
  rewrite Hz in Hr. simpl in Hr. done.
Qed.

Lemma take_prefix g rest : strings.take (strings.length g) (g +:+ rest) = g.
Proof. induction g as [|a g IH]; [by destruct rest|]. rewrite append_cons. simpl. by rewrite IH. Qed.

Lemma take_length n s : (n <= strings.length s)%nat -> strings.length (strings.take n s) = n.
Proof. revert s; induction n as [|n IH]; intros [|a s] Hn; simpl in *; [done|done|lia|]. f_equal. apply IH. lia. Qed.

Section Beyond.
Context (src : source) (N : Z) (wanted : string) (M : Z).
Hypothesis Hfit : slen (data src) <= N.
Hypothesis Hlong : M < slen (data src).
Hypothesis HM : 0 <= M.
Hypothesis HL : is_EOF (last src) = true.

#[local] Notation sinv := (signed_inv (data src) (last src) N (strings.ToLower wanted)).
#[local] Notation limited r := {| under := r; left_ := M |}.

Definition binv (acc : string) (l : LimitReader reader) : Prop := sinv acc (under l) /\ left_ l = M - slen acc /\ 0 <= left_ l.

Definition bend (g : string) (e : goerror) : Prop := e = EOF /\ g = strings.take (Z.to_nat M) (data src).

Lemma beyond_step acc l len c got err l' :
  binv acc l -> read l len c = (got, err, l') ->
  match err with None => binv (acc +:+ got) l' | Some e => bend (acc +:+ got) e end.
Proof.
  intros (Hi & Hleft & Hpos) Hread. unfold read, limit_reader, limit_read in Hread.
  destruct (left_ l <=? 0) eqn:E; bools.
  - injection Hread as <- <- <-. rewrite append_nil_r. split; [done|].
    destruct Hi as (v & _ & Hi). rewrite (pi_split _ _ _ _ _ _ Hi). replace (Z.to_nat M) with (strings.length acc) by (unfold slen in *; lia).
    by rewrite take_prefix.
  - set (len' := if left_ l <? Z.of_nat len then Z.to_nat (left_ l) else len) in *.
    assert (slen acc + Z.of_nat len' <= M) as Hroom by (unfold len'; destruct (left_ l <? Z.of_nat len) eqn:E2; bools; lia).
    destruct (read (under l) len' c) as [[g er] r'] eqn:Hr. injection Hread as <- <- <-.
    destruct (signed_step _ _ _ _ _ _ _ _ _ _ _ Hfit Hi Hr) as [Hgl _].
    destruct (unverified_step M _ _ _ _ _ _ _ _ _ _ _ Hfit Hlong Hi Hroom HL Hr) as [-> Hi'].
    split; [done|]. simpl. rewrite slen_append. unfold slen in *. lia.
Qed.

Lemma beyond_init : binv "" (limited (SignedBody (newPayloadVerifier src wanted N))).
Proof. split; [by apply new_signed_inv|]. split; [unfold slen; simpl; lia|done]. Qed.

Lemma beyond_ReadAll l res :
  ReadAll (limited (SignedBody (newPayloadVerifier src wanted N))) l = Some res -> res = Ok (strings.take (Z.to_nat M) (data src)).
Proof.
  unfold ReadAll. destruct (body.reads _ l) as [[g [e|]] l'] eqn:E; [|done]. intros [= <-].
  pose proof (reads_inv binv bend beyond_step l _ _ _ _ _ beyond_init E) as Hend.
  cbv beta iota in Hend. rewrite append_nil_l in Hend. destruct Hend as [-> Hg]. by rewrite Hg.
Qed.

Definition ready : choice := {| stall := false; upto := Z.to_nat M; early := false |}.

Lemma beyond_ends :
  ReadAll (limited (SignedBody (newPayloadVerifier src wanted N))) [(Z.to_nat M, ready); (Z.to_nat M, ready)] <> None.
Proof.
  unfold ReadAll. cbn [body.reads].
  destruct (read (limited (SignedBody (newPayloadVerifier src wanted N))) (Z.to_nat M) ready) as [[g1 e1] l1] eqn:E1.
  pose proof (beyond_step _ _ _ _ _ _ _ beyond_init E1) as H1. destruct e1 as [e1|]; [done|].
  destruct (read l1 (Z.to_nat M) ready) as [[g2 e2] l2] eqn:E2. destruct e2 as [e2|]; [done|]. exfalso.
  unfold read, limit_reader, limit_read in E1, E2. simpl in E1.
  destruct (M <=? 0) eqn:HM0; [done|]. bools. rewrite Z2Nat.id in E1 by lia. rewrite Z.ltb_irrefl in E1.
  destruct (read (SignedBody (newPayloadVerifier src wanted N)) (Z.to_nat M) ready) as [[g e] r] eqn:Er. injection E1 as -> -> <-.
  assert (slen g1 = M) as Hg.
  { apply signed_read in Er as (v' & _ & Er). unfold read, payload_reader, payload_read in Er. simpl in Er.
    unfold read, source_reader in Er. simpl in Er. rewrite Nat.min_id in Er.
    match type of Er with (if ?b then _ else _) = _ => destruct b end.
    - case_bool_decide; [|done]. injection Er as <- _ _. unfold slen. rewrite take_length; [lia|]. unfold slen in *. lia.
    - injection Er as <- _ _. unfold slen. rewrite take_length; [lia|]. unfold slen in *. lia. }
  simpl in E2. unfold slen in Hg. rewrite Hg, Z.sub_diag in E2. done.
Qed.

End Beyond.

Definition decoded {A} (Unmarshal : string -> option A) (text : string) : result s3err.Error A :=
  match Unmarshal text with Some v => Ok v | None => Err (s3err.WithCause malformed_xml (Text [])) end.

Lemma limit_nonneg : 0 <= maxXMLBodySize.
Proof. done. Qed.

#[local] Opaque maxXMLBodySize.

(** A request read through the verifier of its hash. *)
Definition hash_verified (i : input) : Prop :=
  requestBody i = Ok (SignedBody (newPayloadVerifier (ibody i) (PayloadHash (iverified i)) (icontentLength i)), icontentLength i).

(** Past 16 MiB a signed body is not checked: when more bytes than the
    limit arrive, the document is decoded from the first 16 MiB of what
    arrived whatever hash was signed, because the limit ends the read before
    the verifier has seen the last byte. *)
Theorem readXMLBody_beyond_limit {A} (Unmarshal : string -> option A) i :
  hash_verified i -> maxXMLBodySize < slen (data (ibody i)) <= icontentLength i -> is_EOF (last (ibody i)) = true ->
  let out := decoded Unmarshal (strings.take (Z.to_nat maxXMLBodySize) (data (ibody i))) in
  (forall l r, readXMLBody Unmarshal i l = Some r -> r = out) /\ exists l, readXMLBody Unmarshal i l = Some out.
Proof.
  intros Hh [Hlong Hfit] HL out. pose proof limit_nonneg as HM.
  assert (forall l r, readXMLBody Unmarshal i l = Some r -> r = out) as Hall.
  { intros l r H. unfold readXMLBody in H. rewrite Hh in H. destruct (ReadAll _ l) as [res|] eqn:E; [|done].
    apply (beyond_ReadAll _ _ _ _ Hfit Hlong HM HL) in E as ->. injection H as <-. reflexivity. }
  split; [exact Hall|].
  exists [(Z.to_nat maxXMLBodySize, ready maxXMLBodySize); (Z.to_nat maxXMLBodySize, ready maxXMLBodySize)].
  destruct (readXMLBody Unmarshal i _) as [r|] eqn:E; [by rewrite (Hall _ _ E)|]. exfalso.
  unfold readXMLBody in E. rewrite Hh in E.
  pose proof (beyond_ends (ibody i) (icontentLength i) (PayloadHash (iverified i)) maxXMLBodySize Hfit Hlong HM HL) as Hends.
  destruct (ReadAll _ _) as [[t|e]|]; done.
Qed.

(** ** Content-Encoding *)

(** What is forwarded of a Content-Encoding: its elements other than
    aws-chunked, in order. *)
Lemma contentEncoding_elements v :
  contentEncodingWithoutAWSChunked v = strings.Join (filter (fun e => e <> "" /\ e <> "aws-chunked") (map strings.TrimSpace (strings.Split v ","))) ", ".
Proof. unfold contentEncodingWithoutAWSChunked. case_bool_decide; [by subst|done]. Qed.

(** ** Requests on which the theorems apply *)

Definition demo_text : string := "<Delete><Object><Key>a</Key></Object></Delete>".

Definition demo_payload (hash : string) : Verified :=
  {| AccessKeyID := "AKID"; VSigningKey := ""; Signature := ""; SigningTime := {| GoTime.time.year := 2024; GoTime.time.month := 1; GoTime.time.day := 1;
       GoTime.time.hour := 0; GoTime.time.minute := 0; GoTime.time.sec := 0; GoTime.time.nsec := 0 |};
     Scope := ""; Region := ""; PayloadHash := hash; SignedHeaders := None |}.

Definition demo_input (hash text : string) : input :=
  {| ichecksums := demo_checksums; ihdr := newSignedHeader [] None; iverified := demo_payload hash;
     ibody := {| data := text; last := EOF |}; icontentLength := slen text |}.

Lemma demo_hash_verified hash text : isHexSHA256 hash = true -> hash_verified (demo_input hash text).
Proof.
  intros Hhex. unfold hash_verified, requestBody, demo_input. cbn [ihdr iverified ibody icontentLength ichecksums PayloadHash demo_payload].
  replace (checksum.TrailerAlgorithm (h (newSignedHeader [] None))) with (Ok (E := unit) "") by vm_refl.
  replace (checkTrailer demo_checksums "") with (Ok (E := s3err.Error) tt) by vm_refl. cbn [mbind result_bind].
  replace (negb (bool_decide ("" = "")) && negb (strings.HasSuffix hash "-TRAILER")) with false by done.
  rewrite (isHexSHA256_not_streaming _ Hhex).
  rewrite (proj2 (Z.ltb_ge _ _) (slen_nonneg text)), Hhex. done.
Qed.

Definition one_read : list (nat * choice) := [(100%nat, {| stall := false; upto := 100; early := true |})].

Definition read_out (text : string) :=
  body.reads (newPayloadVerifier {| data := text; last := EOF |} (digest text) (slen text)) one_read.

Lemma payload_integrity_witness :
  (read_out demo_text).1 = (demo_text, Some EOF) /\ digest demo_text = strings.ToLower (digest demo_text).
Proof.
  assert ((read_out demo_text).1 = (demo_text, Some EOF)) as Hr by vm_refl. split; [exact Hr|].
  refine (proj2 (proj1 (payload_integrity {| data := demo_text; last := EOF |} (digest demo_text) (slen demo_text) one_read
    demo_text (Some EOF) (read_out demo_text).2 (Z.le_refl _) _) eq_refl)).
  rewrite <- Hr. symmetry. apply surjective_pairing.
Defined.

Definition demo_delete : input := demo_input (digest demo_text) demo_text.

Lemma demo_delete_signed : hex_digest (PayloadHash (iverified demo_delete)).
Proof. apply (bool_decide_eq_true_1 _). vm_refl. Qed.

Lemma demo_delete_fits : slen (data (ibody demo_delete)) <= icontentLength demo_delete <= maxXMLBodySize.
Proof. vm_compute. split; discriminate. Qed.

Lemma readXMLBody_integrity_witness :
  readXMLBody Some demo_delete one_read = Some (Ok demo_text) /\
  digest (data (ibody demo_delete)) = strings.ToLower (PayloadHash (iverified demo_delete)).
Proof.
  assert (readXMLBody Some demo_delete one_read = Some (Ok demo_text)) as Hr by vm_refl. split; [exact Hr|].
  exact (proj2 (readXMLBody_integrity Some demo_delete one_read demo_text demo_delete_signed demo_delete_fits Hr)).
Defined.

(** A tampered body is refused. *)
Example tampered_refused :
  match readXMLBody Some (demo_input (digest demo_text) (demo_text +:+ " ")) one_read with
  | Some (Err e) => s3err.Code e
  | _ => ""
  end = "XAmzContentSHA256Mismatch".
Proof. vm_refl. Qed.

(** A document padded past the limit. *)
Definition padded (n : nat) : string := demo_text +:+ Nat.iter n (String " ") "".

Lemma padded_length n : slen (padded n) = slen demo_text + Z.of_nat n.
Proof. unfold padded. rewrite slen_append. f_equal. unfold slen. f_equal. induction n as [|n IH]; [done|]. simpl. by rewrite IH. Qed.

(** Whatever the hash is of, the padded document is decoded. *)
Lemma readXMLBody_beyond_limit_witness :
  exists l, readXMLBody Some (demo_input (digest "") (padded (Z.to_nat maxXMLBodySize))) l =
    Some (decoded Some (strings.take (Z.to_nat maxXMLBodySize) (padded (Z.to_nat maxXMLBodySize)))).
Proof.
  assert (isHexSHA256 (digest "") = true) as Hhex by vm_refl.
  assert (0 < slen demo_text) as Hpos by (vm_compute; reflexivity).
  assert (maxXMLBodySize < slen (padded (Z.to_nat maxXMLBodySize))) as Hlong
    by (rewrite padded_length, Z2Nat.id by apply limit_nonneg; lia).
  exact (proj2 (readXMLBody_beyond_limit Some (demo_input (digest "") (padded (Z.to_nat maxXMLBodySize)))
    (demo_hash_verified _ _ Hhex) (conj Hlong (Z.le_refl (slen (padded (Z.to_nat maxXMLBodySize))))) eq_refl)).
Defined.
