(* ===== verification/Addressing.v ===== *)
(** * Addressing (src/s3gw/addressing.go, [splitPath] and [unescapeKey] of
      src/s3gw/handler.go, [isMultipartForm] of src/s3gw/postobject.go)

    Which bucket and key a request names, path-style or virtual-hosted, and
    the URL an object is given back under. *)

From S2P Require Import Prelude Unicode GoStrings GoNet GoError.

Open Scope Z_scope.

(** ** Standard library *)

Module net.

(** The host part of [net.SplitHostPort]; [None] is its error. *)
Definition SplitHost (hostport : string) : option string :=
  match url.last_cut hostport ":" with
  | None => None
  | Some (before, _) =>
    match hostport with
    | String "[" rest =>
      match strings.cut_at rest "]" with
      | None => None
      | Some (host, after) =>
        (* the last colon directly follows the bracket, and no bracket is left over *)
        if bool_decide (before = "[" +:+ host +:+ "]") && no_char "[" rest && no_char "]" after
        then Some host else None
      end
    | _ => if no_char ":" before && no_char "[" hostport && no_char "]" hostport then Some before else None
    end
  end.

End net.

Module mime.

(** [strings.TrimLeftFunc] with [unicode.IsSpace]. *)
Definition trim_left (s : string) : string := strings.concat_chunks (strings.drop_space (decode_chunks s)).

Fixpoint consumeToken (s : string) : string * string :=
  match s with
  | EmptyString => ("", "")
  | String c r => if http.token_byte c then let '(a, b) := consumeToken r in (String c a, b) else ("", s)
  end.

Definition isTSpecial (c : ascii) : bool := is_one_of c "()<>@,;:\/[]?=" || (byte_of c =? 34).

(** The rest of a quoted string; [None] is a missing end quote or a line break. *)
Fixpoint quoted (s : string) : option (string * string) :=
  match s with
  | EmptyString => None
  | String c r =>
    if byte_of c =? 34 then Some ("", r)
    else match byte_of c =? 92, r with
    | true, String d r' =>
      if isTSpecial d then match quoted r' with Some (a, b) => Some (String d a, b) | None => None end
      else match quoted r with Some (a, b) => Some (String c a, b) | None => None end
    | _, _ =>
      if (byte_of c =? 13) || (byte_of c =? 10) then None
      else match quoted r with Some (a, b) => Some (String c a, b) | None => None end
    end
  end.

Definition consumeValue (v : string) : string * string :=
  match v with
  | EmptyString => ("", "")
  | String c r => if byte_of c =? 34 then default ("", v) (quoted r) else consumeToken v
  end.

Definition consumeMediaParam (v : string) : string * string * string :=
  match strings.CutPrefix (trim_left v) ";" with
  | None => ("", "", v)
  | Some rest =>
    let '(param, rest) := consumeToken (trim_left rest) in
    let param := strings.ToLower param in
    if bool_decide (param = "") then ("", "", v)
    else match strings.CutPrefix (trim_left rest) "=" with
    | None => ("", "", v)
    | Some rest =>
      let rest := trim_left rest in
      let '(value, rest2) := consumeValue rest in
      if bool_decide (value = "") && bool_decide (rest2 = rest) then ("", "", v) else (param, value, rest2)
    end
  end.

Definition media_type_ok (s : string) : bool :=
  let '(typ, rest) := consumeToken s in
  if bool_decide (typ = "") then false
  else match rest with
  | EmptyString => true
  | String "/" r => let '(sub, rest) := consumeToken r in negb (bool_decide (sub = "")) && bool_decide (rest = "")
  | _ => false
  end.

(** The parameters, each round consuming input: whether they parse, a repeated
    name only with the same value. *)
Fixpoint params_ok (fuel : nat) (v : string) (seen : list (string * string)) : bool :=
  match fuel with
  | O => false
  | S fuel =>
    let v := trim_left v in
    if bool_decide (v = "") then true
    else
      let '(key, value, rest) := consumeMediaParam v in
      if bool_decide (key = "") then bool_decide (strings.TrimSpace rest = ";")
      else if existsb (fun kv => bool_decide (kv.1 = key) && negb (bool_decide (kv.2 = value))) seen then false
      else params_ok fuel rest ((key, value) :: seen)
  end.

(** [mime.ParseMediaType]: the media type when the whole value parses. *)
Definition ParseMediaType (v : string) : option string :=
  let '(base, rest, found) := strings.Cut v ";" in
  let mt := strings.TrimSpace (strings.ToLower base) in
  if media_type_ok mt && params_ok (S (strings.length v)) (if found then ";" +:+ rest else "") [] then Some mt else None.

End mime.

(** ** Targets *)

Module addressing.

(** [SetVirtualHostSuffix]: the suffix as it is stored. *)
Definition SetVirtualHostSuffix (suffix : string) : string :=
  let suffix := default suffix (net.SplitHost suffix) in
  let suffix := strings.ToLower (strings.TrimSuffix suffix ".") in
  if negb (bool_decide (suffix = "")) && negb (strings.HasPrefix suffix ".") then "." +:+ suffix else suffix.

Record target := { tbucket : string; tkey : string; vhost : bool }.

Fixpoint unescape_segments (l : list string) : option (list string) :=
  match l with
  | [] => Some []
  | s :: l => u ← url.PathUnescape s; r ← unescape_segments l; Some (u :: r)
  end.

Definition unescapeKey (rawKey : string) : option string :=
  segments ← unescape_segments (strings.Split rawKey "/"); Some (strings.Join segments "/").

Definition splitPath (escapedPath : string) : option (string * string) :=
  let p := strings.TrimPrefix escapedPath "/" in
  let '(rawBucket, rawKey, _) := strings.Cut p "/" in
  bucket ← url.PathUnescape rawBucket;
  key ← unescapeKey rawKey;
  Some (bucket, key).

Definition virtualHostBucket (vhostSuffix hostport : string) : option string :=
  if bool_decide (vhostSuffix = "") then None
  else
    let host := strings.ToLower (default hostport (net.SplitHost hostport)) in
    match strings.CutSuffix host vhostSuffix with
    | Some label => if bool_decide (label = "") || negb (no_char "." label) then None else Some label
    | None => None
    end.

Definition requestTarget (vhostSuffix : string) (r : http.Request) : option target :=
  match virtualHostBucket vhostSuffix (http.Host r) with
  | Some bucket =>
    key ← unescapeKey (strings.TrimPrefix (url.EscapedPath (http.URL r)) "/");
    Some {| tbucket := bucket; tkey := key; vhost := true |}
  | None =>
    '(bucket, key) ← splitPath (url.EscapedPath (http.URL r));
    Some {| tbucket := bucket; tkey := key; vhost := false |}
  end.

(** The escaped path of a URL that has only a path. *)
Definition escaped_path (p : string) : string :=
  url.EscapedPath {| url.Scheme := ""; url.Opaque := ""; url.Host := ""; url.Path := p; url.RawPath := ""; url.RawQuery := "" |}.

Definition objectURL (tls : bool) (host : string) (t : target) (key : string) : string :=
  let scheme := if tls then "https" else "http" in
  let path := "/" +:+ key in
  let path := if vhost t then path else "/" +:+ tbucket t +:+ path in
  scheme +:+ "://" +:+ host +:+ escaped_path path.

Definition isMultipartForm (hd : http.Header) : bool :=
  bool_decide (mime.ParseMediaType (http.HGet hd "Content-Type") = Some "multipart/form-data").

Example multipart_1 : isMultipartForm [("Content-Type", ["Multipart/Form-Data; boundary=abc"])] = true.
Proof. vm_refl. Qed.
Example multipart_2 : isMultipartForm [("Content-Type", ["multipart/form-data; boundary"])] = false.
Proof. vm_refl. Qed.
Example split_1 : splitPath "/photos/a%20b//c%2Fd/" = Some ("photos", "a b//c/d/").
Proof. vm_refl. Qed.
Example vhost_1 : virtualHostBucket (SetVirtualHostSuffix "S3.example.com:8080") "Photos.s3.example.com:443" = Some "photos".
Proof. vm_refl. Qed.
Example vhost_2 : map (virtualHostBucket ".s3.example.com") ["s3.example.com"; "a.b.s3.example.com"; "[::1]:80"; ".s3.example.com"] = [None; None; None; None].
Proof. vm_refl. Qed.

(** ** Escaping and back *)

Definition esc (c : ascii) : string :=
  if url.shouldEscape c url.encodePath
  then String "%" (String (url.upper_hex (byte_of c / 16)) (String (url.upper_hex (byte_of c mod 16)) ""))
  else String c "".

Lemma escape_cons c s : url.escape (String c s) url.encodePath = esc c +:+ url.escape s url.encodePath.
Proof. unfold esc. simpl. by destruct (url.shouldEscape c url.encodePath). Qed.

Lemma escape_append s t : url.escape (s +:+ t) url.encodePath = url.escape s url.encodePath +:+ url.escape t url.encodePath.
Proof. induction s as [|c s IH]; [done|]. by rewrite append_cons, !escape_cons, IH, append_assoc. Qed.

Lemma unescape_esc c r : url.unescape (esc c +:+ r) url.encodePathSegment = String c <$> url.unescape r url.encodePathSegment.
Proof. destruct c as [[] [] [] [] [] [] [] []]; reflexivity. Qed.

Lemma unescape_escape s : url.PathUnescape (url.escape s url.encodePath) = Some s.
Proof.
  induction s as [|c s IH]; [done|]. unfold url.PathUnescape in *. by rewrite escape_cons, unescape_esc, IH.
Qed.

Lemma esc_no_slash c : c <> "/"%char -> no_char "/" (esc c) = true.
Proof. destruct c as [[] [] [] [] [] [] [] []]; try reflexivity. by intros []. Qed.

Lemma escape_no_slash s : no_char "/" s = true -> no_char "/" (url.escape s url.encodePath) = true.
Proof.
  induction s as [|c s IH]; [done|]. cbn [no_char]. destruct (ascii_dec c "/") as [|Hne]; [done|]. intros H.
  rewrite escape_cons, no_char_append, esc_no_slash, IH; done.
Qed.

Lemma Split_prepend c e t x l :
  no_char c e = true -> strings.Split t c = x :: l -> strings.Split (e +:+ t) c = (e +:+ x) :: l.
Proof.
  intros He Ht. induction e as [|d e IH]; [done|]. cbn [no_char] in He. rewrite append_cons. simpl.
  destruct (ascii_dec d c); [done|]. by rewrite IH.
Qed.

Lemma Split_escape s : strings.Split (url.escape s url.encodePath) "/" = map (fun x => url.escape x url.encodePath) (strings.Split s "/").
Proof.
  induction s as [|c s IH]; [done|]. rewrite escape_cons. pose proof (Split_not_nil "/" s) as Hn.
  destruct (ascii_dec c "/") as [->|Hne].
  - change (esc "/" +:+ url.escape s url.encodePath) with ("" +:+ String "/" (url.escape s url.encodePath)).
    rewrite Split_append by done. rewrite IH. cbn [strings.Split]. by destruct (ascii_dec "/" "/").
  - cbn [strings.Split]. destruct (ascii_dec c "/"); [done|]. destruct (strings.Split s "/") as [|x l]; [done|].
    rewrite (Split_prepend _ _ _ (url.escape x url.encodePath) (map (fun x => url.escape x url.encodePath) l)); [|by apply esc_no_slash|done].
    cbn [map]. by rewrite escape_cons.
Qed.

Lemma unescape_segments_escape l : unescape_segments (map (fun x => url.escape x url.encodePath) l) = Some l.
Proof. induction l as [|x l IH]; [done|]. simpl. by rewrite unescape_escape, IH. Qed.

Lemma unescapeKey_escape key : unescapeKey (url.escape key url.encodePath) = Some key.
Proof. unfold unescapeKey. rewrite Split_escape, unescape_segments_escape. simpl. by rewrite Join_Split. Qed.

Lemma escaped_path_slash p : escaped_path ("/" +:+ p) = "/" +:+ url.escape p url.encodePath.
Proof. reflexivity. Qed.

Lemma splitPath_escape bucket key : no_char "/" bucket = true -> splitPath (escaped_path ("/" +:+ bucket +:+ "/" +:+ key)) = Some (bucket, key).
Proof.
  intros Hb. rewrite escaped_path_slash. unfold splitPath. rewrite TrimPrefix_append. rewrite escape_append.
  unfold strings.Cut. change ("/" +:+ key) with (String "/" key). rewrite escape_cons.
  change (esc "/" +:+ url.escape key url.encodePath) with (String "/" (url.escape key url.encodePath)).
  rewrite cut_at_char by (by apply escape_no_slash). by rewrite unescape_escape, unescapeKey_escape.
Qed.

(** ** Theorems *)

(** C38. The URL the gateway hands back for an object addresses that object
    again: a request whose escaped path and host are those of the URL resolves
    to the same bucket and key, whatever bytes the key has, in either style. *)
Theorem objectURL_roundtrip suffix tls t key r :
  no_char "/" (tbucket t) = true ->
  virtualHostBucket suffix (http.Host r) = (if vhost t then Some (tbucket t) else None) ->
  objectURL tls (http.Host r) t key = (if tls then "https" else "http") +:+ "://" +:+ http.Host r +:+ url.EscapedPath (http.URL r) ->
  requestTarget suffix r = Some {| tbucket := tbucket t; tkey := key; vhost := vhost t |}.
Proof.
  unfold objectURL, requestTarget. intros Hb Hh Hu. do 3 apply append_inj_l in Hu. rewrite Hh, <- Hu.
  destruct (vhost t).
  - rewrite escaped_path_slash, TrimPrefix_append, unescapeKey_escape. done.
  - rewrite splitPath_escape by done. done.
Qed.

Lemma objectURL_roundtrip_witness :
  let r := {| http.Method := "GET"; http.RequestURI := ""; http.Header_ := []; http.Host := "photos.s3.example.com"; http.ContentLength := 0;
              http.RemoteAddr := "";
              http.URL := {| url.Scheme := ""; url.Opaque := ""; url.Host := ""; url.Path := "/a?b/%41"; url.RawPath := ""; url.RawQuery := "" |} |} in
  let t := {| tbucket := "photos"; tkey := ""; vhost := true |} in
  objectURL true "photos.s3.example.com" t "a?b/%41" = "https://photos.s3.example.com/a%3Fb/%2541" /\
  requestTarget ".s3.example.com" r = Some {| tbucket := "photos"; tkey := "a?b/%41"; vhost := true |}.
Proof.
  intros r t. split; [vm_refl|]. apply (objectURL_roundtrip ".s3.example.com" true t "a?b/%41" r); vm_refl.
Defined.

End addressing.
