(* ===== verification/Routing.v ===== *)
(** * Routing (src/s3gw/handler.go, [resolveCopySource] of src/s3gw/copy.go)

    The route tables bound to the operation catalog, the checks [dispatch]
    runs before a handler, and [handleRequest] from the signature to the
    operation that will run.  A handler is named here; what it does with its
    backend is behind the name. *)

From S2P Require Import Prelude Unicode GoStrings GoNet NetIP GoError GoTime Glob Signer Canonical Policy PolicyFacts Verifier VerifierFacts Checksum Cors Store Authorize AuthorizeFacts Catalog Headers Addressing.
Import headers addressing.
Existing Instance policy.Effect_eq_dec.

Open Scope Z_scope.

Module routing.

(** ** Query parameters *)

Definition subACL : string := "acl".
Definition subCORS : string := "cors".
Definition subDelete : string := "delete".
Definition subEncryption : string := "encryption".
Definition subLegalHold : string := "legal-hold".
Definition subLocation : string := "location".
Definition subObjectLock : string := "object-lock".
Definition subOwnership : string := "ownershipControls".
Definition subPolicy : string := "policy".
Definition subPolicyStatus : string := "policyStatus".
Definition subPublicAccess : string := "publicAccessBlock".
Definition subAttributes : string := "attributes".
Definition subRetention : string := "retention".
Definition subTagging : string := "tagging".
Definition subUploads : string := "uploads".
Definition subVersioning : string := "versioning".
Definition subVersions : string := "versions".
Definition qpUploadID : string := "uploadId".
Definition qpPartNumber : string := "partNumber".
Definition qpListType : string := "list-type".
Definition qpVersionID : string := "versionId".

Definition paramSet := list string.

Definition noParams : paramSet := [].
Definition aclOnlyParams : paramSet := [subACL].
Definition policyOnlyParams : paramSet := [subPolicy].
Definition corsOnlyParams : paramSet := [subCORS].
Definition objectLockOnlyParams : paramSet := [subObjectLock].
Definition retentionParams : paramSet := [subRetention; qpVersionID].
Definition legalHoldParams : paramSet := [subLegalHold; qpVersionID].
Definition aclParams : paramSet := [subACL; qpVersionID].
Definition locationOnlyParams : paramSet := [subLocation].
Definition deleteOnlyParams : paramSet := [subDelete].
Definition uploadsOnlyParams : paramSet := [subUploads].
Definition uploadIDOnlyParams : paramSet := [qpUploadID].
Definition versionIDOnlyParams : paramSet := [qpVersionID].
Definition versioningOnlyParams : paramSet := [subVersioning].
Definition encryptionOnlyParams : paramSet := [subEncryption].
Definition policyStatusOnlyParams : paramSet := [subPolicyStatus].
Definition ownershipOnlyParams : paramSet := [subOwnership].
Definition publicAccessOnlyParams : paramSet := [subPublicAccess].
Definition taggingParams : paramSet := [subTagging; qpVersionID].
Definition uploadPartParams : paramSet := [qpUploadID; qpPartNumber].
Definition listPartsParams : paramSet := [qpUploadID; "max-parts"; "part-number-marker"].
Definition listObjectsV1Params : paramSet := ["prefix"; "delimiter"; "marker"; "max-keys"; "encoding-type"].
Definition listObjectsV2Params : paramSet :=
  [qpListType; "prefix"; "delimiter"; "max-keys"; "continuation-token"; "start-after"; "fetch-owner"; "encoding-type"].
Definition listObjectVersionsParams : paramSet :=
  [subVersions; "prefix"; "delimiter"; "key-marker"; "version-id-marker"; "max-keys"; "encoding-type"].
Definition listMultipartUploadsParams : paramSet :=
  [subUploads; "prefix"; "delimiter"; "key-marker"; "upload-id-marker"; "max-uploads"; "encoding-type"].
Definition getObjectParams : paramSet :=
  [qpVersionID; qpPartNumber; "response-content-type"; "response-content-disposition";
   "response-cache-control"; "response-content-encoding"; "response-content-language"; "response-expires"].
Definition headObjectParams : paramSet := [qpVersionID; qpPartNumber].
Definition listBucketsParams : paramSet := ["max-buckets"; "continuation-token"].
Definition attributesParams : paramSet := [subAttributes; qpVersionID].

(** A parameter that is not a subresource: the SDK's hint, and presigned or
    hoisted x-amz-* parameters. *)
Definition param_ok (p : paramSet) (k : string) : bool :=
  bool_decide (k = "x-id") || strings.HasPrefix (strings.ToLower k) "x-amz-" || bool_decide (k ∈ p).

Definition check (p : paramSet) (query : values) : result s3err.Error unit :=
  each (fun kv : string * list string => guard (param_ok p kv.1) (s3err.NotImplemented [FS ("query parameter " +:+ kv.1)])) query.

(** ** Routes *)

(** The handlers, by their method names; [refuse] always answers
    NotImplemented. *)
Inductive handler :=
| listMultipartUploads | getBucketLocation | getBucketACL | getBucketPolicy | getBucketCors | getObjectLockConfiguration
| getBucketVersioning | getBucketEncryption | getBucketPolicyStatus | getBucketOwnershipControls | getPublicAccessBlock
| listObjectVersions | listObjectsV2 | listObjectsV1 | headBucket | deleteObjects
| listParts | getObjectTagging | getObjectACL | getObjectRetention | getObjectLegalHold | getObjectAttributes | getObject
| headObject | putObjectTagging | putObjectRetention | putObjectLegalHold | uploadPartOrCopy | putObjectOrCopy
| abortMultipartUpload | deleteObjectTagging | deleteObject | createMultipartUpload | completeMultipartUpload
| listBuckets | rejectACL | refuse (what : string).

#[export] Instance handler_eq_dec : EqDecision handler.
Proof. solve_decision. Defined.

Record headerAction := { present : signedHeader -> bool; haction : string }.

Record route := {
  rmatch : option (values -> bool);
  params : option paramSet;
  aclHdr : bool;
  attrs : bool;
  name : string;
  copy : string;
  handle : handler;
  action : string;
  versionAction : string;
  hdrActions : list headerAction;
  copyAction : string;
  copyVersionAction : string }.

Definition signedPresent (n : string) : signedHeader -> bool := fun hd => negb (bool_decide (Signed hd n = "")).

Definition headerPresence (n : string) : option (signedHeader -> bool) :=
  if bool_decide (n ∈ [hdrTagging; hdrObjectLockMode; hdrObjectLockRetainUntil; hdrObjectLockLegalHold]) then Some (signedPresent n)
  else if bool_decide (n = hdrBypassGovernanceRetention) then Some bypassGovernanceRetention
  else None.

Definition OpUnknown : string := "Unknown".

Definition onTarget (op : s3op.Operation) : list s3op.Authorization :=
  filter (fun a => s3op.On a = s3op.OnTarget) (s3op.Authorizations op).

(** One authorization of [targetAuthorizations]; [None] is its panic. *)
Definition target_auth (acc : option (string * string * list headerAction)) (a : s3op.Authorization) :=
  '(act, vact, hdr) ← acc;
  if bool_decide (s3op.Header a = "") then
    if negb (bool_decide (act = "")) then None else Some (s3op.Action a, s3op.VersionAction a, hdr)
  else
    p ← headerPresence (s3op.Header a);
    Some (act, vact, hdr ++ [{| present := p; haction := s3op.Action a |}]).

Definition targetAuthorizations (op : s3op.Operation) : option (string * string * list headerAction) :=
  fold_left target_auth (onTarget op) (Some ("", "", [])).

(** [bind]; [None] is a panic at package initialization. *)
Definition bind (rt : route) : option route :=
  if bool_decide (name rt = OpUnknown) then Some rt
  else
    op ← s3op.Lookup (name rt);
    '(act, vact, hdr) ← targetAuthorizations op;
    let bound ca cva :=
      {| rmatch := rmatch rt; params := params rt; aclHdr := aclHdr rt; attrs := attrs rt; name := name rt; copy := copy rt;
         handle := handle rt; action := act; versionAction := vact; hdrActions := hdr; copyAction := ca; copyVersionAction := cva |} in
    if bool_decide (copy rt = "") then Some (bound (copyAction rt) (copyVersionAction rt))
    else
      cp ← s3op.Lookup (copy rt);
      match filter (fun a => s3op.On a = s3op.OnCopySource) (s3op.Authorizations cp) with
      | [src] =>
        if bool_decide (onTarget cp = onTarget op) && bool_decide (s3op.Header src = "") &&
           (length (onTarget cp) + 1 =? length (s3op.Authorizations cp))%nat
        then Some (bound (s3op.Action src) (s3op.VersionAction src)) else None
      | _ => None
      end.

Fixpoint bind_all (rs : list route) : option (list route) :=
  match rs with
  | [] => Some []
  | rt :: rs => rt ← bind rt; rs ← bind_all rs; Some (rt :: rs)
  end.

Fixpoint bindRoutes (t : list (string * list route)) : option (list (string * list route)) :=
  match t with
  | [] => Some []
  | (method, rs) :: t => rs ← bind_all rs; t ← bindRoutes t; Some ((method, rs) :: t)
  end.

Definition has (key : string) : option (values -> bool) := Some (fun q => url.Has q key).
Definition hasListTypeV2 : option (values -> bool) := Some (fun q => bool_decide (url.Get q qpListType = "2")).
Definition hasUploadPart : option (values -> bool) := Some (fun q => url.Has q qpUploadID || url.Has q qpPartNumber).
Definition noQuery : option (values -> bool) := Some (fun q => (length q =? 0)%nat).

Definition mk (m : option (values -> bool)) (p : option paramSet) (acl at_ : bool) (n c : string) (hd : handler) : route :=
  {| rmatch := m; params := p; aclHdr := acl; attrs := at_; name := n; copy := c; handle := hd;
     action := ""; versionAction := ""; hdrActions := []; copyAction := ""; copyVersionAction := "" |}.

Definition plain (m : option (values -> bool)) (p : paramSet) (n : string) (hd : handler) : route := mk m (Some p) false false n "" hd.

Definition notImplemented (m : option (values -> bool)) (n : string) : route := mk m None false false n "" (refuse n).

Definition unknownOperation (what : string) : route := mk None None false false OpUnknown "" (refuse what).

Definition bucketRoutes_table : list (string * list route) := [
  ("GET", [
    plain (has subUploads) listMultipartUploadsParams s3op.OpListMultipartUploads listMultipartUploads;
    plain (has subLocation) locationOnlyParams s3op.OpGetBucketLocation getBucketLocation;
    plain (has subACL) aclOnlyParams s3op.OpGetBucketAcl getBucketACL;
    plain (has subPolicy) policyOnlyParams s3op.OpGetBucketPolicy getBucketPolicy;
    plain (has subCORS) corsOnlyParams s3op.OpGetBucketCors getBucketCors;
    plain (has subObjectLock) objectLockOnlyParams s3op.OpGetObjectLockConfiguration getObjectLockConfiguration;
    plain (has subVersioning) versioningOnlyParams s3op.OpGetBucketVersioning getBucketVersioning;
    plain (has subEncryption) encryptionOnlyParams s3op.OpGetBucketEncryption getBucketEncryption;
    plain (has subPolicyStatus) policyStatusOnlyParams s3op.OpGetBucketPolicyStatus getBucketPolicyStatus;
    plain (has subOwnership) ownershipOnlyParams s3op.OpGetBucketOwnershipControls getBucketOwnershipControls;
    plain (has subPublicAccess) publicAccessOnlyParams s3op.OpGetPublicAccessBlock getPublicAccessBlock;
    plain (has subVersions) listObjectVersionsParams s3op.OpListObjectVersions listObjectVersions;
    plain hasListTypeV2 listObjectsV2Params s3op.OpListObjectsV2 listObjectsV2;
    plain None listObjectsV1Params s3op.OpListObjects listObjectsV1 ]);
  ("HEAD", [ mk None None false false s3op.OpHeadBucket "" headBucket ]);
  ("PUT", [
    mk (has subACL) None false false s3op.OpPutBucketAcl "" rejectACL;
    notImplemented (has subVersioning) s3op.OpPutBucketVersioning;
    notImplemented (has subObjectLock) s3op.OpPutObjectLockConfiguration;
    notImplemented (has subPolicy) s3op.OpPutBucketPolicy;
    notImplemented (has subCORS) s3op.OpPutBucketCors;
    notImplemented (has subEncryption) s3op.OpPutBucketEncryption;
    notImplemented (has subOwnership) s3op.OpPutBucketOwnershipControls;
    notImplemented (has subPublicAccess) s3op.OpPutPublicAccessBlock;
    notImplemented noQuery s3op.OpCreateBucket;
    unknownOperation "this bucket operation" ]);
  ("DELETE", [
    notImplemented (has subPolicy) s3op.OpDeleteBucketPolicy;
    notImplemented (has subCORS) s3op.OpDeleteBucketCors;
    notImplemented (has subEncryption) s3op.OpDeleteBucketEncryption;
    notImplemented (has subOwnership) s3op.OpDeleteBucketOwnershipControls;
    notImplemented (has subPublicAccess) s3op.OpDeletePublicAccessBlock;
    notImplemented noQuery s3op.OpDeleteBucket;
    unknownOperation "this bucket operation" ]);
  ("POST", [
    plain (has subDelete) deleteOnlyParams s3op.OpDeleteObjects deleteObjects;
    unknownOperation "this bucket operation" ]) ].

Definition objectRoutes_table : list (string * list route) := [
  ("GET", [
    plain (has qpUploadID) listPartsParams s3op.OpListParts listParts;
    plain (has subTagging) taggingParams s3op.OpGetObjectTagging getObjectTagging;
    plain (has subACL) aclParams s3op.OpGetObjectAcl getObjectACL;
    plain (has subRetention) retentionParams s3op.OpGetObjectRetention getObjectRetention;
    plain (has subLegalHold) legalHoldParams s3op.OpGetObjectLegalHold getObjectLegalHold;
    plain (has subAttributes) attributesParams s3op.OpGetObjectAttributes getObjectAttributes;
    plain None getObjectParams s3op.OpGetObject getObject ]);
  ("HEAD", [ plain None headObjectParams s3op.OpHeadObject headObject ]);
  ("PUT", [
    plain (has subTagging) taggingParams s3op.OpPutObjectTagging putObjectTagging;
    mk (has subACL) None false false s3op.OpPutObjectAcl "" rejectACL;
    plain (has subRetention) retentionParams s3op.OpPutObjectRetention putObjectRetention;
    plain (has subLegalHold) legalHoldParams s3op.OpPutObjectLegalHold putObjectLegalHold;
    mk hasUploadPart (Some uploadPartParams) false false s3op.OpUploadPart s3op.OpUploadPartCopy uploadPartOrCopy;
    mk None (Some noParams) true true s3op.OpPutObject s3op.OpCopyObject putObjectOrCopy ]);
  ("DELETE", [
    plain (has qpUploadID) uploadIDOnlyParams s3op.OpAbortMultipartUpload abortMultipartUpload;
    plain (has subTagging) taggingParams s3op.OpDeleteObjectTagging deleteObjectTagging;
    plain None versionIDOnlyParams s3op.OpDeleteObject deleteObject ]);
  ("POST", [
    mk (has subUploads) (Some uploadsOnlyParams) true true s3op.OpCreateMultipartUpload "" createMultipartUpload;
    plain (has qpUploadID) uploadIDOnlyParams s3op.OpCompleteMultipartUpload completeMultipartUpload;
    unknownOperation "this operation" ]) ].

Definition bucketRoutes : list (string * list route) := default [] (bindRoutes bucketRoutes_table).
Definition objectRoutes : list (string * list route) := default [] (bindRoutes objectRoutes_table).

Definition routes_for (t : list (string * list route)) (method : string) : option (list route) :=
  snd <$> List.find (fun e => bool_decide (e.1 = method)) t.

(** ** Operations *)

(** What the client asked for about the object. *)
Record OpRequest := { SSE : string; SSEKMSKeyID : string; StorageClass : string; RMetadata : gmap string string }.

Definition OpRequest_empty (r : OpRequest) : bool :=
  bool_decide (SSE r = "") && bool_decide (SSEKMSKeyID r = "") && bool_decide (StorageClass r = "") && bool_decide (RMetadata r = ∅).

(** [Op] as the hooks are given it; the response, the byte counts and the
    denials are filled in when it has run. *)
Record Op := {
  OMethod : string;
  Operation : string;
  Actions : list string;
  OTenant : string;
  OUser : string;
  OBucket : string;
  BucketOwner : string;
  OKey : string;
  ORequest : option OpRequest;
  BucketMetadata : option string;
  OKeyMetadata : option string }.

Record opCtx := {
  method : string;
  cfg : store.Bucket;
  vr : s3gw.verifiedRequest;
  hdr : signedHeader;
  query : values;
  key : string }.

Definition objectRequest (c : opCtx) (withAttrs : bool) : option OpRequest :=
  if negb withAttrs then None
  else
    let req := {| SSE := Signed (hdr c) hdrSSE; SSEKMSKeyID := Signed (hdr c) hdrSSEKMSKeyID;
                  StorageClass := Signed (hdr c) hdrStorageClass; RMetadata := AmzMeta (hdr c) |} in
    if OpRequest_empty req then None else Some req.

(** The resource of an operation: the bucket, or bucket/key. *)
Definition resource_of (b : store.Bucket) (key : string) : string :=
  if bool_decide (key = "") then store.Name b else store.Name b +:+ "/" +:+ key.

Definition ctx_authorize (c : opCtx) (action : string) : result s3err.Error unit :=
  s3gw.authorize (vr c) (cfg c) action (resource_of (cfg c) (key c)).

Definition versioned (action versionAction : string) (version : bool) : string :=
  if version && negb (bool_decide (versionAction = "")) then versionAction else action.

(** One header action of [authorizeRoute]. *)
Definition authorize_header (c : opCtx) (hd : signedHeader) (actions : list string) (ha : headerAction) : result s3err.Error (list string) :=
  if negb (present ha hd) || bool_decide (haction ha ∈ actions) then Ok actions
  else match ctx_authorize c (haction ha) with
  | Ok _ => Ok (actions ++ [haction ha])
  | Err e => Err e
  end.

Definition authorizeRoute (c : opCtx) (rt : route) (hd : signedHeader) (version : bool) : result s3err.Error (list string) :=
  actions ← (if bool_decide (action rt = "") then Ok []
             else let a := versioned (action rt) (versionAction rt) version in
                  match ctx_authorize c a with Ok _ => Ok [a] | Err e => Err e end);
  foldM (authorize_header c hd) actions (hdrActions rt).

(** ** Copy sources *)

Definition invalid_copy_source : s3err.Error :=
  s3err.WithCause (s3err.New 400 "InvalidArgument" [FS "Invalid copy source"]) (Text [FS "invalid escape"]).

(** Whether [url.ParseQuery] reports no error: every piece unescapes and has
    no semicolon. *)
Definition parse_query_ok (q : string) : bool :=
  forallb (fun piece =>
    bool_decide (piece = "") ||
    let '(k, v, _) := strings.Cut piece "=" in
    no_char ";" piece && bool_decide (is_Some (url.QueryUnescape k)) && bool_decide (is_Some (url.QueryUnescape v)))
  (strings.Split q "&").

(** [resolveCopySource]: the backend copy source and the action its read was
    authorized for. *)
Definition resolveCopySource (st : store.Store) (c : opCtx) (rt : route) : result s3err.Error (string * string) :=
  let raw := strings.TrimPrefix (Signed (hdr c) hdrCopySource) "/" in
  let '(rawPath, versionID, _) := strings.Cut raw "?" in
  let '(rawBucket, rawKey, ok) := strings.Cut rawPath "/" in
  if negb ok || bool_decide (rawKey = "")
  then Err (s3err.New 400 "InvalidArgument" [FS "Copy Source must mention the source bucket and key: sourcebucket/sourcekey"])
  else match url.PathUnescape rawBucket, unescapeKey rawKey with
  | Some srcBucket, Some srcKey =>
    if negb (parse_query_ok versionID) then Err invalid_copy_source
    else
      let a := versioned (copyAction rt) (copyVersionAction rt)
                 (negb (bool_decide (url.Get (url.ParseQuery versionID) qpVersionID = ""))) in
      match store.GetBucket st (s3gw.Tenant (vr c)) srcBucket with
      | Err err =>
        if errors.Is err store.ErrNotFound
        then Err (s3gw.denied (s3gw.copySourceReason (s3gw.principal (vr c)) a (srcBucket +:+ "/" +:+ srcKey) (Some err)))
        else Err (s3err.Internal err "bucket lookup failed")
      | Ok src =>
        match s3gw.authorize (vr c) src a (store.Name src +:+ "/" +:+ srcKey) with
        | Err e => Err e
        | Ok _ =>
          let sb := store.BBackend src in
          let db := store.BBackend (cfg c) in
          if negb (bool_decide (store.Endpoint sb = store.Endpoint db)) || negb (bool_decide (store.Region sb = store.Region db)) ||
             negb (bool_decide (store.BAccessKeyID sb = store.BAccessKeyID db))
          then Err (s3err.NotImplemented [FS "copying between different backends"])
          else
            let cs := strings.drop 1 (escaped_path ("/" +:+ store.BBucket sb +:+ "/" +:+ srcKey)) in
            Ok (if bool_decide (versionID = "") then cs else cs +:+ "?" +:+ versionID, a)
        end
      end
  | _, _ => Err invalid_copy_source
  end.

(** ** Dispatch *)

Definition route_matches (rt : route) (q : values) : bool := match rmatch rt with Some f => f q | None => true end.

(** The checks of a matched route up to the hooks: the operation, its handler
    and the copy source it was authorized to read. *)
Definition run_route (st : store.Store) (c : opCtx) (rt : route) : result s3err.Error (Op * handler * string) :=
  _ ← match params rt with Some p => check p (query c) | None => Ok tt end;
  _ ← (if aclHdr rt then checkACLHeader (hdr c) else Ok tt);
  actions ← authorizeRoute c rt (hdr c) (negb (bool_decide (url.Get (query c) qpVersionID = "")));
  '(n, src, actions) ←
    (if negb (bool_decide (copy rt = "")) && negb (bool_decide (Signed (hdr c) hdrCopySource = ""))
     then '(src, a) ← resolveCopySource st c rt; Ok (copy rt, src, actions ++ [a])
     else Ok (name rt, "", actions));
  Ok ({| OMethod := method c; Operation := n; Actions := actions; OTenant := s3gw.Tenant (vr c); OUser := s3gw.User (vr c);
         OBucket := store.Name (cfg c); BucketOwner := store.Tenant (cfg c); OKey := key c;
         ORequest := objectRequest c (attrs rt); BucketMetadata := store.BMetadata (cfg c);
         OKeyMetadata := s3gw.KeyMetadata (vr c) |}, handle rt, src).

Definition dispatch (st : store.Store) (c : opCtx) (routes : list route) : result s3err.Error (Op * handler * string) :=
  _ ← checkSSEC (hdr c);
  _ ← checkSSE (hdr c);
  match List.find (fun rt => route_matches rt (query c)) routes with
  | None => Err (s3err.NotImplemented [FS "this operation"])
  | Some rt => run_route st c rt
  end.

Definition handleBucketRequest (st : store.Store) (c : opCtx) : result s3err.Error (Op * handler * string) :=
  match routes_for bucketRoutes (method c) with
  | None => Err (s3err.NotImplemented [FS "this bucket operation"])
  | Some routes => dispatch st c routes
  end.

Definition method_not_allowed : s3err.Error :=
  s3err.New 405 "MethodNotAllowed" [FS "The specified method is not allowed against this resource."].

Definition handleObjectRequest (st : store.Store) (c : opCtx) : result s3err.Error (Op * handler * string) :=
  match routes_for objectRoutes (method c) with
  | None => Err method_not_allowed
  | Some routes => dispatch st c routes
  end.

(** ** The request *)

(** The parts of the gateway [handleRequest] reads.  [backendClient] is the
    construction of the SDK client of a backend. *)
Record Gateway := {
  gstore : store.Store;
  gverifier : verifier.Verifier;
  vhostSuffix : string;
  checksums : checksumPolicy;
  backendClient : store.Backend -> result goerror unit }.

Definition with_verifier (g : Gateway) (v : verifier.Verifier) : Gateway :=
  {| gstore := gstore g; gverifier := v; vhostSuffix := vhostSuffix g; checksums := checksums g; backendClient := backendClient g |}.

(** Where a request goes: an error, one of the two paths that authenticate
    otherwise, or an operation on a bucket (none for ListBuckets) for a
    verified requester. *)
Inductive outcome :=
| Refused (e : s3err.Error)
| Preflight
| PostUpload (t : target)
| Run (who : s3gw.verifiedRequest) (req : http.Request) (b : option store.Bucket) (op : Op) (hd : handler) (copySource : string).

Definition invalid_uri : s3err.Error :=
  s3err.WithCause (s3err.New 400 "InvalidURI" [FS "Couldn't parse the specified URI."]) (Text [FS "invalid URL escape"]).

(** ListBuckets: no bucket, so the user policy alone decides. *)
Definition list_buckets (r : http.Request) (who : s3gw.verifiedRequest) : outcome :=
  if negb (bool_decide (http.Method r = "GET")) then Refused method_not_allowed
  else match check listBucketsParams (url.Query (http.URL r)) with
  | Err e => Refused e
  | Ok _ =>
    let d := policy.UserDecide (s3gw.vrPolicy who) s3op.ActionListAllMyBuckets in
    if negb (bool_decide (policy.DEffect d = policy.Allow))
    then Refused (s3gw.denied (s3gw.userPolicyReason (s3gw.principal who) s3op.ActionListAllMyBuckets d))
    else Run who r None
      {| OMethod := http.Method r; Operation := s3op.OpListBuckets; Actions := [s3op.ActionListAllMyBuckets];
         OTenant := s3gw.Tenant who; OUser := s3gw.User who; OBucket := ""; BucketOwner := ""; OKey := ""; ORequest := None;
         BucketMetadata := None; OKeyMetadata := s3gw.KeyMetadata who |} listBuckets ""
  end.

(** A request on a bucket or an object. *)
Definition bucket_request (g : Gateway) (r : http.Request) (who : s3gw.verifiedRequest) (t : target) : outcome :=
  match s3gw.resolveBucket (gstore g) who (tbucket t) with
  | Err e => Refused e
  | Ok b =>
    match backendClient g (store.BBackend b) with
    | Err err => Refused (s3err.Internal err "backend client failed")
    | Ok _ =>
      let c := {| method := http.Method r; cfg := b; vr := who; hdr := newSignedHeader (http.Header_ r) (verifier.SignedHeaders (s3gw.Verified who));
                  query := url.Query (http.URL r); key := tkey t |} in
      match (if bool_decide (tkey t = "") then handleBucketRequest (gstore g) c else handleObjectRequest (gstore g) c) with
      | Err e => Refused e
      | Ok (op, hd, src) => Run who r (Some b) op hd src
      end
    end
  end.

Definition authenticated_request (g : Gateway) (now : Z) (r : http.Request) : outcome * Gateway :=
  match s3gw.verifyRequest (gstore g) (gverifier g) now r with
  | (Err e, v) => (Refused e, with_verifier g v)
  | (Ok (who, r), v) =>
    let g := with_verifier g v in
    (match checkKnownAmzHeaders (newSignedHeader (http.Header_ r) (verifier.SignedHeaders (s3gw.Verified who))) (checksums g) with
     | Err e => Refused e
     | Ok _ =>
       match requestTarget (vhostSuffix g) r with
       | None => Refused invalid_uri
       | Some t => if bool_decide (tbucket t = "") then list_buckets r who else bucket_request g r who t
       end
     end, g)
  end.

Definition handleRequest (g : Gateway) (now : Z) (r : http.Request) : outcome * Gateway :=
  if bool_decide (http.Method r = "OPTIONS") then (Preflight, g)
  else if bool_decide (http.Method r = "POST") && isMultipartForm (http.Header_ r) then
    match requestTarget (vhostSuffix g) r with
    | None => (Refused invalid_uri, g)
    | Some t => if negb (bool_decide (tbucket t = "")) && bool_decide (tkey t = "") then (PostUpload t, g)
                else authenticated_request g now r
    end
  else authenticated_request g now r.

End routing.
