(* ===== verification/RoutingFacts.v ===== *)
(** * Correctness of routing

    Every route is bound to its catalog entry, dispatch runs an operation only
    after everything the catalog demands was authorized, and the whole path of
    a request from its signature to its operation. *)

From S2P Require Import Prelude Unicode GoStrings GoNet NetIP GoError GoTime Glob Signer Canonical Policy PolicyFacts Verifier VerifierFacts Checksum Cors Store Authorize AuthorizeFacts Catalog Headers Addressing Routing.
Import headers addressing routing.

Open Scope Z_scope.

(** ** Binding *)

Lemma fold_target_None l : fold_left target_auth l None = None.
Proof. by induction l. Qed.

Lemma target_auth_fold l : forall a0 v0 h0 a v h,
  Forall (fun x => s3op.Action x <> "") l ->
  fold_left target_auth l (Some (a0, v0, h0)) = Some (a, v, h) ->
  (a0 <> "" -> a = a0 /\ v = v0) /\ (forall ha, ha ∈ h0 -> ha ∈ h) /\
  (forall x, x ∈ l -> s3op.Header x = "" -> a = s3op.Action x /\ v = s3op.VersionAction x) /\
  (forall x, x ∈ l -> s3op.Header x <> "" ->
    exists p, headerPresence (s3op.Header x) = Some p /\ {| present := p; haction := s3op.Action x |} ∈ h).
Proof.
  induction l as [|x l IH]; intros a0 v0 h0 a v h Hne H; cbn [fold_left] in H.
  { injection H as <- <- <-. split; [done|]. split; [done|]. split; intros x Hx; by apply not_elem_of_nil in Hx. }
  apply Forall_cons in Hne as [Hx Hne].
  destruct (target_auth (Some (a0, v0, h0)) x) as [[[a1 v1] h1]|] eqn:Hstep; [|by rewrite fold_target_None in H].
  destruct (IH _ _ _ _ _ _ Hne H) as (H1 & H2 & H3 & H4). simpl in Hstep.
  case_bool_decide as Hh.
  - destruct (bool_decide (a0 = "")) eqn:Ha0; simpl in Hstep; [|done]. injection Hstep as <- <- <-. bools.
    destruct (H1 Hx) as [-> ->]. split; [done|]. split; [done|].
    split; intros y [->|Hy]%elem_of_cons; auto; congruence.
  - destruct (headerPresence (s3op.Header x)) as [p|] eqn:Hp; [|done]. injection Hstep as <- <- <-.
    split; [done|]. split; [intros ha Hha; apply H2; by apply elem_of_app; left|].
    split; intros y [->|Hy]%elem_of_cons; auto; [congruence|].
    intros _. exists p. split; [done|]. apply H2, elem_of_app. right. by apply list_elem_of_singleton.
Qed.

Lemma catalog_actions_named op : op ∈ s3op.operations -> Forall (fun x => s3op.Action x <> "") (s3op.Authorizations op).
Proof. revert op. apply Forall_forall, (bool_decide_unpack _). by vm_compute. Qed.

Lemma Lookup_operations n op : s3op.Lookup n = Some op -> op ∈ s3op.operations /\ s3op.Name op = n.
Proof.
  unfold s3op.Lookup. intros H. destruct (filter _ _) as [|x l] eqn:Hf; [done|]. injection H as ->.
  assert (op ∈ filter (fun op => s3op.Name op = n) s3op.operations) as He by (rewrite Hf; left).
  by apply list_elem_of_filter in He as [? ?].
Qed.

(** What a bound route carries of its catalog entry. *)
Record bound_to (rt : route) (op : s3op.Operation) : Prop := {
  bt_lookup : s3op.Lookup (name rt) = Some op;
  bt_action x : x ∈ s3op.Authorizations op -> s3op.On x = s3op.OnTarget -> s3op.Header x = "" ->
    action rt = s3op.Action x /\ versionAction rt = s3op.VersionAction x /\ action rt <> "";
  bt_headers x : x ∈ s3op.Authorizations op -> s3op.On x = s3op.OnTarget -> s3op.Header x <> "" ->
    exists p, headerPresence (s3op.Header x) = Some p /\ {| present := p; haction := s3op.Action x |} ∈ hdrActions rt }.

Record copy_bound_to (rt : route) (op cp : s3op.Operation) : Prop := {
  cb_lookup : s3op.Lookup (copy rt) = Some cp;
  cb_target : onTarget cp = onTarget op;
  cb_source x : x ∈ s3op.Authorizations cp -> s3op.On x = s3op.OnCopySource ->
    copyAction rt = s3op.Action x /\ copyVersionAction rt = s3op.VersionAction x }.

Lemma elem_onTarget x op : x ∈ onTarget op <-> x ∈ s3op.Authorizations op /\ s3op.On x = s3op.OnTarget.
Proof. unfold onTarget. rewrite list_elem_of_filter. naive_solver. Qed.

Lemma bind_sound rt0 rt :
  bind rt0 = Some rt -> name rt <> OpUnknown ->
  exists op, bound_to rt op /\ (copy rt <> "" -> exists cp, copy_bound_to rt op cp).
Proof.
  unfold bind. case_bool_decide as Hu; [by intros [= ->]|].
  destruct (s3op.Lookup (name rt0)) as [op|] eqn:Hl; simpl; [|done].
  destruct (targetAuthorizations op) as [[[a v] hs]|] eqn:Ht; simpl; [|done].
  assert (Forall (fun x => s3op.Action x <> "") (onTarget op)) as Hne.
  { apply Lookup_operations in Hl as [Hl%catalog_actions_named _]. rewrite Forall_forall in *.
    intros x Hx%elem_onTarget. apply Hl, Hx. }
  destruct (target_auth_fold _ _ _ _ _ _ _ Hne Ht) as (_ & _ & H3 & H4). rewrite Forall_forall in Hne.
  assert (forall ca cva, bound_to {| rmatch := rmatch rt0; params := params rt0; aclHdr := aclHdr rt0; attrs := attrs rt0; name := name rt0;
     copy := copy rt0; handle := handle rt0; action := a; versionAction := v; hdrActions := hs; copyAction := ca; copyVersionAction := cva |} op) as Hb.
  { intros ca cva. constructor; simpl; [done| |].
    - intros x Hx Hon Hh. assert (x ∈ onTarget op) as Hin by (by apply elem_onTarget).
      destruct (H3 x Hin Hh) as [-> ->]. repeat split; try done. by apply Hne.
    - intros x Hx Hon Hh. apply H4; [by apply elem_onTarget|done]. }
  case_bool_decide as Hc; [intros [= <-] _; exists op; split; [apply Hb|done]|].
  destruct (s3op.Lookup (copy rt0)) as [cp|] eqn:Hlc; simpl; [|done].
  destruct (filter _ (s3op.Authorizations cp)) as [|src [|]] eqn:Hf; [done| |done].
  destruct (bool_decide _ && _ && _) eqn:Hok; [|done]. intros [= <-] _. apply andb_true_iff in Hok as [Hok _]. bools.
  exists op. split; [apply Hb|]. intros _. exists cp. constructor; simpl; [done|done|].
  intros x Hx Hon. assert (x ∈ filter (fun a => s3op.On a = s3op.OnCopySource) (s3op.Authorizations cp)) as Hin
    by (by apply list_elem_of_filter). rewrite Hf in Hin. by apply list_elem_of_singleton in Hin as ->.
Qed.

Lemma bind_all_elem rs rs' rt : bind_all rs = Some rs' -> rt ∈ rs' -> exists rt0, bind rt0 = Some rt.
Proof.
  revert rs'; induction rs as [|r rs IH]; intros rs'; simpl; [intros [= <-] H; by apply not_elem_of_nil in H|].
  destruct (bind r) as [r'|] eqn:Hr; simpl; [|done]. destruct (bind_all rs) as [rs1|]; simpl; [|done].
  intros [= <-] [->|H]%elem_of_cons; eauto.
Qed.

Lemma bindRoutes_elem t t' m rs rt : bindRoutes t = Some t' -> (m, rs) ∈ t' -> rt ∈ rs -> exists rt0, bind rt0 = Some rt.
Proof.
  revert t'; induction t as [|[m0 rs0] t IH]; intros t'; simpl; [intros [= <-] H; by apply not_elem_of_nil in H|].
  destruct (bind_all rs0) as [rs1|] eqn:Hb; simpl; [|done]. destruct (bindRoutes t) as [t1|]; simpl; [|done].
  intros [= <-] [[= -> ->]|H]%elem_of_cons Hrt; [by eapply bind_all_elem|by eapply IH].
Qed.

Lemma routes_for_elem t m rs : routes_for t m = Some rs -> exists m', (m', rs) ∈ t.
Proof.
  unfold routes_for. intros ([m' rs'] & Hf & ->)%fmap_Some. apply List.find_some in Hf as [Hf _].
  exists m'. by apply list_elem_of_In.
Qed.

Lemma bound_table t m rs rt :
  routes_for (default [] (bindRoutes t)) m = Some rs -> rt ∈ rs -> exists rt0, bind rt0 = Some rt.
Proof.
  intros [m' H]%routes_for_elem Hrt. destruct (bindRoutes t) as [t'|] eqn:Ht; [|by apply not_elem_of_nil in H].
  by eapply bindRoutes_elem.
Qed.

(** Binding keeps what the tables say of a route. *)
Definition route_id (rt : route) : string * string * handler * option paramSet := (name rt, copy rt, handle rt, params rt).

Definition ids_of (t : list (string * list route)) : list (string * string * handler * option paramSet) :=
  t ≫= fun e => route_id <$> e.2.

Lemma bind_id rt rt' : bind rt = Some rt' -> route_id rt' = route_id rt.
Proof.
  unfold bind. case_bool_decide; [by intros [= <-]|]. destruct (s3op.Lookup (name rt)); simpl; [|done].
  destruct (targetAuthorizations _) as [[[a v] hs]|]; simpl; [|done]. case_bool_decide; [by intros [= <-]|].
  destruct (s3op.Lookup (copy rt)); simpl; [|done]. destruct (filter _ _) as [|src [|]]; [done| |done].
  destruct (_ && _ && _); [|done]. by intros [= <-].
Qed.

Lemma bind_all_ids rs rs' : bind_all rs = Some rs' -> (route_id <$> rs') = (route_id <$> rs).
Proof.
  revert rs'; induction rs as [|r rs IH]; intros rs'; simpl; [by intros [= <-]|].
  destruct (bind r) as [r'|] eqn:Hr; simpl; [|done]. destruct (bind_all rs) as [rs1|]; simpl; [|done].
  intros [= <-]. simpl. by rewrite (bind_id _ _ Hr), IH.
Qed.

Lemma bindRoutes_ids t t' : bindRoutes t = Some t' -> ids_of t' = ids_of t.
Proof.
  revert t'; induction t as [|[m rs] t IH]; intros t'; simpl; [by intros [= <-]|].
  destruct (bind_all rs) as [rs1|] eqn:Hb; simpl; [|done]. destruct (bindRoutes t) as [t1|]; simpl; [|done].
  intros [= <-]. unfold ids_of in *. simpl. by rewrite (bind_all_ids _ _ Hb), IH.
Qed.

Lemma table_ids t m rs rt :
  routes_for (default [] (bindRoutes t)) m = Some rs -> rt ∈ rs -> route_id rt ∈ ids_of t.
Proof.
  intros [m' H]%routes_for_elem Hrt. destruct (bindRoutes t) as [t'|] eqn:Ht; [|by apply not_elem_of_nil in H].
  rewrite <- (bindRoutes_ids _ _ Ht). unfold ids_of. apply list_elem_of_bind. exists (m', rs). split; [|done].
  by apply list_elem_of_fmap_2.
Qed.

Definition all_ids : list (string * string * handler * option paramSet) := ids_of bucketRoutes_table ++ ids_of objectRoutes_table.

(** A handler that reaches no backend: the answer is always a refusal. *)
Definition refuses (h : handler) : bool := match h with refuse _ | rejectACL => true | _ => false end.

(** Facts read off the tables: a route's own operation reads no copy source,
    the unknown operation is always refused, and only refusals and HeadBucket
    skip the check of query parameters. *)
Definition id_ok (i : string * string * handler * option paramSet) : bool :=
  let '(n, cp, h, ps) := i in
  match s3op.Lookup n with
  | Some op => forallb (fun x => negb (bool_decide (s3op.On x = s3op.OnCopySource))) (s3op.Authorizations op) &&
               Bool.eqb (bool_decide (s3op.OpSupport op = s3op.Refused)) (refuses h)
  | None => bool_decide (n = OpUnknown) && bool_decide (cp = "") && refuses h
  end && (refuses h || bool_decide (h = headBucket) || bool_decide (is_Some ps)).

Lemma all_ids_ok i : i ∈ all_ids -> id_ok i = true.
Proof. revert i. apply forallb_elem. vm_refl. Qed.

(** A list of routes of one of the two tables. *)
Definition served (routes : list route) : Prop :=
  exists m, routes_for bucketRoutes m = Some routes \/ routes_for objectRoutes m = Some routes.

Lemma served_bound routes rt : served routes -> rt ∈ routes -> exists rt0, bind rt0 = Some rt.
Proof.
  intros (m & [H|H]) Hrt; [exact (bound_table bucketRoutes_table m routes rt H Hrt)|].
  exact (bound_table objectRoutes_table m routes rt H Hrt).
Qed.

Lemma served_id routes rt : served routes -> rt ∈ routes -> id_ok (route_id rt) = true.
Proof.
  intros (m & [H|H]) Hrt; apply all_ids_ok, elem_of_app.
  - left. exact (table_ids bucketRoutes_table m routes rt H Hrt).
  - right. exact (table_ids objectRoutes_table m routes rt H Hrt).
Qed.

Lemma served_no_copy_source routes rt op x :
  served routes -> rt ∈ routes -> s3op.Lookup (name rt) = Some op -> x ∈ s3op.Authorizations op -> s3op.On x <> s3op.OnCopySource.
Proof.
  intros Hs Hrt Hl Hx. pose proof (served_id _ _ Hs Hrt) as Hi. unfold id_ok, route_id in Hi. rewrite Hl in Hi.
  apply andb_true_iff in Hi as [Hi _]. apply andb_true_iff in Hi as [Hi _]. rewrite forallb_elem in Hi.
  specialize (Hi x Hx). by bools.
Qed.

Lemma served_unknown routes rt : served routes -> rt ∈ routes -> name rt = OpUnknown -> copy rt = "" /\ refuses (handle rt) = true.
Proof.
  intros Hs Hrt Hu. pose proof (served_id _ _ Hs Hrt) as Hi. unfold id_ok, route_id in Hi. rewrite Hu in Hi.
  assert (s3op.Lookup OpUnknown = None) as Hn by vm_refl. rewrite Hn in Hi. by bools.
Qed.

(** ** Authorization of a route *)

Section dispatching.
Context (st : store.Store) (c : opCtx).

Lemma authorize_headers_sound hd has_ : forall acts acts',
  (forall x, x ∈ acts -> ctx_authorize c x = Ok tt) ->
  foldM (authorize_header c hd) acts has_ = Ok acts' ->
  (forall x, x ∈ acts' -> ctx_authorize c x = Ok tt) /\ (forall x, x ∈ acts -> x ∈ acts') /\
  (forall ha, ha ∈ has_ -> present ha hd = true -> haction ha ∈ acts').
Proof.
  induction has_ as [|ha l IH]; intros acts acts' Hall H; simpl in H.
  { injection H as <-. split; [done|]. split; [done|]. intros ha Hha. by apply not_elem_of_nil in Hha. }
  destruct (authorize_header c hd acts ha) as [acts1|] eqn:Hs; [|done].
  assert ((forall x, x ∈ acts1 -> ctx_authorize c x = Ok tt) /\ (forall x, x ∈ acts -> x ∈ acts1) /\
          (present ha hd = true -> haction ha ∈ acts1)) as (H1 & H2 & H3).
  { unfold authorize_header in Hs. destruct (present ha hd); simpl in Hs; [|injection Hs as <-; by repeat split].
    case_bool_decide as Hin; [injection Hs as <-; by repeat split|].
    destruct (ctx_authorize c (haction ha)) as [[]|] eqn:Ha; [|done]. injection Hs as <-.
    setoid_rewrite elem_of_app. setoid_rewrite list_elem_of_singleton. naive_solver. }
  destruct (IH _ _ H1 H) as (H4 & H5 & H6). split; [done|]. split; [auto|].
  intros ha' [->|Hin]%elem_of_cons Hp; auto.
Qed.

Lemma authorizeRoute_sound rt hd version acts :
  authorizeRoute c rt hd version = Ok acts ->
  (forall x, x ∈ acts -> ctx_authorize c x = Ok tt) /\
  (action rt <> "" -> versioned (action rt) (versionAction rt) version ∈ acts) /\
  (forall ha, ha ∈ hdrActions rt -> present ha hd = true -> haction ha ∈ acts).
Proof.
  unfold authorizeRoute. intros H.
  destruct (if bool_decide (action rt = "") then _ else _) as [acts0|] eqn:H0; simpl in H; [|done].
  destruct (authorize_headers_sound hd (hdrActions rt) acts0 acts) as (H1 & H2 & H3); [|done|].
  - case_bool_decide; [injection H0 as <-; intros x Hx; by apply not_elem_of_nil in Hx|].
    destruct (ctx_authorize c _) as [[]|] eqn:Ha; [|done]. injection H0 as <-. intros x Hx.
    by apply list_elem_of_singleton in Hx as ->.
  - split; [done|]. split; [|done]. intros Hne. apply H2. rewrite bool_decide_false in H0 by done.
    destruct (ctx_authorize c _) as [[]|]; [|done]. injection H0 as <-. left.
Qed.

(** ** Copy sources *)

(** The source is a bucket of the requester's own tenant, the read of the key
    was authorized on it under [a], and it lives on the target's backend. *)
Record copy_authorized (a : string) : Prop := {
  ca_source : exists srcBucket src srcKey,
    store.GetBucket st (s3gw.Tenant (vr c)) srcBucket = Ok src /\
    s3gw.authorize (vr c) src a (store.Name src +:+ "/" +:+ srcKey) = Ok tt /\
    store.Endpoint (store.BBackend src) = store.Endpoint (store.BBackend (cfg c)) /\
    store.Region (store.BBackend src) = store.Region (store.BBackend (cfg c)) /\
    store.BAccessKeyID (store.BBackend src) = store.BAccessKeyID (store.BBackend (cfg c)) }.

Lemma resolveCopySource_sound rt src a :
  resolveCopySource st c rt = Ok (src, a) ->
  copy_authorized a /\ (a = copyAction rt \/ a = copyVersionAction rt).
Proof.
  unfold resolveCopySource. destruct (strings.Cut _ "?") as [[rawPath versionID] hasVersion]. destruct (strings.Cut rawPath "/") as [[rawBucket rawKey] ok].
  intros H. destruct (negb ok || _); [done|]. destruct (url.PathUnescape rawBucket) as [sb|]; [|done].
  destruct (unescapeKey rawKey) as [sk|]; [|done]. destruct (negb (parse_query_ok versionID)); [done|]. cbv zeta in H.
  set (a0 := versioned _ _ _) in H.
  destruct (store.GetBucket st _ sb) as [b|] eqn:Hg; [|by destruct (errors.Is _ _)].
  destruct (s3gw.authorize _ b _ _) as [[]|] eqn:Ha; [|done].
  destruct (negb _ || negb _ || negb _) eqn:Hb; [done|]. injection H as _ <-. bools.
  split; [constructor; eauto 10|]. unfold a0, versioned. destruct (_ && _); auto.
Qed.

(** ** Dispatch *)

(** When an authorization of the catalog applies to the request. *)
Definition applies_to (hd : signedHeader) (x : s3op.Authorization) : Prop :=
  s3op.Header x = "" \/ exists p, headerPresence (s3op.Header x) = Some p /\ p hd = true.

Definition names_version : bool := negb (bool_decide (url.Get (query c) qpVersionID = "")).

(** Everything the catalog demands of [operation] was authorized: each action
    on the target that applies, in its version form where the request names a
    version and there is one, and the read of a copy source. *)
Record catalog_authorized (op : Op) : Prop := {
  ct_each x : x ∈ Actions op -> ctx_authorize c x = Ok tt \/ copy_authorized x;
  ct_entry : exists entry, s3op.Lookup (Operation op) = Some entry /\
    (forall x, x ∈ s3op.Authorizations entry -> s3op.On x = s3op.OnTarget -> s3op.Header x = "" ->
      versioned (s3op.Action x) (s3op.VersionAction x) names_version ∈ Actions op /\
      ctx_authorize c (versioned (s3op.Action x) (s3op.VersionAction x) names_version) = Ok tt) /\
    (forall x, x ∈ s3op.Authorizations entry -> s3op.On x = s3op.OnTarget -> s3op.Header x <> "" -> applies_to (hdr c) x ->
      s3op.Action x ∈ Actions op /\ ctx_authorize c (s3op.Action x) = Ok tt) /\
    (forall x, x ∈ s3op.Authorizations entry -> s3op.On x = s3op.OnCopySource ->
      exists a, (a = s3op.Action x \/ a = s3op.VersionAction x) /\ a ∈ Actions op /\ copy_authorized a) }.

Lemma target_authorized rt op entry acts :
  bound_to rt op -> onTarget entry = onTarget op -> authorizeRoute c rt (hdr c) names_version = Ok acts ->
  (forall x, x ∈ s3op.Authorizations entry -> s3op.On x = s3op.OnTarget -> s3op.Header x = "" ->
    versioned (s3op.Action x) (s3op.VersionAction x) names_version ∈ acts /\
    ctx_authorize c (versioned (s3op.Action x) (s3op.VersionAction x) names_version) = Ok tt) /\
  (forall x, x ∈ s3op.Authorizations entry -> s3op.On x = s3op.OnTarget -> s3op.Header x <> "" -> applies_to (hdr c) x ->
    s3op.Action x ∈ acts /\ ctx_authorize c (s3op.Action x) = Ok tt).
Proof.
  intros Hb Heq Ha. destruct (authorizeRoute_sound _ _ _ _ Ha) as (H1 & H2 & H3).
  assert (forall x, x ∈ s3op.Authorizations entry -> s3op.On x = s3op.OnTarget ->
    x ∈ s3op.Authorizations op /\ s3op.On x = s3op.OnTarget) as Hon.
  { intros x Hx Ho. apply elem_onTarget. rewrite <- Heq. by apply elem_onTarget. }
  split.
  - intros x Hx Ho Hh. destruct (Hon x Hx Ho) as [Hx' _]. destruct (bt_action _ _ Hb x Hx' Ho Hh) as (<- & <- & Hne).
    split; [by apply H2|by apply H1, H2].
  - intros x Hx Ho Hh [|(p & Hp & Hpres)]; [done|]. destruct (Hon x Hx Ho) as [Hx' _].
    destruct (bt_headers _ _ Hb x Hx' Ho Hh) as (p' & Hp' & Hin). rewrite Hp in Hp'. injection Hp' as <-.
    specialize (H3 _ Hin Hpres). simpl in H3. auto.
Qed.

(** The successful path of a matched route. *)
Lemma run_route_inv rt op h src :
  run_route st c rt = Ok (op, h, src) ->
  h = handle rt /\ (forall p, params rt = Some p -> check p (query c) = Ok tt) /\
  (OTenant op = s3gw.Tenant (vr c) /\ OUser op = s3gw.User (vr c) /\ OBucket op = store.Name (cfg c) /\
   BucketOwner op = store.Tenant (cfg c) /\ OKey op = key c) /\
  exists acts, authorizeRoute c rt (hdr c) names_version = Ok acts /\
    (copy rt <> "" /\ Operation op = copy rt /\ (exists a, resolveCopySource st c rt = Ok (src, a) /\ Actions op = acts ++ [a]) \/
     Operation op = name rt /\ Actions op = acts).
Proof.
  unfold run_route. intros H.
  destruct (match params rt with Some _ => _ | None => _ end) as [[]|] eqn:Hp; simpl in H; [|done].
  destruct (if aclHdr rt then _ else _) as [[]|]; simpl in H; [|done]. fold names_version in H.
  destruct (authorizeRoute c rt (hdr c) names_version) as [acts|] eqn:Ha; simpl in H; [|done].
  assert (forall p, params rt = Some p -> check p (query c) = Ok tt) as Hpar by (intros p Hpp; by rewrite Hpp in Hp).
  destruct (negb (bool_decide (copy rt = "")) && negb _) eqn:Hcopy; simpl in H.
  - destruct (resolveCopySource st c rt) as [[s a]|] eqn:Hsrc; simpl in H; [|done]. injection H as <- <- <-. bools.
    do 3 (split; [done|]). exists acts. split; [done|]. left. eauto 10.
  - injection H as <- <- <-. do 3 (split; [done|]). exists acts. split; [done|]. by right.
Qed.

Lemma run_route_sound routes rt op h src :
  served routes -> rt ∈ routes -> run_route st c rt = Ok (op, h, src) -> name rt <> OpUnknown -> catalog_authorized op.
Proof.
  intros Hs Hrt H Hu. destruct (served_bound _ _ Hs Hrt) as [rt0 Hb].
  destruct (bind_sound _ _ Hb Hu) as (cat & Hbt & Hcp).
  apply run_route_inv in H as (_ & _ & _ & acts & Ha & [(Hc & Hn & a & Hsrc & Hacts)|[Hn Hacts]]).
  - destruct (Hcp Hc) as (cp & Hcb). apply resolveCopySource_sound in Hsrc as [Hca Hor].
    destruct (target_authorized _ _ cp _ Hbt (cb_target _ _ _ Hcb) Ha) as [Ht1 Ht2].
    constructor; rewrite ?Hn, Hacts.
    + intros x [Hx|Hx]%elem_of_app; [left; by apply (authorizeRoute_sound _ _ _ _ Ha)|].
      apply list_elem_of_singleton in Hx as ->. by right.
    + exists cp. split; [apply (cb_lookup _ _ _ Hcb)|]. setoid_rewrite elem_of_app. split; [|split].
      * intros x Hx Ho Hh. destruct (Ht1 x Hx Ho Hh). auto.
      * intros x Hx Ho Hh Hp. destruct (Ht2 x Hx Ho Hh Hp). auto.
      * intros x Hx Ho. destruct (cb_source _ _ _ Hcb x Hx Ho) as [<- <-]. exists a. split; [done|].
        split; [right; by apply list_elem_of_singleton|done].
  - destruct (target_authorized _ _ cat _ Hbt eq_refl Ha) as [Ht1 Ht2].
    constructor; rewrite ?Hn, Hacts; [intros x Hx; left; by apply (authorizeRoute_sound _ _ _ _ Ha)|].
    exists cat. split; [apply (bt_lookup _ _ Hbt)|]. split; [done|]. split; [done|].
    intros x Hx Ho. by destruct (served_no_copy_source _ _ _ _ Hs Hrt (bt_lookup _ _ Hbt) Hx).
Qed.

Lemma dispatch_route routes op h src :
  dispatch st c routes = Ok (op, h, src) ->
  exists rt, rt ∈ routes /\ route_matches rt (query c) = true /\ run_route st c rt = Ok (op, h, src) /\
    checkSSEC (hdr c) = Ok tt /\ checkSSE (hdr c) = Ok tt.
Proof.
  unfold dispatch. intros H. destruct (checkSSEC (hdr c)) as [[]|]; simpl in H; [|done].
  destruct (checkSSE (hdr c)) as [[]|]; simpl in H; [|done].
  destruct (List.find _ routes) as [rt|] eqn:Hf; [|done]. apply List.find_some in Hf as [Hin%list_elem_of_In Hm]. eauto 10.
Qed.

Lemma dispatch_sound routes op h src :
  served routes -> dispatch st c routes = Ok (op, h, src) ->
  (Operation op = OpUnknown /\ refuses h = true) \/ catalog_authorized op.
Proof.
  intros Hs (rt & Hrt & _ & H & _)%dispatch_route. destruct (decide (name rt = OpUnknown)) as [Hu|Hu].
  - destruct (served_unknown _ _ Hs Hrt Hu) as [Hc Hr].
    apply run_route_inv in H as (-> & _ & _ & acts & _ & [(? & _)|[-> _]]); [done|auto].
  - right. by eapply run_route_sound.
Qed.

Lemma dispatch_params_ok routes op h src :
  served routes -> dispatch st c routes = Ok (op, h, src) ->
  refuses h = true \/ h = headBucket \/ exists p, Forall (fun kv => param_ok p kv.1 = true) (query c).
Proof.
  intros Hs (rt & Hrt & _ & H & _)%dispatch_route. pose proof (served_id _ _ Hs Hrt) as Hi.
  apply run_route_inv in H as (-> & Hpar & _).
  unfold id_ok, route_id in Hi. apply andb_true_iff in Hi as [_ Hi]. apply orb_true_iff in Hi as [Hi|Hi].
  { apply orb_true_iff in Hi as [Hi|Hi]; bools; auto. }
  apply bool_decide_eq_true in Hi as [p Hp]. right; right. exists p. specialize (Hpar p Hp). unfold check in Hpar.
  rewrite each_ok in Hpar. eapply Forall_impl; [exact Hpar|]. intros kv. simpl. unfold guard. by destruct (param_ok p kv.1).
Qed.

End dispatching.

(** ** The whole path *)

Lemma routes_for_served t m routes : t = bucketRoutes \/ t = objectRoutes -> routes_for t m = Some routes -> served routes.
Proof. intros [-> | ->] H; exists m; auto. Qed.

(** What holds of a request that reached its operation on a bucket. *)
Record bucket_run (g : Gateway) (who : s3gw.verifiedRequest) (r : http.Request) (b : store.Bucket) (op : Op) (h : handler) : Prop := {
  br_visible : visible who b;
  br_names : OTenant op = s3gw.Tenant who /\ OUser op = s3gw.User who /\ OBucket op = store.Name b /\ BucketOwner op = store.Tenant b;
  br_target : exists t, requestTarget (vhostSuffix g) r = Some t /\ tbucket t = store.Name b /\ tkey t = OKey op;
  br_authorized : exists c, cfg c = b /\ vr c = who /\ key c = OKey op /\ query c = url.Query (http.URL r) /\
    hdr c = newSignedHeader (http.Header_ r) (verifier.SignedHeaders (s3gw.Verified who)) /\
    ((Operation op = OpUnknown /\ refuses h = true) \/ catalog_authorized (gstore g) c op) }.

Lemma bucket_request_run g (HL : store.StoreLaws (gstore g)) r who t b op h src who' r' :
  requestTarget (vhostSuffix g) r = Some t ->
  bucket_request g r who t = Run who' r' b op h src ->
  who' = who /\ r' = r /\ exists bk, b = Some bk /\ bucket_run g who r bk op h.
Proof.
  unfold bucket_request. intros Ht H. destruct (s3gw.resolveBucket _ _ _) as [bk|] eqn:Hr; [|done].
  apply resolveBucket_ok in Hr as [Hname Hvis]; [|done].
  destruct (backendClient g _); [|done]. set (c := {| method := _ |}) in H.
  destruct (if bool_decide (tkey t = "") then _ else _) as [[[op0 h0] src0]|] eqn:Hd; [|done]. injection H as <- <- <- <- <- <-.
  split; [done|]. split; [done|]. exists bk. split; [done|].
  assert (exists routes, served routes /\ dispatch (gstore g) c routes = Ok (op0, h0, src0)) as (routes & Hs & Hdisp).
  { unfold handleBucketRequest, handleObjectRequest in Hd. destruct (bool_decide (tkey t = "")).
    - destruct (routes_for bucketRoutes _) as [rs|] eqn:Hf; [|done]. exists rs. split; [|done].
      exact (routes_for_served bucketRoutes _ _ (or_introl eq_refl) Hf).
    - destruct (routes_for objectRoutes _) as [rs|] eqn:Hf; [|done]. exists rs. split; [|done].
      exact (routes_for_served objectRoutes _ _ (or_intror eq_refl) Hf). }
  pose proof (dispatch_sound _ _ _ _ _ _ Hs Hdisp) as Hsound.
  apply dispatch_route in Hdisp as (rt & _ & _ & Hrun & _).
  apply run_route_inv in Hrun as (_ & _ & (H1 & H2 & H3 & H4 & H5) & _). simpl in *. constructor; try done.
  - exists t. by repeat split.
  - exists c. simpl. repeat split; try done.
Qed.

Lemma authenticated_request_run g (HL : store.StoreLaws (gstore g)) now r who r' b op h src g' :
  authenticated_request g now r = (Run who r' b op h src, g') ->
  s3gw.verifyRequest (gstore g) (gverifier g) now r = (Ok (who, r'), gverifier g') /\
  checkKnownAmzHeaders (newSignedHeader (http.Header_ r') (verifier.SignedHeaders (s3gw.Verified who))) (checksums g) = Ok tt /\
  match b with
  | Some bk => bucket_run g' who r' bk op h
  | None => Operation op = s3op.OpListBuckets /\ OTenant op = s3gw.Tenant who /\ OUser op = s3gw.User who /\
            policy.DEffect (policy.UserDecide (s3gw.vrPolicy who) s3op.ActionListAllMyBuckets) = policy.Allow
  end.
Proof.
  unfold authenticated_request. destruct (s3gw.verifyRequest _ _ _ _) as [[[who0 r0]|] v] eqn:Hv; [|done].
  intros H. injection H as H <-. cbn [gverifier with_verifier].
  destruct (checkKnownAmzHeaders _ _) as [[]|] eqn:Hk in H; [|done].
  destruct (requestTarget _ _) as [t|] eqn:Ht in H; [|done]. destruct (bool_decide (tbucket t = "")).
  - unfold list_buckets in H. destruct (negb _); [done|]. destruct (check _ _); [|done].
    case_bool_decide as Hd; simpl in H; [|done]. injection H as <- <- <- <- <- <-. by repeat split.
  - apply (bucket_request_run (with_verifier g v) HL) in H as (-> & -> & bk & -> & Hb); [|done].
    split; [done|]. by split.
Qed.

Lemma handleRequest_run g now r who r' b op h src g' :
  handleRequest g now r = (Run who r' b op h src, g') -> authenticated_request g now r = (Run who r' b op h src, g').
Proof.
  unfold handleRequest. intros H. destruct (bool_decide _); [done|]. destruct (_ && _); [|done].
  destruct (requestTarget _ _); [|done]. by destruct (_ && _).
Qed.

(** The signature behind a verified request, whichever mechanism it used. *)
Lemma Verify_authenticated keyfn v now r lookup ver r' v' :
  sigv4.reachable keyfn (verifier.signers v) -> versioned_lookup keyfn lookup ->
  verifier.Verify v now r lookup = (Ok (ver, r'), v') ->
  (exists sh drop, presents now r sh drop ver /\ authenticated keyfn v r lookup (s3gw.presented_token r) sh drop ver) /\
  - verifier.maxClockSkew <= now - time.instant (verifier.SigningTime ver) <= verifier.maxPresignExpires /\
  amz_covered r' ver /\ sigv4.reachable keyfn (verifier.signers v').
Proof.
  intros Hr Hl. unfold verifier.Verify, s3gw.presented_token.
  destruct (negb (bool_decide (url.Get (url.Query (http.URL r)) "X-Amz-Signature" = ""))); simpl.
  - case_bool_decide as Hauth; simpl; [|by intros [=]]. intros H%(presigned_sound keyfn); [|done..].
    destruct H as ((sh & Hp & Ha) & _ & _ & Hc & Hre & _). split; [exists sh, "X-Amz-Signature"; split; [by right|done]|].
    split; [|by split]. destruct Hp as (_ & _ & _ & _ & e & _ & _ & Hw & Hm & _). lia.
  - case_bool_decide as Hauth; simpl; [by intros [=]|]. intros H%(header_sound keyfn); [|done..].
    destruct H as ((sh & Hp & Ha) & _ & _ & Hc & Hre & _). split; [exists sh, ""; split; [by left|done]|]. split; [|by split].
    destruct Hp as (_ & _ & Hw). unfold verifier.maxPresignExpires, verifier.maxClockSkew, time.Hour, time.Minute, time.Second in *. lia.
Qed.

(** ** Theorems *)

(** C2. Every request that reaches an operation was authenticated and
    authorized end to end.  The signature its Authorization header or its
    query presents is the SigV4 signature of the canonical request under the
    key the store returned for the presented id, within the time window (15
    minutes of now, or for a presigned URL the X-Amz-Expires it carries); every x-amz-* header the operation can read is
    covered and known; it acts as the tenant, user and policy of that key; and
    either it lists its own buckets, allowed by its user policy, or it addresses
    the bucket and key of its URL, the bucket is visible to it, and every action
    the catalog demands of the operation was granted (an unknown operation is
    only ever refused). *)
Theorem handleRequest_secure keyfn g now r who r' b op h src g' :
  store.StoreLaws (gstore g) ->
  sigv4.reachable keyfn (verifier.signers (gverifier g)) -> versioned_lookup keyfn (s3gw.secretLookup (gstore g)) ->
  handleRequest g now r = (Run who r' b op h src, g') ->
  (exists sh drop, presents now r sh drop (s3gw.Verified who) /\
     authenticated keyfn (gverifier g) r (s3gw.secretLookup (gstore g)) (s3gw.presented_token r) sh drop (s3gw.Verified who)) /\
  - verifier.maxClockSkew <= now - time.instant (verifier.SigningTime (s3gw.Verified who)) <= verifier.maxPresignExpires /\
  amz_covered r' (s3gw.Verified who) /\
  checkKnownAmzHeaders (newSignedHeader (http.Header_ r') (verifier.SignedHeaders (s3gw.Verified who))) (checksums g) = Ok tt /\
  (exists key, store.GetKey (gstore g) (verifier.AccessKeyID (s3gw.Verified who)) (s3gw.presented_token r) = Ok key /\
     s3gw.Tenant who = store.KTenant key /\ s3gw.User who = store.User key /\ s3gw.vrPolicy who = store.KPolicy key) /\
  match b with
  | Some bk => bucket_run g' who r' bk op h
  | None => Operation op = s3op.OpListBuckets /\ OTenant op = s3gw.Tenant who /\ OUser op = s3gw.User who /\
            policy.DEffect (policy.UserDecide (s3gw.vrPolicy who) s3op.ActionListAllMyBuckets) = policy.Allow
  end.
Proof.
  intros Hs Hr Hl H%handleRequest_run. apply authenticated_request_run in H as (Hv & Hk & Hb); [|done].
  apply verifyRequest_inv in Hv as (key & Hkey & Ht & Hu & Hp & _ & Hver).
  destruct (Verify_authenticated keyfn _ _ _ _ _ _ _ Hr Hl Hver) as (Ha & Hw & Hc & _). eauto 15.
Qed.

(** [dispatch] runs an operation only after everything the operation
    catalog demands of it was authorized on the request's own bucket and key:
    its action (in the version form when the request names a version), each
    action a present header adds, and for a copy the read of the source in the
    requester's own tenant; what the hooks are told in [Actions] was authorized.
    A request matching no operation is only refused. *)
Theorem dispatch_authorizes st c routes op h src :
  served routes -> dispatch st c routes = Ok (op, h, src) ->
  (Operation op = OpUnknown /\ refuses h = true) \/ catalog_authorized st c op.
Proof. apply dispatch_sound. Qed.

(** No query parameter is silently ignored: an operation that reaches a
    backend, HeadBucket apart, runs only when every query parameter is one it
    accepts, an SDK hint or an x-amz-* one. *)
Theorem dispatch_knows_parameters st c routes op h src :
  served routes -> dispatch st c routes = Ok (op, h, src) ->
  refuses h = true \/ h = headBucket \/ exists p, Forall (fun kv => param_ok p kv.1 = true) (query c).
Proof. apply dispatch_params_ok. Qed.

(** The route tables bind without a panic, every operation of the catalog
    but the two with paths of their own is served by a route, and a route
    refuses exactly the operations the catalog marks as refused. *)
Theorem routes_cover_catalog :
  is_Some (bindRoutes bucketRoutes_table) /\ is_Some (bindRoutes objectRoutes_table) /\
  (forall op, op ∈ s3op.operations -> s3op.Name op ∈ [s3op.OpListBuckets; s3op.OpPostObject] \/
     exists n cp h ps, (n, cp, h, ps) ∈ all_ids /\ (s3op.Name op = n \/ s3op.Name op = cp)) /\
  (forall n cp h ps op, (n, cp, h, ps) ∈ all_ids -> s3op.Lookup n = Some op ->
     (s3op.OpSupport op = s3op.Refused <-> refuses h = true)).
Proof.
  split; [apply (bool_decide_unpack _); by vm_compute|]. split; [apply (bool_decide_unpack _); by vm_compute|]. split.
  - assert (forall op, op ∈ s3op.operations ->
      bool_decide (s3op.Name op ∈ [s3op.OpListBuckets; s3op.OpPostObject]) ||
      existsb (fun i : string * string * handler * option paramSet =>
        let '(n, cp, h, ps) := i in bool_decide (s3op.Name op = n) || bool_decide (s3op.Name op = cp)) all_ids = true) as H.
    { apply forallb_elem. vm_refl. }
    intros op Hop. specialize (H op Hop). apply orb_true_iff in H as [H|H]; [left; by bools|].
    apply existsb_elem in H as ([[[n cp] h] ps] & Hin & H). right. exists n, cp, h, ps. split; [done|].
    apply orb_true_iff in H as [H|H]; bools; auto.
  - intros n cp h ps op Hin Hl. apply all_ids_ok in Hin. unfold id_ok in Hin. rewrite Hl in Hin.
    apply andb_true_iff in Hin as [Hin _]. apply andb_true_iff in Hin as [_ Hin]. apply Bool.eqb_prop in Hin.
    rewrite <- Hin. by rewrite bool_decide_eq_true.
Qed.

(** ** Witnesses *)

Definition demo_gateway : Gateway :=
  {| gstore := demo_store; gverifier := demo_verifier; vhostSuffix := ""; checksums := demo_checksums;
     backendClient := fun _ => Ok tt |}.

#[local] Notation demo_out := (handleRequest demo_gateway demo_now demo_signed).

Lemma demo_store_versioned : versioned_lookup sigv4.demo_keyfn (s3gw.secretLookup demo_store).
Proof.
  intros akid token cred date reg k H. unfold s3gw.secretLookup in H. simpl in H. case_bool_decide; simpl in H; [|done].
  injection H as <-. apply sigv4.demo_keyfn_ok. done.
Qed.

Lemma handleRequest_secure_witness :
  match demo_out.1 with
  | Run who r' (Some b) op h src =>
    OKey op = "a b" /\ Actions op = ["s3:GetObject"] /\ h = getObject /\ bucket_run demo_out.2 who r' b op h
  | _ => False
  end.
Proof.
  assert (match demo_out.1 with
          | Run _ _ (Some _) op h _ =>
            bool_decide (OKey op = "a b") && bool_decide (Actions op = ["s3:GetObject"]) && bool_decide (h = getObject)
          | _ => false end = true) as H by vm_refl.
  destruct demo_out as [[e| |t|who r' [b|] op h src] g'] eqn:E; simpl in H; try discriminate H.
  apply andb_true_iff in H as [H H3%bool_decide_eq_true]. apply andb_true_iff in H as [H1%bool_decide_eq_true H2%bool_decide_eq_true].
  split; [exact H1|]. split; [exact H2|]. split; [exact H3|].
  exact (proj2 (proj2 (proj2 (proj2 (proj2 (handleRequest_secure sigv4.demo_keyfn demo_gateway demo_now demo_signed who r' (Some b) op h src g'
    demo_store_laws (sigv4.reach_new _ _ _) demo_store_versioned E)))))).
Defined.

Definition demo_ctx (q : values) : opCtx :=
  {| method := "HEAD"; cfg := demo_bucket; vr := demo_vr "tenant-a" "alice"; hdr := newSignedHeader [] None; query := q; key := "" |}.

Definition demo_routes : list route := default [] (routes_for bucketRoutes "HEAD").

Lemma demo_routes_served : served demo_routes.
Proof. exists "HEAD". left. unfold demo_routes. destruct (routes_for bucketRoutes "HEAD") eqn:E; [reflexivity|]. vm_compute in E. discriminate E. Qed.

(** HeadBucket is the operation that ignores a subresource it does not know. *)
#[local] Notation demo_dispatch := (dispatch demo_store (demo_ctx [("acl", [""])]) demo_routes).

Lemma dispatch_authorizes_witness :
  match demo_dispatch with
  | Ok (op, h, src) => h = headBucket /\ Actions op = ["s3:ListBucket"] /\
      ((Operation op = OpUnknown /\ refuses h = true) \/ catalog_authorized demo_store (demo_ctx [("acl", [""])]) op)
  | Err _ => False
  end.
Proof.
  assert (match demo_dispatch with
          | Ok (op, h, _) => bool_decide (h = headBucket) && bool_decide (Actions op = ["s3:ListBucket"])
          | Err _ => false end = true) as H by vm_refl.
  destruct demo_dispatch as [[[op h] src]|e] eqn:E; [|discriminate H].
  apply andb_true_iff in H as [H1%bool_decide_eq_true H2%bool_decide_eq_true]. split; [exact H1|]. split; [exact H2|].
  exact (dispatch_authorizes demo_store (demo_ctx [("acl", [""])]) demo_routes op h src demo_routes_served E).
Defined.

Lemma dispatch_knows_parameters_witness :
  match demo_dispatch with
  | Ok (op, h, src) => refuses h = true \/ h = headBucket \/ exists p, Forall (fun kv => param_ok p kv.1 = true) (query (demo_ctx [("acl", [""])]))
  | Err _ => False
  end.
Proof.
  assert (is_ok demo_dispatch = true) as H by vm_refl.
  destruct demo_dispatch as [[[op h] src]|e] eqn:E; [|discriminate H].
  exact (dispatch_knows_parameters demo_store (demo_ctx [("acl", [""])]) demo_routes op h src demo_routes_served E).
Defined.
