(* ===== verification/S3XML.v ===== *)
(** * The XML bodies of the S3 API (src/s3xml/s3xml.go, src/s3xml/checksums_gen.go)

    One record per structure of the source, with the element [xml.Marshal]
    writes for it: the fields in order, under the names of their tags,
    [omitempty] fields left out when zero and nil pointers always.  A root
    element is the [_xml] of its structure. *)

From S2P Require Import Prelude Unicode GoStrings GoTime JSON XML.
Import xml.

Open Scope Z_scope.

Module s3xml.

Definition Namespace : string := "http://s3.amazonaws.com/doc/2006-03-01/".

Definition FormatTime (t : Z) : string := time.FormatMillis t.

Definition omitzero (name : string) (n : Z) : list node := if n =? 0 then [] else number name n.
Definition omitfalse (name : string) (b : bool) : list node := if b then boolean name b else [].
Definition omit_attr (name s : string) : list (string * string) := if bool_decide (s = "") then [] else [(name, s)].

(** The checksum elements of a body, one per algorithm. *)
Record Checksums := {
  ChecksumCRC32 : string; ChecksumCRC32C : string; ChecksumCRC64NVME : string; ChecksumSHA1 : string; ChecksumSHA256 : string;
  ChecksumSHA512 : string; ChecksumMD5 : string; ChecksumXXHASH64 : string; ChecksumXXHASH3 : string; ChecksumXXHASH128 : string }.

Definition Checksums_children (c : Checksums) : list node :=
  omitempty "ChecksumCRC32" (ChecksumCRC32 c) ++ omitempty "ChecksumCRC32C" (ChecksumCRC32C c) ++
  omitempty "ChecksumCRC64NVME" (ChecksumCRC64NVME c) ++ omitempty "ChecksumSHA1" (ChecksumSHA1 c) ++
  omitempty "ChecksumSHA256" (ChecksumSHA256 c) ++ omitempty "ChecksumSHA512" (ChecksumSHA512 c) ++
  omitempty "ChecksumMD5" (ChecksumMD5 c) ++ omitempty "ChecksumXXHASH64" (ChecksumXXHASH64 c) ++
  omitempty "ChecksumXXHASH3" (ChecksumXXHASH3 c) ++ omitempty "ChecksumXXHASH128" (ChecksumXXHASH128 c).

Record Owner := { Owner_ID : string; Owner_DisplayName : string }.
Definition Owner_elem (name : string) (x : Owner) : node := Elem name ([])
  (text "ID" (Owner_ID x) ++
   text "DisplayName" (Owner_DisplayName x)).

Record Object := {
  Object_Key : string; Object_LastModified : string; Object_ETag : string; Object_ChecksumAlgorithm : list string;
  Object_ChecksumType : string; Object_Size : Z; Object_StorageClass : string; Object_Owner : option Owner }.
Definition Object_elem (name : string) (x : Object) : node := Elem name ([])
  (text "Key" (Object_Key x) ++
   text "LastModified" (Object_LastModified x) ++
   text "ETag" (Object_ETag x) ++
   concat (map (text "ChecksumAlgorithm") (Object_ChecksumAlgorithm x)) ++
   omitempty "ChecksumType" (Object_ChecksumType x) ++
   number "Size" (Object_Size x) ++
   omitempty "StorageClass" (Object_StorageClass x) ++
   from_option (fun y => [Owner_elem "Owner" y]) [] (Object_Owner x)).

Record CommonPrefix := { CommonPrefix_Prefix : string }.
Definition CommonPrefix_elem (name : string) (x : CommonPrefix) : node := Elem name ([])
  (text "Prefix" (CommonPrefix_Prefix x)).

Record ListBucketResult := {
  ListBucketResult_XMLNS : string; ListBucketResult_Name : string; ListBucketResult_Prefix : string; ListBucketResult_StartAfter : string;
  ListBucketResult_ContinuationToken : option string; ListBucketResult_NextContinuationToken : string; ListBucketResult_KeyCount : Z;
  ListBucketResult_MaxKeys : Z; ListBucketResult_Delimiter : string; ListBucketResult_EncodingType : string;
  ListBucketResult_IsTruncated : bool; ListBucketResult_Contents : list Object; ListBucketResult_CommonPrefixes : list CommonPrefix }.
Definition ListBucketResult_elem (name : string) (x : ListBucketResult) : node := Elem name ([("xmlns", (ListBucketResult_XMLNS x))])
  (text "Name" (ListBucketResult_Name x) ++
   text "Prefix" (ListBucketResult_Prefix x) ++
   omitempty "StartAfter" (ListBucketResult_StartAfter x) ++
   from_option (text "ContinuationToken") [] (ListBucketResult_ContinuationToken x) ++
   omitempty "NextContinuationToken" (ListBucketResult_NextContinuationToken x) ++
   number "KeyCount" (ListBucketResult_KeyCount x) ++
   number "MaxKeys" (ListBucketResult_MaxKeys x) ++
   omitempty "Delimiter" (ListBucketResult_Delimiter x) ++
   omitempty "EncodingType" (ListBucketResult_EncodingType x) ++
   boolean "IsTruncated" (ListBucketResult_IsTruncated x) ++
   map (Object_elem "Contents") (ListBucketResult_Contents x) ++
   map (CommonPrefix_elem "CommonPrefixes") (ListBucketResult_CommonPrefixes x)).
Definition ListBucketResult_xml (x : ListBucketResult) : node := ListBucketResult_elem "ListBucketResult" x.

Record ListBucketResultV1 := {
  ListBucketResultV1_XMLNS : string; ListBucketResultV1_Name : string; ListBucketResultV1_Prefix : string;
  ListBucketResultV1_Marker : string; ListBucketResultV1_NextMarker : string; ListBucketResultV1_MaxKeys : Z;
  ListBucketResultV1_Delimiter : string; ListBucketResultV1_EncodingType : string; ListBucketResultV1_IsTruncated : bool;
  ListBucketResultV1_Contents : list Object; ListBucketResultV1_CommonPrefixes : list CommonPrefix }.
Definition ListBucketResultV1_elem (name : string) (x : ListBucketResultV1) : node := Elem name ([("xmlns", (ListBucketResultV1_XMLNS x))])
  (text "Name" (ListBucketResultV1_Name x) ++
   text "Prefix" (ListBucketResultV1_Prefix x) ++
   text "Marker" (ListBucketResultV1_Marker x) ++
   omitempty "NextMarker" (ListBucketResultV1_NextMarker x) ++
   number "MaxKeys" (ListBucketResultV1_MaxKeys x) ++
   omitempty "Delimiter" (ListBucketResultV1_Delimiter x) ++
   omitempty "EncodingType" (ListBucketResultV1_EncodingType x) ++
   boolean "IsTruncated" (ListBucketResultV1_IsTruncated x) ++
   map (Object_elem "Contents") (ListBucketResultV1_Contents x) ++
   map (CommonPrefix_elem "CommonPrefixes") (ListBucketResultV1_CommonPrefixes x)).
Definition ListBucketResultV1_xml (x : ListBucketResultV1) : node := ListBucketResultV1_elem "ListBucketResult" x.

Record LocationConstraint := { LocationConstraint_XMLNS : string; LocationConstraint_Value : string }.
Definition LocationConstraint_elem (name : string) (x : LocationConstraint) : node := Elem name ([("xmlns", (LocationConstraint_XMLNS x))])
  ([Chars (LocationConstraint_Value x)]).
Definition LocationConstraint_xml (x : LocationConstraint) : node := LocationConstraint_elem "LocationConstraint" x.

Record DeleteRequestObject := {
  DeleteRequestObject_Key : string; DeleteRequestObject_VersionID : string; DeleteRequestObject_ETag : string;
  DeleteRequestObject_LastModifiedTime : string; DeleteRequestObject_Size : option Z }.

Record DeleteRequest := { DeleteRequest_Quiet : bool; DeleteRequest_Objects : list DeleteRequestObject }.

Record DeletedObject := {
  DeletedObject_Key : string; DeletedObject_VersionID : string; DeletedObject_DeleteMarker : bool;
  DeletedObject_DeleteMarkerVersionID : string }.
Definition DeletedObject_elem (name : string) (x : DeletedObject) : node := Elem name ([])
  (text "Key" (DeletedObject_Key x) ++
   omitempty "VersionId" (DeletedObject_VersionID x) ++
   omitfalse "DeleteMarker" (DeletedObject_DeleteMarker x) ++
   omitempty "DeleteMarkerVersionId" (DeletedObject_DeleteMarkerVersionID x)).

Record DeleteError := { DeleteError_Key : string; DeleteError_VersionID : string; DeleteError_Code : string; DeleteError_Message : string }.
Definition DeleteError_elem (name : string) (x : DeleteError) : node := Elem name ([])
  (text "Key" (DeleteError_Key x) ++
   omitempty "VersionId" (DeleteError_VersionID x) ++
   text "Code" (DeleteError_Code x) ++
   text "Message" (DeleteError_Message x)).

Record DeleteResult := { DeleteResult_XMLNS : string; DeleteResult_Deleted : list DeletedObject; DeleteResult_Errors : list DeleteError }.
Definition DeleteResult_elem (name : string) (x : DeleteResult) : node := Elem name ([("xmlns", (DeleteResult_XMLNS x))])
  (map (DeletedObject_elem "Deleted") (DeleteResult_Deleted x) ++
   map (DeleteError_elem "Error") (DeleteResult_Errors x)).
Definition DeleteResult_xml (x : DeleteResult) : node := DeleteResult_elem "DeleteResult" x.

Record CopyObjectResult := {
  CopyObjectResult_XMLNS : string; CopyObjectResult_ETag : string; CopyObjectResult_LastModified : string;
  CopyObjectResult_ChecksumType : string; CopyObjectResult_Checksums : Checksums }.
Definition CopyObjectResult_elem (name : string) (x : CopyObjectResult) : node := Elem name ([("xmlns", (CopyObjectResult_XMLNS x))])
  (text "ETag" (CopyObjectResult_ETag x) ++
   omitempty "LastModified" (CopyObjectResult_LastModified x) ++
   omitempty "ChecksumType" (CopyObjectResult_ChecksumType x) ++
   Checksums_children (CopyObjectResult_Checksums x)).
Definition CopyObjectResult_xml (x : CopyObjectResult) : node := CopyObjectResult_elem "CopyObjectResult" x.

Record CopyPartResult := {
  CopyPartResult_XMLNS : string; CopyPartResult_ETag : string; CopyPartResult_LastModified : string; CopyPartResult_Checksums : Checksums }.
Definition CopyPartResult_elem (name : string) (x : CopyPartResult) : node := Elem name ([("xmlns", (CopyPartResult_XMLNS x))])
  (text "ETag" (CopyPartResult_ETag x) ++
   omitempty "LastModified" (CopyPartResult_LastModified x) ++
   Checksums_children (CopyPartResult_Checksums x)).
Definition CopyPartResult_xml (x : CopyPartResult) : node := CopyPartResult_elem "CopyPartResult" x.

Record InitiateMultipartUploadResult := {
  InitiateMultipartUploadResult_XMLNS : string; InitiateMultipartUploadResult_Bucket : string; InitiateMultipartUploadResult_Key : string;
  InitiateMultipartUploadResult_UploadID : string }.
Definition InitiateMultipartUploadResult_elem (name : string) (x : InitiateMultipartUploadResult) : node := Elem name ([("xmlns", (InitiateMultipartUploadResult_XMLNS x))])
  (text "Bucket" (InitiateMultipartUploadResult_Bucket x) ++
   text "Key" (InitiateMultipartUploadResult_Key x) ++
   text "UploadId" (InitiateMultipartUploadResult_UploadID x)).
Definition InitiateMultipartUploadResult_xml (x : InitiateMultipartUploadResult) : node := InitiateMultipartUploadResult_elem "InitiateMultipartUploadResult" x.

Record CompleteMultipartUploadResult := {
  CompleteMultipartUploadResult_XMLNS : string; CompleteMultipartUploadResult_Location : string;
  CompleteMultipartUploadResult_Bucket : string; CompleteMultipartUploadResult_Key : string; CompleteMultipartUploadResult_ETag : string;
  CompleteMultipartUploadResult_Checksums : Checksums; CompleteMultipartUploadResult_ChecksumType : string }.
Definition CompleteMultipartUploadResult_elem (name : string) (x : CompleteMultipartUploadResult) : node := Elem name ([("xmlns", (CompleteMultipartUploadResult_XMLNS x))])
  (text "Location" (CompleteMultipartUploadResult_Location x) ++
   text "Bucket" (CompleteMultipartUploadResult_Bucket x) ++
   text "Key" (CompleteMultipartUploadResult_Key x) ++
   text "ETag" (CompleteMultipartUploadResult_ETag x) ++
   Checksums_children (CompleteMultipartUploadResult_Checksums x) ++
   omitempty "ChecksumType" (CompleteMultipartUploadResult_ChecksumType x)).
Definition CompleteMultipartUploadResult_xml (x : CompleteMultipartUploadResult) : node := CompleteMultipartUploadResult_elem "CompleteMultipartUploadResult" x.

Record CompletePart := { CompletePart_PartNumber : Z; CompletePart_ETag : string; CompletePart_Checksums : Checksums }.

Record CompleteMultipartUploadRequest := { CompleteMultipartUploadRequest_Parts : list CompletePart }.

Record Part := { Part_PartNumber : Z; Part_LastModified : string; Part_ETag : string; Part_Size : Z; Part_Checksums : Checksums }.
Definition Part_elem (name : string) (x : Part) : node := Elem name ([])
  (number "PartNumber" (Part_PartNumber x) ++
   omitempty "LastModified" (Part_LastModified x) ++
   text "ETag" (Part_ETag x) ++
   number "Size" (Part_Size x) ++
   Checksums_children (Part_Checksums x)).

Record ListPartsResult := {
  ListPartsResult_XMLNS : string; ListPartsResult_Bucket : string; ListPartsResult_Key : string; ListPartsResult_UploadID : string;
  ListPartsResult_PartNumberMarker : string; ListPartsResult_NextPartNumberMarker : string; ListPartsResult_MaxParts : Z;
  ListPartsResult_IsTruncated : bool; ListPartsResult_Parts : list Part; ListPartsResult_Initiator : option Owner;
  ListPartsResult_Owner : option Owner; ListPartsResult_StorageClass : string; ListPartsResult_ChecksumAlgorithm : string;
  ListPartsResult_ChecksumType : string }.
Definition ListPartsResult_elem (name : string) (x : ListPartsResult) : node := Elem name ([("xmlns", (ListPartsResult_XMLNS x))])
  (text "Bucket" (ListPartsResult_Bucket x) ++
   text "Key" (ListPartsResult_Key x) ++
   text "UploadId" (ListPartsResult_UploadID x) ++
   omitempty "PartNumberMarker" (ListPartsResult_PartNumberMarker x) ++
   omitempty "NextPartNumberMarker" (ListPartsResult_NextPartNumberMarker x) ++
   number "MaxParts" (ListPartsResult_MaxParts x) ++
   boolean "IsTruncated" (ListPartsResult_IsTruncated x) ++
   map (Part_elem "Part") (ListPartsResult_Parts x) ++
   from_option (fun y => [Owner_elem "Initiator" y]) [] (ListPartsResult_Initiator x) ++
   from_option (fun y => [Owner_elem "Owner" y]) [] (ListPartsResult_Owner x) ++
   omitempty "StorageClass" (ListPartsResult_StorageClass x) ++
   omitempty "ChecksumAlgorithm" (ListPartsResult_ChecksumAlgorithm x) ++
   omitempty "ChecksumType" (ListPartsResult_ChecksumType x)).
Definition ListPartsResult_xml (x : ListPartsResult) : node := ListPartsResult_elem "ListPartsResult" x.

Record Upload := {
  Upload_Key : string; Upload_UploadID : string; Upload_Initiator : option Owner; Upload_Owner : option Owner; Upload_StorageClass : string;
  Upload_Initiated : string; Upload_ChecksumAlgorithm : string; Upload_ChecksumType : string }.
Definition Upload_elem (name : string) (x : Upload) : node := Elem name ([])
  (text "Key" (Upload_Key x) ++
   text "UploadId" (Upload_UploadID x) ++
   from_option (fun y => [Owner_elem "Initiator" y]) [] (Upload_Initiator x) ++
   from_option (fun y => [Owner_elem "Owner" y]) [] (Upload_Owner x) ++
   omitempty "StorageClass" (Upload_StorageClass x) ++
   omitempty "Initiated" (Upload_Initiated x) ++
   omitempty "ChecksumAlgorithm" (Upload_ChecksumAlgorithm x) ++
   omitempty "ChecksumType" (Upload_ChecksumType x)).

Record ListMultipartUploadsResult := {
  ListMultipartUploadsResult_XMLNS : string; ListMultipartUploadsResult_Bucket : string; ListMultipartUploadsResult_KeyMarker : string;
  ListMultipartUploadsResult_UploadIDMarker : string; ListMultipartUploadsResult_NextKeyMarker : string;
  ListMultipartUploadsResult_NextUploadIDMarker : string; ListMultipartUploadsResult_Delimiter : string;
  ListMultipartUploadsResult_Prefix : string; ListMultipartUploadsResult_MaxUploads : Z; ListMultipartUploadsResult_IsTruncated : bool;
  ListMultipartUploadsResult_Uploads : list Upload; ListMultipartUploadsResult_CommonPrefixes : list CommonPrefix }.
Definition ListMultipartUploadsResult_elem (name : string) (x : ListMultipartUploadsResult) : node := Elem name ([("xmlns", (ListMultipartUploadsResult_XMLNS x))])
  (text "Bucket" (ListMultipartUploadsResult_Bucket x) ++
   omitempty "KeyMarker" (ListMultipartUploadsResult_KeyMarker x) ++
   omitempty "UploadIdMarker" (ListMultipartUploadsResult_UploadIDMarker x) ++
   omitempty "NextKeyMarker" (ListMultipartUploadsResult_NextKeyMarker x) ++
   omitempty "NextUploadIdMarker" (ListMultipartUploadsResult_NextUploadIDMarker x) ++
   omitempty "Delimiter" (ListMultipartUploadsResult_Delimiter x) ++
   omitempty "Prefix" (ListMultipartUploadsResult_Prefix x) ++
   number "MaxUploads" (ListMultipartUploadsResult_MaxUploads x) ++
   boolean "IsTruncated" (ListMultipartUploadsResult_IsTruncated x) ++
   map (Upload_elem "Upload") (ListMultipartUploadsResult_Uploads x) ++
   map (CommonPrefix_elem "CommonPrefixes") (ListMultipartUploadsResult_CommonPrefixes x)).
Definition ListMultipartUploadsResult_xml (x : ListMultipartUploadsResult) : node := ListMultipartUploadsResult_elem "ListMultipartUploadsResult" x.

Record VersioningConfiguration := { VersioningConfiguration_XMLNS : string; VersioningConfiguration_Status : string }.
Definition VersioningConfiguration_elem (name : string) (x : VersioningConfiguration) : node := Elem name (omit_attr "xmlns" (VersioningConfiguration_XMLNS x))
  (omitempty "Status" (VersioningConfiguration_Status x)).
Definition VersioningConfiguration_xml (x : VersioningConfiguration) : node := VersioningConfiguration_elem "VersioningConfiguration" x.

Record PolicyStatus := { PolicyStatus_XMLNS : string; PolicyStatus_IsPublic : bool }.
Definition PolicyStatus_elem (name : string) (x : PolicyStatus) : node := Elem name (omit_attr "xmlns" (PolicyStatus_XMLNS x))
  (boolean "IsPublic" (PolicyStatus_IsPublic x)).
Definition PolicyStatus_xml (x : PolicyStatus) : node := PolicyStatus_elem "PolicyStatus" x.

Record OwnershipControlsRule := { OwnershipControlsRule_ObjectOwnership : string }.
Definition OwnershipControlsRule_elem (name : string) (x : OwnershipControlsRule) : node := Elem name ([])
  (text "ObjectOwnership" (OwnershipControlsRule_ObjectOwnership x)).

Record OwnershipControls := { OwnershipControls_XMLNS : string; OwnershipControls_Rules : list OwnershipControlsRule }.
Definition OwnershipControls_elem (name : string) (x : OwnershipControls) : node := Elem name (omit_attr "xmlns" (OwnershipControls_XMLNS x))
  (map (OwnershipControlsRule_elem "Rule") (OwnershipControls_Rules x)).
Definition OwnershipControls_xml (x : OwnershipControls) : node := OwnershipControls_elem "OwnershipControls" x.

Record PublicAccessBlockConfiguration := {
  PublicAccessBlockConfiguration_XMLNS : string; PublicAccessBlockConfiguration_BlockPublicAcls : bool;
  PublicAccessBlockConfiguration_IgnorePublicAcls : bool; PublicAccessBlockConfiguration_BlockPublicPolicy : bool;
  PublicAccessBlockConfiguration_RestrictPublicBuckets : bool }.
Definition PublicAccessBlockConfiguration_elem (name : string) (x : PublicAccessBlockConfiguration) : node := Elem name (omit_attr "xmlns" (PublicAccessBlockConfiguration_XMLNS x))
  (boolean "BlockPublicAcls" (PublicAccessBlockConfiguration_BlockPublicAcls x) ++
   boolean "IgnorePublicAcls" (PublicAccessBlockConfiguration_IgnorePublicAcls x) ++
   boolean "BlockPublicPolicy" (PublicAccessBlockConfiguration_BlockPublicPolicy x) ++
   boolean "RestrictPublicBuckets" (PublicAccessBlockConfiguration_RestrictPublicBuckets x)).
Definition PublicAccessBlockConfiguration_xml (x : PublicAccessBlockConfiguration) : node := PublicAccessBlockConfiguration_elem "PublicAccessBlockConfiguration" x.

Record ServerSideEncryptionByDefault := {
  ServerSideEncryptionByDefault_SSEAlgorithm : string; ServerSideEncryptionByDefault_KMSMasterKeyID : string }.
Definition ServerSideEncryptionByDefault_elem (name : string) (x : ServerSideEncryptionByDefault) : node := Elem name ([])
  (text "SSEAlgorithm" (ServerSideEncryptionByDefault_SSEAlgorithm x) ++
   omitempty "KMSMasterKeyID" (ServerSideEncryptionByDefault_KMSMasterKeyID x)).

Record ServerSideEncryptionRule := {
  ServerSideEncryptionRule_ApplyServerSideEncryptionByDefault : option ServerSideEncryptionByDefault;
  ServerSideEncryptionRule_BucketKeyEnabled : option bool }.
Definition ServerSideEncryptionRule_elem (name : string) (x : ServerSideEncryptionRule) : node := Elem name ([])
  (from_option (fun y => [ServerSideEncryptionByDefault_elem "ApplyServerSideEncryptionByDefault" y]) [] (ServerSideEncryptionRule_ApplyServerSideEncryptionByDefault x) ++
   from_option (boolean "BucketKeyEnabled") [] (ServerSideEncryptionRule_BucketKeyEnabled x)).

Record ServerSideEncryptionConfiguration := {
  ServerSideEncryptionConfiguration_XMLNS : string; ServerSideEncryptionConfiguration_Rules : list ServerSideEncryptionRule }.
Definition ServerSideEncryptionConfiguration_elem (name : string) (x : ServerSideEncryptionConfiguration) : node := Elem name (omit_attr "xmlns" (ServerSideEncryptionConfiguration_XMLNS x))
  (map (ServerSideEncryptionRule_elem "Rule") (ServerSideEncryptionConfiguration_Rules x)).
Definition ServerSideEncryptionConfiguration_xml (x : ServerSideEncryptionConfiguration) : node := ServerSideEncryptionConfiguration_elem "ServerSideEncryptionConfiguration" x.

Record ObjectVersion := {
  ObjectVersion_Key : string; ObjectVersion_VersionID : string; ObjectVersion_IsLatest : bool; ObjectVersion_LastModified : string;
  ObjectVersion_ETag : string; ObjectVersion_ChecksumAlgorithm : list string; ObjectVersion_ChecksumType : string; ObjectVersion_Size : Z;
  ObjectVersion_StorageClass : string; ObjectVersion_Owner : option Owner }.
Definition ObjectVersion_elem (name : string) (x : ObjectVersion) : node := Elem name ([])
  (text "Key" (ObjectVersion_Key x) ++
   text "VersionId" (ObjectVersion_VersionID x) ++
   boolean "IsLatest" (ObjectVersion_IsLatest x) ++
   omitempty "LastModified" (ObjectVersion_LastModified x) ++
   text "ETag" (ObjectVersion_ETag x) ++
   concat (map (text "ChecksumAlgorithm") (ObjectVersion_ChecksumAlgorithm x)) ++
   omitempty "ChecksumType" (ObjectVersion_ChecksumType x) ++
   number "Size" (ObjectVersion_Size x) ++
   omitempty "StorageClass" (ObjectVersion_StorageClass x) ++
   from_option (fun y => [Owner_elem "Owner" y]) [] (ObjectVersion_Owner x)).

Record DeleteMarkerEntry := {
  DeleteMarkerEntry_Key : string; DeleteMarkerEntry_VersionID : string; DeleteMarkerEntry_IsLatest : bool;
  DeleteMarkerEntry_LastModified : string; DeleteMarkerEntry_Owner : option Owner }.
Definition DeleteMarkerEntry_elem (name : string) (x : DeleteMarkerEntry) : node := Elem name ([])
  (text "Key" (DeleteMarkerEntry_Key x) ++
   text "VersionId" (DeleteMarkerEntry_VersionID x) ++
   boolean "IsLatest" (DeleteMarkerEntry_IsLatest x) ++
   omitempty "LastModified" (DeleteMarkerEntry_LastModified x) ++
   from_option (fun y => [Owner_elem "Owner" y]) [] (DeleteMarkerEntry_Owner x)).

Record ListVersionsResult := {
  ListVersionsResult_XMLNS : string; ListVersionsResult_Name : string; ListVersionsResult_Prefix : string;
  ListVersionsResult_KeyMarker : string; ListVersionsResult_VersionIDMarker : string; ListVersionsResult_NextKeyMarker : string;
  ListVersionsResult_NextVersionIDMarker : string; ListVersionsResult_MaxKeys : Z; ListVersionsResult_Delimiter : string;
  ListVersionsResult_EncodingType : string; ListVersionsResult_IsTruncated : bool; ListVersionsResult_Versions : list ObjectVersion;
  ListVersionsResult_DeleteMarkers : list DeleteMarkerEntry; ListVersionsResult_CommonPrefixes : list CommonPrefix }.
Definition ListVersionsResult_elem (name : string) (x : ListVersionsResult) : node := Elem name ([("xmlns", (ListVersionsResult_XMLNS x))])
  (text "Name" (ListVersionsResult_Name x) ++
   text "Prefix" (ListVersionsResult_Prefix x) ++
   text "KeyMarker" (ListVersionsResult_KeyMarker x) ++
   text "VersionIdMarker" (ListVersionsResult_VersionIDMarker x) ++
   omitempty "NextKeyMarker" (ListVersionsResult_NextKeyMarker x) ++
   omitempty "NextVersionIdMarker" (ListVersionsResult_NextVersionIDMarker x) ++
   number "MaxKeys" (ListVersionsResult_MaxKeys x) ++
   omitempty "Delimiter" (ListVersionsResult_Delimiter x) ++
   omitempty "EncodingType" (ListVersionsResult_EncodingType x) ++
   boolean "IsTruncated" (ListVersionsResult_IsTruncated x) ++
   map (ObjectVersion_elem "Version") (ListVersionsResult_Versions x) ++
   map (DeleteMarkerEntry_elem "DeleteMarker") (ListVersionsResult_DeleteMarkers x) ++
   map (CommonPrefix_elem "CommonPrefixes") (ListVersionsResult_CommonPrefixes x)).
Definition ListVersionsResult_xml (x : ListVersionsResult) : node := ListVersionsResult_elem "ListVersionsResult" x.

Record DefaultRetention := { DefaultRetention_Mode : string; DefaultRetention_Days : Z; DefaultRetention_Years : Z }.
Definition DefaultRetention_elem (name : string) (x : DefaultRetention) : node := Elem name ([])
  (omitempty "Mode" (DefaultRetention_Mode x) ++
   omitzero "Days" (DefaultRetention_Days x) ++
   omitzero "Years" (DefaultRetention_Years x)).

Record ObjectLockRule := { ObjectLockRule_DefaultRetention : option DefaultRetention }.
Definition ObjectLockRule_elem (name : string) (x : ObjectLockRule) : node := Elem name ([])
  (from_option (fun y => [DefaultRetention_elem "DefaultRetention" y]) [] (ObjectLockRule_DefaultRetention x)).

Record ObjectLockConfiguration := {
  ObjectLockConfiguration_XMLNS : string; ObjectLockConfiguration_ObjectLockEnabled : string;
  ObjectLockConfiguration_Rule : option ObjectLockRule }.
Definition ObjectLockConfiguration_elem (name : string) (x : ObjectLockConfiguration) : node := Elem name (omit_attr "xmlns" (ObjectLockConfiguration_XMLNS x))
  (omitempty "ObjectLockEnabled" (ObjectLockConfiguration_ObjectLockEnabled x) ++
   from_option (fun y => [ObjectLockRule_elem "Rule" y]) [] (ObjectLockConfiguration_Rule x)).
Definition ObjectLockConfiguration_xml (x : ObjectLockConfiguration) : node := ObjectLockConfiguration_elem "ObjectLockConfiguration" x.

Record ObjectLockRetention := { ObjectLockRetention_XMLNS : string; ObjectLockRetention_Mode : string; ObjectLockRetention_RetainUntilDate : string }.
Definition ObjectLockRetention_elem (name : string) (x : ObjectLockRetention) : node := Elem name (omit_attr "xmlns" (ObjectLockRetention_XMLNS x))
  (omitempty "Mode" (ObjectLockRetention_Mode x) ++
   omitempty "RetainUntilDate" (ObjectLockRetention_RetainUntilDate x)).
Definition ObjectLockRetention_xml (x : ObjectLockRetention) : node := ObjectLockRetention_elem "Retention" x.

Record ObjectLockLegalHold := { ObjectLockLegalHold_XMLNS : string; ObjectLockLegalHold_Status : string }.
Definition ObjectLockLegalHold_elem (name : string) (x : ObjectLockLegalHold) : node := Elem name (omit_attr "xmlns" (ObjectLockLegalHold_XMLNS x))
  (omitempty "Status" (ObjectLockLegalHold_Status x)).
Definition ObjectLockLegalHold_xml (x : ObjectLockLegalHold) : node := ObjectLockLegalHold_elem "LegalHold" x.

Record Tag := { Tag_Key : string; Tag_Value : string }.
Definition Tag_elem (name : string) (x : Tag) : node := Elem name ([])
  (text "Key" (Tag_Key x) ++
   text "Value" (Tag_Value x)).

Record TagSet := { TagSet_Tags : list Tag }.
Definition TagSet_elem (name : string) (x : TagSet) : node := Elem name ([])
  (map (Tag_elem "Tag") (TagSet_Tags x)).

Record Tagging := { Tagging_XMLNS : string; Tagging_TagSet : TagSet }.
Definition Tagging_elem (name : string) (x : Tagging) : node := Elem name (omit_attr "xmlns" (Tagging_XMLNS x))
  ([TagSet_elem "TagSet" (Tagging_TagSet x)]).
Definition Tagging_xml (x : Tagging) : node := Tagging_elem "Tagging" x.

Record CORSRuleXML := {
  CORSRuleXML_AllowedOrigin : list string; CORSRuleXML_AllowedMethod : list string; CORSRuleXML_AllowedHeader : list string;
  CORSRuleXML_ExposeHeader : list string; CORSRuleXML_MaxAgeSeconds : Z }.
Definition CORSRuleXML_elem (name : string) (x : CORSRuleXML) : node := Elem name ([])
  (concat (map (text "AllowedOrigin") (CORSRuleXML_AllowedOrigin x)) ++
   concat (map (text "AllowedMethod") (CORSRuleXML_AllowedMethod x)) ++
   concat (map (text "AllowedHeader") (CORSRuleXML_AllowedHeader x)) ++
   concat (map (text "ExposeHeader") (CORSRuleXML_ExposeHeader x)) ++
   omitzero "MaxAgeSeconds" (CORSRuleXML_MaxAgeSeconds x)).

Record CORSConfiguration := { CORSConfiguration_XMLNS : string; CORSConfiguration_Rules : list CORSRuleXML }.
Definition CORSConfiguration_elem (name : string) (x : CORSConfiguration) : node := Elem name ([("xmlns", (CORSConfiguration_XMLNS x))])
  (map (CORSRuleXML_elem "CORSRule") (CORSConfiguration_Rules x)).
Definition CORSConfiguration_xml (x : CORSConfiguration) : node := CORSConfiguration_elem "CORSConfiguration" x.

Record Grantee := { Grantee_XMLNSXSI : string; Grantee_Type : string; Grantee_ID : string; Grantee_DisplayName : string }.
Definition Grantee_elem (name : string) (x : Grantee) : node := Elem name ([("xmlns:xsi", (Grantee_XMLNSXSI x)); ("xsi:type", (Grantee_Type x))])
  (text "ID" (Grantee_ID x) ++
   omitempty "DisplayName" (Grantee_DisplayName x)).

Record Grant := { Grant_Grantee : Grantee; Grant_Permission : string }.
Definition Grant_elem (name : string) (x : Grant) : node := Elem name ([])
  ([Grantee_elem "Grantee" (Grant_Grantee x)] ++
   text "Permission" (Grant_Permission x)).

Record AccessControlList := { AccessControlList_Grants : list Grant }.
Definition AccessControlList_elem (name : string) (x : AccessControlList) : node := Elem name ([])
  (map (Grant_elem "Grant") (AccessControlList_Grants x)).

Record AccessControlPolicy := {
  AccessControlPolicy_XMLNS : string; AccessControlPolicy_Owner : Owner; AccessControlPolicy_AccessControlList : AccessControlList }.
Definition AccessControlPolicy_elem (name : string) (x : AccessControlPolicy) : node := Elem name ([("xmlns", (AccessControlPolicy_XMLNS x))])
  ([Owner_elem "Owner" (AccessControlPolicy_Owner x)] ++
   [AccessControlList_elem "AccessControlList" (AccessControlPolicy_AccessControlList x)]).
Definition AccessControlPolicy_xml (x : AccessControlPolicy) : node := AccessControlPolicy_elem "AccessControlPolicy" x.

Record BucketEntry := { BucketEntry_Name : string; BucketEntry_CreationDate : string }.
Definition BucketEntry_elem (name : string) (x : BucketEntry) : node := Elem name ([])
  (text "Name" (BucketEntry_Name x) ++
   text "CreationDate" (BucketEntry_CreationDate x)).

Record Buckets := { Buckets_Bucket : list BucketEntry }.
Definition Buckets_elem (name : string) (x : Buckets) : node := Elem name ([])
  (map (BucketEntry_elem "Bucket") (Buckets_Bucket x)).

Record ListAllMyBucketsResult := {
  ListAllMyBucketsResult_XMLNS : string; ListAllMyBucketsResult_Owner : Owner; ListAllMyBucketsResult_Buckets : Buckets;
  ListAllMyBucketsResult_ContinuationToken : string }.
Definition ListAllMyBucketsResult_elem (name : string) (x : ListAllMyBucketsResult) : node := Elem name ([("xmlns", (ListAllMyBucketsResult_XMLNS x))])
  ([Owner_elem "Owner" (ListAllMyBucketsResult_Owner x)] ++
   [Buckets_elem "Buckets" (ListAllMyBucketsResult_Buckets x)] ++
   omitempty "ContinuationToken" (ListAllMyBucketsResult_ContinuationToken x)).
Definition ListAllMyBucketsResult_xml (x : ListAllMyBucketsResult) : node := ListAllMyBucketsResult_elem "ListAllMyBucketsResult" x.

Record AttributesChecksum := { AttributesChecksum_Checksums : Checksums; AttributesChecksum_ChecksumType : string }.
Definition AttributesChecksum_elem (name : string) (x : AttributesChecksum) : node := Elem name ([])
  (Checksums_children (AttributesChecksum_Checksums x) ++
   omitempty "ChecksumType" (AttributesChecksum_ChecksumType x)).

Record ObjectAttributePart := { ObjectAttributePart_PartNumber : Z; ObjectAttributePart_Size : Z; ObjectAttributePart_Checksums : Checksums }.
Definition ObjectAttributePart_elem (name : string) (x : ObjectAttributePart) : node := Elem name ([])
  (number "PartNumber" (ObjectAttributePart_PartNumber x) ++
   number "Size" (ObjectAttributePart_Size x) ++
   Checksums_children (ObjectAttributePart_Checksums x)).

Record ObjectAttributeParts := {
  ObjectAttributeParts_IsTruncated : bool; ObjectAttributeParts_MaxParts : option Z; ObjectAttributeParts_NextPartNumberMarker : string;
  ObjectAttributeParts_PartNumberMarker : string; ObjectAttributeParts_PartsCount : option Z;
  ObjectAttributeParts_Parts : list ObjectAttributePart }.
Definition ObjectAttributeParts_elem (name : string) (x : ObjectAttributeParts) : node := Elem name ([])
  (boolean "IsTruncated" (ObjectAttributeParts_IsTruncated x) ++
   from_option (number "MaxParts") [] (ObjectAttributeParts_MaxParts x) ++
   omitempty "NextPartNumberMarker" (ObjectAttributeParts_NextPartNumberMarker x) ++
   omitempty "PartNumberMarker" (ObjectAttributeParts_PartNumberMarker x) ++
   from_option (number "PartsCount") [] (ObjectAttributeParts_PartsCount x) ++
   map (ObjectAttributePart_elem "Part") (ObjectAttributeParts_Parts x)).

Record GetObjectAttributesResult := {
  GetObjectAttributesResult_XMLNS : string; GetObjectAttributesResult_ETag : string;
  GetObjectAttributesResult_Checksum : option AttributesChecksum; GetObjectAttributesResult_ObjectParts : option ObjectAttributeParts;
  GetObjectAttributesResult_StorageClass : string; GetObjectAttributesResult_ObjectSize : option Z }.
Definition GetObjectAttributesResult_elem (name : string) (x : GetObjectAttributesResult) : node := Elem name ([("xmlns", (GetObjectAttributesResult_XMLNS x))])
  (omitempty "ETag" (GetObjectAttributesResult_ETag x) ++
   from_option (fun y => [AttributesChecksum_elem "Checksum" y]) [] (GetObjectAttributesResult_Checksum x) ++
   from_option (fun y => [ObjectAttributeParts_elem "ObjectParts" y]) [] (GetObjectAttributesResult_ObjectParts x) ++
   omitempty "StorageClass" (GetObjectAttributesResult_StorageClass x) ++
   from_option (number "ObjectSize") [] (GetObjectAttributesResult_ObjectSize x)).
Definition GetObjectAttributesResult_xml (x : GetObjectAttributesResult) : node := GetObjectAttributesResult_elem "GetObjectAttributesResponse" x.

Record PostResponse := {
  PostResponse_XMLNS : string; PostResponse_Location : string; PostResponse_Bucket : string; PostResponse_Key : string;
  PostResponse_ETag : string }.
Definition PostResponse_elem (name : string) (x : PostResponse) : node := Elem name (omit_attr "xmlns" (PostResponse_XMLNS x))
  (text "Location" (PostResponse_Location x) ++
   text "Bucket" (PostResponse_Bucket x) ++
   text "Key" (PostResponse_Key x) ++
   text "ETag" (PostResponse_ETag x)).
Definition PostResponse_xml (x : PostResponse) : node := PostResponse_elem "PostResponse" x.

End s3xml.
