(* ===== verification/Sdk.v ===== *)
(** * The backend (the parts of the AWS SDK the handlers use) and what a
      handler is

    The SDK is not part of the program: a handler is a tree of the calls it
    makes, one constructor of [call] per client method with the input the
    program builds, and what it does next with any answer.  The response under
    construction (headers, status, body pieces, what the hooks are told) is the
    state a handler threads. *)

From S2P Require Import Prelude Unicode GoStrings GoNet GoTime GoError JSON XML Checksum Chunked Store Authorize Body.

Open Scope Z_scope.

Module sdk.

(** The per-algorithm checksum members, which every structure that has them
    has alike. *)
Record ChecksumFields := {
  fCRC32 : option string; fCRC32C : option string; fCRC64NVME : option string; fSHA1 : option string; fSHA256 : option string;
  fSHA512 : option string; fMD5 : option string; fXXHASH64 : option string; fXXHASH3 : option string; fXXHASH128 : option string }.

(** ** Inputs *)

Record GetObjectInput := {
  GetObjectInput_Bucket : string; GetObjectInput_Key : string; GetObjectInput_IfMatch : option string;
  GetObjectInput_IfNoneMatch : option string; GetObjectInput_IfModifiedSince : option Z; GetObjectInput_IfUnmodifiedSince : option Z;
  GetObjectInput_Range : option string; GetObjectInput_ChecksumMode : string; GetObjectInput_VersionId : option string;
  GetObjectInput_PartNumber : option Z; GetObjectInput_ResponseContentType : option string;
  GetObjectInput_ResponseContentDisposition : option string; GetObjectInput_ResponseCacheControl : option string;
  GetObjectInput_ResponseContentEncoding : option string; GetObjectInput_ResponseContentLanguage : option string;
  GetObjectInput_ResponseExpires : option Z }.

Record HeadObjectInput := {
  HeadObjectInput_Bucket : string; HeadObjectInput_Key : string; HeadObjectInput_IfMatch : option string;
  HeadObjectInput_IfNoneMatch : option string; HeadObjectInput_IfModifiedSince : option Z; HeadObjectInput_IfUnmodifiedSince : option Z;
  HeadObjectInput_Range : option string; HeadObjectInput_VersionId : option string; HeadObjectInput_PartNumber : option Z;
  HeadObjectInput_ChecksumMode : string }.

Record PutObjectInput := {
  PutObjectInput_Bucket : string; PutObjectInput_Key : string; PutObjectInput_ContentLength : option Z;
  PutObjectInput_IfMatch : option string; PutObjectInput_IfNoneMatch : option string; PutObjectInput_ContentType : option string;
  PutObjectInput_ContentMD5 : option string; PutObjectInput_CacheControl : option string;
  PutObjectInput_ContentDisposition : option string; PutObjectInput_ContentEncoding : option string;
  PutObjectInput_ContentLanguage : option string; PutObjectInput_Expires : option Z; PutObjectInput_StorageClass : string;
  PutObjectInput_Tagging : option string; PutObjectInput_ServerSideEncryption : string; PutObjectInput_SSEKMSKeyId : option string;
  PutObjectInput_ObjectLockMode : string; PutObjectInput_ObjectLockRetainUntilDate : option Z;
  PutObjectInput_ObjectLockLegalHoldStatus : string; PutObjectInput_Metadata : gmap string string;
  PutObjectInput_Checksum : ChecksumFields; PutObjectInput_ChecksumAlgorithm : string }.

Record DeleteObjectInput := {
  DeleteObjectInput_Bucket : string; DeleteObjectInput_Key : string; DeleteObjectInput_VersionId : option string;
  DeleteObjectInput_BypassGovernanceRetention : option bool; DeleteObjectInput_IfMatch : option string;
  DeleteObjectInput_IfMatchLastModifiedTime : option Z; DeleteObjectInput_IfMatchSize : option Z }.

Record ListObjectsV2Input := {
  ListObjectsV2Input_Bucket : string; ListObjectsV2Input_Prefix : option string; ListObjectsV2Input_Delimiter : option string;
  ListObjectsV2Input_MaxKeys : option Z; ListObjectsV2Input_ContinuationToken : option string;
  ListObjectsV2Input_StartAfter : option string; ListObjectsV2Input_FetchOwner : option bool; ListObjectsV2Input_EncodingType : string }.

Record ListObjectsInput := {
  ListObjectsInput_Bucket : string; ListObjectsInput_Prefix : option string; ListObjectsInput_Delimiter : option string;
  ListObjectsInput_Marker : option string; ListObjectsInput_MaxKeys : option Z; ListObjectsInput_EncodingType : string }.

Record ObjectIdentifier := {
  ObjectIdentifier_Key : string; ObjectIdentifier_VersionId : option string; ObjectIdentifier_ETag : option string;
  ObjectIdentifier_LastModifiedTime : option Z; ObjectIdentifier_Size : option Z }.

Record DeleteObjectsInput := {
  DeleteObjectsInput_Bucket : string; DeleteObjectsInput_Objects : list ObjectIdentifier; DeleteObjectsInput_Quiet : bool;
  DeleteObjectsInput_BypassGovernanceRetention : option bool }.

Record CreateMultipartUploadInput := {
  CreateMultipartUploadInput_Bucket : string; CreateMultipartUploadInput_Key : string;
  CreateMultipartUploadInput_ContentType : option string; CreateMultipartUploadInput_CacheControl : option string;
  CreateMultipartUploadInput_ContentDisposition : option string; CreateMultipartUploadInput_ContentEncoding : option string;
  CreateMultipartUploadInput_ContentLanguage : option string; CreateMultipartUploadInput_Expires : option Z;
  CreateMultipartUploadInput_StorageClass : string; CreateMultipartUploadInput_Tagging : option string;
  CreateMultipartUploadInput_ObjectLockMode : string; CreateMultipartUploadInput_ObjectLockRetainUntilDate : option Z;
  CreateMultipartUploadInput_ObjectLockLegalHoldStatus : string; CreateMultipartUploadInput_Metadata : gmap string string;
  CreateMultipartUploadInput_ChecksumAlgorithm : string; CreateMultipartUploadInput_ChecksumType : string;
  CreateMultipartUploadInput_ServerSideEncryption : string; CreateMultipartUploadInput_SSEKMSKeyId : option string }.

Record UploadPartInput := {
  UploadPartInput_Bucket : string; UploadPartInput_Key : string; UploadPartInput_UploadId : string; UploadPartInput_PartNumber : Z;
  UploadPartInput_ContentLength : option Z; UploadPartInput_ContentMD5 : option string; UploadPartInput_Checksum : ChecksumFields;
  UploadPartInput_ChecksumAlgorithm : string }.

Record CompletedPart := {
  CompletedPart_PartNumber : Z; CompletedPart_ETag : string; CompletedPart_Checksum : ChecksumFields }.

Record CompleteMultipartUploadInput := {
  CompleteMultipartUploadInput_Bucket : string; CompleteMultipartUploadInput_Key : string; CompleteMultipartUploadInput_UploadId : string;
  CompleteMultipartUploadInput_Parts : list CompletedPart; CompleteMultipartUploadInput_IfMatch : option string;
  CompleteMultipartUploadInput_IfNoneMatch : option string; CompleteMultipartUploadInput_ChecksumType : string;
  CompleteMultipartUploadInput_Checksum : ChecksumFields; CompleteMultipartUploadInput_MpuObjectSize : option Z }.

Record AbortMultipartUploadInput := {
  AbortMultipartUploadInput_Bucket : string; AbortMultipartUploadInput_Key : string; AbortMultipartUploadInput_UploadId : string }.

Record ListPartsInput := {
  ListPartsInput_Bucket : string; ListPartsInput_Key : string; ListPartsInput_UploadId : string; ListPartsInput_MaxParts : option Z;
  ListPartsInput_PartNumberMarker : option string }.

Record ListMultipartUploadsInput := {
  ListMultipartUploadsInput_Bucket : string; ListMultipartUploadsInput_Prefix : option string;
  ListMultipartUploadsInput_Delimiter : option string; ListMultipartUploadsInput_KeyMarker : option string;
  ListMultipartUploadsInput_UploadIdMarker : option string; ListMultipartUploadsInput_MaxUploads : option Z;
  ListMultipartUploadsInput_EncodingType : string }.

Record CopyObjectInput := {
  CopyObjectInput_Bucket : string; CopyObjectInput_Key : string; CopyObjectInput_CopySource : string;
  CopyObjectInput_MetadataDirective : string; CopyObjectInput_ContentType : option string; CopyObjectInput_StorageClass : string;
  CopyObjectInput_ChecksumAlgorithm : string; CopyObjectInput_TaggingDirective : string; CopyObjectInput_Tagging : option string;
  CopyObjectInput_ObjectLockMode : string; CopyObjectInput_ObjectLockRetainUntilDate : option Z;
  CopyObjectInput_ObjectLockLegalHoldStatus : string; CopyObjectInput_Metadata : gmap string string;
  CopyObjectInput_CopySourceIfMatch : option string; CopyObjectInput_CopySourceIfNoneMatch : option string;
  CopyObjectInput_CopySourceIfModifiedSince : option Z; CopyObjectInput_CopySourceIfUnmodifiedSince : option Z;
  CopyObjectInput_ServerSideEncryption : string; CopyObjectInput_SSEKMSKeyId : option string }.

Record UploadPartCopyInput := {
  UploadPartCopyInput_Bucket : string; UploadPartCopyInput_Key : string; UploadPartCopyInput_UploadId : string;
  UploadPartCopyInput_PartNumber : Z; UploadPartCopyInput_CopySource : string; UploadPartCopyInput_CopySourceRange : option string }.

Record ObjectVersionInput := {
  ObjectVersionInput_Bucket : string; ObjectVersionInput_Key : string; ObjectVersionInput_VersionId : option string }.

Record Tag := {
  Tag_Key : option string; Tag_Value : option string }.

Record PutObjectTaggingInput := {
  PutObjectTaggingInput_Bucket : string; PutObjectTaggingInput_Key : string; PutObjectTaggingInput_TagSet : list Tag;
  PutObjectTaggingInput_VersionId : option string }.

Record ListObjectVersionsInput := {
  ListObjectVersionsInput_Bucket : string; ListObjectVersionsInput_Prefix : option string;
  ListObjectVersionsInput_Delimiter : option string; ListObjectVersionsInput_KeyMarker : option string;
  ListObjectVersionsInput_VersionIdMarker : option string; ListObjectVersionsInput_MaxKeys : option Z;
  ListObjectVersionsInput_EncodingType : string }.

Record PutObjectRetentionInput := {
  PutObjectRetentionInput_Bucket : string; PutObjectRetentionInput_Key : string; PutObjectRetentionInput_Mode : string;
  PutObjectRetentionInput_RetainUntilDate : option Z; PutObjectRetentionInput_VersionId : option string;
  PutObjectRetentionInput_BypassGovernanceRetention : option bool }.

Record PutObjectLegalHoldInput := {
  PutObjectLegalHoldInput_Bucket : string; PutObjectLegalHoldInput_Key : string; PutObjectLegalHoldInput_Status : string;
  PutObjectLegalHoldInput_VersionId : option string }.

Record GetObjectAttributesInput := {
  GetObjectAttributesInput_Bucket : string; GetObjectAttributesInput_Key : string; GetObjectAttributesInput_ObjectAttributes : list string;
  GetObjectAttributesInput_VersionId : option string; GetObjectAttributesInput_MaxParts : option Z;
  GetObjectAttributesInput_PartNumberMarker : option string }.

(** ** Outputs

    The fields the program reads, and those that carry the backend's identity
    (its bucket name, its owner, its region), which it must not relay. *)

Record SdkOwner := {
  SdkOwner_ID : option string; SdkOwner_DisplayName : option string }.

Record GetObjectOutput := {
  GetObjectOutput_Body : string; GetObjectOutput_ServerSideEncryption : string; GetObjectOutput_SSEKMSKeyId : option string;
  GetObjectOutput_StorageClass : string; GetObjectOutput_Metadata : gmap string string; GetObjectOutput_ETag : option string;
  GetObjectOutput_VersionId : option string; GetObjectOutput_ContentType : option string; GetObjectOutput_ContentLength : option Z;
  GetObjectOutput_LastModified : option Z; GetObjectOutput_CacheControl : option string;
  GetObjectOutput_ContentDisposition : option string; GetObjectOutput_ContentEncoding : option string;
  GetObjectOutput_ContentLanguage : option string; GetObjectOutput_ExpiresString : option string;
  GetObjectOutput_AcceptRanges : option string; GetObjectOutput_TagCount : option Z; GetObjectOutput_PartsCount : option Z;
  GetObjectOutput_Checksum : ChecksumFields; GetObjectOutput_ChecksumType : string; GetObjectOutput_ObjectLockMode : string;
  GetObjectOutput_ObjectLockRetainUntilDate : option Z; GetObjectOutput_ObjectLockLegalHoldStatus : string;
  GetObjectOutput_ContentRange : option string }.

Record PutObjectOutput := {
  PutObjectOutput_ServerSideEncryption : string; PutObjectOutput_SSEKMSKeyId : option string; PutObjectOutput_ETag : option string;
  PutObjectOutput_VersionId : option string; PutObjectOutput_Checksum : ChecksumFields; PutObjectOutput_ChecksumType : string }.

Record DeleteObjectOutput := {
  DeleteObjectOutput_VersionId : option string; DeleteObjectOutput_DeleteMarker : option bool }.

Record SdkObject := {
  SdkObject_Key : option string; SdkObject_ETag : option string; SdkObject_Size : option Z; SdkObject_StorageClass : string;
  SdkObject_ChecksumAlgorithm : list string; SdkObject_ChecksumType : string; SdkObject_LastModified : option Z;
  SdkObject_Owner : option SdkOwner }.

Record ListObjectsV2Output := {
  ListObjectsV2Output_Name : option string; ListObjectsV2Output_Prefix : option string; ListObjectsV2Output_Delimiter : option string;
  ListObjectsV2Output_StartAfter : option string; ListObjectsV2Output_NextContinuationToken : option string;
  ListObjectsV2Output_KeyCount : option Z; ListObjectsV2Output_MaxKeys : option Z; ListObjectsV2Output_EncodingType : string;
  ListObjectsV2Output_IsTruncated : option bool; ListObjectsV2Output_Contents : list SdkObject;
  ListObjectsV2Output_CommonPrefixes : list (option string) }.

Record ListObjectsOutput := {
  ListObjectsOutput_Name : option string; ListObjectsOutput_Prefix : option string; ListObjectsOutput_Delimiter : option string;
  ListObjectsOutput_Marker : option string; ListObjectsOutput_NextMarker : option string; ListObjectsOutput_MaxKeys : option Z;
  ListObjectsOutput_EncodingType : string; ListObjectsOutput_IsTruncated : option bool; ListObjectsOutput_Contents : list SdkObject;
  ListObjectsOutput_CommonPrefixes : list (option string) }.

Record SdkDeletedObject := {
  SdkDeletedObject_Key : option string; SdkDeletedObject_VersionId : option string; SdkDeletedObject_DeleteMarker : option bool;
  SdkDeletedObject_DeleteMarkerVersionId : option string }.

Record SdkError := {
  SdkError_Key : option string; SdkError_VersionId : option string; SdkError_Code : option string; SdkError_Message : option string }.

Record DeleteObjectsOutput := {
  DeleteObjectsOutput_Deleted : list SdkDeletedObject; DeleteObjectsOutput_Errors : list SdkError }.

Record HeadBucketOutput := {
  HeadBucketOutput_BucketRegion : option string }.

Record CreateMultipartUploadOutput := {
  CreateMultipartUploadOutput_Bucket : option string; CreateMultipartUploadOutput_UploadId : option string;
  CreateMultipartUploadOutput_ServerSideEncryption : string; CreateMultipartUploadOutput_SSEKMSKeyId : option string;
  CreateMultipartUploadOutput_ChecksumAlgorithm : string; CreateMultipartUploadOutput_ChecksumType : string }.

Record UploadPartOutput := {
  UploadPartOutput_ETag : option string; UploadPartOutput_ServerSideEncryption : string; UploadPartOutput_SSEKMSKeyId : option string;
  UploadPartOutput_Checksum : ChecksumFields }.

Record CompleteMultipartUploadOutput := {
  CompleteMultipartUploadOutput_Bucket : option string; CompleteMultipartUploadOutput_Location : option string;
  CompleteMultipartUploadOutput_ServerSideEncryption : string; CompleteMultipartUploadOutput_SSEKMSKeyId : option string;
  CompleteMultipartUploadOutput_ETag : option string; CompleteMultipartUploadOutput_VersionId : option string;
  CompleteMultipartUploadOutput_Checksum : ChecksumFields; CompleteMultipartUploadOutput_ChecksumType : string }.

Record SdkPart := {
  SdkPart_PartNumber : option Z; SdkPart_ETag : option string; SdkPart_Size : option Z; SdkPart_Checksum : ChecksumFields;
  SdkPart_LastModified : option Z }.

Record ListPartsOutput := {
  ListPartsOutput_Bucket : option string; ListPartsOutput_Owner : option SdkOwner; ListPartsOutput_Initiator : option SdkOwner;
  ListPartsOutput_StorageClass : string; ListPartsOutput_PartNumberMarker : option string;
  ListPartsOutput_NextPartNumberMarker : option string; ListPartsOutput_MaxParts : option Z; ListPartsOutput_IsTruncated : option bool;
  ListPartsOutput_ChecksumAlgorithm : string; ListPartsOutput_ChecksumType : string; ListPartsOutput_Parts : list SdkPart }.

Record MultipartUpload := {
  MultipartUpload_Key : option string; MultipartUpload_UploadId : option string; MultipartUpload_Owner : option SdkOwner;
  MultipartUpload_Initiator : option SdkOwner; MultipartUpload_StorageClass : string; MultipartUpload_Initiated : option Z;
  MultipartUpload_ChecksumAlgorithm : string; MultipartUpload_ChecksumType : string }.

Record ListMultipartUploadsOutput := {
  ListMultipartUploadsOutput_Bucket : option string; ListMultipartUploadsOutput_KeyMarker : option string;
  ListMultipartUploadsOutput_UploadIdMarker : option string; ListMultipartUploadsOutput_NextKeyMarker : option string;
  ListMultipartUploadsOutput_NextUploadIdMarker : option string; ListMultipartUploadsOutput_Delimiter : option string;
  ListMultipartUploadsOutput_Prefix : option string; ListMultipartUploadsOutput_MaxUploads : option Z;
  ListMultipartUploadsOutput_IsTruncated : option bool; ListMultipartUploadsOutput_Uploads : list MultipartUpload;
  ListMultipartUploadsOutput_CommonPrefixes : list (option string) }.

Record CopyResult := {
  CopyResult_ETag : option string; CopyResult_LastModified : option Z; CopyResult_ChecksumType : string;
  CopyResult_Checksum : ChecksumFields }.

Record CopyObjectOutput := {
  CopyObjectOutput_ServerSideEncryption : string; CopyObjectOutput_SSEKMSKeyId : option string; CopyObjectOutput_VersionId : option string;
  CopyObjectOutput_CopySourceVersionId : option string; CopyObjectOutput_Result : option CopyResult }.

Record UploadPartCopyOutput := {
  UploadPartCopyOutput_ServerSideEncryption : string; UploadPartCopyOutput_SSEKMSKeyId : option string;
  UploadPartCopyOutput_CopySourceVersionId : option string; UploadPartCopyOutput_Result : option CopyResult }.

Record GetObjectTaggingOutput := {
  GetObjectTaggingOutput_VersionId : option string; GetObjectTaggingOutput_TagSet : list Tag }.

Record SdkObjectVersion := {
  SdkObjectVersion_Key : option string; SdkObjectVersion_VersionId : option string; SdkObjectVersion_IsLatest : option bool;
  SdkObjectVersion_LastModified : option Z; SdkObjectVersion_ETag : option string; SdkObjectVersion_ChecksumAlgorithm : list string;
  SdkObjectVersion_ChecksumType : string; SdkObjectVersion_Size : option Z; SdkObjectVersion_StorageClass : string;
  SdkObjectVersion_Owner : option SdkOwner }.

Record SdkDeleteMarker := {
  SdkDeleteMarker_Key : option string; SdkDeleteMarker_VersionId : option string; SdkDeleteMarker_IsLatest : option bool;
  SdkDeleteMarker_LastModified : option Z; SdkDeleteMarker_Owner : option SdkOwner }.

Record ListObjectVersionsOutput := {
  ListObjectVersionsOutput_Name : option string; ListObjectVersionsOutput_Prefix : option string;
  ListObjectVersionsOutput_Delimiter : option string; ListObjectVersionsOutput_KeyMarker : option string;
  ListObjectVersionsOutput_VersionIdMarker : option string; ListObjectVersionsOutput_NextKeyMarker : option string;
  ListObjectVersionsOutput_NextVersionIdMarker : option string; ListObjectVersionsOutput_MaxKeys : option Z;
  ListObjectVersionsOutput_EncodingType : string; ListObjectVersionsOutput_IsTruncated : option bool;
  ListObjectVersionsOutput_Versions : list SdkObjectVersion; ListObjectVersionsOutput_DeleteMarkers : list SdkDeleteMarker;
  ListObjectVersionsOutput_CommonPrefixes : list (option string) }.

Record SdkDefaultRetention := {
  SdkDefaultRetention_Mode : string; SdkDefaultRetention_Days : option Z; SdkDefaultRetention_Years : option Z }.

Record SdkObjectLockConfiguration := {
  SdkObjectLockConfiguration_ObjectLockEnabled : string;
  SdkObjectLockConfiguration_DefaultRetention : option (option SdkDefaultRetention) }.

Record SdkRetention := {
  SdkRetention_Mode : string; SdkRetention_RetainUntilDate : option Z }.

Record ObjectPart := {
  ObjectPart_PartNumber : option Z; ObjectPart_Size : option Z; ObjectPart_Checksum : ChecksumFields }.

Record SdkObjectParts := {
  SdkObjectParts_IsTruncated : option bool; SdkObjectParts_MaxParts : option Z; SdkObjectParts_NextPartNumberMarker : option string;
  SdkObjectParts_PartNumberMarker : option string; SdkObjectParts_TotalPartsCount : option Z; SdkObjectParts_Parts : list ObjectPart }.

Record SdkChecksum := {
  SdkChecksum_Checksum : ChecksumFields; SdkChecksum_ChecksumType : string }.

Record GetObjectAttributesOutput := {
  GetObjectAttributesOutput_StorageClass : string; GetObjectAttributesOutput_ETag : option string;
  GetObjectAttributesOutput_VersionId : option string; GetObjectAttributesOutput_LastModified : option Z;
  GetObjectAttributesOutput_DeleteMarker : option bool; GetObjectAttributesOutput_ObjectSize : option Z;
  GetObjectAttributesOutput_Checksum : option SdkChecksum; GetObjectAttributesOutput_ObjectParts : option SdkObjectParts }.

Record SdkEncryptionDefault := {
  SdkEncryptionDefault_SSEAlgorithm : string; SdkEncryptionDefault_KMSMasterKeyID : option string }.

Record SdkEncryptionRule := {
  SdkEncryptionRule_Default : option SdkEncryptionDefault; SdkEncryptionRule_BucketKeyEnabled : option bool }.

(** ** Calls *)

(** An error with the headers of the backend response it carries, if any. *)
Record failure := { ferr : goerror; fheaders : option http.Header }.

Definition answer (X : Type) : Type := result failure X.

(** What an upload streams: the request's body, or the file of a form. *)
Inductive upload :=
| Request (r : body.reader)
| Form (b : body.lengthBoundedBody body.source).

(** The answer to an upload comes with the number of bytes read. *)
Inductive call : Type -> Type :=
| GetObject (i : GetObjectInput) : call (answer GetObjectOutput)
| HeadObject (i : HeadObjectInput) : call (answer GetObjectOutput)
| PutObject (i : PutObjectInput) (b : upload) : call (answer PutObjectOutput * Z)
| DeleteObject (i : DeleteObjectInput) : call (answer DeleteObjectOutput)
| ListObjectsV2 (i : ListObjectsV2Input) : call (answer ListObjectsV2Output)
| ListObjects (i : ListObjectsInput) : call (answer ListObjectsOutput)
| DeleteObjects (i : DeleteObjectsInput) : call (answer DeleteObjectsOutput)
| HeadBucket (bucket : string) : call (answer HeadBucketOutput)
| CreateMultipartUpload (i : CreateMultipartUploadInput) : call (answer CreateMultipartUploadOutput)
| UploadPart (i : UploadPartInput) (b : upload) : call (answer UploadPartOutput)
| CompleteMultipartUpload (i : CompleteMultipartUploadInput) : call (answer CompleteMultipartUploadOutput)
| AbortMultipartUpload (i : AbortMultipartUploadInput) : call (answer unit)
| ListParts (i : ListPartsInput) : call (answer ListPartsOutput)
| ListMultipartUploads (i : ListMultipartUploadsInput) : call (answer ListMultipartUploadsOutput)
| CopyObject (i : CopyObjectInput) : call (answer CopyObjectOutput)
| UploadPartCopy (i : UploadPartCopyInput) : call (answer UploadPartCopyOutput)
| GetObjectTagging (i : ObjectVersionInput) : call (answer GetObjectTaggingOutput)
| PutObjectTagging (i : PutObjectTaggingInput) : call (answer (option string))
| DeleteObjectTagging (i : ObjectVersionInput) : call (answer (option string))
| GetBucketVersioning (bucket : string) : call (answer string)
| ListObjectVersions (i : ListObjectVersionsInput) : call (answer ListObjectVersionsOutput)
| GetObjectLockConfiguration (bucket : string) : call (answer (option SdkObjectLockConfiguration))
| GetObjectRetention (i : ObjectVersionInput) : call (answer (option SdkRetention))
| PutObjectRetention (i : PutObjectRetentionInput) : call (answer unit)
| GetObjectLegalHold (i : ObjectVersionInput) : call (answer (option string))
| PutObjectLegalHold (i : PutObjectLegalHoldInput) : call (answer unit)
| GetObjectAttributes (i : GetObjectAttributesInput) : call (answer GetObjectAttributesOutput)
| GetBucketEncryption (bucket : string) : call (answer (option (list SdkEncryptionRule))).

Inductive prog (A : Type) : Type :=
| Ret (a : A)
| Call {X : Type} (c : call X) (k : X -> prog A).
Arguments Ret {A} a.
Arguments Call {A X} c k.

Fixpoint bind {A B} (p : prog A) (f : A -> prog B) : prog B :=
  match p with
  | Ret a => f a
  | Call c k => Call c (fun x => bind (k x) f)
  end.

(** Running a program against a backend. *)
Definition client := forall X, call X -> X.

Fixpoint run {A} (be : client) (p : prog A) : A :=
  match p with
  | Ret a => a
  | Call c k => run be (k (be _ c))
  end.

(** The calls a program makes against a backend, in order. *)
Fixpoint trace {A} (be : client) (p : prog A) : list {X & call X} :=
  match p with
  | Ret _ => []
  | Call c k => existT _ c :: trace be (k (be _ c))
  end.

(** A backend that cannot be reached. *)
Definition outage : failure := {| ferr := Text [FS "connection refused"]; fheaders := None |}.

Definition down : client := fun X k => match k in call X return X with PutObject _ _ => (Err outage, 0) | _ => Err outage end.

(** ** The response under construction *)

(** [OpResponse]: what the hooks are told of the backend's answer. *)
Record OpResponse := {
  oSSE : string; oSSEKMSKeyID : string; oStorageClass : string; oMetadata : gmap string string; oETag : string; oVersionID : string }.

Definition OpResponse_empty (r : OpResponse) : bool :=
  bool_decide (oSSE r = "") && bool_decide (oSSEKMSKeyID r = "") && bool_decide (oStorageClass r = "") &&
  bool_decide (oETag r = "") && bool_decide (oVersionID r = "") && bool_decide (oMetadata r = ∅).

Inductive piece := Document (n : xml.node) | Bytes (s : string).

Record writer := {
  whdr : http.Header;
  wstatus : option Z;
  wbody : list piece;
  wresponse : option OpResponse;
  wdenials : list s3gw.Denial }.

Definition handler (A : Type) : Type := writer -> prog (result s3err.Error A * writer).

#[export] Instance handler_ret : MRet handler := fun A a w => Ret (Ok a, w).
#[export] Instance handler_bind : MBind handler := fun A B f m w =>
  bind (m w) (fun '(r, w) => match r with Ok a => f a w | Err e => Ret (Err e, w) end).

Definition fail {A} (e : s3err.Error) : handler A := fun w => Ret (Err e, w).
Definition lift {A} (r : result s3err.Error A) : handler A := fun w => Ret (r, w).
Definition invoke {X} (c : call X) : handler X := fun w => Call c (fun x => Ret (Ok x, w)).

Definition upd_header (f : http.Header -> http.Header) : handler unit := fun w =>
  Ret (Ok tt, {| whdr := f (whdr w); wstatus := wstatus w; wbody := wbody w; wresponse := wresponse w; wdenials := wdenials w |}).

Definition set (k v : string) : handler unit := upd_header (fun h => http.HSet h k v).
Definition set_opt (k : string) (v : option string) : handler unit :=
  match v with Some v => set k v | None => mret tt end.

(** The first status counts. *)
Definition write_header (st : Z) : handler unit := fun w =>
  Ret (Ok tt, {| whdr := whdr w; wstatus := match wstatus w with Some s => Some s | None => Some st end; wbody := wbody w;
                 wresponse := wresponse w; wdenials := wdenials w |}).

Definition write_body (p : piece) : handler unit := fun w =>
  Ret (Ok tt, {| whdr := whdr w; wstatus := wstatus w; wbody := wbody w ++ [p]; wresponse := wresponse w; wdenials := wdenials w |}).

(** [s3xml.Write]. *)
Definition Write (n : xml.node) : handler unit :=
  _ ← set "Content-Type" "application/xml"; _ ← write_header 200; _ ← write_body (Bytes xml.Header); write_body (Document n).

(** The response after [Write]. *)
Definition written (n : xml.node) (w : writer) : writer :=
  {| whdr := http.HSet (whdr w) "Content-Type" "application/xml"; wstatus := match wstatus w with Some s => Some s | None => Some 200 end;
     wbody := (wbody w ++ [Bytes xml.Header]) ++ [Document n]; wresponse := wresponse w; wdenials := wdenials w |}.

Lemma Write_written n w : Write n w = Ret (Ok tt, written n w).
Proof. done. Qed.

(** [setResponse]. *)
Definition setResponse (res : OpResponse) : handler unit := fun w =>
  Ret (Ok tt, if OpResponse_empty res then w
              else {| whdr := whdr w; wstatus := wstatus w; wbody := wbody w; wresponse := Some res; wdenials := wdenials w |}).

Definition addDenial (r : s3gw.DenyReason) : handler unit := fun w =>
  Ret (Ok tt, {| whdr := whdr w; wstatus := wstatus w; wbody := wbody w; wresponse := wresponse w;
                 wdenials := s3gw.addDenial (wdenials w) r |}).

Fixpoint for_each {A B} (f : B -> A -> handler B) (b : B) (l : list A) : handler B :=
  match l with
  | [] => mret b
  | x :: l => b ← f b x; for_each f b l
  end.

(** [if out, err := call; err != nil { return s3err.FromSDKError(err, path) }]. *)
Definition or_fail {X} (path : string) (a : answer X) : handler X :=
  match a with
  | Ok x => mret x
  | Err f => fail (s3err.FromSDKError (ferr f) path)
  end.

(** ** Reasoning on the calls of a handler *)

Fixpoint all_calls {A} (P : forall X, call X -> Prop) (p : prog A) : Prop :=
  match p with
  | Ret _ => True
  | Call c k => P _ c /\ forall x, all_calls P (k x)
  end.

(** What holds of every result, whatever the backend answers. *)
Fixpoint all_results {A} (Q : A -> Prop) (p : prog A) : Prop :=
  match p with
  | Ret a => Q a
  | Call c k => forall x, all_results Q (k x)
  end.

Lemma all_calls_bind {A B} P (p : prog A) (f : A -> prog B) :
  all_calls P p -> (forall a, all_calls P (f a)) -> all_calls P (bind p f).
Proof. intros Hp Hf. induction p as [a|X c k IH]; simpl in *; [done|]. destruct Hp as [Hc Hk]. auto. Qed.

Lemma all_results_bind {A B} (Q : A -> Prop) (R : B -> Prop) (p : prog A) (f : A -> prog B) :
  all_results Q p -> (forall a, Q a -> all_results R (f a)) -> all_results R (bind p f).
Proof. intros Hp Hf. induction p as [a|X c k IH]; simpl in *; auto. Qed.

Lemma all_calls_trace {A} P (p : prog A) be : all_calls P p -> Forall (fun s => P _ (projT2 s)) (trace be p).
Proof. induction p as [a|X c k IH]; simpl; [constructor|]. intros [Hc Hk]. constructor; auto. Qed.

Lemma all_results_run {A} Q (p : prog A) be : all_results Q p -> Q (run be p).
Proof. induction p as [a|X c k IH]; simpl; auto. Qed.

Definition confined {A} (P : forall X, call X -> Prop) (m : handler A) : Prop := forall w, all_calls P (m w).

Section Confined.
Context (P : forall X, call X -> Prop).

Lemma confined_bind {A B} (m : handler A) (f : A -> handler B) :
  confined P m -> (forall a, confined P (f a)) -> confined P (m ≫= f).
Proof. intros Hm Hf w. apply all_calls_bind; [apply Hm|]. intros [[a|e] w']; [apply Hf|done]. Qed.

Lemma confined_ret {A} (a : A) : confined P (mret a : handler A).
Proof. done. Qed.
Lemma confined_fail {A} e : confined P (fail e : handler A).
Proof. done. Qed.
Lemma confined_lift {A} (r : result s3err.Error A) : confined P (lift r).
Proof. done. Qed.
Lemma confined_upd f : confined P (upd_header f).
Proof. done. Qed.
Lemma confined_set k v : confined P (set k v).
Proof. done. Qed.
Lemma confined_set_opt k v : confined P (set_opt k v).
Proof. by destruct v. Qed.
Lemma confined_write_header st : confined P (write_header st).
Proof. done. Qed.
Lemma confined_write_body p : confined P (write_body p).
Proof. done. Qed.
Lemma confined_Write n : confined P (Write n).
Proof. done. Qed.
Lemma confined_setResponse r : confined P (setResponse r).
Proof. done. Qed.
Lemma confined_addDenial r : confined P (addDenial r).
Proof. done. Qed.
Lemma confined_or_fail {X} path (a : answer X) : confined P (or_fail path a).
Proof. by destruct a. Qed.
Lemma confined_invoke {X} (c : call X) : P X c -> confined P (invoke c).
Proof. intros Hc w. simpl. done. Qed.

(** A step without calls, with what it returned. *)
Lemma confined_lift_bind {A B} (r : result s3err.Error A) (f : A -> handler B) :
  (forall a, r = Ok a -> confined P (f a)) -> confined P (lift r ≫= f).
Proof. intros Hf w. unfold mbind, handler_bind, lift. cbn [bind]. destruct r as [a|e]; [by apply Hf|done]. Qed.
Lemma confined_ret_bind {A B} (a : A) (f : A -> handler B) : confined P (f a) -> confined P ((mret a : handler A) ≫= f).
Proof. intros Hf w. apply Hf. Qed.
Lemma confined_fail_bind {A B} e (f : A -> handler B) : confined P ((fail e : handler A) ≫= f).
Proof. done. Qed.

Lemma confined_for_each {A B} (f : B -> A -> handler B) b l :
  (forall b x, confined P (f b x)) -> confined P (for_each f b l).
Proof. intros Hf. revert b; induction l as [|x l IH]; intros b; [apply confined_ret|]. apply confined_bind; auto. Qed.

End Confined.

End sdk.

Create HintDb confined.
#[export] Hint Resolve sdk.confined_ret sdk.confined_fail sdk.confined_lift sdk.confined_upd sdk.confined_set sdk.confined_set_opt
  sdk.confined_write_header sdk.confined_write_body sdk.confined_Write sdk.confined_setResponse sdk.confined_addDenial
  sdk.confined_or_fail sdk.confined_for_each : confined.
