(* ===== verification/Proxy.v ===== *)
(** * Object and bucket handlers (src/s3gw/proxy.go), with the generated
      checksum conversions (src/s3gw/checksums_gen.go)

    Each handler is the whole method of the source: the input it builds from
    the request, the call, and the response it makes of the answer.  What the
    handlers read of the gateway and the request is a [ctx]; the decoders it
    holds are [xml.Unmarshal] into the request types and [http.ParseTime], which
    depends on the zone names the host knows. *)

From S2P Require Import Prelude Unicode GoStrings GoNet GoTime GoError JSON XML Policy Verifier Checksum Chunked Store Authorize Catalog Headers Addressing Routing Body S3XML Sdk.
Import headers addressing sdk s3xml.

Open Scope Z_scope.

Module proxy.

(** ** What a handler is given *)

Record decoders := {
  ParseTime : string -> option Z;
  dDelete : string -> option DeleteRequest;
  dComplete : string -> option CompleteMultipartUploadRequest;
  dTagging : string -> option Tagging;
  dRetention : string -> option ObjectLockRetention;
  dLegalHold : string -> option ObjectLockLegalHold }.

(** The two directions of an installed [StorageClassMapper], for the operation
    at hand. *)
Record StorageClassMapper := { SToBackend : Z -> string; SToClient : string -> string }.

Definition SizeUnknown : Z := -1.

(** [creads] is how the client's body arrives while a handler reads it. *)
Record ctx := {
  cop : routing.opCtx;
  creq : http.Request;
  ctarget : target;
  ctls : bool;
  cbody : body.source;
  creads : list (nat * chunked.choice);
  copySource : string;
  cchecksums : checksumPolicy;
  ckms : option KMSKeyMapper;
  cclass : option StorageClassMapper;
  cregion : string;
  cdec : decoders }.

Section Handlers.
Context (c : ctx).

Definition cfg : store.Bucket := routing.cfg (cop c).
Definition backend_bucket : string := store.BBucket (store.BBackend cfg).
Definition key : string := routing.key (cop c).
Definition hdr : signedHeader := routing.hdr (cop c).
Definition query : url.Values := routing.query (cop c).
Definition path : string := url.Path (http.URL (creq c)).

Definition attr (name : string) : string := Attribute hdr name.
Definition signed (name : string) : string := Signed hdr name.

(** [if v != "" { p = aws.String(v) }], and with a date. *)
Definition opt (v : string) : option string := if bool_decide (v = "") then None else Some v.
Definition opt_time (v : string) : option Z := if bool_decide (v = "") then None else ParseTime (cdec c) v.

Definition backendStorageClass (requested : string) (size : Z) : string :=
  match cclass c with Some m => SToBackend m size | None => requested end.
Definition clientStorageClass (backendClass : string) : string :=
  match cclass c with Some m => SToClient m backendClass | None => backendClass end.
Definition client_kms (id : option string) : option string := clientKMSKeyID (ckms c) id.

Definition toString (o : option string) : string := default "" o.
Definition toInt (o : option Z) : Z := default 0 o.
Definition toBool (o : option bool) : bool := default false o.

Definition request_input : body.input :=
  {| body.ichecksums := cchecksums c; body.ihdr := hdr; body.iverified := s3gw.Verified (routing.vr (cop c));
     body.ibody := cbody c; body.icontentLength := http.ContentLength (creq c) |}.

Definition requestBody : handler (body.reader * Z) := lift (body.requestBody request_input).

(** A body that stops arriving is a read error. *)
Definition readXMLBody {A} (Unmarshal : string -> option A) : handler A :=
  match body.readXMLBody Unmarshal request_input (creads c) with
  | Some r => lift r
  | None => fail (s3err.New 400 "InvalidRequest" [FS "failed to read request body"])
  end.

(** [strconv.ParseInt(v, 10, 32)] of a parameter that may be absent. *)
Definition int32_param (v : string) (e : s3err.Error) : handler (option Z) :=
  if bool_decide (v = "") then mret None
  else match strconv.ParseInt v 10 32 with Some n => mret (Some n) | None => fail e end.

Definition not_an_integer (what : string) : s3err.Error :=
  s3err.New 400 "InvalidArgument" [FS "Argument "; FS what; FS " must be an integer."].

(** ** Checksums *)

Definition addChecksum (v : checksum.Values) (p : string * option string) : checksum.Values :=
  match p.2 with
  | None => v
  | Some s => if bool_decide (s = "") then v else <[p.1 := s]> v
  end.

Definition checksum_members (x : ChecksumFields) : list (string * option string) :=
  [("CRC32", fCRC32 x); ("CRC32C", fCRC32C x); ("CRC64NVME", fCRC64NVME x); ("SHA1", fSHA1 x); ("SHA256", fSHA256 x);
   ("SHA512", fSHA512 x); ("MD5", fMD5 x); ("XXHASH64", fXXHASH64 x); ("XXHASH3", fXXHASH3 x); ("XXHASH128", fXXHASH128 x)].

(** The generated [checksumsFrom...] of every structure with these members. *)
Definition checksumsFrom (x : ChecksumFields) : checksum.Values := fold_left addChecksum (checksum_members x) ∅.

Definition checksumPtr (v : checksum.Values) (name : string) : option string :=
  match v !! name with Some s => opt s | None => None end.

(** The generated [setChecksums...]. *)
Definition setChecksums (v : checksum.Values) : ChecksumFields :=
  {| fCRC32 := checksumPtr v "CRC32"; fCRC32C := checksumPtr v "CRC32C"; fCRC64NVME := checksumPtr v "CRC64NVME";
     fSHA1 := checksumPtr v "SHA1"; fSHA256 := checksumPtr v "SHA256"; fSHA512 := checksumPtr v "SHA512"; fMD5 := checksumPtr v "MD5";
     fXXHASH64 := checksumPtr v "XXHASH64"; fXXHASH3 := checksumPtr v "XXHASH3"; fXXHASH128 := checksumPtr v "XXHASH128" |}.

Definition vget (v : checksum.Values) (name : string) : string := default "" (v !! name).

Definition xmlChecksums (v : checksum.Values) : Checksums :=
  {| ChecksumCRC32 := vget v "CRC32"; ChecksumCRC32C := vget v "CRC32C"; ChecksumCRC64NVME := vget v "CRC64NVME";
     ChecksumSHA1 := vget v "SHA1"; ChecksumSHA256 := vget v "SHA256"; ChecksumSHA512 := vget v "SHA512"; ChecksumMD5 := vget v "MD5";
     ChecksumXXHASH64 := vget v "XXHASH64"; ChecksumXXHASH3 := vget v "XXHASH3"; ChecksumXXHASH128 := vget v "XXHASH128" |}.

Definition checksumsFromXML (x : Checksums) : checksum.Values :=
  fold_left addChecksum
    [("CRC32", Some (ChecksumCRC32 x)); ("CRC32C", Some (ChecksumCRC32C x)); ("CRC64NVME", Some (ChecksumCRC64NVME x));
     ("SHA1", Some (ChecksumSHA1 x)); ("SHA256", Some (ChecksumSHA256 x)); ("SHA512", Some (ChecksumSHA512 x));
     ("MD5", Some (ChecksumMD5 x)); ("XXHASH64", Some (ChecksumXXHASH64 x)); ("XXHASH3", Some (ChecksumXXHASH3 x));
     ("XXHASH128", Some (ChecksumXXHASH128 x))] ∅.

Definition setChecksumHeaders (v : checksum.Values) (checksumType : string) : handler unit :=
  upd_header (fun h => checksum.SetHeaders h (offered (cchecksums c) v) checksumType).

Definition reportChecksums (v : checksum.Values) : Checksums := xmlChecksums (offered (cchecksums c) v).

(** ** Headers *)

Definition applyPartNumber : handler (option Z) :=
  let v := url.Get query routing.qpPartNumber in
  if bool_decide (v = "") then mret None
  else match strconv.ParseInt v 10 32 with
       | Some n => if (n <? 1) || (10000 <? n) then fail (s3err.New 400 "InvalidArgument" [FS "Part number must be an integer between 1 and 10000, inclusive"])
                   else mret (Some n)
       | None => fail (s3err.WithCause (s3err.New 400 "InvalidArgument" [FS "Part number must be an integer between 1 and 10000, inclusive"]) (Text []))
       end.

Definition relayedErrorHeaders : list string :=
  ["ETag"; "Last-Modified"; "Cache-Control"; "Expires"; "x-amz-delete-marker"; "x-amz-version-id"].

Definition relay_one (resp h : http.Header) (k : string) : http.Header :=
  let v := http.HGet resp k in if bool_decide (v = "") then h else http.HSet h k v.

Definition relayErrorHeaders (f : failure) : handler unit :=
  match fheaders f with
  | None => mret tt
  | Some resp => upd_header (fun h => fold_left (relay_one resp) relayedErrorHeaders h)
  end.

(** A failed read relays the entity headers of the backend's error. *)
Definition or_relay {X} (a : answer X) : handler X :=
  match a with
  | Ok x => mret x
  | Err f => _ ← relayErrorHeaders f; fail (s3err.FromSDKError (ferr f) path)
  end.

Record objectHeaderValues := {
  hContentType : option string; hContentLength : option Z; hETag : option string; hLastModified : option Z; hCacheControl : option string;
  hContentDisposition : option string; hContentEncoding : option string; hContentLanguage : option string; hExpires : option string;
  hStorageClass : string; hVersionID : option string; hSSE : string; hSSEKMSKeyID : option string; hMetadata : gmap string string }.

Definition set_if (k : string) (v : option string) (h : http.Header) : http.Header :=
  match v with Some v => http.HSet h k v | None => h end.

Definition setObjectHeaders (h : http.Header) (v : objectHeaderValues) : http.Header :=
  let h := set_if "Content-Type" (hContentType v) h in
  let h := set_if "Content-Length" (strconv.FormatInt <$> hContentLength v) h in
  let h := set_if "ETag" (hETag v) h in
  let h := set_if "Last-Modified" (time.FormatHTTP <$> hLastModified v) h in
  let h := set_if "Cache-Control" (hCacheControl v) h in
  let h := set_if "Content-Disposition" (hContentDisposition v) h in
  let h := set_if "Content-Encoding" (hContentEncoding v) h in
  let h := set_if "Content-Language" (hContentLanguage v) h in
  let h := set_if "Expires" (hExpires v) h in
  let h := set_if "x-amz-storage-class" (opt (hStorageClass v)) h in
  let h := set_if "x-amz-version-id" (hVersionID v) h in
  let h := setSSEHeaders h (hSSE v) (hSSEKMSKeyID v) in
  fold_left (fun h kv => http.set_raw h (amzMetaPrefix +:+ strings.ToLower kv.1) [kv.2]) (map_to_list (hMetadata v)) h.

Definition setObjectLockResponseHeaders (h : http.Header) (mode : string) (retainUntil : option Z) (legalHold : string) : http.Header :=
  let h := set_if "x-amz-object-lock-mode" (opt mode) h in
  let h := set_if "x-amz-object-lock-retain-until-date" (time.FormatRFC3339 <$> retainUntil) h in
  set_if "x-amz-object-lock-legal-hold" (opt legalHold) h.

(** [applyObjectLockHeaders]: an unreadable date is left out. *)
Definition applyObjectLockHeaders : string * option Z * string :=
  let until := signed hdrObjectLockRetainUntil in
  (signed hdrObjectLockMode, if bool_decide (until = "") then None else time.ParseRFC3339 until, signed hdrObjectLockLegalHold).

Definition checksum_mode : string := if strings.EqualFold (signed "x-amz-checksum-mode") "enabled" then "ENABLED" else "".

Definition version_param : option string := opt (url.Get query routing.qpVersionID).

(** ** Objects *)

(** What the hooks are told of a read. *)
Definition object_response (out : GetObjectOutput) : OpResponse :=
  {| oSSE := GetObjectOutput_ServerSideEncryption out; oSSEKMSKeyID := toString (GetObjectOutput_SSEKMSKeyId out);
     oStorageClass := GetObjectOutput_StorageClass out; oMetadata := GetObjectOutput_Metadata out;
     oETag := toString (GetObjectOutput_ETag out); oVersionID := toString (GetObjectOutput_VersionId out) |}.

Definition object_headers (out : GetObjectOutput) : objectHeaderValues :=
  {| hContentType := GetObjectOutput_ContentType out; hContentLength := GetObjectOutput_ContentLength out; hETag := GetObjectOutput_ETag out;
     hLastModified := GetObjectOutput_LastModified out; hCacheControl := GetObjectOutput_CacheControl out;
     hContentDisposition := GetObjectOutput_ContentDisposition out; hContentEncoding := GetObjectOutput_ContentEncoding out;
     hContentLanguage := GetObjectOutput_ContentLanguage out; hExpires := GetObjectOutput_ExpiresString out;
     hStorageClass := clientStorageClass (GetObjectOutput_StorageClass out); hVersionID := GetObjectOutput_VersionId out;
     hSSE := GetObjectOutput_ServerSideEncryption out; hSSEKMSKeyID := client_kms (GetObjectOutput_SSEKMSKeyId out);
     hMetadata := GetObjectOutput_Metadata out |}.

Definition get_input (partNumber : option Z) : GetObjectInput :=
  {| GetObjectInput_Bucket := backend_bucket; GetObjectInput_Key := key; GetObjectInput_IfMatch := opt (attr "If-Match");
     GetObjectInput_IfNoneMatch := opt (attr "If-None-Match"); GetObjectInput_IfModifiedSince := opt_time (attr "If-Modified-Since");
     GetObjectInput_IfUnmodifiedSince := opt_time (attr "If-Unmodified-Since"); GetObjectInput_Range := opt (attr "Range");
     GetObjectInput_ChecksumMode := checksum_mode; GetObjectInput_VersionId := version_param; GetObjectInput_PartNumber := partNumber;
     GetObjectInput_ResponseContentType := opt (url.Get query "response-content-type");
     GetObjectInput_ResponseContentDisposition := opt (url.Get query "response-content-disposition");
     GetObjectInput_ResponseCacheControl := opt (url.Get query "response-cache-control");
     GetObjectInput_ResponseContentEncoding := opt (url.Get query "response-content-encoding");
     GetObjectInput_ResponseContentLanguage := opt (url.Get query "response-content-language");
     GetObjectInput_ResponseExpires := opt_time (url.Get query "response-expires") |}.

Definition getObject : handler unit :=
  pn ← applyPartNumber;
  a ← invoke (GetObject (get_input pn));
  out ← or_relay a;
  _ ← setResponse (object_response out);
  _ ← upd_header (fun h => setObjectHeaders h (object_headers out));
  _ ← set_opt "Accept-Ranges" (GetObjectOutput_AcceptRanges out);
  _ ← set_opt "x-amz-tagging-count" (strconv.FormatInt <$> GetObjectOutput_TagCount out);
  _ ← set_opt "x-amz-mp-parts-count" (strconv.FormatInt <$> GetObjectOutput_PartsCount out);
  _ ← setChecksumHeaders (checksumsFrom (GetObjectOutput_Checksum out)) (GetObjectOutput_ChecksumType out);
  _ ← upd_header (fun h => setObjectLockResponseHeaders h (GetObjectOutput_ObjectLockMode out)
        (GetObjectOutput_ObjectLockRetainUntilDate out) (GetObjectOutput_ObjectLockLegalHoldStatus out));
  _ ← set_opt "Content-Range" (GetObjectOutput_ContentRange out);
  _ ← write_header (match GetObjectOutput_ContentRange out with Some _ => 206 | None => 200 end);
  write_body (Bytes (GetObjectOutput_Body out)).

Definition headObject : handler unit :=
  pn ← applyPartNumber;
  a ← invoke (HeadObject
    {| HeadObjectInput_Bucket := backend_bucket; HeadObjectInput_Key := key; HeadObjectInput_IfMatch := opt (attr "If-Match");
       HeadObjectInput_IfNoneMatch := opt (attr "If-None-Match"); HeadObjectInput_IfModifiedSince := opt_time (attr "If-Modified-Since");
       HeadObjectInput_IfUnmodifiedSince := opt_time (attr "If-Unmodified-Since"); HeadObjectInput_Range := opt (attr "Range");
       HeadObjectInput_VersionId := version_param; HeadObjectInput_PartNumber := pn; HeadObjectInput_ChecksumMode := checksum_mode |});
  out ← or_relay a;
  _ ← setResponse (object_response out);
  _ ← upd_header (fun h => setObjectHeaders h (object_headers out));
  _ ← set_opt "Accept-Ranges" (GetObjectOutput_AcceptRanges out);
  _ ← set_opt "x-amz-mp-parts-count" (strconv.FormatInt <$> GetObjectOutput_PartsCount out);
  _ ← setChecksumHeaders (checksumsFrom (GetObjectOutput_Checksum out)) (GetObjectOutput_ChecksumType out);
  _ ← upd_header (fun h => setObjectLockResponseHeaders h (GetObjectOutput_ObjectLockMode out)
        (GetObjectOutput_ObjectLockRetainUntilDate out) (GetObjectOutput_ObjectLockLegalHoldStatus out));
  write_header 200.

(** The algorithm named to the backend: the trailer's, or that of the value
    header. *)
Definition upload_algorithm (cs : checksum.Values) : string :=
  let t := body.trailerChecksumAlgorithm (store.BBackend cfg) (http.Header_ (creq c)) in
  if bool_decide (t = "") then checksum.Values_Algorithm cs else t.

Definition applySSE : handler (string * option string) := lift (headers.applySSE (ckms c) hdr).

Definition putObject : handler unit :=
  '(b, length) ← requestBody;
  md5v ← lift (body.contentMD5Header hdr);
  '(sse, kmsKey) ← applySSE;
  let '(lockMode, lockUntil, lockHold) := applyObjectLockHeaders in
  let cs := checksum.FromHeaders (http.Header_ (creq c)) in
  '(a, _) ← invoke (PutObject
    {| PutObjectInput_Bucket := backend_bucket; PutObjectInput_Key := key; PutObjectInput_ContentLength := Some length;
       PutObjectInput_IfMatch := opt (attr "If-Match"); PutObjectInput_IfNoneMatch := opt (attr "If-None-Match");
       PutObjectInput_ContentType := opt (attr "Content-Type"); PutObjectInput_ContentMD5 := md5v;
       PutObjectInput_CacheControl := opt (attr "Cache-Control"); PutObjectInput_ContentDisposition := opt (attr "Content-Disposition");
       PutObjectInput_ContentEncoding := opt (body.contentEncodingWithoutAWSChunked (attr "Content-Encoding"));
       PutObjectInput_ContentLanguage := opt (attr "Content-Language"); PutObjectInput_Expires := opt_time (attr "Expires");
       PutObjectInput_StorageClass := backendStorageClass (signed hdrStorageClass) length; PutObjectInput_Tagging := opt (signed hdrTagging);
       PutObjectInput_ServerSideEncryption := sse; PutObjectInput_SSEKMSKeyId := kmsKey; PutObjectInput_ObjectLockMode := lockMode;
       PutObjectInput_ObjectLockRetainUntilDate := lockUntil; PutObjectInput_ObjectLockLegalHoldStatus := lockHold;
       PutObjectInput_Metadata := AmzMeta hdr; PutObjectInput_Checksum := setChecksums cs;
       PutObjectInput_ChecksumAlgorithm := upload_algorithm cs |} (Request b));
  out ← or_fail path a;
  _ ← setResponse {| oSSE := PutObjectOutput_ServerSideEncryption out; oSSEKMSKeyID := toString (PutObjectOutput_SSEKMSKeyId out);
        oStorageClass := ""; oMetadata := ∅; oETag := toString (PutObjectOutput_ETag out); oVersionID := toString (PutObjectOutput_VersionId out) |};
  _ ← set_opt "ETag" (PutObjectOutput_ETag out);
  _ ← set_opt "x-amz-version-id" (PutObjectOutput_VersionId out);
  _ ← upd_header (fun h => setSSEHeaders h (PutObjectOutput_ServerSideEncryption out) (client_kms (PutObjectOutput_SSEKMSKeyId out)));
  _ ← setChecksumHeaders (checksumsFrom (PutObjectOutput_Checksum out)) (PutObjectOutput_ChecksumType out);
  write_header 200.

Definition deleteObject : handler unit :=
  let modified := signed "x-amz-if-match-last-modified-time" in
  ifModified ← (if bool_decide (modified = "") then mret None
    else match ParseTime (cdec c) modified with
         | Some t => mret (Some t)
         | None => fail (s3err.WithCause (s3err.New 400 "InvalidArgument" [FS "x-amz-if-match-last-modified-time must be a valid HTTP date"]) (Text []))
         end);
  let size := signed "x-amz-if-match-size" in
  ifSize ← (if bool_decide (size = "") then mret None
    else match strconv.ParseInt size 10 64 with
         | Some n => mret (Some n)
         | None => fail (s3err.WithCause (s3err.New 400 "InvalidArgument" [FS "x-amz-if-match-size must be an integer"]) (Text []))
         end);
  a ← invoke (DeleteObject
    {| DeleteObjectInput_Bucket := backend_bucket; DeleteObjectInput_Key := key; DeleteObjectInput_VersionId := version_param;
       DeleteObjectInput_BypassGovernanceRetention := if bypassGovernanceRetention hdr then Some true else None;
       DeleteObjectInput_IfMatch := opt (attr "If-Match"); DeleteObjectInput_IfMatchLastModifiedTime := ifModified;
       DeleteObjectInput_IfMatchSize := ifSize |});
  out ← or_fail path a;
  _ ← set_opt "x-amz-version-id" (DeleteObjectOutput_VersionId out);
  _ ← (if toBool (DeleteObjectOutput_DeleteMarker out) then set "x-amz-delete-marker" "true" else mret tt);
  write_header 204.

(** ** Listings *)

Definition tenantOwner (tenant : string) : Owner := {| Owner_ID := tenant; Owner_DisplayName := tenant |}.

Definition format_time (t : option Z) : string := match t with Some t => FormatTime t | None => "" end.

Definition object_entry (owner : option Owner) (o : SdkObject) : Object :=
  {| Object_Key := toString (SdkObject_Key o); Object_LastModified := format_time (SdkObject_LastModified o);
     Object_ETag := toString (SdkObject_ETag o); Object_ChecksumAlgorithm := reportAlgorithms (cchecksums c) (SdkObject_ChecksumAlgorithm o);
     Object_ChecksumType := SdkObject_ChecksumType o; Object_Size := toInt (SdkObject_Size o);
     Object_StorageClass := clientStorageClass (SdkObject_StorageClass o); Object_Owner := owner |}.

Definition objectsFromSDK (objects : list SdkObject) (owner : option Owner) : list Object := map (object_entry owner) objects.

Definition common_prefixes (l : list (option string)) : list CommonPrefix :=
  omap (fun p => (fun s => {| CommonPrefix_Prefix := s |}) <$> p) l.

Definition listObjectsV2 : handler unit :=
  maxKeys ← int32_param (url.Get query "max-keys") (not_an_integer "max-keys");
  let fetchOwner := bool_decide (url.Get query "fetch-owner" = "true") in
  a ← invoke (ListObjectsV2
    {| ListObjectsV2Input_Bucket := backend_bucket; ListObjectsV2Input_Prefix := opt (url.Get query "prefix");
       ListObjectsV2Input_Delimiter := opt (url.Get query "delimiter"); ListObjectsV2Input_MaxKeys := maxKeys;
       ListObjectsV2Input_ContinuationToken := opt (url.Get query "continuation-token");
       ListObjectsV2Input_StartAfter := opt (url.Get query "start-after");
       ListObjectsV2Input_FetchOwner := if fetchOwner then Some true else None;
       ListObjectsV2Input_EncodingType := url.Get query "encoding-type" |});
  out ← or_fail path a;
  Write (ListBucketResult_xml
    {| ListBucketResult_XMLNS := Namespace; ListBucketResult_Name := store.Name cfg;
       ListBucketResult_Prefix := toString (ListObjectsV2Output_Prefix out);
       ListBucketResult_StartAfter := toString (ListObjectsV2Output_StartAfter out);
       ListBucketResult_ContinuationToken := if url.Has query "continuation-token" then Some (url.Get query "continuation-token") else None;
       ListBucketResult_NextContinuationToken := toString (ListObjectsV2Output_NextContinuationToken out);
       ListBucketResult_KeyCount := toInt (ListObjectsV2Output_KeyCount out); ListBucketResult_MaxKeys := toInt (ListObjectsV2Output_MaxKeys out);
       ListBucketResult_Delimiter := toString (ListObjectsV2Output_Delimiter out);
       ListBucketResult_EncodingType := ListObjectsV2Output_EncodingType out;
       ListBucketResult_IsTruncated := toBool (ListObjectsV2Output_IsTruncated out);
       ListBucketResult_Contents := objectsFromSDK (ListObjectsV2Output_Contents out)
         (if fetchOwner then Some (tenantOwner (store.Tenant cfg)) else None);
       ListBucketResult_CommonPrefixes := common_prefixes (ListObjectsV2Output_CommonPrefixes out) |}).

Definition listObjectsV1 : handler unit :=
  maxKeys ← int32_param (url.Get query "max-keys") (not_an_integer "max-keys");
  a ← invoke (ListObjects
    {| ListObjectsInput_Bucket := backend_bucket; ListObjectsInput_Prefix := opt (url.Get query "prefix");
       ListObjectsInput_Delimiter := opt (url.Get query "delimiter"); ListObjectsInput_Marker := opt (url.Get query "marker");
       ListObjectsInput_MaxKeys := maxKeys; ListObjectsInput_EncodingType := url.Get query "encoding-type" |});
  out ← or_fail path a;
  Write (ListBucketResultV1_xml
    {| ListBucketResultV1_XMLNS := Namespace; ListBucketResultV1_Name := store.Name cfg;
       ListBucketResultV1_Prefix := toString (ListObjectsOutput_Prefix out); ListBucketResultV1_Marker := toString (ListObjectsOutput_Marker out);
       ListBucketResultV1_NextMarker := toString (ListObjectsOutput_NextMarker out); ListBucketResultV1_MaxKeys := toInt (ListObjectsOutput_MaxKeys out);
       ListBucketResultV1_Delimiter := toString (ListObjectsOutput_Delimiter out);
       ListBucketResultV1_EncodingType := ListObjectsOutput_EncodingType out;
       ListBucketResultV1_IsTruncated := toBool (ListObjectsOutput_IsTruncated out);
       ListBucketResultV1_Contents := objectsFromSDK (ListObjectsOutput_Contents out) (Some (tenantOwner (store.Tenant cfg)));
       ListBucketResultV1_CommonPrefixes := common_prefixes (ListObjectsOutput_CommonPrefixes out) |}).

(** ** The bucket itself *)

Definition frontRegion : string := if bool_decide (cregion c = "") then "us-east-1" else cregion c.

Definition getBucketLocation : handler unit :=
  Write (LocationConstraint_xml {| LocationConstraint_XMLNS := Namespace;
    LocationConstraint_Value := if bool_decide (frontRegion = "us-east-1") then "" else frontRegion |}).

Definition headBucket : handler unit :=
  a ← invoke (HeadBucket backend_bucket);
  _ ← or_fail path a;
  _ ← set "x-amz-bucket-region" frontRegion;
  write_header 200.

(** ** DeleteObjects *)

(** What the loop over the entries has gathered: the errors to report and the
    entries to send. *)
Definition deletions : Type := list DeleteError * list ObjectIdentifier.

Definition access_denied_entry (o : DeleteRequestObject) : DeleteError :=
  {| DeleteError_Key := DeleteRequestObject_Key o; DeleteError_VersionID := DeleteRequestObject_VersionID o;
     DeleteError_Code := "AccessDenied"; DeleteError_Message := "Access Denied" |}.

Section DeleteObjects.
Context (checkPerObject bypass : bool) (delAuth verAuth bypassAuth : s3gw.perObjectAuthorizer).

(** The authorizer that refuses an entry, if one does. *)
Definition refusing (o : DeleteRequestObject) : option s3gw.perObjectAuthorizer :=
  let resource := store.Name cfg +:+ "/" +:+ DeleteRequestObject_Key o in
  let auth := if bool_decide (DeleteRequestObject_VersionID o = "") then delAuth else verAuth in
  if s3gw.pdenies auth resource then Some auth
  else if bypass && s3gw.pdenies bypassAuth resource then Some bypassAuth
  else None.

Definition identifier (o : DeleteRequestObject) : handler ObjectIdentifier :=
  let modified := DeleteRequestObject_LastModifiedTime o in
  t ← (if bool_decide (modified = "") then mret None
       else match ParseTime (cdec c) modified with
            | Some t => mret (Some t)
            | None => fail (s3err.WithCause body.malformed_xml (Text []))
            end);
  mret {| ObjectIdentifier_Key := DeleteRequestObject_Key o; ObjectIdentifier_VersionId := opt (DeleteRequestObject_VersionID o);
          ObjectIdentifier_ETag := opt (DeleteRequestObject_ETag o); ObjectIdentifier_LastModifiedTime := t;
          ObjectIdentifier_Size := DeleteRequestObject_Size o |}.

Definition delete_entry (acc : deletions) (o : DeleteRequestObject) : handler deletions :=
  match (if checkPerObject then refusing o else None) with
  | Some auth =>
    _ ← addDenial (s3gw.denyReason auth (store.Name cfg +:+ "/" +:+ DeleteRequestObject_Key o));
    mret (acc.1 ++ [access_denied_entry o], acc.2)
  | None =>
    oi ← identifier o;
    mret (acc.1, acc.2 ++ [oi])
  end.

End DeleteObjects.

Definition deleted_entry (d : SdkDeletedObject) : DeletedObject :=
  {| DeletedObject_Key := toString (SdkDeletedObject_Key d); DeletedObject_VersionID := toString (SdkDeletedObject_VersionId d);
     DeletedObject_DeleteMarker := toBool (SdkDeletedObject_DeleteMarker d);
     DeletedObject_DeleteMarkerVersionID := toString (SdkDeletedObject_DeleteMarkerVersionId d) |}.

Definition error_entry (e : SdkError) : DeleteError :=
  {| DeleteError_Key := toString (SdkError_Key e); DeleteError_VersionID := toString (SdkError_VersionId e);
     DeleteError_Code := toString (SdkError_Code e); DeleteError_Message := toString (SdkError_Message e) |}.

Definition deleteObjects : handler unit :=
  req ← readXMLBody (dDelete (cdec c));
  let entries := DeleteRequest_Objects req in
  if (length entries =? 0)%nat || (1000 <? length entries)%nat then fail body.malformed_xml
  else
    let who := routing.vr (cop c) in
    let hasVersion := existsb (fun o => negb (bool_decide (DeleteRequestObject_VersionID o = ""))) entries in
    let hasPlain := existsb (fun o => bool_decide (DeleteRequestObject_VersionID o = "")) entries in
    let delAuth := s3gw.newPerObjectAuthorizer who cfg s3op.ActionDeleteObject in
    let verAuth := s3gw.newPerObjectAuthorizer who cfg s3op.ActionDeleteObjectVersion in
    let bypassAuth := s3gw.newPerObjectAuthorizer who cfg s3op.ActionBypassGovernanceRetention in
    let bypass := bypassGovernanceRetention hdr in
    let checkPerObject := (hasPlain && negb (s3gw.allowsEverything delAuth)) || (hasVersion && negb (s3gw.allowsEverything verAuth)) ||
                          (bypass && negb (s3gw.allowsEverything bypassAuth)) in
    '(errors, objects) ← for_each (delete_entry checkPerObject bypass delAuth verAuth bypassAuth) ([], []) entries;
    let result deleted errs := DeleteResult_xml {| DeleteResult_XMLNS := Namespace; DeleteResult_Deleted := deleted; DeleteResult_Errors := errs |} in
    if (length objects =? 0)%nat then Write (result [] errors)
    else
      a ← invoke (DeleteObjects {| DeleteObjectsInput_Bucket := backend_bucket; DeleteObjectsInput_Objects := objects;
                                   DeleteObjectsInput_Quiet := DeleteRequest_Quiet req;
                                   DeleteObjectsInput_BypassGovernanceRetention := if bypass then Some true else None |});
      out ← or_fail path a;
      Write (result (map deleted_entry (DeleteObjectsOutput_Deleted out)) (errors ++ map error_entry (DeleteObjectsOutput_Errors out))).

End Handlers.

(** ** ListBuckets *)

Definition maxListBuckets : nat := 10000.

(** [sort.Search]: the loop of the binary search, with enough fuel for any
    [n] to close the interval. *)
Fixpoint search_loop (fuel : nat) (f : nat -> bool) (lo hi : nat) : nat :=
  match fuel with
  | O => lo
  | S fuel =>
    if (lo <? hi)%nat then
      let h := ((lo + hi) / 2)%nat in
      if f h then search_loop fuel f lo h else search_loop fuel f (S h) hi
    else lo
  end.
Definition Search (n : nat) (f : nat -> bool) : nat := search_loop (S n) f 0 n.

Definition str_gt (a b : string) : bool := negb (bool_decide (String.le a b)).

Definition entry_le (a b : store.BucketEntry) : Prop := String.le (store.EName a) (store.EName b).

#[export] Instance entry_le_dec : RelDecision entry_le.
Proof. unfold entry_le. intros a b. apply _. Defined.

(** A page: the entries after the token, at most [max] of them, and the token
    of the next page. *)
Definition list_page (entries : list store.BucketEntry) (token : string) (max : nat) : list store.BucketEntry * string :=
  let entries := merge_sort entry_le entries in
  let entries :=
    if bool_decide (token = "") then entries
    else drop (Search (length entries) (fun i => match entries !! i with Some e => str_gt (store.EName e) token | None => true end)) entries in
  if (max <? length entries)%nat
  then let page := take max entries in (page, match list.last page with Some e => store.EName e | None => "" end)
  else (entries, "").

(** The zero [time.Time]. *)
Definition zero_time : Z := -62135596800 * time.Second.

Definition bucket_entry (e : store.BucketEntry) : BucketEntry :=
  {| BucketEntry_Name := store.EName e;
     BucketEntry_CreationDate := FormatTime (if store.ECreatedAt e =? zero_time then 0 else store.ECreatedAt e) |}.

Definition listBuckets (st : store.Store) (who : s3gw.verifiedRequest) (query : url.Values) : handler unit :=
  let bad := s3err.New 400 "InvalidArgument" [FS "max-buckets must be an integer between 1 and 10000"] in
  let v := url.Get query "max-buckets" in
  maxBuckets ← (if bool_decide (v = "") then mret maxListBuckets
    else match strconv.ParseInt v 10 64 with
         | Some n => if (n <? 1) || (Z.of_nat maxListBuckets <? n) then fail bad else mret (Z.to_nat n)
         | None => fail bad
         end);
  match store.ListBuckets st (s3gw.Tenant who) with
  | Err err => fail (s3err.Internal err "bucket lookup failed")
  | Ok entries =>
    let '(page, next) := list_page entries (url.Get query "continuation-token") maxBuckets in
    Write (ListAllMyBucketsResult_xml
      {| ListAllMyBucketsResult_XMLNS := Namespace; ListAllMyBucketsResult_Owner := tenantOwner (s3gw.Tenant who);
         ListAllMyBucketsResult_Buckets := {| Buckets_Bucket := map bucket_entry page |};
         ListAllMyBucketsResult_ContinuationToken := next |})
  end.

End proxy.
