(* ===== verification/ListingFacts.v ===== *)
(** * Paging of ListBuckets, and the checksum conversions

    A client that follows the continuation tokens sees every bucket of its
    tenant once, in order, after as many pages as it takes; and the generated
    conversions of checksums lose nothing and show nothing that is not
    offered. *)

From S2P Require Import Prelude Unicode GoStrings GoNet GoError Policy Checksum Store Headers S3XML Sdk Proxy.
Import headers sdk s3xml proxy.

Open Scope Z_scope.

(** ** [sort.Search] *)

Lemma search_loop_at f k : forall fuel lo hi, (hi - lo < fuel)%nat -> (lo <= k <= hi)%nat ->
  (forall i, (i < k)%nat -> f i = false) -> (forall i, (k <= i < hi)%nat -> f i = true) -> search_loop fuel f lo hi = k.
Proof.
  induction fuel as [|fuel IH]; intros lo hi Hf Hk Hlow Hhigh; [lia|]. cbn [search_loop].
  destruct (Nat.ltb_spec lo hi) as [Hlt|]; [|lia].
  pose proof (Nat.div_mod (lo + hi) 2 ltac:(lia)). pose proof (Nat.mod_upper_bound (lo + hi) 2 ltac:(lia)).
  set (m := ((lo + hi) / 2)%nat) in *.
  destruct (f m) eqn:E.
  - apply IH; [lia| |done|intros i Hi; apply Hhigh; lia].
    split; [lia|]. destruct (Nat.le_gt_cases k m); [done|]. rewrite Hlow in E by lia. done.
  - apply IH; [lia| |done|done]. split; [|lia].
    destruct (Nat.le_gt_cases (S m) k); [done|]. rewrite Hhigh in E by lia. done.
Qed.

Lemma Search_at n f k : (k <= n)%nat -> (forall i, (i < k)%nat -> f i = false) -> (forall i, (k <= i < n)%nat -> f i = true) -> Search n f = k.
Proof. intros Hk Hl Hh. apply search_loop_at; [lia|lia|done|done]. Qed.

(** ** Pages *)

(** The pages a client gets by following the tokens from [token], each page's
    own token leading to the next, until a page carries none; [None] when
    [fuel] pages did not reach that end. *)
Fixpoint pages (fuel : nat) (entries : list store.BucketEntry) (token : string) (max : nat) : option (list (list store.BucketEntry)) :=
  match fuel with
  | O => None
  | S fuel =>
    let '(page, next) := list_page entries token max in
    if bool_decide (next = "") then Some [page]
    else match pages fuel entries next max with
         | Some rest => Some (page :: rest)
         | None => None
         end
  end.

(** Pages of at most [max] entries, and only the last one may be empty. *)
Definition page_sizes (max : nat) (ps : list (list store.BucketEntry)) : Prop :=
  Forall (fun p => (length p <= max)%nat) ps /\ Forall (fun p => p <> []) (removelast ps).

#[export] Instance entry_le_trans : Transitive entry_le.
Proof. intros a b d. unfold entry_le. apply transitivity. Qed.
#[export] Instance entry_le_total : Total entry_le.
Proof. intros a b. unfold entry_le. apply (total String.le). Qed.

Section Paging.
Context (entries : list store.BucketEntry) (max : nat).
Hypothesis Hmax : (1 <= max)%nat.
Hypothesis Hnames : Forall (fun e => store.EName e <> "") entries.
Hypothesis Hnodup : NoDup (map store.EName entries).

#[local] Notation sorted := (merge_sort entry_le entries).

Lemma sorted_nodup : NoDup (map store.EName sorted).
Proof. rewrite merge_sort_Permutation. exact Hnodup. Qed.

(** Where a token splits the listing. *)
Lemma search_token pre e rest :
  sorted = pre ++ e :: rest ->
  Search (length sorted) (fun i => match sorted !! i with Some x => str_gt (store.EName x) (store.EName e) | None => true end) = S (length pre).
Proof.
  intros Hs. pose proof (StronglySorted_merge_sort entry_le entries) as Hsort. pose proof sorted_nodup as Hnd.
  rewrite Hs in Hsort, Hnd |- *. rewrite cons_middle, app_assoc in Hsort.
  apply Search_at.
  - rewrite length_app. simpl. lia.
  - intros i Hi. rewrite cons_middle, app_assoc, lookup_app_l by (rewrite length_app; simpl; lia).
    destruct ((pre ++ [e]) !! i) as [x|] eqn:Hx; [|apply lookup_ge_None in Hx; rewrite length_app in Hx; simpl in Hx; lia].
    unfold str_gt. rewrite bool_decide_true; [done|]. apply list_elem_of_lookup_2, elem_of_app in Hx as [Hx|Hx].
    + apply StronglySorted_app_1_l in Hsort. apply (StronglySorted_app_1_elem_of _ _ _ _ e Hsort Hx). set_solver.
    + apply list_elem_of_singleton in Hx as ->. done.
  - intros i [Hi Hn]. rewrite cons_middle, app_assoc, lookup_app_r by (rewrite length_app; simpl; lia).
    destruct (rest !! (i - length (pre ++ [e]))%nat) as [x|] eqn:Hx; [|done].
    unfold str_gt. rewrite bool_decide_false; [done|]. apply list_elem_of_lookup_2 in Hx. intros Hle.
    assert (entry_le e x) as Hle'.
    { eapply (StronglySorted_app_1_elem_of _ (pre ++ [e]) rest); [exact Hsort|set_solver|done]. }
    assert (store.EName e = store.EName x) as Heq by (apply (anti_symm String.le); [exact Hle'|exact Hle]).
    rewrite map_app in Hnd. apply NoDup_app in Hnd as (_ & _ & Hnd). simpl in Hnd. apply NoDup_cons in Hnd as [Hnd _].
    apply Hnd. rewrite Heq. by apply list_elem_of_fmap_2.
Qed.

(** The token of the entries listed so far. *)
Definition token_of (pre : list store.BucketEntry) : string := match list.last pre with Some e => store.EName e | None => "" end.

Lemma page_at pre rest :
  sorted = pre ++ rest ->
  list_page entries (token_of pre) max =
  (if (max <? length rest)%nat then (take max rest, token_of (take max rest)) else (rest, "")).
Proof.
  intros Hs. unfold list_page. cbv zeta.
  assert ((if bool_decide (token_of pre = "") then sorted
           else drop (Search (length sorted) (fun i => match sorted !! i with Some e => str_gt (store.EName e) (token_of pre) | None => true end)) sorted) = rest) as ->.
  { unfold token_of. destruct (list.last pre) as [e|] eqn:Hl.
    - apply last_Some in Hl as [pre' ->]. rewrite <- app_assoc in Hs. simpl in Hs.
      rewrite bool_decide_false.
      + rewrite (search_token pre' e rest Hs). rewrite Hs. rewrite cons_middle, app_assoc. by rewrite drop_app_length' by (rewrite length_app; simpl; lia).
      + assert (e ∈ entries) as He by (rewrite <- (merge_sort_Permutation entry_le entries), Hs; set_solver).
        exact (proj1 (Forall_forall _ _) Hnames e He).
    - apply last_None in Hl as ->. rewrite bool_decide_true by done. exact Hs. }
  destruct (max <? length rest)%nat; done.
Qed.

Lemma token_of_listed pre l rest : sorted = pre ++ l ++ rest -> l <> [] -> token_of l <> "".
Proof.
  intros Hs Hl. unfold token_of. destruct (list.last l) as [e|] eqn:E; [|by apply last_None in E].
  apply last_Some in E as [l' ->].
  assert (e ∈ entries) as He by (rewrite <- (merge_sort_Permutation entry_le entries), Hs; set_solver).
  exact (proj1 (Forall_forall _ _) Hnames e He).
Qed.

(** From what is left to list, the tokens lead to the end, through pages that
    are together what is left. *)
Lemma pages_at fuel pre rest :
  sorted = pre ++ rest -> (length rest < fuel)%nat ->
  exists ps, pages fuel entries (token_of pre) max = Some ps /\ concat ps = rest /\ page_sizes max ps /\
             (length ps <= Nat.max 1 (length rest))%nat.
Proof.
  revert pre rest; induction fuel as [|fuel IH]; intros pre rest Hs Hf; [lia|]. cbn [pages]. rewrite (page_at pre rest Hs).
  destruct (Nat.ltb_spec max (length rest)) as [Hlt|Hle].
  - assert (take max rest <> []) as Hne by (intros E; apply (f_equal length) in E; rewrite length_take in E; simpl in E; lia).
    assert (token_of (take max rest) = token_of (pre ++ take max rest)) as Htok.
    { unfold token_of. rewrite last_app. by destruct (list.last (take max rest)) eqn:E; [|apply last_None in E]. }
    rewrite bool_decide_false by (eapply (token_of_listed pre _ (drop max rest)); [by rewrite take_drop|done]).
    destruct (IH (pre ++ take max rest) (drop max rest)) as (ps & Hps & Hc & [Hall Hfull] & Hlen).
    + by rewrite <- app_assoc, take_drop.
    + rewrite length_drop. lia.
    + rewrite Htok, Hps. exists (take max rest :: ps). rewrite length_drop in Hlen. split; [done|]. split_and!.
      * simpl. rewrite Hc. apply take_drop.
      * split; [constructor; [rewrite length_take; lia|done]|]. destruct ps as [|p ps]; [constructor|]. constructor; done.
      * simpl. lia.
  - rewrite bool_decide_true by done. exists [rest]. simpl. rewrite app_nil_r. split_and!; [done|done| |lia].
    split; [repeat constructor; lia|constructor].
Qed.

End Paging.

(** C34. Paging through ListBuckets ends and is complete: a client that starts
    without a token and follows each page's token reaches a page without one
    after at most as many pages as the tenant has buckets (one when it has
    none), never having been given an empty page on the way; the pages hold at
    most [max] buckets each, and together they are every bucket of the tenant
    exactly once, in the order of the names.  Running out of fuel is [None], so
    that the equation states that paging ends. *)
Theorem list_pages_complete entries max fuel :
  (1 <= max)%nat -> Forall (fun e => store.EName e <> "") entries -> NoDup (map store.EName entries) ->
  (length entries < fuel)%nat ->
  exists ps, pages fuel entries "" max = Some ps /\
    concat ps = merge_sort entry_le entries /\ concat ps ≡ₚ entries /\ StronglySorted entry_le (concat ps) /\
    page_sizes max ps /\ (length ps <= Nat.max 1 (length entries))%nat.
Proof.
  intros Hmax Hn Hd Hf. pose proof (Permutation_length (merge_sort_Permutation entry_le entries)) as Hlen.
  destruct (pages_at entries max Hmax Hn Hd fuel [] (merge_sort entry_le entries)) as (ps & Hps & Hc & Hsz & Hl); [done|lia|].
  exists ps. rewrite Hc. split_and!; [done|done|apply merge_sort_Permutation|apply StronglySorted_merge_sort; apply _|done|lia].
Qed.

Definition demo_entries : list store.BucketEntry :=
  [{| store.EName := "photos"; store.ECreatedAt := 0 |}; {| store.EName := "docs"; store.ECreatedAt := 0 |};
   {| store.EName := "music"; store.ECreatedAt := 0 |}].

Lemma list_pages_complete_witness :
  option_map (map (map store.EName)) (pages 4 demo_entries "" 2) = Some [["docs"; "music"]; ["photos"]] /\
  exists ps, pages 4 demo_entries "" 2 = Some ps /\ concat ps ≡ₚ demo_entries.
Proof.
  split; [vm_refl|]. destruct (list_pages_complete demo_entries 2 4) as (ps & Hps & _ & Hp & _).
  - lia.
  - repeat constructor; discriminate.
  - apply (bool_decide_eq_true_1 _). vm_refl.
  - simpl. lia.
  - exists ps. exact (conj Hps Hp).
Defined.

(** ** Checksums *)

Definition algorithm_names : list string :=
  ["CRC32"; "CRC32C"; "CRC64NVME"; "SHA1"; "SHA256"; "SHA512"; "MD5"; "XXHASH64"; "XXHASH3"; "XXHASH128"].

(** Values as the program holds them: of known algorithms, none empty. *)
Definition values_ok (v : checksum.Values) : Prop := forall n s, v !! n = Some s -> n ∈ algorithm_names /\ s <> "".

Lemma addChecksum_lookup v p k :
  addChecksum v p !! k = if decide (p.1 = k) then match p.2 with Some s => if bool_decide (s = "") then v !! k else Some s | None => v !! k end else v !! k.
Proof.
  destruct p as [n [s|]]; unfold addChecksum; cbn [fst snd]; [|by destruct (decide (n = k))].
  unfold checksum.Values in *. destruct (bool_decide (s = "")), (decide (n = k)) as [->|]; try done; [apply lookup_insert_eq|by apply lookup_insert_ne].
Qed.

(** What a run of [addChecksum] over members read from [v] records. *)
Lemma addChecksums_from (v : checksum.Values) (g : string -> option string) names :
  (forall n s, v !! n = Some s -> s <> "") -> (forall n, g n = v !! n \/ (v !! n = None /\ g n = Some "")) ->
  forall acc : checksum.Values, (forall n s, acc !! n = Some s -> v !! n = Some s) ->
  forall k, fold_left addChecksum (map (fun n => (n, g n)) names) acc !! k = if decide (k ∈ names) then v !! k else acc !! k.
Proof.
  intros Hv Hg. induction names as [|n names IH]; intros acc Hacc k; [done|]. cbn [map fold_left].
  assert (forall k, addChecksum acc (n, g n) !! k = if decide (n = k) then v !! k else acc !! k) as Hadd.
  { intros k'. rewrite addChecksum_lookup. cbn [fst snd]. destruct (decide (n = k')) as [->|]; [|done].
    destruct (Hg k') as [->|[Hn ->]].
    - destruct (v !! k') as [s|] eqn:E; [|by destruct (acc !! k') as [s|] eqn:E'; [rewrite (Hacc _ _ E') in E|]].
      rewrite bool_decide_false by eauto. done.
    - rewrite bool_decide_true by done. rewrite Hn. destruct (acc !! k') as [s|] eqn:E'; [|done]. by rewrite (Hacc _ _ E') in Hn. }
  rewrite IH.
  - rewrite Hadd. destruct (decide (k ∈ names)), (decide (k ∈ n :: names)), (decide (n = k)); set_solver.
  - intros k' s. rewrite Hadd. destruct (decide (n = k')); [done|apply Hacc].
Qed.

Lemma values_ext (v : checksum.Values) (g : string -> option string) :
  values_ok v -> (forall n, g n = v !! n \/ (v !! n = None /\ g n = Some "")) ->
  fold_left addChecksum (map (fun n => (n, g n)) algorithm_names) ∅ = v.
Proof.
  intros Hv Hg. apply map_eq. intros k.
  rewrite (addChecksums_from v g algorithm_names (fun n s H => proj2 (Hv n s H)) Hg) by (intros ? ? H; discriminate H).
  destruct (decide (k ∈ algorithm_names)) as [|Hn]; [done|]. change (None = v !! k). destruct (v !! k) as [s|] eqn:E; [|done].
  destruct (Hv _ _ E). done.
Qed.

Lemma checksumPtr_ok v n : values_ok v -> checksumPtr v n = v !! n.
Proof.
  intros Hv. unfold checksumPtr, opt. destruct (v !! n) as [s|] eqn:E; [|done]. destruct (Hv _ _ E). by rewrite bool_decide_false.
Qed.

Lemma checksumsFrom_set v : values_ok v -> checksumsFrom (setChecksums v) = v.
Proof.
  intros Hv. change (checksumsFrom (setChecksums v)) with (fold_left addChecksum (map (fun n => (n, checksumPtr v n)) algorithm_names) ∅).
  apply values_ext; [done|]. intros n. left. by apply checksumPtr_ok.
Qed.

Lemma checksumsFromXML_xml v : values_ok v -> checksumsFromXML (xmlChecksums v) = v.
Proof.
  intros Hv. change (checksumsFromXML (xmlChecksums v)) with (fold_left addChecksum (map (fun n => (n, Some (vget v n))) algorithm_names) ∅).
  apply values_ext; [done|]. intros n. unfold vget. destruct (v !! n); [by left|by right].
Qed.

Lemma FromHeaders_ok h : values_ok (checksum.FromHeaders h).
Proof.
  unfold checksum.FromHeaders. assert (forall l (v : checksum.Values), (forall a, a ∈ l -> checksum.Name a ∈ algorithm_names) -> values_ok v ->
    values_ok (fold_left (fun (v : checksum.Values) a =>
      let s := http.HGet h (checksum.Header a) in if bool_decide (s = "") then v else <[checksum.Name a := s]> v) l v)) as H.
  { induction l as [|a l IH]; intros v Hl Hv; [done|]. cbn [fold_left]. apply IH; [set_solver|].
    case_bool_decide as E; [done|]. unfold values_ok, checksum.Values in *. intros n s Hn. destruct (decide (checksum.Name a = n)) as [<-|Hne].
    - rewrite lookup_insert_eq in Hn. injection Hn as <-. split; [apply Hl; set_solver|done].
    - rewrite lookup_insert_ne in Hn by done. by apply Hv. }
  apply H; [|intros n s Hn; discriminate Hn].
  intros a Ha. apply (list_elem_of_fmap_2 checksum.Name) in Ha. exact Ha.
Qed.

(** Checksums survive the conversions: the values a client sends in its
    headers are read back unchanged from the SDK input they are set on, and
    from the XML elements they are written as. *)
Theorem checksums_roundtrip h :
  checksumsFrom (setChecksums (checksum.FromHeaders h)) = checksum.FromHeaders h /\
  checksumsFromXML (xmlChecksums (checksum.FromHeaders h)) = checksum.FromHeaders h.
Proof. split; [apply checksumsFrom_set|apply checksumsFromXML_xml]; apply FromHeaders_ok. Qed.
