(* ===== verification/Multipart.v ===== *)
(** * Multipart uploads and copies (src/s3gw/multipart.go, src/s3gw/copy.go) *)

From S2P Require Import Prelude Unicode GoStrings GoNet GoTime GoError JSON XML Policy Verifier Checksum Chunked Store Authorize Catalog Headers Addressing Routing Body S3XML Sdk Proxy.
Import headers addressing sdk s3xml proxy.

Open Scope Z_scope.

Module multipart.

Section Handlers.
Context (c : ctx).

#[local] Notation query := (query c).
#[local] Notation cfg := (cfg c).
#[local] Notation key := (key c).
#[local] Notation path := (path c).

(** The upload a request names. *)
Definition upload_id : string := url.Get query routing.qpUploadID.

(** ** Uploads *)

Definition createMultipartUpload : handler unit :=
  alg ← lift (checksumAlgorithm (cchecksums c) (hdr c));
  '(sse, kmsKey) ← applySSE c;
  let '(lockMode, lockUntil, lockHold) := applyObjectLockHeaders c in
  a ← invoke (CreateMultipartUpload
    {| CreateMultipartUploadInput_Bucket := backend_bucket c; CreateMultipartUploadInput_Key := key;
       CreateMultipartUploadInput_ContentType := opt (attr c "Content-Type"); CreateMultipartUploadInput_CacheControl := opt (attr c "Cache-Control");
       CreateMultipartUploadInput_ContentDisposition := opt (attr c "Content-Disposition");
       CreateMultipartUploadInput_ContentEncoding := opt (body.contentEncodingWithoutAWSChunked (attr c "Content-Encoding"));
       CreateMultipartUploadInput_ContentLanguage := opt (attr c "Content-Language");
       CreateMultipartUploadInput_Expires := opt_time c (attr c "Expires");
       CreateMultipartUploadInput_StorageClass := backendStorageClass c (signed c hdrStorageClass) SizeUnknown;
       CreateMultipartUploadInput_Tagging := opt (signed c hdrTagging); CreateMultipartUploadInput_ObjectLockMode := lockMode;
       CreateMultipartUploadInput_ObjectLockRetainUntilDate := lockUntil; CreateMultipartUploadInput_ObjectLockLegalHoldStatus := lockHold;
       CreateMultipartUploadInput_Metadata := AmzMeta (hdr c); CreateMultipartUploadInput_ChecksumAlgorithm := alg;
       CreateMultipartUploadInput_ChecksumType := strings.ToUpper (signed c "x-amz-checksum-type");
       CreateMultipartUploadInput_ServerSideEncryption := sse; CreateMultipartUploadInput_SSEKMSKeyId := kmsKey |});
  out ← or_fail path a;
  _ ← setResponse {| oSSE := CreateMultipartUploadOutput_ServerSideEncryption out;
        oSSEKMSKeyID := toString (CreateMultipartUploadOutput_SSEKMSKeyId out); oStorageClass := ""; oMetadata := ∅; oETag := ""; oVersionID := "" |};
  _ ← set_opt "x-amz-checksum-algorithm" (opt (reportAlgorithm (cchecksums c) (CreateMultipartUploadOutput_ChecksumAlgorithm out)));
  _ ← set_opt "x-amz-checksum-type" (opt (CreateMultipartUploadOutput_ChecksumType out));
  _ ← upd_header (fun h => setSSEHeaders h (CreateMultipartUploadOutput_ServerSideEncryption out)
                             (client_kms c (CreateMultipartUploadOutput_SSEKMSKeyId out)));
  Write (InitiateMultipartUploadResult_xml
    {| InitiateMultipartUploadResult_XMLNS := Namespace; InitiateMultipartUploadResult_Bucket := store.Name cfg;
       InitiateMultipartUploadResult_Key := key; InitiateMultipartUploadResult_UploadID := toString (CreateMultipartUploadOutput_UploadId out) |}).

Definition part_number : handler Z :=
  match strconv.ParseInt (url.Get query "partNumber") 10 32 with
  | Some n => mret n
  | None => fail (not_an_integer "partNumber")
  end.

Definition uploadPart : handler unit :=
  n ← part_number;
  '(b, length) ← requestBody c;
  md5v ← lift (body.contentMD5Header (hdr c));
  let cs := checksum.FromHeaders (http.Header_ (creq c)) in
  a ← invoke (UploadPart
    {| UploadPartInput_Bucket := backend_bucket c; UploadPartInput_Key := key; UploadPartInput_UploadId := upload_id;
       UploadPartInput_PartNumber := n; UploadPartInput_ContentLength := Some length; UploadPartInput_ContentMD5 := md5v;
       UploadPartInput_Checksum := setChecksums cs; UploadPartInput_ChecksumAlgorithm := upload_algorithm c cs |} (Request b));
  out ← or_fail path a;
  _ ← set_opt "ETag" (UploadPartOutput_ETag out);
  _ ← upd_header (fun h => setSSEHeaders h (UploadPartOutput_ServerSideEncryption out) (client_kms c (UploadPartOutput_SSEKMSKeyId out)));
  _ ← setChecksumHeaders c (checksumsFrom (UploadPartOutput_Checksum out)) "";
  write_header 200.

Definition completed_part (acc : list CompletedPart) (p : CompletePart) : handler (list CompletedPart) :=
  let cs := checksumsFromXML (CompletePart_Checksums p) in
  _ ← lift (checkChecksums (cchecksums c) cs);
  mret (acc ++ [{| CompletedPart_PartNumber := CompletePart_PartNumber p; CompletedPart_ETag := CompletePart_ETag p;
                   CompletedPart_Checksum := setChecksums cs |}]).

Definition completeMultipartUpload : handler unit :=
  req ← readXMLBody c (dComplete (cdec c));
  if (length (CompleteMultipartUploadRequest_Parts req) =? 0)%nat
  then fail (s3err.New 400 "InvalidRequest" [FS "You must specify at least one part"])
  else
    parts ← for_each completed_part [] (CompleteMultipartUploadRequest_Parts req);
    let size := signed c "x-amz-mp-object-size" in
    a ← invoke (CompleteMultipartUpload
      {| CompleteMultipartUploadInput_Bucket := backend_bucket c; CompleteMultipartUploadInput_Key := key;
         CompleteMultipartUploadInput_UploadId := upload_id; CompleteMultipartUploadInput_Parts := parts;
         CompleteMultipartUploadInput_IfMatch := opt (attr c "If-Match"); CompleteMultipartUploadInput_IfNoneMatch := opt (attr c "If-None-Match");
         CompleteMultipartUploadInput_ChecksumType := strings.ToUpper (signed c "x-amz-checksum-type");
         CompleteMultipartUploadInput_Checksum := setChecksums (checksum.FromHeaders (http.Header_ (creq c)));
         CompleteMultipartUploadInput_MpuObjectSize := if bool_decide (size = "") then None else strconv.ParseInt size 10 64 |});
    out ← or_fail path a;
    _ ← setResponse {| oSSE := CompleteMultipartUploadOutput_ServerSideEncryption out;
          oSSEKMSKeyID := toString (CompleteMultipartUploadOutput_SSEKMSKeyId out); oStorageClass := ""; oMetadata := ∅;
          oETag := toString (CompleteMultipartUploadOutput_ETag out); oVersionID := toString (CompleteMultipartUploadOutput_VersionId out) |};
    _ ← set_opt "x-amz-version-id" (CompleteMultipartUploadOutput_VersionId out);
    _ ← upd_header (fun h => setSSEHeaders h (CompleteMultipartUploadOutput_ServerSideEncryption out)
                               (client_kms c (CompleteMultipartUploadOutput_SSEKMSKeyId out)));
    Write (CompleteMultipartUploadResult_xml
      {| CompleteMultipartUploadResult_XMLNS := Namespace;
         CompleteMultipartUploadResult_Location := objectURL (ctls c) (http.Host (creq c)) (ctarget c) key;
         CompleteMultipartUploadResult_Bucket := store.Name cfg; CompleteMultipartUploadResult_Key := key;
         CompleteMultipartUploadResult_ETag := toString (CompleteMultipartUploadOutput_ETag out);
         CompleteMultipartUploadResult_Checksums := reportChecksums c (checksumsFrom (CompleteMultipartUploadOutput_Checksum out));
         CompleteMultipartUploadResult_ChecksumType := CompleteMultipartUploadOutput_ChecksumType out |}).

Definition abortMultipartUpload : handler unit :=
  a ← invoke (AbortMultipartUpload
    {| AbortMultipartUploadInput_Bucket := backend_bucket c; AbortMultipartUploadInput_Key := key; AbortMultipartUploadInput_UploadId := upload_id |});
  _ ← or_fail path a;
  write_header 204.

Definition part_entry (p : SdkPart) : Part :=
  {| Part_PartNumber := toInt (SdkPart_PartNumber p); Part_LastModified := format_time (SdkPart_LastModified p);
     Part_ETag := toString (SdkPart_ETag p); Part_Size := toInt (SdkPart_Size p);
     Part_Checksums := reportChecksums c (checksumsFrom (SdkPart_Checksum p)) |}.

Definition listParts : handler unit :=
  maxParts ← int32_param (url.Get query "max-parts") (not_an_integer "max-parts");
  a ← invoke (ListParts
    {| ListPartsInput_Bucket := backend_bucket c; ListPartsInput_Key := key; ListPartsInput_UploadId := upload_id;
       ListPartsInput_MaxParts := maxParts; ListPartsInput_PartNumberMarker := opt (url.Get query "part-number-marker") |});
  out ← or_fail path a;
  let owner := Some (tenantOwner (store.Tenant cfg)) in
  Write (ListPartsResult_xml
    {| ListPartsResult_XMLNS := Namespace; ListPartsResult_Bucket := store.Name cfg; ListPartsResult_Key := key;
       ListPartsResult_UploadID := upload_id; ListPartsResult_PartNumberMarker := toString (ListPartsOutput_PartNumberMarker out);
       ListPartsResult_NextPartNumberMarker := toString (ListPartsOutput_NextPartNumberMarker out);
       ListPartsResult_MaxParts := toInt (ListPartsOutput_MaxParts out); ListPartsResult_IsTruncated := toBool (ListPartsOutput_IsTruncated out);
       ListPartsResult_Parts := map part_entry (ListPartsOutput_Parts out); ListPartsResult_Initiator := owner; ListPartsResult_Owner := owner;
       ListPartsResult_StorageClass := clientStorageClass c (ListPartsOutput_StorageClass out);
       ListPartsResult_ChecksumAlgorithm := reportAlgorithm (cchecksums c) (ListPartsOutput_ChecksumAlgorithm out);
       ListPartsResult_ChecksumType := ListPartsOutput_ChecksumType out |}).

Definition upload_entry (owner : option Owner) (u : MultipartUpload) : Upload :=
  {| Upload_Key := toString (MultipartUpload_Key u); Upload_UploadID := toString (MultipartUpload_UploadId u);
     Upload_Initiator := owner; Upload_Owner := owner; Upload_StorageClass := clientStorageClass c (MultipartUpload_StorageClass u);
     Upload_Initiated := format_time (MultipartUpload_Initiated u);
     Upload_ChecksumAlgorithm := reportAlgorithm (cchecksums c) (MultipartUpload_ChecksumAlgorithm u);
     Upload_ChecksumType := MultipartUpload_ChecksumType u |}.

Definition listMultipartUploads : handler unit :=
  maxUploads ← int32_param (url.Get query "max-uploads") (not_an_integer "max-uploads");
  a ← invoke (ListMultipartUploads
    {| ListMultipartUploadsInput_Bucket := backend_bucket c; ListMultipartUploadsInput_Prefix := opt (url.Get query "prefix");
       ListMultipartUploadsInput_Delimiter := opt (url.Get query "delimiter");
       ListMultipartUploadsInput_KeyMarker := opt (url.Get query "key-marker");
       ListMultipartUploadsInput_UploadIdMarker := opt (url.Get query "upload-id-marker");
       ListMultipartUploadsInput_MaxUploads := maxUploads; ListMultipartUploadsInput_EncodingType := url.Get query "encoding-type" |});
  out ← or_fail path a;
  let owner := Some (tenantOwner (store.Tenant cfg)) in
  Write (ListMultipartUploadsResult_xml
    {| ListMultipartUploadsResult_XMLNS := Namespace; ListMultipartUploadsResult_Bucket := store.Name cfg;
       ListMultipartUploadsResult_KeyMarker := toString (ListMultipartUploadsOutput_KeyMarker out);
       ListMultipartUploadsResult_UploadIDMarker := toString (ListMultipartUploadsOutput_UploadIdMarker out);
       ListMultipartUploadsResult_NextKeyMarker := toString (ListMultipartUploadsOutput_NextKeyMarker out);
       ListMultipartUploadsResult_NextUploadIDMarker := toString (ListMultipartUploadsOutput_NextUploadIdMarker out);
       ListMultipartUploadsResult_Delimiter := toString (ListMultipartUploadsOutput_Delimiter out);
       ListMultipartUploadsResult_Prefix := toString (ListMultipartUploadsOutput_Prefix out);
       ListMultipartUploadsResult_MaxUploads := toInt (ListMultipartUploadsOutput_MaxUploads out);
       ListMultipartUploadsResult_IsTruncated := toBool (ListMultipartUploadsOutput_IsTruncated out);
       ListMultipartUploadsResult_Uploads := map (upload_entry owner) (ListMultipartUploadsOutput_Uploads out);
       ListMultipartUploadsResult_CommonPrefixes := common_prefixes (ListMultipartUploadsOutput_CommonPrefixes out) |}).

(** ** Copies *)

Definition copyObject : handler unit :=
  alg ← lift (checksumAlgorithm (cchecksums c) (hdr c));
  '(sse, kmsKey) ← applySSE c;
  let '(lockMode, lockUntil, lockHold) := applyObjectLockHeaders c in
  a ← invoke (CopyObject
    {| CopyObjectInput_Bucket := backend_bucket c; CopyObjectInput_Key := key; CopyObjectInput_CopySource := copySource c;
       CopyObjectInput_MetadataDirective := signed c "x-amz-metadata-directive"; CopyObjectInput_ContentType := opt (attr c "Content-Type");
       CopyObjectInput_StorageClass := backendStorageClass c (signed c hdrStorageClass) SizeUnknown;
       CopyObjectInput_ChecksumAlgorithm := alg; CopyObjectInput_TaggingDirective := signed c "x-amz-tagging-directive";
       CopyObjectInput_Tagging := opt (signed c hdrTagging); CopyObjectInput_ObjectLockMode := lockMode;
       CopyObjectInput_ObjectLockRetainUntilDate := lockUntil; CopyObjectInput_ObjectLockLegalHoldStatus := lockHold;
       CopyObjectInput_Metadata := AmzMeta (hdr c); CopyObjectInput_CopySourceIfMatch := opt (signed c "x-amz-copy-source-if-match");
       CopyObjectInput_CopySourceIfNoneMatch := opt (signed c "x-amz-copy-source-if-none-match");
       CopyObjectInput_CopySourceIfModifiedSince := opt_time c (signed c "x-amz-copy-source-if-modified-since");
       CopyObjectInput_CopySourceIfUnmodifiedSince := opt_time c (signed c "x-amz-copy-source-if-unmodified-since");
       CopyObjectInput_ServerSideEncryption := sse; CopyObjectInput_SSEKMSKeyId := kmsKey |});
  out ← or_fail path a;
  _ ← setResponse {| oSSE := CopyObjectOutput_ServerSideEncryption out; oSSEKMSKeyID := toString (CopyObjectOutput_SSEKMSKeyId out);
        oStorageClass := ""; oMetadata := ∅; oETag := match CopyObjectOutput_Result out with Some cr => toString (CopyResult_ETag cr) | None => "" end;
        oVersionID := toString (CopyObjectOutput_VersionId out) |};
  _ ← set_opt "x-amz-version-id" (CopyObjectOutput_VersionId out);
  _ ← upd_header (fun h => setSSEHeaders h (CopyObjectOutput_ServerSideEncryption out) (client_kms c (CopyObjectOutput_SSEKMSKeyId out)));
  _ ← set_opt "x-amz-copy-source-version-id" (CopyObjectOutput_CopySourceVersionId out);
  Write (CopyObjectResult_xml
    (match CopyObjectOutput_Result out with
     | Some cr => {| CopyObjectResult_XMLNS := Namespace; CopyObjectResult_ETag := toString (CopyResult_ETag cr);
                     CopyObjectResult_LastModified := format_time (CopyResult_LastModified cr);
                     CopyObjectResult_ChecksumType := CopyResult_ChecksumType cr;
                     CopyObjectResult_Checksums := reportChecksums c (checksumsFrom (CopyResult_Checksum cr)) |}
     | None => {| CopyObjectResult_XMLNS := Namespace; CopyObjectResult_ETag := ""; CopyObjectResult_LastModified := "";
                  CopyObjectResult_ChecksumType := ""; CopyObjectResult_Checksums := xmlChecksums ∅ |}
     end)).

Definition uploadPartCopy : handler unit :=
  n ← part_number;
  a ← invoke (UploadPartCopy
    {| UploadPartCopyInput_Bucket := backend_bucket c; UploadPartCopyInput_Key := key; UploadPartCopyInput_UploadId := upload_id;
       UploadPartCopyInput_PartNumber := n; UploadPartCopyInput_CopySource := copySource c;
       UploadPartCopyInput_CopySourceRange := opt (signed c "x-amz-copy-source-range") |});
  out ← or_fail path a;
  _ ← set_opt "x-amz-copy-source-version-id" (UploadPartCopyOutput_CopySourceVersionId out);
  _ ← upd_header (fun h => setSSEHeaders h (UploadPartCopyOutput_ServerSideEncryption out) (client_kms c (UploadPartCopyOutput_SSEKMSKeyId out)));
  Write (CopyPartResult_xml
    (match UploadPartCopyOutput_Result out with
     | Some cr => {| CopyPartResult_XMLNS := Namespace; CopyPartResult_ETag := toString (CopyResult_ETag cr);
                     CopyPartResult_LastModified := format_time (CopyResult_LastModified cr);
                     CopyPartResult_Checksums := reportChecksums c (checksumsFrom (CopyResult_Checksum cr)) |}
     | None => {| CopyPartResult_XMLNS := Namespace; CopyPartResult_ETag := ""; CopyPartResult_LastModified := "";
                  CopyPartResult_Checksums := xmlChecksums ∅ |}
     end)).

End Handlers.

End multipart.
