(* ===== verification/Objects.v ===== *)
(** * The other operations (src/s3gw/tagging.go, versioning.go, objectlock.go,
      objectattributes.go, bucketconfig.go, acl.go, cors.go, and
      getBucketPolicy of bucketpolicy.go), and the handler of every route *)

From S2P Require Import Prelude Unicode GoStrings GoNet GoTime GoError JSON XML Policy Verifier Checksum Chunked Cors Store Authorize Catalog Headers Addressing Routing Body S3XML Sdk Proxy Multipart.
Import headers addressing sdk s3xml proxy multipart.

Open Scope Z_scope.

Module objects.

Section Handlers.
Context (c : ctx).

#[local] Notation query := (query c).
#[local] Notation cfg := (cfg c).
#[local] Notation key := (key c).
#[local] Notation path := (path c).

Definition versioned_input : ObjectVersionInput :=
  {| ObjectVersionInput_Bucket := backend_bucket c; ObjectVersionInput_Key := key; ObjectVersionInput_VersionId := version_param c |}.

(** ** Tagging *)

Definition getObjectTagging : handler unit :=
  a ← invoke (GetObjectTagging versioned_input);
  out ← or_fail path a;
  _ ← set_opt "x-amz-version-id" (GetObjectTaggingOutput_VersionId out);
  Write (Tagging_xml {| Tagging_XMLNS := Namespace; Tagging_TagSet := {| TagSet_Tags :=
    map (fun t => {| s3xml.Tag_Key := toString (sdk.Tag_Key t); s3xml.Tag_Value := toString (sdk.Tag_Value t) |}) (GetObjectTaggingOutput_TagSet out) |} |}).

Definition putObjectTagging : handler unit :=
  req ← readXMLBody c (dTagging (cdec c));
  a ← invoke (PutObjectTagging
    {| PutObjectTaggingInput_Bucket := backend_bucket c; PutObjectTaggingInput_Key := key;
       PutObjectTaggingInput_TagSet :=
         map (fun t => {| sdk.Tag_Key := Some (s3xml.Tag_Key t); sdk.Tag_Value := Some (s3xml.Tag_Value t) |}) (TagSet_Tags (Tagging_TagSet req));
       PutObjectTaggingInput_VersionId := version_param c |});
  v ← or_fail path a;
  _ ← set_opt "x-amz-version-id" v;
  write_header 200.

Definition deleteObjectTagging : handler unit :=
  a ← invoke (DeleteObjectTagging versioned_input);
  v ← or_fail path a;
  _ ← set_opt "x-amz-version-id" v;
  write_header 204.

(** ** Versioning *)

Definition getBucketVersioning : handler unit :=
  a ← invoke (GetBucketVersioning (backend_bucket c));
  status ← or_fail path a;
  Write (VersioningConfiguration_xml {| VersioningConfiguration_XMLNS := Namespace; VersioningConfiguration_Status := status |}).

Definition version_entry (owner : option Owner) (v : SdkObjectVersion) : ObjectVersion :=
  {| ObjectVersion_Key := toString (SdkObjectVersion_Key v); ObjectVersion_VersionID := toString (SdkObjectVersion_VersionId v);
     ObjectVersion_IsLatest := toBool (SdkObjectVersion_IsLatest v); ObjectVersion_LastModified := format_time (SdkObjectVersion_LastModified v);
     ObjectVersion_ETag := toString (SdkObjectVersion_ETag v);
     ObjectVersion_ChecksumAlgorithm := reportAlgorithms (cchecksums c) (SdkObjectVersion_ChecksumAlgorithm v);
     ObjectVersion_ChecksumType := SdkObjectVersion_ChecksumType v; ObjectVersion_Size := toInt (SdkObjectVersion_Size v);
     ObjectVersion_StorageClass := clientStorageClass c (SdkObjectVersion_StorageClass v); ObjectVersion_Owner := owner |}.

Definition marker_entry (owner : option Owner) (d : SdkDeleteMarker) : DeleteMarkerEntry :=
  {| DeleteMarkerEntry_Key := toString (SdkDeleteMarker_Key d); DeleteMarkerEntry_VersionID := toString (SdkDeleteMarker_VersionId d);
     DeleteMarkerEntry_IsLatest := toBool (SdkDeleteMarker_IsLatest d);
     DeleteMarkerEntry_LastModified := format_time (SdkDeleteMarker_LastModified d); DeleteMarkerEntry_Owner := owner |}.

Definition listObjectVersions : handler unit :=
  maxKeys ← int32_param (url.Get query "max-keys") (not_an_integer "max-keys");
  a ← invoke (ListObjectVersions
    {| ListObjectVersionsInput_Bucket := backend_bucket c; ListObjectVersionsInput_Prefix := opt (url.Get query "prefix");
       ListObjectVersionsInput_Delimiter := opt (url.Get query "delimiter"); ListObjectVersionsInput_KeyMarker := opt (url.Get query "key-marker");
       ListObjectVersionsInput_VersionIdMarker := opt (url.Get query "version-id-marker"); ListObjectVersionsInput_MaxKeys := maxKeys;
       ListObjectVersionsInput_EncodingType := url.Get query "encoding-type" |});
  out ← or_fail path a;
  let owner := Some (tenantOwner (store.Tenant cfg)) in
  Write (ListVersionsResult_xml
    {| ListVersionsResult_XMLNS := Namespace; ListVersionsResult_Name := store.Name cfg;
       ListVersionsResult_Prefix := toString (ListObjectVersionsOutput_Prefix out);
       ListVersionsResult_KeyMarker := toString (ListObjectVersionsOutput_KeyMarker out);
       ListVersionsResult_VersionIDMarker := toString (ListObjectVersionsOutput_VersionIdMarker out);
       ListVersionsResult_NextKeyMarker := toString (ListObjectVersionsOutput_NextKeyMarker out);
       ListVersionsResult_NextVersionIDMarker := toString (ListObjectVersionsOutput_NextVersionIdMarker out);
       ListVersionsResult_MaxKeys := toInt (ListObjectVersionsOutput_MaxKeys out);
       ListVersionsResult_Delimiter := toString (ListObjectVersionsOutput_Delimiter out);
       ListVersionsResult_EncodingType := ListObjectVersionsOutput_EncodingType out;
       ListVersionsResult_IsTruncated := toBool (ListObjectVersionsOutput_IsTruncated out);
       ListVersionsResult_Versions := map (version_entry owner) (ListObjectVersionsOutput_Versions out);
       ListVersionsResult_DeleteMarkers := map (marker_entry owner) (ListObjectVersionsOutput_DeleteMarkers out);
       ListVersionsResult_CommonPrefixes := common_prefixes (ListObjectVersionsOutput_CommonPrefixes out) |}).

(** ** Object Lock *)

Definition lock_rule (l : SdkObjectLockConfiguration) : option ObjectLockRule :=
  match SdkObjectLockConfiguration_DefaultRetention l with
  | Some (Some dr) =>
    Some {| ObjectLockRule_DefaultRetention := Some {| DefaultRetention_Mode := SdkDefaultRetention_Mode dr;
              DefaultRetention_Days := toInt (SdkDefaultRetention_Days dr); DefaultRetention_Years := toInt (SdkDefaultRetention_Years dr) |} |}
  | _ => None
  end.

Definition getObjectLockConfiguration : handler unit :=
  a ← invoke (GetObjectLockConfiguration (backend_bucket c));
  out ← or_fail path a;
  Write (ObjectLockConfiguration_xml
    {| ObjectLockConfiguration_XMLNS := Namespace;
       ObjectLockConfiguration_ObjectLockEnabled := match out with Some l => SdkObjectLockConfiguration_ObjectLockEnabled l | None => "" end;
       ObjectLockConfiguration_Rule := match out with Some l => lock_rule l | None => None end |}).

Definition getObjectRetention : handler unit :=
  a ← invoke (GetObjectRetention versioned_input);
  out ← or_fail path a;
  Write (ObjectLockRetention_xml
    {| ObjectLockRetention_XMLNS := Namespace;
       ObjectLockRetention_Mode := match out with Some r => SdkRetention_Mode r | None => "" end;
       ObjectLockRetention_RetainUntilDate :=
         match out with Some r => match SdkRetention_RetainUntilDate r with Some t => time.FormatMillis t | None => "" end | None => "" end |}).

(** The date of a retention: with milliseconds, or any RFC 3339 one. *)
Definition parse_retain_until (s : string) : option Z :=
  match time.ParseMillis s with Some t => Some t | None => time.ParseRFC3339 s end.

Definition putObjectRetention : handler unit :=
  req ← readXMLBody c (dRetention (cdec c));
  let date := ObjectLockRetention_RetainUntilDate req in
  until ← (if bool_decide (date = "") then mret None
    else match parse_retain_until date with
         | Some t => mret (Some t)
         | None => fail (s3err.New 400 "InvalidRequest" [FS "invalid RetainUntilDate"])
         end);
  a ← invoke (PutObjectRetention
    {| PutObjectRetentionInput_Bucket := backend_bucket c; PutObjectRetentionInput_Key := key;
       PutObjectRetentionInput_Mode := ObjectLockRetention_Mode req; PutObjectRetentionInput_RetainUntilDate := until;
       PutObjectRetentionInput_VersionId := version_param c;
       PutObjectRetentionInput_BypassGovernanceRetention := if bypassGovernanceRetention (hdr c) then Some true else None |});
  _ ← or_fail path a;
  write_header 200.

Definition getObjectLegalHold : handler unit :=
  a ← invoke (GetObjectLegalHold versioned_input);
  out ← or_fail path a;
  Write (ObjectLockLegalHold_xml {| ObjectLockLegalHold_XMLNS := Namespace; ObjectLockLegalHold_Status := toString out |}).

Definition putObjectLegalHold : handler unit :=
  req ← readXMLBody c (dLegalHold (cdec c));
  a ← invoke (PutObjectLegalHold
    {| PutObjectLegalHoldInput_Bucket := backend_bucket c; PutObjectLegalHoldInput_Key := key;
       PutObjectLegalHoldInput_Status := ObjectLockLegalHold_Status req; PutObjectLegalHoldInput_VersionId := version_param c |});
  _ ← or_fail path a;
  write_header 200.

(** ** GetObjectAttributes *)

Definition objectAttributesFromHeader (hd : signedHeader) : list string :=
  filter (fun p => p <> "") (concat (map (fun v => map strings.TrimSpace (strings.Split v ",")) (SignedValues hd "x-amz-object-attributes"))).

Definition attribute_part (p : ObjectPart) : ObjectAttributePart :=
  {| ObjectAttributePart_PartNumber := toInt (ObjectPart_PartNumber p); ObjectAttributePart_Size := toInt (ObjectPart_Size p);
     ObjectAttributePart_Checksums := reportChecksums c (checksumsFrom (ObjectPart_Checksum p)) |}.

Definition getObjectAttributes : handler unit :=
  let attrs := objectAttributesFromHeader (hdr c) in
  if (length attrs =? 0)%nat
  then fail (s3err.New 400 "InvalidArgument" [FS "The x-amz-object-attributes header specifying the attributes to be retrieved is required."])
  else
    maxParts ← int32_param (signed c "x-amz-max-parts")
      (s3err.WithCause (s3err.New 400 "InvalidArgument" [FS "x-amz-max-parts must be an integer"]) (Text []));
    a ← invoke (GetObjectAttributes
      {| GetObjectAttributesInput_Bucket := backend_bucket c; GetObjectAttributesInput_Key := key;
         GetObjectAttributesInput_ObjectAttributes := attrs; GetObjectAttributesInput_VersionId := version_param c;
         GetObjectAttributesInput_MaxParts := maxParts;
         GetObjectAttributesInput_PartNumberMarker := opt (signed c "x-amz-part-number-marker") |});
    out ← or_relay c a;
    _ ← setResponse {| oSSE := ""; oSSEKMSKeyID := ""; oStorageClass := GetObjectAttributesOutput_StorageClass out; oMetadata := ∅;
          oETag := toString (GetObjectAttributesOutput_ETag out); oVersionID := toString (GetObjectAttributesOutput_VersionId out) |};
    _ ← set_opt "Last-Modified" (time.FormatHTTP <$> GetObjectAttributesOutput_LastModified out);
    _ ← set_opt "x-amz-version-id" (GetObjectAttributesOutput_VersionId out);
    _ ← (if toBool (GetObjectAttributesOutput_DeleteMarker out) then set "x-amz-delete-marker" "true" else mret tt);
    Write (GetObjectAttributesResult_xml
      {| GetObjectAttributesResult_XMLNS := Namespace;
         GetObjectAttributesResult_ETag :=
           match GetObjectAttributesOutput_ETag out with Some e => strings.Trim e ["034"%char] | None => "" end;
         GetObjectAttributesResult_Checksum := (fun cs =>
           {| AttributesChecksum_Checksums := reportChecksums c (checksumsFrom (SdkChecksum_Checksum cs));
              AttributesChecksum_ChecksumType := SdkChecksum_ChecksumType cs |}) <$> GetObjectAttributesOutput_Checksum out;
         GetObjectAttributesResult_ObjectParts := (fun op =>
           {| ObjectAttributeParts_IsTruncated := toBool (SdkObjectParts_IsTruncated op); ObjectAttributeParts_MaxParts := SdkObjectParts_MaxParts op;
              ObjectAttributeParts_NextPartNumberMarker := toString (SdkObjectParts_NextPartNumberMarker op);
              ObjectAttributeParts_PartNumberMarker := toString (SdkObjectParts_PartNumberMarker op);
              ObjectAttributeParts_PartsCount := SdkObjectParts_TotalPartsCount op;
              ObjectAttributeParts_Parts := map attribute_part (SdkObjectParts_Parts op) |}) <$> GetObjectAttributesOutput_ObjectParts out;
         GetObjectAttributesResult_StorageClass := clientStorageClass c (GetObjectAttributesOutput_StorageClass out);
         GetObjectAttributesResult_ObjectSize := GetObjectAttributesOutput_ObjectSize out |}).

(** ** Bucket configuration *)

Definition getBucketPolicyStatus : handler unit :=
  Write (PolicyStatus_xml {| PolicyStatus_XMLNS := Namespace; PolicyStatus_IsPublic := false |}).

Definition getBucketOwnershipControls : handler unit :=
  Write (OwnershipControls_xml {| OwnershipControls_XMLNS := Namespace;
    OwnershipControls_Rules := [{| OwnershipControlsRule_ObjectOwnership := "BucketOwnerEnforced" |}] |}).

Definition getPublicAccessBlock : handler unit :=
  Write (PublicAccessBlockConfiguration_xml
    {| PublicAccessBlockConfiguration_XMLNS := Namespace; PublicAccessBlockConfiguration_BlockPublicAcls := true;
       PublicAccessBlockConfiguration_IgnorePublicAcls := true; PublicAccessBlockConfiguration_BlockPublicPolicy := true;
       PublicAccessBlockConfiguration_RestrictPublicBuckets := true |}).

Definition encryption_rule (r : SdkEncryptionRule) : ServerSideEncryptionRule :=
  {| ServerSideEncryptionRule_ApplyServerSideEncryptionByDefault := (fun d =>
       {| ServerSideEncryptionByDefault_SSEAlgorithm := SdkEncryptionDefault_SSEAlgorithm d;
          ServerSideEncryptionByDefault_KMSMasterKeyID := toString (client_kms c (SdkEncryptionDefault_KMSMasterKeyID d)) |}) <$>
       SdkEncryptionRule_Default r;
     ServerSideEncryptionRule_BucketKeyEnabled := SdkEncryptionRule_BucketKeyEnabled r |}.

Definition getBucketEncryption : handler unit :=
  a ← invoke (GetBucketEncryption (backend_bucket c));
  out ← or_fail path a;
  Write (ServerSideEncryptionConfiguration_xml
    {| ServerSideEncryptionConfiguration_XMLNS := Namespace;
       ServerSideEncryptionConfiguration_Rules := map encryption_rule (default [] out) |}).

(** ** ACLs *)

Definition ownerFullControlPolicy (owner : string) : AccessControlPolicy :=
  {| AccessControlPolicy_XMLNS := Namespace; AccessControlPolicy_Owner := tenantOwner owner;
     AccessControlPolicy_AccessControlList := {| AccessControlList_Grants :=
       [{| Grant_Grantee := {| Grantee_XMLNSXSI := "http://www.w3.org/2001/XMLSchema-instance"; Grantee_Type := "CanonicalUser";
                               Grantee_ID := owner; Grantee_DisplayName := owner |};
           Grant_Permission := "FULL_CONTROL" |}] |} |}.

Definition getBucketACL : handler unit := Write (AccessControlPolicy_xml (ownerFullControlPolicy (store.Tenant cfg))).

Definition getObjectACL : handler unit :=
  a ← invoke (HeadObject
    {| HeadObjectInput_Bucket := backend_bucket c; HeadObjectInput_Key := key; HeadObjectInput_IfMatch := None; HeadObjectInput_IfNoneMatch := None;
       HeadObjectInput_IfModifiedSince := None; HeadObjectInput_IfUnmodifiedSince := None; HeadObjectInput_Range := None;
       HeadObjectInput_VersionId := version_param c; HeadObjectInput_PartNumber := None; HeadObjectInput_ChecksumMode := "" |});
  _ ← or_fail path a;
  Write (AccessControlPolicy_xml (ownerFullControlPolicy (store.Tenant cfg))).

(** ** The bucket's own policy and CORS rules *)

Definition getBucketPolicy : handler unit :=
  if bool_decide (store.PolicyText cfg = "")
  then fail (s3err.New 404 "NoSuchBucketPolicy" [FS "The bucket policy does not exist"])
  else
    _ ← set "Content-Type" "application/json";
    _ ← write_header 200;
    write_body (Bytes (store.PolicyText cfg)).

Definition cors_rule (r : cors.Rule) : CORSRuleXML :=
  {| CORSRuleXML_AllowedOrigin := cors.AllowedOrigins r; CORSRuleXML_AllowedMethod := cors.AllowedMethods r;
     CORSRuleXML_AllowedHeader := cors.AllowedHeaders r; CORSRuleXML_ExposeHeader := cors.ExposeHeaders r;
     CORSRuleXML_MaxAgeSeconds := cors.MaxAgeSeconds r |}.

Definition getBucketCors : handler unit :=
  if (length (store.CORS cfg) =? 0)%nat
  then fail (s3err.New 404 "NoSuchCORSConfiguration" [FS "The CORS configuration does not exist"])
  else Write (CORSConfiguration_xml {| CORSConfiguration_XMLNS := Namespace; CORSConfiguration_Rules := map cors_rule (store.CORS cfg) |}).

(** ** Routes *)

Definition putObjectOrCopy : handler unit := if bool_decide (copySource c = "") then putObject c else copyObject c.
Definition uploadPartOrCopy : handler unit := if bool_decide (copySource c = "") then uploadPart c else uploadPartCopy c.

(** The handler of a route. *)
Definition serve (st : store.Store) (h : routing.handler) : handler unit :=
  match h with
  | routing.listMultipartUploads => listMultipartUploads c
  | routing.getBucketLocation => getBucketLocation c
  | routing.getBucketACL => getBucketACL
  | routing.getBucketPolicy => getBucketPolicy
  | routing.getBucketCors => getBucketCors
  | routing.getObjectLockConfiguration => getObjectLockConfiguration
  | routing.getBucketVersioning => getBucketVersioning
  | routing.getBucketEncryption => getBucketEncryption
  | routing.getBucketPolicyStatus => getBucketPolicyStatus
  | routing.getBucketOwnershipControls => getBucketOwnershipControls
  | routing.getPublicAccessBlock => getPublicAccessBlock
  | routing.listObjectVersions => listObjectVersions
  | routing.listObjectsV2 => listObjectsV2 c
  | routing.listObjectsV1 => listObjectsV1 c
  | routing.headBucket => headBucket c
  | routing.deleteObjects => deleteObjects c
  | routing.listParts => listParts c
  | routing.getObjectTagging => getObjectTagging
  | routing.getObjectACL => getObjectACL
  | routing.getObjectRetention => getObjectRetention
  | routing.getObjectLegalHold => getObjectLegalHold
  | routing.getObjectAttributes => getObjectAttributes
  | routing.getObject => getObject c
  | routing.headObject => headObject c
  | routing.putObjectTagging => putObjectTagging
  | routing.putObjectRetention => putObjectRetention
  | routing.putObjectLegalHold => putObjectLegalHold
  | routing.uploadPartOrCopy => uploadPartOrCopy
  | routing.putObjectOrCopy => putObjectOrCopy
  | routing.abortMultipartUpload => abortMultipartUpload c
  | routing.deleteObjectTagging => deleteObjectTagging
  | routing.deleteObject => deleteObject c
  | routing.createMultipartUpload => createMultipartUpload c
  | routing.completeMultipartUpload => completeMultipartUpload c
  | routing.listBuckets => listBuckets st (routing.vr (cop c)) query
  | routing.rejectACL => fail errACLNotSupported
  | routing.refuse what => fail (s3err.NotImplemented [FS what])
  end.

End Handlers.

(** ** Preflight requests *)

Definition corsNotAllowed : s3err.Error := s3err.New 403 "AccessForbidden" [FS "CORSResponse: This CORS request is not allowed."].

Definition handlePreflight (st : store.Store) (vhostSuffix : string) (r : http.Request) (h : http.Header) : result s3err.Error http.Header :=
  let origin := http.HGet (http.Header_ r) "Origin" in
  let method := http.HGet (http.Header_ r) "Access-Control-Request-Method" in
  if bool_decide (origin = "") || bool_decide (method = "")
  then Err (s3err.New 400 "BadRequest" [FS "Insufficient information. Origin request header needed."])
  else match requestTarget vhostSuffix r with
  | None => Err corsNotAllowed
  | Some t =>
    if bool_decide (tbucket t = "") then Err corsNotAllowed
    else match store.GetBucketByName st (tbucket t) with
    | Err err => if errors.Is err store.ErrNotFound then Err corsNotAllowed else Err (s3err.Internal err "bucket lookup failed")
    | Ok b =>
      match cors.AllowPreflight h (http.Header_ r) (store.CORS b) with
      | None => Err corsNotAllowed
      | Some h => Ok h
      end
    end
  end.

End objects.
