(* ===== verification/ServeFacts.v ===== *)
(** * What the handlers ask of the backend and tell the client

    Every call a handler makes, whatever the backend answers, is on the backend
    bucket and key of the request it serves; a multi-object delete sends
    exactly the entries the policies grant; the preconditions of a write are
    never dropped; and nothing that identifies the backend reaches the
    response. *)

From S2P Require Import Prelude Unicode GoStrings GoNet GoTime GoError JSON XML Policy PolicyFacts Verifier VerifierFacts Checksum Chunked Cors Store Authorize AuthorizeFacts Catalog Headers Addressing Routing Body BodyFacts S3XML Sdk Proxy Multipart Objects.
Import headers addressing sdk s3xml proxy multipart objects.

Open Scope Z_scope.

(** Splits a handler into its steps; what is left are the calls themselves. *)
Ltac confine :=
  repeat match goal with
  | |- confined _ (mbind _ _) => apply confined_bind; [|intros ?]
  | |- confined _ (_ ≫= _) => apply confined_bind; [|intros ?]
  | |- confined _ (invoke _) => apply confined_invoke
  | |- confined _ (for_each _ _ _) => apply confined_for_each; intros ? ?
  | |- confined _ (match ?x with _ => _ end) => destruct x
  | |- confined _ (if ?x then _ else _) => destruct x
  | |- confined _ (let _ := _ in _) => cbv zeta
  | |- confined _ _ => solve [eauto with confined]
  end.

(** The same, keeping what the steps without calls returned. *)
Ltac confine_eq :=
  repeat match goal with
  | |- confined _ (mbind _ (lift _)) => apply confined_lift_bind; intros ? ?
  | |- confined _ (mbind _ (mret _)) => apply confined_ret_bind
  | |- confined _ (mbind _ (fail _)) => apply confined_fail_bind
  | |- confined _ (mbind _ (match ?x with _ => _ end)) => destruct x eqn:?
  | |- confined _ (mbind _ _) => apply confined_bind; [|intros ?]
  | |- confined _ (invoke _) => apply confined_invoke
  | |- confined _ (match ?x with _ => _ end) => destruct x eqn:?
  | |- confined _ _ => solve [eauto with confined]
  end.

Section Helpers.
Context (P : forall X, call X -> Prop) (c : ctx).

Lemma confined_requestBody : confined P (requestBody c).
Proof. apply confined_lift. Qed.
Lemma confined_readXMLBody {A} (u : string -> option A) : confined P (readXMLBody c u).
Proof. unfold readXMLBody. confine. Qed.
Lemma confined_int32_param v e : confined P (int32_param v e).
Proof. unfold int32_param. confine. Qed.
Lemma confined_applyPartNumber : confined P (applyPartNumber c).
Proof. unfold applyPartNumber. cbv zeta. confine. Qed.
Lemma confined_or_relay {X} (a : answer X) : confined P (or_relay c a).
Proof. unfold or_relay, relayErrorHeaders. confine. Qed.
Lemma confined_applySSE : confined P (applySSE c).
Proof. apply confined_lift. Qed.
Lemma confined_setChecksumHeaders v t : confined P (setChecksumHeaders c v t).
Proof. apply confined_upd. Qed.
Lemma confined_part_number : confined P (part_number c).
Proof. unfold part_number. confine. Qed.
Lemma confined_identifier o : confined P (identifier c o).
Proof. unfold identifier. cbv zeta. confine. Qed.
Lemma confined_completed_part acc p : confined P (completed_part c acc p).
Proof. unfold completed_part. cbv zeta. confine. Qed.
Lemma confined_delete_entry check bypass d v b acc o : confined P (delete_entry c check bypass d v b acc o).
Proof. unfold delete_entry. confine; apply confined_identifier. Qed.
Lemma confined_listBuckets st who q : confined P (listBuckets st who q).
Proof. unfold listBuckets. cbv zeta. confine. Qed.

End Helpers.
#[export] Hint Resolve confined_requestBody confined_readXMLBody confined_int32_param confined_applyPartNumber confined_or_relay
  confined_applySSE confined_setChecksumHeaders confined_part_number confined_identifier confined_completed_part confined_delete_entry confined_listBuckets : confined.

(** ** DeleteObjects *)

(** An entry the policies grant: its delete action, and the bypass of
    governance retention when the request asks for it. *)
Definition entry_granted (c : ctx) (bypass : bool) (o : DeleteRequestObject) : Prop :=
  let resource := store.Name (cfg c) +:+ "/" +:+ DeleteRequestObject_Key o in
  granted (routing.vr (cop c)) (cfg c)
    (if bool_decide (DeleteRequestObject_VersionID o = "") then s3op.ActionDeleteObject else s3op.ActionDeleteObjectVersion) resource /\
  (bypass = true -> granted (routing.vr (cop c)) (cfg c) s3op.ActionBypassGovernanceRetention resource).

Lemma allowsEverything_pdenies a r : s3gw.allowsEverything a = true -> s3gw.pdenies a r = false.
Proof.
  unfold s3gw.allowsEverything, s3gw.pdenies. intros H. apply andb_true_iff in H as [H Ha]. apply andb_true_iff in H as [Hd Hr].
  apply negb_true_iff in Hd as ->. rewrite Hr. by apply AlwaysAllows_Denies.
Qed.

Section Delete.
Context (c : ctx) (bypass : bool).

#[local] Notation auth action := (s3gw.newPerObjectAuthorizer (routing.vr (cop c)) (cfg c) action).
#[local] Notation del := (auth s3op.ActionDeleteObject).
#[local] Notation ver := (auth s3op.ActionDeleteObjectVersion).
#[local] Notation byp := (auth s3op.ActionBypassGovernanceRetention).

Lemma refusing_granted o : policy_validated (cfg c) -> refusing c bypass del ver byp o = None <-> entry_granted c bypass o.
Proof.
  intros Hv. unfold refusing, entry_granted. cbv zeta.
  set (res := store.Name (cfg c) +:+ "/" +:+ DeleteRequestObject_Key o).
  pose proof (pdenies_granted (routing.vr (cop c)) (cfg c) s3op.ActionBypassGovernanceRetention res Hv) as Hb.
  set (plain := bool_decide (DeleteRequestObject_VersionID o = "")).
  assert (s3gw.pdenies (if plain then del else ver) res = false <->
          granted (routing.vr (cop c)) (cfg c) (if plain then s3op.ActionDeleteObject else s3op.ActionDeleteObjectVersion) res) as Ha
    by (destruct plain; by apply pdenies_granted).
  destruct (s3gw.pdenies (if plain then del else ver) res); [naive_solver|].
  destruct bypass; simpl; [|naive_solver]. destruct (s3gw.pdenies byp res); naive_solver.
Qed.

(** When no authorizer in use can refuse, none does. *)
Lemma unchecked_refusing entries o :
  let check := (existsb (fun o => bool_decide (DeleteRequestObject_VersionID o = "")) entries && negb (s3gw.allowsEverything del)) ||
               (existsb (fun o => negb (bool_decide (DeleteRequestObject_VersionID o = ""))) entries && negb (s3gw.allowsEverything ver)) ||
               (bypass && negb (s3gw.allowsEverything byp)) in
  check = false -> o ∈ entries -> refusing c bypass del ver byp o = None.
Proof.
  cbv zeta. intros H Hin. apply orb_false_iff in H as [H Hb]. apply orb_false_iff in H as [Hp Hver].
  assert (forall f, f o = true -> existsb f entries = true) as Hex by (intros f Hf; apply existsb_exists; exists o; by rewrite <- list_elem_of_In).
  unfold refusing. cbv zeta. set (res := _ +:+ _).
  assert (bypass && s3gw.pdenies byp res = false) as ->.
  { destruct bypass; [|done]. simpl in *. apply negb_false_iff in Hb. by rewrite allowsEverything_pdenies. }
  destruct (bool_decide (DeleteRequestObject_VersionID o = "")) eqn:E.
  - rewrite Hex in Hp by done. apply negb_false_iff in Hp. by rewrite allowsEverything_pdenies.
  - rewrite Hex in Hver by (by rewrite E). apply negb_false_iff in Hver. by rewrite allowsEverything_pdenies.
Qed.

End Delete.

(** The identifier sent for an entry; [None] when its date does not parse. *)
Definition ident (c : ctx) (o : DeleteRequestObject) : option ObjectIdentifier :=
  let modified := DeleteRequestObject_LastModifiedTime o in
  t ← (if bool_decide (modified = "") then Some None else Some <$> ParseTime (cdec c) modified);
  Some {| ObjectIdentifier_Key := DeleteRequestObject_Key o; ObjectIdentifier_VersionId := opt (DeleteRequestObject_VersionID o);
          ObjectIdentifier_ETag := opt (DeleteRequestObject_ETag o); ObjectIdentifier_LastModifiedTime := t;
          ObjectIdentifier_Size := DeleteRequestObject_Size o |}.

Lemma identifier_ident c o w :
  identifier c o w = Ret (match ident c o with Some oi => Ok oi | None => Err (s3err.WithCause body.malformed_xml (Text [])) end, w).
Proof. unfold identifier, ident. cbv zeta. destruct (bool_decide _); [done|]. by destruct (ParseTime _ _). Qed.

(** The same response so far, denials apart. *)
Definition same_response (w w' : writer) : Prop :=
  whdr w' = whdr w /\ wstatus w' = wstatus w /\ wbody w' = wbody w /\ wresponse w' = wresponse w.

#[local] Instance same_response_preorder : PreOrder same_response.
Proof. split; unfold same_response; [done|]. intros a b d. intuition congruence. Qed.

Section Loop.
Context (c : ctx) (check bypass : bool) (del ver byp : s3gw.perObjectAuthorizer).

Definition sent (o : DeleteRequestObject) : bool :=
  match (if check then refusing c bypass del ver byp o else None) with None => true | Some _ => false end.

Lemma delete_entry_eq acc o w :
  exists w', same_response w w' /\
  delete_entry c check bypass del ver byp acc o w =
  Ret (if sent o then match ident c o with Some oi => Ok (acc.1, acc.2 ++ [oi]) | None => Err (s3err.WithCause body.malformed_xml (Text [])) end
       else Ok (acc.1 ++ [access_denied_entry o], acc.2), w').
Proof.
  unfold delete_entry, sent. destruct (if check then _ else None) as [auth|]; [eexists; split; [|reflexivity]; done|].
  exists w. split; [done|]. unfold mbind, handler_bind. rewrite identifier_ident. by destruct (ident c o).
Qed.

Lemma delete_loop entries acc w :
  exists w', same_response w w' /\
  for_each (delete_entry c check bypass del ver byp) acc entries w =
  Ret (match mapM (ident c) (List.filter sent entries) with
       | Some ids => Ok (acc.1 ++ map access_denied_entry (List.filter (fun o => negb (sent o)) entries), acc.2 ++ ids)
       | None => Err (s3err.WithCause body.malformed_xml (Text []))
       end, w').
Proof.
  revert acc w; induction entries as [|o entries IH]; intros acc w.
  { exists w. split; [done|]. simpl. rewrite !app_nil_r. by destruct acc. }
  destruct (delete_entry_eq acc o w) as (w1 & Hs1 & H1).
  cbn [for_each List.filter]. unfold mbind at 1, handler_bind at 1. rewrite H1. cbn [bind].
  destruct (sent o); cbn [negb].
  - cbn [mapM]. destruct (ident c o) as [oi|]; [|by exists w1].
    destruct (IH (acc.1, acc.2 ++ [oi]) w1) as (w2 & Hs2 & H2). exists w2. split; [by etrans|]. rewrite H2. simpl.
    destruct (mapM _ _); simpl; [by rewrite <- app_assoc|done].
  - destruct (IH (acc.1 ++ [access_denied_entry o], acc.2) w1) as (w2 & Hs2 & H2). exists w2. split; [by etrans|]. rewrite H2. simpl.
    destruct (mapM _ _); simpl; [by rewrite <- app_assoc|done].
Qed.

End Loop.

(** The call of a multi-object delete, and what it answers with. *)
Definition delete_input (c : ctx) (req : DeleteRequest) (ids : list ObjectIdentifier) : DeleteObjectsInput :=
  {| DeleteObjectsInput_Bucket := backend_bucket c; DeleteObjectsInput_Objects := ids; DeleteObjectsInput_Quiet := DeleteRequest_Quiet req;
     DeleteObjectsInput_BypassGovernanceRetention := if bypassGovernanceRetention (hdr c) then Some true else None |}.

Definition delete_document (deleted : list DeletedObject) (errs : list DeleteError) : piece :=
  Document (DeleteResult_xml {| DeleteResult_XMLNS := Namespace; DeleteResult_Deleted := deleted; DeleteResult_Errors := errs |}).

Definition delete_outcome (c : ctx) (req : DeleteRequest) (f : DeleteRequestObject -> bool) (be : client) (w : writer)
    (calls : list {X & call X}) (out : result s3err.Error unit * writer) : Prop :=
  let refused := map access_denied_entry (List.filter (fun o => negb (f o)) (DeleteRequest_Objects req)) in
  let answered d e := out.1 = Ok tt /\ wbody out.2 = wbody w ++ [Bytes xml.Header; delete_document d e] in
  match mapM (ident c) (List.filter f (DeleteRequest_Objects req)) with
  | None => calls = [] /\ out.1 = Err (s3err.WithCause body.malformed_xml (Text []))
  | Some [] => calls = [] /\ answered [] refused
  | Some ids =>
    calls = [existT _ (DeleteObjects (delete_input c req ids))] /\
    match be _ (DeleteObjects (delete_input c req ids)) with
    | Err e => out.1 = Err (s3err.FromSDKError (ferr e) (path c))
    | Ok o => answered (map deleted_entry (DeleteObjectsOutput_Deleted o)) (refused ++ map error_entry (DeleteObjectsOutput_Errors o))
    end
  end.

Lemma deleteObjects_outcome c req be w :
  policy_validated (cfg c) ->
  body.readXMLBody (dDelete (cdec c)) (request_input c) (creads c) = Some (Ok req) ->
  (1 <= length (DeleteRequest_Objects req) <= 1000)%nat ->
  exists f, (forall o, o ∈ DeleteRequest_Objects req -> f o = true <-> entry_granted c (bypassGovernanceRetention (hdr c)) o) /\
    delete_outcome c req f be w (trace be (deleteObjects c w)) (run be (deleteObjects c w)).
Proof.
  intros Hv Hread Hlen.
  set (bypass := bypassGovernanceRetention (hdr c)).
  set (auth := s3gw.newPerObjectAuthorizer (routing.vr (cop c)) (cfg c)).
  set (check := (existsb (fun o => bool_decide (DeleteRequestObject_VersionID o = "")) (DeleteRequest_Objects req) && negb (s3gw.allowsEverything (auth s3op.ActionDeleteObject))) ||
     (existsb (fun o => negb (bool_decide (DeleteRequestObject_VersionID o = ""))) (DeleteRequest_Objects req) && negb (s3gw.allowsEverything (auth s3op.ActionDeleteObjectVersion))) ||
     (bypass && negb (s3gw.allowsEverything (auth s3op.ActionBypassGovernanceRetention)))).
  set (f := sent c check bypass (auth s3op.ActionDeleteObject) (auth s3op.ActionDeleteObjectVersion) (auth s3op.ActionBypassGovernanceRetention)).
  exists f. split.
  - intros o Hin. unfold f, sent. destruct check eqn:Hc.
    + rewrite <- (refusing_granted c bypass o Hv). unfold auth. destruct (refusing _ _ _ _ _ _); naive_solver.
    + rewrite <- (refusing_granted c bypass o Hv). split; [|done]. intros _.
      exact (unchecked_refusing c bypass (DeleteRequest_Objects req) o Hc Hin).
  - unfold deleteObjects, mbind, handler_bind, readXMLBody. rewrite Hread. unfold lift. cbn [bind].
    rewrite (proj2 (Nat.eqb_neq _ 0)), (proj2 (Nat.ltb_ge 1000 _)) by lia. cbn [orb]. cbv zeta. fold bypass. fold auth. fold check.
    destruct (delete_loop c check bypass (auth s3op.ActionDeleteObject) (auth s3op.ActionDeleteObjectVersion) (auth s3op.ActionBypassGovernanceRetention)
      (DeleteRequest_Objects req) ([], []) w) as (w' & (Hh & Hst & Hb & _) & Hl).
    rewrite Hl. fold f. unfold delete_outcome. cbn [fst snd app].
    destruct (mapM (ident c) (List.filter f (DeleteRequest_Objects req))) as [[|i ids]|]; cbn [bind].
    + cbn [length Nat.eqb]. rewrite Write_written. cbn [trace run fst snd wbody written]. rewrite Hb, <- app_assoc. done.
    + cbn [length Nat.eqb]. cbn [bind]. unfold invoke. cbn [bind trace run].
      change {| DeleteObjectsInput_Bucket := backend_bucket c; DeleteObjectsInput_Objects := i :: ids; DeleteObjectsInput_Quiet := DeleteRequest_Quiet req;
        DeleteObjectsInput_BypassGovernanceRetention := if bypass then Some true else None |} with (delete_input c req (i :: ids)).
      destruct (be _ (DeleteObjects (delete_input c req (i :: ids)))) as [o|e] eqn:Hbe.
      * cbn [or_fail mret handler_ret bind]. rewrite Write_written. cbn [trace run fst snd wbody written]. rewrite Hb, <- app_assoc. done.
      * done.
    + done.
Qed.

(** C13. A multi-object delete acts on exactly the entries the policies grant.
    For a request with 1 to 1000 entries, the entries sent to the backend, in
    one call and in order, are those whose delete action (that of the version
    for an entry naming one, and the retention bypass when asked for) is
    granted on their own key; every other entry is answered with AccessDenied,
    before the errors the backend reports; without a granted entry the backend
    is not called, and an entry with an unreadable date refuses the request. *)
Theorem deleteObjects_exact c req be w :
  policy_validated (cfg c) ->
  body.readXMLBody (dDelete (cdec c)) (request_input c) (creads c) = Some (Ok req) ->
  (1 <= length (DeleteRequest_Objects req) <= 1000)%nat ->
  exists f, (forall o, o ∈ DeleteRequest_Objects req -> f o = true <-> entry_granted c (bypassGovernanceRetention (hdr c)) o) /\
    delete_outcome c req f be w (trace be (deleteObjects c w)) (run be (deleteObjects c w)).
Proof. apply deleteObjects_outcome. Qed.

(** ** Confinement *)

(** A call on the backend bucket and the key of the request; a copy reads the
    source that was authorized. *)
Definition on_request (c : ctx) (X : Type) (k : call X) : Prop :=
  let obj b o := b = backend_bucket c /\ o = key c in
  match k with
  | GetObject i => obj (GetObjectInput_Bucket i) (GetObjectInput_Key i)
  | HeadObject i => obj (HeadObjectInput_Bucket i) (HeadObjectInput_Key i)
  | PutObject i _ => obj (PutObjectInput_Bucket i) (PutObjectInput_Key i)
  | DeleteObject i => obj (DeleteObjectInput_Bucket i) (DeleteObjectInput_Key i)
  | ListObjectsV2 i => ListObjectsV2Input_Bucket i = backend_bucket c
  | ListObjects i => ListObjectsInput_Bucket i = backend_bucket c
  | DeleteObjects i => DeleteObjectsInput_Bucket i = backend_bucket c
  | HeadBucket b => b = backend_bucket c
  | CreateMultipartUpload i => obj (CreateMultipartUploadInput_Bucket i) (CreateMultipartUploadInput_Key i)
  | UploadPart i _ => obj (UploadPartInput_Bucket i) (UploadPartInput_Key i)
  | CompleteMultipartUpload i => obj (CompleteMultipartUploadInput_Bucket i) (CompleteMultipartUploadInput_Key i)
  | AbortMultipartUpload i => obj (AbortMultipartUploadInput_Bucket i) (AbortMultipartUploadInput_Key i)
  | ListParts i => obj (ListPartsInput_Bucket i) (ListPartsInput_Key i)
  | ListMultipartUploads i => ListMultipartUploadsInput_Bucket i = backend_bucket c
  | CopyObject i => obj (CopyObjectInput_Bucket i) (CopyObjectInput_Key i) /\ CopyObjectInput_CopySource i = copySource c /\ copySource c <> ""
  | UploadPartCopy i => obj (UploadPartCopyInput_Bucket i) (UploadPartCopyInput_Key i) /\
      UploadPartCopyInput_CopySource i = copySource c /\ copySource c <> ""
  | GetObjectTagging i | DeleteObjectTagging i | GetObjectRetention i | GetObjectLegalHold i =>
      obj (ObjectVersionInput_Bucket i) (ObjectVersionInput_Key i)
  | PutObjectTagging i => obj (PutObjectTaggingInput_Bucket i) (PutObjectTaggingInput_Key i)
  | GetBucketVersioning b => b = backend_bucket c
  | ListObjectVersions i => ListObjectVersionsInput_Bucket i = backend_bucket c
  | GetObjectLockConfiguration b => b = backend_bucket c
  | PutObjectRetention i => obj (PutObjectRetentionInput_Bucket i) (PutObjectRetentionInput_Key i)
  | PutObjectLegalHold i => obj (PutObjectLegalHoldInput_Bucket i) (PutObjectLegalHoldInput_Key i)
  | GetObjectAttributes i => obj (GetObjectAttributesInput_Bucket i) (GetObjectAttributesInput_Key i)
  | GetBucketEncryption b => b = backend_bucket c
  end.

(** What a header that is a date, or a number, must be sent on as: nothing when
    it is absent, its value when it can be read, and never anything else. *)
Definition date_sent (c : ctx) (v : string) (t : option Z) : Prop :=
  match t with Some t => v <> "" /\ ParseTime (cdec c) v = Some t | None => v = "" end.
Definition number_sent (v : string) (n : option Z) : Prop :=
  match n with Some n => v <> "" /\ strconv.ParseInt v 10 64 = Some n | None => v = "" end.

(** A Content-MD5: the base64 of sixteen bytes. *)
Definition md5_text (v : string) : Prop := exists b, base64.decode v = Some b /\ length b = 16%nat.
Definition md5_sent (c : ctx) (m : option string) : Prop :=
  m = head (AttributeValues (hdr c) "Content-MD5") /\ forall v, m = Some v -> md5_text v.

(** The preconditions and the integrity headers of a write, as sent; the calls
    left out have no such parameter. *)
Definition conditional (c : ctx) (X : Type) (k : call X) : Prop :=
  match k with
  | PutObject i _ =>
    PutObjectInput_IfMatch i = opt (attr c "If-Match") /\ PutObjectInput_IfNoneMatch i = opt (attr c "If-None-Match") /\
    md5_sent c (PutObjectInput_ContentMD5 i)
  | UploadPart i _ => md5_sent c (UploadPartInput_ContentMD5 i)
  | CompleteMultipartUpload i =>
    CompleteMultipartUploadInput_IfMatch i = opt (attr c "If-Match") /\ CompleteMultipartUploadInput_IfNoneMatch i = opt (attr c "If-None-Match")
  | DeleteObject i =>
    DeleteObjectInput_IfMatch i = opt (attr c "If-Match") /\
    date_sent c (signed c "x-amz-if-match-last-modified-time") (DeleteObjectInput_IfMatchLastModifiedTime i) /\
    number_sent (signed c "x-amz-if-match-size") (DeleteObjectInput_IfMatchSize i)
  | CopyObject i =>
    CopyObjectInput_CopySourceIfMatch i = opt (signed c "x-amz-copy-source-if-match") /\
    CopyObjectInput_CopySourceIfNoneMatch i = opt (signed c "x-amz-copy-source-if-none-match") /\
    CopyObjectInput_CopySourceIfModifiedSince i = opt_time c (signed c "x-amz-copy-source-if-modified-since") /\
    CopyObjectInput_CopySourceIfUnmodifiedSince i = opt_time c (signed c "x-amz-copy-source-if-unmodified-since")
  | _ => True
  end.

(** A precondition or digest that cannot be read: the Content-MD5 of an upload,
    or the time or size of a conditional delete. *)
Definition unreadable (c : ctx) (h : routing.handler) : Prop :=
  (h = routing.putObjectOrCopy \/ h = routing.uploadPartOrCopy) /\ copySource c = "" /\
    (exists v vs, AttributeValues (hdr c) "Content-MD5" = v :: vs /\ ~ md5_text v) \/
  h = routing.deleteObject /\
    (signed c "x-amz-if-match-last-modified-time" <> "" /\ ParseTime (cdec c) (signed c "x-amz-if-match-last-modified-time") = None \/
     signed c "x-amz-if-match-size" <> "" /\ strconv.ParseInt (signed c "x-amz-if-match-size") 10 64 = None).

Ltac each_handler :=
  unfold listMultipartUploads, getBucketLocation, getBucketACL, getBucketPolicy, getBucketCors,
    getObjectLockConfiguration, getBucketVersioning, getBucketEncryption, getBucketPolicyStatus, getBucketOwnershipControls,
    getPublicAccessBlock, listObjectVersions, listObjectsV2, listObjectsV1, headBucket, deleteObjects, listParts, getObjectTagging,
    getObjectACL, getObjectRetention, getObjectLegalHold, getObjectAttributes, getObject, headObject, putObjectTagging,
    putObjectRetention, putObjectLegalHold, abortMultipartUpload, deleteObjectTagging, deleteObject,
    createMultipartUpload, completeMultipartUpload; cbv zeta.

Lemma uploadPartOrCopy_on_request c : confined (on_request c) (uploadPartOrCopy c).
Proof.
  unfold uploadPartOrCopy. case_bool_decide as Hs; unfold uploadPart, uploadPartCopy; cbv zeta; confine; done.
Qed.

Lemma putObjectOrCopy_on_request c : confined (on_request c) (putObjectOrCopy c).
Proof.
  unfold putObjectOrCopy. case_bool_decide as Hs; unfold putObject, copyObject; cbv zeta; confine; done.
Qed.

Lemma serve_on_request c st h : confined (on_request c) (serve c st h).
Proof.
  destruct h; unfold serve; try apply uploadPartOrCopy_on_request; try apply putObjectOrCopy_on_request; each_handler; confine; done.
Qed.

Lemma contentMD5_sent c m : body.contentMD5Header (hdr c) = Ok m -> md5_sent c m.
Proof.
  unfold body.contentMD5Header, md5_sent, md5_text. destruct (AttributeValues (hdr c) "Content-MD5") as [|v vs]; [by intros [= <-]|].
  destruct (base64.decode v) as [b|] eqn:Hb; [|done]. destruct (length b =? body.md5_size)%nat eqn:Hl; [|done]. intros [= <-].
  split; [done|]. intros v' [= <-]. exists b. split; [done|]. by apply Nat.eqb_eq.
Qed.

Lemma contentMD5_refused c v vs : AttributeValues (hdr c) "Content-MD5" = v :: vs -> ~ md5_text v -> exists e, body.contentMD5Header (hdr c) = Err e.
Proof.
  intros Hv Hn. destruct (body.contentMD5Header (hdr c)) as [m|e] eqn:E; [|eauto]. destruct (contentMD5_sent c m E) as [Hm Ht].
  rewrite Hv in Hm. destruct Hn. by apply Ht.
Qed.

Lemma deleteObject_conditional c : confined (conditional c) (deleteObject c).
Proof.
  unfold deleteObject. cbv zeta. confine_eq; bools; (split; [done|split; by cbn]).
Qed.

Lemma putObject_conditional c : confined (conditional c) (putObject c).
Proof. unfold putObject. cbv zeta. confine_eq; try done. split; [done|]. split; [done|]. by apply contentMD5_sent. Qed.

Lemma uploadPart_conditional c : confined (conditional c) (uploadPart c).
Proof. unfold uploadPart. cbv zeta. confine_eq; try done. by apply contentMD5_sent. Qed.

Lemma copies_conditional c : confined (conditional c) (copyObject c) /\ confined (conditional c) (uploadPartCopy c).
Proof. unfold copyObject, uploadPartCopy. cbv zeta. split; confine; done. Qed.

(** A handler that ends with an error before any call. *)
Definition refuses_outright {A} (m : handler A) : Prop := forall w, exists e w', m w = Ret (Err e, w').

Lemma refuses_bind {A B} (m : handler A) (f : A -> handler B) :
  (forall w, (exists a w', m w = Ret (Ok a, w')) \/ exists e w', m w = Ret (Err e, w')) -> (forall a, refuses_outright (f a)) -> refuses_outright (m ≫= f).
Proof.
  intros Hm Hf w. unfold mbind, handler_bind. destruct (Hm w) as [(a & w' & ->)|(e & w' & ->)]; cbn; [apply Hf|eauto].
Qed.

Lemma refuses_lift {A B} (r : result s3err.Error A) (f : A -> handler B) : (forall a, r = Ok a -> refuses_outright (f a)) -> refuses_outright (lift r ≫= f).
Proof. intros Hf w. unfold mbind, handler_bind, lift. cbn. destruct r as [a|e]; [by apply Hf|eauto]. Qed.

Lemma serve_refuses c st h : unreadable c h -> refuses_outright (serve c st h).
Proof.
  intros [(Hh & Hc & v & vs & Hv & Hn)|[-> Hd]].
  - destruct (contentMD5_refused c v vs Hv Hn) as [e He].
    destruct Hh as [-> | ->]; unfold serve, putObjectOrCopy, uploadPartOrCopy; rewrite bool_decide_true by done.
    + unfold putObject, requestBody. apply refuses_lift. intros [b n] _. apply refuses_lift. intros a Ha. congruence.
    + unfold uploadPart. apply refuses_bind; [unfold part_number; intros w; destruct (strconv.ParseInt _ _ _); [left|right]; do 2 eexists; reflexivity|]. intros n.
      unfold requestBody. apply refuses_lift. intros [b len] _. apply refuses_lift. intros a Ha. congruence.
  - unfold serve, deleteObject. cbv zeta. intros w. unfold mbind at 1, handler_bind at 1.
    destruct (bool_decide_reflect (signed c "x-amz-if-match-last-modified-time" = "")) as [Ht|Ht];
      [|destruct (ParseTime (cdec c) (signed c "x-amz-if-match-last-modified-time")) as [t|] eqn:Hp]; cbn; try (do 2 eexists; reflexivity);
      destruct Hd as [[? ?]|[Hs Hi]]; try congruence; rewrite bool_decide_false, Hi by done; do 2 eexists; reflexivity.
Qed.

Lemma serve_conditional c st h : confined (conditional c) (serve c st h).
Proof.
  destruct (copies_conditional c) as [Hco Hup].
  destruct h; unfold serve; try apply deleteObject_conditional.
  all: try (each_handler; confine; done).
  - unfold uploadPartOrCopy. case_bool_decide; [apply uploadPart_conditional|exact Hup].
  - unfold putObjectOrCopy. case_bool_decide; [apply putObject_conditional|exact Hco].
Qed.

(** A handler acts only on what the request was authorized for: whatever
    the backend answers, every call made while serving a request on a bucket
    is on the backend bucket of that bucket and, for an object, on the key of
    the request; the source of a copy is the one the dispatcher resolved and
    authorized. *)
Theorem serve_confined c st h be w : Forall (fun k => on_request c _ (projT2 k)) (trace be (serve c st h w)).
Proof. apply all_calls_trace, serve_on_request. Qed.


(** ** The backend stays anonymous *)

Definition forget_object (o : SdkObject) : SdkObject :=
  {| SdkObject_Key := SdkObject_Key o; SdkObject_ETag := SdkObject_ETag o; SdkObject_Size := SdkObject_Size o;
     SdkObject_StorageClass := SdkObject_StorageClass o; SdkObject_ChecksumAlgorithm := SdkObject_ChecksumAlgorithm o;
     SdkObject_ChecksumType := SdkObject_ChecksumType o; SdkObject_LastModified := SdkObject_LastModified o; SdkObject_Owner := None |}.
Definition forget_listV2 (o : ListObjectsV2Output) : ListObjectsV2Output :=
  {| ListObjectsV2Output_Name := None; ListObjectsV2Output_Prefix := ListObjectsV2Output_Prefix o;
     ListObjectsV2Output_Delimiter := ListObjectsV2Output_Delimiter o; ListObjectsV2Output_StartAfter := ListObjectsV2Output_StartAfter o;
     ListObjectsV2Output_NextContinuationToken := ListObjectsV2Output_NextContinuationToken o;
     ListObjectsV2Output_KeyCount := ListObjectsV2Output_KeyCount o; ListObjectsV2Output_MaxKeys := ListObjectsV2Output_MaxKeys o;
     ListObjectsV2Output_EncodingType := ListObjectsV2Output_EncodingType o;
     ListObjectsV2Output_IsTruncated := ListObjectsV2Output_IsTruncated o;
     ListObjectsV2Output_Contents := map forget_object (ListObjectsV2Output_Contents o);
     ListObjectsV2Output_CommonPrefixes := ListObjectsV2Output_CommonPrefixes o |}.
Definition forget_listV1 (o : ListObjectsOutput) : ListObjectsOutput :=
  {| ListObjectsOutput_Name := None; ListObjectsOutput_Prefix := ListObjectsOutput_Prefix o;
     ListObjectsOutput_Delimiter := ListObjectsOutput_Delimiter o; ListObjectsOutput_Marker := ListObjectsOutput_Marker o;
     ListObjectsOutput_NextMarker := ListObjectsOutput_NextMarker o; ListObjectsOutput_MaxKeys := ListObjectsOutput_MaxKeys o;
     ListObjectsOutput_EncodingType := ListObjectsOutput_EncodingType o; ListObjectsOutput_IsTruncated := ListObjectsOutput_IsTruncated o;
     ListObjectsOutput_Contents := map forget_object (ListObjectsOutput_Contents o);
     ListObjectsOutput_CommonPrefixes := ListObjectsOutput_CommonPrefixes o |}.
Definition forget_create (o : CreateMultipartUploadOutput) : CreateMultipartUploadOutput :=
  {| CreateMultipartUploadOutput_Bucket := None; CreateMultipartUploadOutput_UploadId := CreateMultipartUploadOutput_UploadId o;
     CreateMultipartUploadOutput_ServerSideEncryption := CreateMultipartUploadOutput_ServerSideEncryption o;
     CreateMultipartUploadOutput_SSEKMSKeyId := CreateMultipartUploadOutput_SSEKMSKeyId o;
     CreateMultipartUploadOutput_ChecksumAlgorithm := CreateMultipartUploadOutput_ChecksumAlgorithm o;
     CreateMultipartUploadOutput_ChecksumType := CreateMultipartUploadOutput_ChecksumType o |}.
Definition forget_complete (o : CompleteMultipartUploadOutput) : CompleteMultipartUploadOutput :=
  {| CompleteMultipartUploadOutput_Bucket := None; CompleteMultipartUploadOutput_Location := None;
     CompleteMultipartUploadOutput_ServerSideEncryption := CompleteMultipartUploadOutput_ServerSideEncryption o;
     CompleteMultipartUploadOutput_SSEKMSKeyId := CompleteMultipartUploadOutput_SSEKMSKeyId o;
     CompleteMultipartUploadOutput_ETag := CompleteMultipartUploadOutput_ETag o;
     CompleteMultipartUploadOutput_VersionId := CompleteMultipartUploadOutput_VersionId o;
     CompleteMultipartUploadOutput_Checksum := CompleteMultipartUploadOutput_Checksum o;
     CompleteMultipartUploadOutput_ChecksumType := CompleteMultipartUploadOutput_ChecksumType o |}.
Definition forget_parts (o : ListPartsOutput) : ListPartsOutput :=
  {| ListPartsOutput_Bucket := None; ListPartsOutput_Owner := None; ListPartsOutput_Initiator := None;
     ListPartsOutput_StorageClass := ListPartsOutput_StorageClass o;
     ListPartsOutput_PartNumberMarker := ListPartsOutput_PartNumberMarker o;
     ListPartsOutput_NextPartNumberMarker := ListPartsOutput_NextPartNumberMarker o;
     ListPartsOutput_MaxParts := ListPartsOutput_MaxParts o; ListPartsOutput_IsTruncated := ListPartsOutput_IsTruncated o;
     ListPartsOutput_ChecksumAlgorithm := ListPartsOutput_ChecksumAlgorithm o;
     ListPartsOutput_ChecksumType := ListPartsOutput_ChecksumType o; ListPartsOutput_Parts := ListPartsOutput_Parts o |}.
Definition forget_upload (o : MultipartUpload) : MultipartUpload :=
  {| MultipartUpload_Key := MultipartUpload_Key o; MultipartUpload_UploadId := MultipartUpload_UploadId o; MultipartUpload_Owner := None;
     MultipartUpload_Initiator := None; MultipartUpload_StorageClass := MultipartUpload_StorageClass o;
     MultipartUpload_Initiated := MultipartUpload_Initiated o; MultipartUpload_ChecksumAlgorithm := MultipartUpload_ChecksumAlgorithm o;
     MultipartUpload_ChecksumType := MultipartUpload_ChecksumType o |}.
Definition forget_uploads (o : ListMultipartUploadsOutput) : ListMultipartUploadsOutput :=
  {| ListMultipartUploadsOutput_Bucket := None; ListMultipartUploadsOutput_KeyMarker := ListMultipartUploadsOutput_KeyMarker o;
     ListMultipartUploadsOutput_UploadIdMarker := ListMultipartUploadsOutput_UploadIdMarker o;
     ListMultipartUploadsOutput_NextKeyMarker := ListMultipartUploadsOutput_NextKeyMarker o;
     ListMultipartUploadsOutput_NextUploadIdMarker := ListMultipartUploadsOutput_NextUploadIdMarker o;
     ListMultipartUploadsOutput_Delimiter := ListMultipartUploadsOutput_Delimiter o;
     ListMultipartUploadsOutput_Prefix := ListMultipartUploadsOutput_Prefix o;
     ListMultipartUploadsOutput_MaxUploads := ListMultipartUploadsOutput_MaxUploads o;
     ListMultipartUploadsOutput_IsTruncated := ListMultipartUploadsOutput_IsTruncated o;
     ListMultipartUploadsOutput_Uploads := map forget_upload (ListMultipartUploadsOutput_Uploads o);
     ListMultipartUploadsOutput_CommonPrefixes := ListMultipartUploadsOutput_CommonPrefixes o |}.
Definition forget_version (o : SdkObjectVersion) : SdkObjectVersion :=
  {| SdkObjectVersion_Key := SdkObjectVersion_Key o; SdkObjectVersion_VersionId := SdkObjectVersion_VersionId o;
     SdkObjectVersion_IsLatest := SdkObjectVersion_IsLatest o; SdkObjectVersion_LastModified := SdkObjectVersion_LastModified o;
     SdkObjectVersion_ETag := SdkObjectVersion_ETag o; SdkObjectVersion_ChecksumAlgorithm := SdkObjectVersion_ChecksumAlgorithm o;
     SdkObjectVersion_ChecksumType := SdkObjectVersion_ChecksumType o; SdkObjectVersion_Size := SdkObjectVersion_Size o;
     SdkObjectVersion_StorageClass := SdkObjectVersion_StorageClass o; SdkObjectVersion_Owner := None |}.
Definition forget_marker (o : SdkDeleteMarker) : SdkDeleteMarker :=
  {| SdkDeleteMarker_Key := SdkDeleteMarker_Key o; SdkDeleteMarker_VersionId := SdkDeleteMarker_VersionId o;
     SdkDeleteMarker_IsLatest := SdkDeleteMarker_IsLatest o; SdkDeleteMarker_LastModified := SdkDeleteMarker_LastModified o;
     SdkDeleteMarker_Owner := None |}.
Definition forget_versions (o : ListObjectVersionsOutput) : ListObjectVersionsOutput :=
  {| ListObjectVersionsOutput_Name := None; ListObjectVersionsOutput_Prefix := ListObjectVersionsOutput_Prefix o;
     ListObjectVersionsOutput_Delimiter := ListObjectVersionsOutput_Delimiter o;
     ListObjectVersionsOutput_KeyMarker := ListObjectVersionsOutput_KeyMarker o;
     ListObjectVersionsOutput_VersionIdMarker := ListObjectVersionsOutput_VersionIdMarker o;
     ListObjectVersionsOutput_NextKeyMarker := ListObjectVersionsOutput_NextKeyMarker o;
     ListObjectVersionsOutput_NextVersionIdMarker := ListObjectVersionsOutput_NextVersionIdMarker o;
     ListObjectVersionsOutput_MaxKeys := ListObjectVersionsOutput_MaxKeys o;
     ListObjectVersionsOutput_EncodingType := ListObjectVersionsOutput_EncodingType o;
     ListObjectVersionsOutput_IsTruncated := ListObjectVersionsOutput_IsTruncated o;
     ListObjectVersionsOutput_Versions := map forget_version (ListObjectVersionsOutput_Versions o);
     ListObjectVersionsOutput_DeleteMarkers := map forget_marker (ListObjectVersionsOutput_DeleteMarkers o);
     ListObjectVersionsOutput_CommonPrefixes := ListObjectVersionsOutput_CommonPrefixes o |}.

Definition forget_ok {X} (f : X -> X) (a : answer X) : answer X := match a with Ok x => Ok (f x) | Err e => Err e end.

(** An answer without what identifies the backend: its bucket name, its
    region, its owner and initiator accounts, its URL of the object. *)
Definition forget {X} (k : call X) : X -> X :=
  match k in call X return X -> X with
  | ListObjectsV2 _ => forget_ok forget_listV2
  | ListObjects _ => forget_ok forget_listV1
  | HeadBucket _ => forget_ok (fun _ => {| HeadBucketOutput_BucketRegion := None |})
  | CreateMultipartUpload _ => forget_ok forget_create
  | CompleteMultipartUpload _ => forget_ok forget_complete
  | ListParts _ => forget_ok forget_parts
  | ListMultipartUploads _ => forget_ok forget_uploads
  | ListObjectVersions _ => forget_ok forget_versions
  | _ => fun a => a
  end.

Definition anonymous (be : client) : client := fun X k => forget k (be X k).

Lemma run_bind {A B} be (p : prog A) (f : A -> prog B) : run be (bind p f) = run be (f (run be p)).
Proof. induction p as [a|X k g IH]; simpl; auto. Qed.

Definition blind {A} (m : handler A) : Prop := forall be w, run (anonymous be) (m w) = run be (m w).

Lemma blind_bind {A B} (m : handler A) (f : A -> handler B) : blind m -> (forall a, blind (f a)) -> blind (m ≫= f).
Proof.
  intros Hm Hf be w. unfold mbind, handler_bind. rewrite !run_bind, Hm. destruct (run be (m w)) as [[a|e] w']; [apply Hf|done].
Qed.

(** A call whose answer is read only where it does not identify the backend. *)
Lemma blind_invoke_bind {X B} (k : call X) (f : X -> handler B) :
  (forall a, blind (f a)) -> (forall be a w, run be (f (forget k a) w) = run be (f a w)) -> blind (invoke k ≫= f).
Proof. intros Hf Hk be w. change (run (anonymous be) (f (forget k (be X k)) w) = run be (f (be X k) w)). by rewrite Hf. Qed.

Lemma blind_quiet {A} (m : handler A) : (forall P, confined P m) -> blind m.
Proof.
  intros Hm be w. specialize (Hm (fun _ _ => False) w). induction (m w) as [a|X k g IH]; [done|]. by destruct Hm.
Qed.

Lemma listing_eq be w n n' : n = n' -> run be (Write n w) = run be (Write n' w).
Proof. by intros ->. Qed.

Ltac blind_steps :=
  repeat match goal with
  | |- blind (invoke ?k ≫= _) => apply blind_invoke_bind; [intros ?|intros ? [?|?] ?; try reflexivity]
  | |- blind (_ ≫= _) => apply blind_bind; [|intros ?]
  | |- blind (match ?x with _ => _ end) => destruct x
  | |- blind _ => solve [apply blind_quiet; intros ?; confine]
  end.

Lemma map_forget {A B} (f : A -> B) (g : A -> A) l : (forall x, f (g x) = f x) -> map f (map g l) = map f l.
Proof. intros H. rewrite map_map. by apply map_ext. Qed.

Lemma serve_blind c st h : blind (serve c st h).
Proof.
  destruct h; unfold serve, uploadPartOrCopy, putObjectOrCopy, uploadPart, uploadPartCopy, putObject, copyObject; each_handler; blind_steps;
    try done; apply listing_eq; do 2 f_equal; by apply map_forget.
Qed.

(** C14. The backend stays anonymous: whatever it reports of its own bucket
    name, region, owner and initiator accounts or URL of the object, the
    response, its headers and status, and what the hooks are told are the same
    as if it had reported none of it. *)
Theorem serve_hides_backend c st h be w : run (anonymous be) (serve c st h w) = run be (serve c st h w).
Proof. apply serve_blind. Qed.

(** ** A request on which the theorems apply *)

Definition entry (k : string) : DeleteRequestObject :=
  {| DeleteRequestObject_Key := k; DeleteRequestObject_VersionID := ""; DeleteRequestObject_ETag := ""; DeleteRequestObject_LastModifiedTime := "";
     DeleteRequestObject_Size := None |}.

(** The bucket's policy denies photos/secret/ to everyone but alice; carol, of
    the owning tenant, deletes one key there and one elsewhere. *)
Definition two_entries : DeleteRequest := {| DeleteRequest_Quiet := false; DeleteRequest_Objects := [entry "a"; entry "secret/b"] |}.

Definition demo_decoders : decoders :=
  {| ParseTime := fun _ => None; dDelete := fun _ => Some two_entries; dComplete := fun _ => None; dTagging := fun _ => None;
     dRetention := fun _ => None; dLegalHold := fun _ => None |}.

Definition demo_carol : s3gw.verifiedRequest :=
  {| s3gw.Verified := demo_payload (digest demo_text); s3gw.Tenant := "tenant-a"; s3gw.User := "carol"; s3gw.vrPolicy := None;
     s3gw.KeyMetadata := None; s3gw.vrSourceIP := policy.SourceIP office |}.

Definition demo_ctx (who : s3gw.verifiedRequest) (k text : string) : ctx :=
  {| cop := {| routing.method := "POST"; routing.cfg := demo_bucket; routing.vr := who; routing.hdr := newSignedHeader [] None;
               routing.query := []; routing.key := k |};
     creq := {| http.Method := "POST"; http.RequestURI := "/photos?delete"; http.URL := demo_url "delete"; http.Header_ := [];
                http.Host := "s3.example.com"; http.ContentLength := Z.of_nat (strings.length text); http.RemoteAddr := "192.0.2.1:1234" |};
     ctarget := {| tbucket := "photos"; tkey := k; vhost := false |}; ctls := false;
     cbody := {| body.data := text; body.last := chunked.EOF |}; creads := one_read; copySource := ""; cchecksums := demo_checksums;
     ckms := None; cclass := None; cregion := "us-east-1"; cdec := demo_decoders |}.

Definition empty_writer : writer := {| whdr := []; wstatus := None; wbody := []; wresponse := None; wdenials := [] |}.

#[local] Notation demo_delete_ctx := (demo_ctx demo_carol "" demo_text).

Lemma deleteObjects_exact_witness :
  trace down (deleteObjects demo_delete_ctx empty_writer) =
    [existT _ (DeleteObjects (delete_input demo_delete_ctx two_entries
       [{| ObjectIdentifier_Key := "a"; ObjectIdentifier_VersionId := None; ObjectIdentifier_ETag := None;
           ObjectIdentifier_LastModifiedTime := None; ObjectIdentifier_Size := None |}]))] /\
  exists f, (forall o, o ∈ DeleteRequest_Objects two_entries -> f o = true <-> entry_granted demo_delete_ctx false o) /\
    delete_outcome demo_delete_ctx two_entries f down empty_writer
      (trace down (deleteObjects demo_delete_ctx empty_writer)) (run down (deleteObjects demo_delete_ctx empty_writer)).
Proof.
  split; [vm_refl|].
  refine (deleteObjects_exact demo_delete_ctx two_entries down empty_writer demo_policy_validated _ _); [vm_refl|simpl; lia].
Defined.

(** A delete on the condition that the object has a size. *)
Definition demo_conditional (size : string) : ctx :=
  {| cop := {| routing.method := "DELETE"; routing.cfg := demo_bucket; routing.vr := demo_carol;
               routing.hdr := newSignedHeader [("X-Amz-If-Match-Size", [size])] (Some {["x-amz-if-match-size"]});
               routing.query := []; routing.key := "a" |};
     creq := creq (demo_ctx demo_carol "a" ""); ctarget := {| tbucket := "photos"; tkey := "a"; vhost := false |}; ctls := false;
     cbody := {| body.data := ""; body.last := chunked.EOF |}; creads := one_read; copySource := ""; cchecksums := demo_checksums;
     ckms := None; cclass := None; cregion := "us-east-1"; cdec := demo_decoders |}.

