(* ===== verification/EndToEnd.v ===== *)
(** * From the signature to the backend

    Routing, authorization and the handlers put together: which S3 permission
    a backend call needs is stated on the calls themselves, apart from the
    operation catalog and the route tables, and every call a routed request
    leads to is shown to have had its permission granted on the very bucket
    and key it acts on. *)

From S2P Require Import Prelude Unicode GoStrings GoNet GoTime GoError JSON XML Policy PolicyFacts Signer Verifier VerifierFacts Checksum Chunked Cors Store Authorize AuthorizeFacts Catalog Headers Addressing Routing RoutingFacts Body BodyFacts S3XML Sdk Proxy Multipart Objects ServeFacts.
Import headers addressing sdk s3xml proxy multipart objects.

Open Scope Z_scope.

#[local] Arguments bool_decide : simpl never.

(** ** Permissions of calls *)

Section Permissions.
Context (ok : string -> Prop).

Definition on_version (version : option string) (plain versioned : string) : Prop :=
  match version with None => ok plain | Some _ => ok versioned end.

(** A write of an object: its tags and its lock need permissions of their own. *)
Definition write_permitted (tagging : option string) (mode : string) (until : option Z) (hold : string) : Prop :=
  ok s3op.ActionPutObject /\ (is_Some tagging -> ok s3op.ActionPutObjectTagging) /\
  (mode <> "" \/ is_Some until -> ok s3op.ActionPutObjectRetention) /\ (hold <> "" -> ok s3op.ActionPutObjectLegalHold).

(** The permissions a call needs on its bucket or object.  A multi-object
    delete needs them on its entries instead; a HeadObject is also the
    existence check of an ACL request. *)
Definition permitted (X : Type) (k : call X) : Prop :=
  match k with
  | GetObject i => on_version (GetObjectInput_VersionId i) s3op.ActionGetObject s3op.ActionGetObjectVersion
  | HeadObject i =>
    on_version (HeadObjectInput_VersionId i) s3op.ActionGetObject s3op.ActionGetObjectVersion \/
    on_version (HeadObjectInput_VersionId i) s3op.ActionGetObjectAcl s3op.ActionGetObjectVersionAcl
  | PutObject i _ =>
    write_permitted (PutObjectInput_Tagging i) (PutObjectInput_ObjectLockMode i) (PutObjectInput_ObjectLockRetainUntilDate i)
      (PutObjectInput_ObjectLockLegalHoldStatus i)
  | DeleteObject i =>
    on_version (DeleteObjectInput_VersionId i) s3op.ActionDeleteObject s3op.ActionDeleteObjectVersion /\
    (is_Some (DeleteObjectInput_BypassGovernanceRetention i) -> ok s3op.ActionBypassGovernanceRetention)
  | ListObjectsV2 _ | ListObjects _ | HeadBucket _ => ok s3op.ActionListBucket
  | DeleteObjects _ => True
  | CreateMultipartUpload i =>
    write_permitted (CreateMultipartUploadInput_Tagging i) (CreateMultipartUploadInput_ObjectLockMode i)
      (CreateMultipartUploadInput_ObjectLockRetainUntilDate i) (CreateMultipartUploadInput_ObjectLockLegalHoldStatus i)
  | UploadPart _ _ | CompleteMultipartUpload _ | UploadPartCopy _ => ok s3op.ActionPutObject
  | AbortMultipartUpload _ => ok s3op.ActionAbortMultipartUpload
  | ListParts _ => ok s3op.ActionListMultipartUploadParts
  | ListMultipartUploads _ => ok s3op.ActionListBucketMultipartUploads
  | CopyObject i =>
    write_permitted (CopyObjectInput_Tagging i) (CopyObjectInput_ObjectLockMode i) (CopyObjectInput_ObjectLockRetainUntilDate i)
      (CopyObjectInput_ObjectLockLegalHoldStatus i)
  | GetObjectTagging i => on_version (ObjectVersionInput_VersionId i) s3op.ActionGetObjectTagging s3op.ActionGetObjectVersionTagging
  | PutObjectTagging i => on_version (PutObjectTaggingInput_VersionId i) s3op.ActionPutObjectTagging s3op.ActionPutObjectVersionTagging
  | DeleteObjectTagging i => on_version (ObjectVersionInput_VersionId i) s3op.ActionDeleteObjectTagging s3op.ActionDeleteObjectVersionTagging
  | GetBucketVersioning _ => ok s3op.ActionGetBucketVersioning
  | ListObjectVersions _ => ok s3op.ActionListBucketVersions
  | GetObjectLockConfiguration _ => ok s3op.ActionGetBucketObjectLockConfiguration
  | GetObjectRetention _ => ok s3op.ActionGetObjectRetention
  | PutObjectRetention i =>
    ok s3op.ActionPutObjectRetention /\
    (is_Some (PutObjectRetentionInput_BypassGovernanceRetention i) -> ok s3op.ActionBypassGovernanceRetention)
  | GetObjectLegalHold _ => ok s3op.ActionGetObjectLegalHold
  | PutObjectLegalHold _ => ok s3op.ActionPutObjectLegalHold
  | GetObjectAttributes i => on_version (GetObjectAttributesInput_VersionId i) s3op.ActionGetObject s3op.ActionGetObjectVersion
  | GetBucketEncryption _ => ok s3op.ActionGetEncryptionConfiguration
  end.

End Permissions.

Lemma permitted_mono (ok ok' : string -> Prop) X (k : call X) : (forall a, ok a -> ok' a) -> permitted ok X k -> permitted ok' X k.
Proof.
  intros H. destruct k; cbn [permitted]; unfold on_version, write_permitted; repeat case_match; naive_solver.
Qed.

(** ** What the catalog demands of a request *)

Definition demand (c : routing.opCtx) (x : s3op.Authorization) : option string :=
  if bool_decide (s3op.Header x = "") then Some (routing.versioned (s3op.Action x) (s3op.VersionAction x) (names_version c))
  else match routing.headerPresence (s3op.Header x) with
       | Some p => if p (routing.hdr c) then Some (s3op.Action x) else None
       | None => None
       end.

(** The actions an operation demands on the target of a request. *)
Definition demanded (c : routing.opCtx) (operation : string) : list string :=
  match s3op.Lookup operation with
  | Some entry => omap (demand c) (routing.onTarget entry)
  | None => []
  end.

Lemma demanded_authorized st c op a :
  catalog_authorized st c op -> a ∈ demanded c (routing.Operation op) -> routing.ctx_authorize c a = Ok tt.
Proof.
  intros [_ (entry & Hl & Hplain & Hheader & _)] Ha. unfold demanded in Ha. rewrite Hl in Ha.
  apply list_elem_of_omap in Ha as (x & Hx & Hd). apply elem_onTarget in Hx as [Hx Hon]. unfold demand in Hd.
  case_bool_decide as Hh; [injection Hd as <-; by apply Hplain|].
  destruct (routing.headerPresence (s3op.Header x)) as [p|] eqn:Hp; [|done]. destruct (p (routing.hdr c)) eqn:Hpr; [|done]. injection Hd as <-.
  apply (Hheader x); [done..|]. right. eauto.
Qed.

(** ** Handlers and operations *)

(** The operation a handler implements. *)
Definition operation_of (h : routing.handler) : string :=
  match h with
  | routing.listMultipartUploads => s3op.OpListMultipartUploads
  | routing.getBucketLocation => s3op.OpGetBucketLocation
  | routing.getBucketACL => s3op.OpGetBucketAcl
  | routing.getBucketPolicy => s3op.OpGetBucketPolicy
  | routing.getBucketCors => s3op.OpGetBucketCors
  | routing.getObjectLockConfiguration => s3op.OpGetObjectLockConfiguration
  | routing.getBucketVersioning => s3op.OpGetBucketVersioning
  | routing.getBucketEncryption => s3op.OpGetBucketEncryption
  | routing.getBucketPolicyStatus => s3op.OpGetBucketPolicyStatus
  | routing.getBucketOwnershipControls => s3op.OpGetBucketOwnershipControls
  | routing.getPublicAccessBlock => s3op.OpGetPublicAccessBlock
  | routing.listObjectVersions => s3op.OpListObjectVersions
  | routing.listObjectsV2 => s3op.OpListObjectsV2
  | routing.listObjectsV1 => s3op.OpListObjects
  | routing.headBucket => s3op.OpHeadBucket
  | routing.deleteObjects => s3op.OpDeleteObjects
  | routing.listParts => s3op.OpListParts
  | routing.getObjectTagging => s3op.OpGetObjectTagging
  | routing.getObjectACL => s3op.OpGetObjectAcl
  | routing.getObjectRetention => s3op.OpGetObjectRetention
  | routing.getObjectLegalHold => s3op.OpGetObjectLegalHold
  | routing.getObjectAttributes => s3op.OpGetObjectAttributes
  | routing.getObject => s3op.OpGetObject
  | routing.headObject => s3op.OpHeadObject
  | routing.putObjectTagging => s3op.OpPutObjectTagging
  | routing.putObjectRetention => s3op.OpPutObjectRetention
  | routing.putObjectLegalHold => s3op.OpPutObjectLegalHold
  | routing.uploadPartOrCopy => s3op.OpUploadPart
  | routing.putObjectOrCopy => s3op.OpPutObject
  | routing.abortMultipartUpload => s3op.OpAbortMultipartUpload
  | routing.deleteObjectTagging => s3op.OpDeleteObjectTagging
  | routing.deleteObject => s3op.OpDeleteObject
  | routing.createMultipartUpload => s3op.OpCreateMultipartUpload
  | routing.completeMultipartUpload => s3op.OpCompleteMultipartUpload
  | routing.listBuckets => s3op.OpListBuckets
  | routing.rejectACL => ""
  | routing.refuse what => what
  end.

(** Read off the tables: a route that does not refuse names the operation of
    its handler, and the copy it doubles as demands the same of the target. *)
Definition serves_operation (i : string * string * routing.handler * option routing.paramSet) : bool :=
  let '(n, cp, h, _) := i in
  refuses h || (bool_decide (n = operation_of h) &&
    (bool_decide (cp = "") || bool_decide (routing.onTarget <$> s3op.Lookup cp = routing.onTarget <$> s3op.Lookup n))).

Lemma all_ids_serve i : i ∈ all_ids -> serves_operation i = true.
Proof. revert i. apply forallb_elem. vm_refl. Qed.

Lemma demanded_onTarget c n n' : routing.onTarget <$> s3op.Lookup n = routing.onTarget <$> s3op.Lookup n' -> demanded c n = demanded c n'.
Proof. unfold demanded. destruct (s3op.Lookup n), (s3op.Lookup n'); simpl; congruence. Qed.

(** What a routed request may do: it is refused, or everything its handler's
    operation demands was authorized. *)
Lemma routed_demands st c routes op h src :
  served routes -> routing.dispatch st c routes = Ok (op, h, src) ->
  refuses h = true \/ forall a, a ∈ demanded c (operation_of h) -> routing.ctx_authorize c a = Ok tt.
Proof.
  intros Hs Hd. destruct (dispatch_sound _ _ _ _ _ _ Hs Hd) as [[_ Hr]|Hcat]; [by left|].
  apply dispatch_route in Hd as (rt & Hrt & _ & Hrun & _).
  assert (serves_operation (route_id rt) = true) as Hi.
  { apply all_ids_serve, elem_of_app. destruct Hs as (m & [H|H]);
      [left; exact (table_ids routing.bucketRoutes_table m routes rt H Hrt)|right; exact (table_ids routing.objectRoutes_table m routes rt H Hrt)]. }
  apply run_route_inv in Hrun as (-> & _ & _ & acts & _ & Hop). unfold serves_operation, route_id in Hi.
  destruct (refuses (routing.handle rt)); [by left|]. right. simpl in Hi. apply andb_true_iff in Hi as [Hn Hcp]. bools.
  intros a Ha. apply (demanded_authorized _ _ _ _ Hcat). destruct Hop as [(Hne & -> & _)|[-> _]]; [|by rewrite Hn].
  apply orb_true_iff in Hcp as [Hcp|Hcp]; bools; [done|]. rewrite (demanded_onTarget _ _ _ Hcp), Hn. done.
Qed.

(** ** What the handlers need *)

Definition lists (n : string) (x : s3op.Authorization) : bool :=
  match s3op.Lookup n with Some entry => bool_decide (x ∈ routing.onTarget entry) | None => false end.

Lemma listed_demanded c n x a : lists n x = true -> demand c x = Some a -> a ∈ demanded c n.
Proof.
  unfold lists, demanded. destruct (s3op.Lookup n); [|done]. intros H Hd. bools. apply list_elem_of_omap. eauto.
Qed.

Section Needs.
Context (c : ctx) (n : string).

#[local] Notation ok := (fun a => a ∈ demanded (cop c) n).

Lemma plain_demanded a : lists n (s3op.auth a s3op.OnTarget) = true -> ok a.
Proof.
  intros H. apply (listed_demanded _ _ _ _ H). unfold demand, routing.versioned. cbn [s3op.Header s3op.Action s3op.VersionAction s3op.auth].
  rewrite !bool_decide_true by done. by rewrite andb_false_r.
Qed.

Lemma version_demanded a v : lists n (s3op.auth_versioned a s3op.OnTarget v) = true -> v <> "" -> on_version ok (version_param c) a v.
Proof.
  intros H Hv.
  assert (ok (routing.versioned a v (names_version (cop c)))) as Hok by (apply (listed_demanded _ _ _ _ H); done).
  unfold on_version, version_param, opt. unfold names_version, routing.versioned in Hok. rewrite (bool_decide_false (v = "")) in Hok by done.
  unfold query. case_bool_decide; exact Hok.
Qed.

Lemma header_demanded a hd p :
  lists n (s3op.auth_header a s3op.OnTarget hd) = true -> hd <> "" -> routing.headerPresence hd = Some p -> p (hdr c) = true -> ok a.
Proof.
  intros H Hne Hp Hpr. apply (listed_demanded _ _ _ _ H). unfold demand. cbn [s3op.Header s3op.Action s3op.auth_header]. rewrite bool_decide_false by done.
  unfold hdr in Hpr. by rewrite Hp, Hpr.
Qed.

Lemma signed_demanded a hd :
  lists n (s3op.auth_header a s3op.OnTarget hd) = true -> hd <> "" ->
  bool_decide (hd ∈ [hdrTagging; hdrObjectLockMode; hdrObjectLockRetainUntil; hdrObjectLockLegalHold]) = true -> signed c hd <> "" -> ok a.
Proof.
  intros H Hne Hin Hs. apply (header_demanded a hd (routing.signedPresent hd)); [done..| |].
  - unfold routing.headerPresence. by rewrite Hin.
  - unfold routing.signedPresent. unfold signed in Hs. by rewrite bool_decide_false.
Qed.

Lemma bypass_demanded :
  lists n (s3op.auth_header s3op.ActionBypassGovernanceRetention s3op.OnTarget hdrBypassGovernanceRetention) = true ->
  is_Some (if bypassGovernanceRetention (hdr c) then Some true else None) -> ok s3op.ActionBypassGovernanceRetention.
Proof.
  intros H Hb. destruct (bypassGovernanceRetention (hdr c)) eqn:Hbp; [|by destruct Hb].
  by apply (header_demanded _ hdrBypassGovernanceRetention bypassGovernanceRetention).
Qed.

(** The authorizations of a write. *)
Definition write_listed : bool :=
  lists n (s3op.auth s3op.ActionPutObject s3op.OnTarget) &&
  lists n (s3op.auth_header s3op.ActionPutObjectTagging s3op.OnTarget hdrTagging) &&
  lists n (s3op.auth_header s3op.ActionPutObjectRetention s3op.OnTarget hdrObjectLockMode) &&
  lists n (s3op.auth_header s3op.ActionPutObjectRetention s3op.OnTarget hdrObjectLockRetainUntil) &&
  lists n (s3op.auth_header s3op.ActionPutObjectLegalHold s3op.OnTarget hdrObjectLockLegalHold).

Lemma write_demanded :
  write_listed = true ->
  write_permitted ok (opt (signed c hdrTagging)) (signed c hdrObjectLockMode)
    (if bool_decide (signed c hdrObjectLockRetainUntil = "") then None else time.ParseRFC3339 (signed c hdrObjectLockRetainUntil))
    (signed c hdrObjectLockLegalHold).
Proof.
  unfold write_listed. intros H. do 4 (apply andb_true_iff in H as [H ?]). unfold opt.
  split; [by apply plain_demanded|]. split; [|split].
  - intros Ht. apply (signed_demanded _ hdrTagging); [done..|]. intros E. rewrite E in Ht. by destruct Ht.
  - intros [Hm|Hu]; [by apply (signed_demanded _ hdrObjectLockMode)|].
    apply (signed_demanded _ hdrObjectLockRetainUntil); [done..|]. intros E. rewrite E in Hu. by destruct Hu.
  - intros Hh. by apply (signed_demanded _ hdrObjectLockLegalHold).
Qed.

End Needs.

(** Closes the permission of a call from the entry of its operation. *)
Ltac demanded :=
  first [ apply plain_demanded; vm_refl
        | apply version_demanded; [vm_refl|done]
        | apply write_demanded; vm_refl
        | split; [apply plain_demanded; vm_refl|apply bypass_demanded; vm_refl]
        | split; [apply version_demanded; [vm_refl|done]|apply bypass_demanded; vm_refl]
        | left; apply version_demanded; [vm_refl|done]
        | right; apply version_demanded; [vm_refl|done] ].

Lemma serve_permitted c st h :
  confined (permitted (fun a => a ∈ demanded (cop c) (operation_of h))) (serve c st h).
Proof.
  destruct h; unfold serve, operation_of, uploadPartOrCopy, putObjectOrCopy, uploadPart, uploadPartCopy, putObject, copyObject; each_handler;
    unfold applyObjectLockHeaders; cbv beta iota zeta; confine.
  all: try (cbn [permitted]; exact I). all: cbn [permitted]; demanded.
Qed.

(** ** Copy sources *)

(** The versions the query [q] of a copy source names. *)
Definition source_versions (q : string) : list string := GoNet.vget (url.ParseQuery q) routing.qpVersionID.
Definition names_version (q : string) : bool := existsb (fun v => negb (bool_decide (v = ""))) (source_versions q).

(** A query that names a version behind an empty versionId. *)
Definition masked_version (q : string) : bool := bool_decide (head (source_versions q) = Some "") && names_version q.

(** What the read of the source needs: the permission for a version when the
    query names one anywhere, that for the object otherwise. *)
Definition source_action (q : string) : string := if names_version q then s3op.ActionGetObjectVersion else s3op.ActionGetObject.

(** The source [src] sent to the backend is an object of a bucket of the
    requester's own tenant, on the backend of the target, and its read was
    granted: with the permission its query needs, or, when the query names a
    version behind an empty versionId, with s3:GetObject only.  [q] is the query
    the request named it with, which is sent on whole. *)
Definition readable_source (st : store.Store) (c : routing.opCtx) (src : string) : Prop :=
  exists name b k q,
    store.GetBucket st (s3gw.Tenant (routing.vr c)) name = Ok b /\
    granted (routing.vr c) b (if masked_version q then s3op.ActionGetObject else source_action q) (store.Name b +:+ "/" +:+ k) /\
    store.Endpoint (store.BBackend b) = store.Endpoint (store.BBackend (routing.cfg c)) /\
    store.BAccessKeyID (store.BBackend b) = store.BAccessKeyID (store.BBackend (routing.cfg c)) /\
    src = strings.drop 1 (escaped_path ("/" +:+ store.BBucket (store.BBackend b) +:+ "/" +:+ k)) +:+ (if bool_decide (q = "") then "" else "?" +:+ q).

(** The first versionId decides the action the code asks for. *)
Lemma first_version_action q :
  (if bool_decide (url.Get (url.ParseQuery q) routing.qpVersionID = "") then s3op.ActionGetObject else s3op.ActionGetObjectVersion) =
  (if masked_version q then s3op.ActionGetObject else source_action q).
Proof.
  unfold masked_version, source_action, names_version, source_versions, url.Get.
  destruct (GoNet.vget _ _) as [|v vs]; [done|]. cbn [head existsb]. change (default "" (Some v)) with v.
  destruct (bool_decide_reflect (v = "")) as [->|Hv]; cbn [negb orb andb].
  - rewrite bool_decide_true by done. by destruct (existsb _ vs).
  - rewrite bool_decide_false by congruence. done.
Qed.

Lemma authorize_granted vr b a res : s3gw.authorize vr b a res = Ok tt -> granted vr b a res.
Proof. destruct (authorize_cases vr b a res) as [[_ H]|[-> _]]; done. Qed.

Lemma resolveCopySource_readable st c rt src a :
  routing.copyAction rt = s3op.ActionGetObject -> routing.copyVersionAction rt = s3op.ActionGetObjectVersion ->
  routing.resolveCopySource st c rt = Ok (src, a) -> readable_source st c src.
Proof.
  intros Ha Hv. unfold routing.resolveCopySource. rewrite Ha, Hv.
  destruct (strings.Cut _ "?") as [[rawPath q] hasVersion]. destruct (strings.Cut rawPath "/") as [[rawBucket rawKey] ok].
  intros H. destruct (negb ok || _); [done|]. destruct (url.PathUnescape rawBucket) as [sb|]; [|done].
  destruct (unescapeKey rawKey) as [sk|]; [|done]. destruct (negb (routing.parse_query_ok q)); [done|]. cbv zeta in H.
  destruct (store.GetBucket st _ sb) as [b|] eqn:Hg; [|by destruct (errors.Is _ _)].
  destruct (s3gw.authorize _ b _ _) as [[]|] eqn:Hau; [|done]. apply authorize_granted in Hau.
  destruct (negb _ || negb _ || negb _) eqn:Hb; [done|]. injection H as <- _. bools.
  exists sb, b, sk, q. split; [done|]. split; [|split; [done|]; split; [done|]; destruct (bool_decide (q = "")); [by rewrite append_nil_r|done]].
  rewrite <- first_version_action. revert Hau. unfold routing.versioned. by case_bool_decide.
Qed.

Definition copies_objects (rt : routing.route) : bool :=
  bool_decide (routing.copy rt = "") ||
  bool_decide (routing.copyAction rt = s3op.ActionGetObject) && bool_decide (routing.copyVersionAction rt = s3op.ActionGetObjectVersion).

Lemma served_copies routes rt : served routes -> rt ∈ routes -> copies_objects rt = true.
Proof.
  assert (forallb (fun e => forallb copies_objects e.2) (routing.bucketRoutes ++ routing.objectRoutes) = true) as Hall by vm_refl.
  intros (m & Hs) Hrt. rewrite forallb_elem in Hall.
  assert (exists m', (m', routes) ∈ routing.bucketRoutes ++ routing.objectRoutes) as [m' Hin].
  { destruct Hs as [H|H]; apply routes_for_elem in H as [m' H]; exists m'; apply elem_of_app; auto. }
  specialize (Hall _ Hin). simpl in Hall. rewrite forallb_elem in Hall. auto.
Qed.

Lemma routed_source st c routes op h src :
  served routes -> routing.dispatch st c routes = Ok (op, h, src) -> src = "" \/ readable_source st c src.
Proof.
  intros Hs (rt & Hrt & _ & Hrun & _)%dispatch_route. pose proof (served_copies _ _ Hs Hrt) as Hc.
  unfold routing.run_route in Hrun. destruct (match routing.params rt with Some _ => _ | None => _ end) as [[]|]; [|done].
  cbn [mbind result_bind] in Hrun. destruct (if routing.aclHdr rt then _ else _) as [[]|]; [|done]. cbn [mbind result_bind] in Hrun.
  destruct (routing.authorizeRoute _ _ _ _) as [acts|]; [|done]. cbn [mbind result_bind] in Hrun.
  destruct (negb (bool_decide (routing.copy rt = "")) && negb _) eqn:Hcp; cbn [mbind result_bind] in Hrun; [|injection Hrun; auto].
  destruct (routing.resolveCopySource st c rt) as [[s a]|] eqn:Hr; cbn [mbind result_bind] in Hrun; [|done].
  injection Hrun as _ _ <-. right. apply andb_true_iff in Hcp as [Hcp _]. unfold copies_objects in Hc.
  apply orb_true_iff in Hc as [Hc|Hc]; [by rewrite Hc in Hcp|]. apply andb_true_iff in Hc as [H1 H2]. bools.
  by apply (resolveCopySource_readable _ _ _ _ _ H1 H2 Hr).
Qed.

(** ** Multi-object deletes *)

(** Every entry of a multi-object delete was granted on its own key. *)
Definition entries_granted (c : ctx) (X : Type) (k : call X) : Prop :=
  match k with
  | DeleteObjects i => forall oi, oi ∈ DeleteObjectsInput_Objects i ->
      let ok a := granted (routing.vr (cop c)) (cfg c) a (store.Name (cfg c) +:+ "/" +:+ ObjectIdentifier_Key oi) in
      on_version ok (ObjectIdentifier_VersionId oi) s3op.ActionDeleteObject s3op.ActionDeleteObjectVersion /\
      (is_Some (DeleteObjectsInput_BypassGovernanceRetention i) -> ok s3op.ActionBypassGovernanceRetention)
  | _ => True
  end.

Lemma ident_granted c o oi : entry_granted c (bypassGovernanceRetention (hdr c)) o -> ident c o = Some oi ->
  let ok a := granted (routing.vr (cop c)) (cfg c) a (store.Name (cfg c) +:+ "/" +:+ ObjectIdentifier_Key oi) in
  on_version ok (ObjectIdentifier_VersionId oi) s3op.ActionDeleteObject s3op.ActionDeleteObjectVersion /\
  (is_Some (if bypassGovernanceRetention (hdr c) then Some true else None) -> ok s3op.ActionBypassGovernanceRetention).
Proof.
  intros [Hd Hb] Hi. unfold ident in Hi. cbv zeta in Hi.
  destruct (if bool_decide (DeleteRequestObject_LastModifiedTime o = "") then _ else _) as [t|]; [|done]. injection Hi as <-.
  cbn [ObjectIdentifier_Key ObjectIdentifier_VersionId]. split.
  - unfold on_version, opt. by case_bool_decide.
  - intros Hs. apply Hb. by destruct (bypassGovernanceRetention (hdr c)); [|destruct Hs].
Qed.

Lemma deleteObjects_quiet c be w :
  (forall req, body.readXMLBody (dDelete (cdec c)) (request_input c) (creads c) = Some (Ok req) ->
     ~ (1 <= length (DeleteRequest_Objects req) <= 1000)%nat) ->
  trace be (deleteObjects c w) = [].
Proof.
  intros H. unfold deleteObjects, mbind, handler_bind, readXMLBody. destruct (body.readXMLBody _ _ _) as [[req|e]|]; [|done..].
  unfold lift. cbn [bind]. specialize (H req eq_refl).
  destruct ((length (DeleteRequest_Objects req) =? 0)%nat || (1000 <? length (DeleteRequest_Objects req))%nat) eqn:E; [done|].
  apply orb_false_iff in E as [E1 E2]. apply Nat.eqb_neq in E1. apply Nat.ltb_ge in E2. lia.
Qed.

Lemma deleteObjects_entries c be w :
  policy_validated (cfg c) -> Forall (fun k => entries_granted c _ (projT2 k)) (trace be (deleteObjects c w)).
Proof.
  intros Hv. destruct (body.readXMLBody (dDelete (cdec c)) (request_input c) (creads c)) as [[req|e]|] eqn:Hr;
    [|rewrite deleteObjects_quiet by (intros; congruence); constructor..].
  destruct (decide (1 <= length (DeleteRequest_Objects req) <= 1000)%nat) as [Hlen|Hlen];
    [|rewrite deleteObjects_quiet by (intros r' E; rewrite Hr in E; by injection E as <-); constructor].
  destruct (deleteObjects_outcome c req be w Hv Hr Hlen) as (f & Hf & Hout). unfold delete_outcome in Hout.
  destruct (mapM (ident c) (List.filter f (DeleteRequest_Objects req))) as [ids|] eqn:Hm; [|destruct Hout as [-> _]; constructor].
  assert (forall oi, oi ∈ ids -> exists o, ident c o = Some oi /\ entry_granted c (bypassGovernanceRetention (hdr c)) o) as Hids.
  { intros oi [j Hj]%list_elem_of_lookup_1. apply mapM_Some in Hm. destruct (Forall2_lookup_r _ _ _ _ _ Hm Hj) as (o & Ho & Hi).
    exists o. split; [done|]. apply list_elem_of_lookup_2, list_elem_of_In, List.filter_In in Ho as [Ho Hfo].
    apply Hf; [by apply list_elem_of_In|done]. }
  destruct ids as [|i ids]; destruct Hout as [-> _]; [constructor|]. constructor; [|constructor].
  cbn. intros oi Hin. destruct (Hids oi Hin) as (o & Hi & Hg). exact (ident_granted c o oi Hg Hi).
Qed.

(** A program that calls at most once. *)
Definition once {A} (p : prog A) : Prop :=
  match p with Ret _ => True | Call _ k => forall x, all_calls (fun _ _ => False) (k x) end.

Lemma all_calls_mono {A} (P Q : forall X, call X -> Prop) (p : prog A) : (forall X k, P X k -> Q X k) -> all_calls P p -> all_calls Q p.
Proof. intros HPQ. induction p as [a|X c k IH]; [done|]. intros [Hc Hk]. split; [auto|]. intros x. apply IH, Hk. Qed.

(** Such a program has no other call than that of any one run. *)
Lemma once_calls {A} (P : forall X, call X -> Prop) (p : prog A) : once p -> (forall be, Forall (fun k => P _ (projT2 k)) (trace be p)) -> all_calls P p.
Proof.
  destruct p as [a|X c k]; [done|]. intros Ho H. split.
  - specialize (H down). by apply Forall_cons in H as [H _].
  - intros x. exact (all_calls_mono _ _ _ (fun _ _ (F : False) => False_ind _ F) (Ho x)).
Qed.

Lemma silent_once {A} (p : prog A) : all_calls (fun _ _ => False) p -> once p.
Proof. by destruct p; [|intros []]. Qed.

Lemma once_bind {A B} (m : handler A) (f : A -> handler B) :
  confined (fun _ _ => False) m -> (forall a w, once (f a w)) -> forall w, once ((m ≫= f) w).
Proof.
  intros Hm Hf w. unfold mbind, handler_bind. specialize (Hm w). destruct (m w) as [[[a|e] w']|X c k]; [apply Hf|done|by destruct Hm].
Qed.

Lemma once_invoke {X B} (k : call X) (f : X -> handler B) :
  (forall a, confined (fun _ _ => False) (f a)) -> forall w, once ((invoke k ≫= f) w).
Proof. intros Hf w x. apply Hf. Qed.

Lemma deleteObjects_once c w : once (deleteObjects c w).
Proof.
  revert w. unfold deleteObjects. apply once_bind; [apply confined_readXMLBody|]. intros req. cbv zeta.
  destruct (_ || _); [done|]. apply once_bind; [apply confined_for_each; intros; unfold delete_entry; confine; apply confined_identifier|].
  intros [errs objs]. destruct (length objs =? 0)%nat; [intros w; apply silent_once; apply confined_Write|].
  apply once_invoke. intros a. confine.
Qed.

Lemma serve_entries c st h w : policy_validated (cfg c) -> all_calls (entries_granted c) (serve c st h w).
Proof.
  intros Hv. destruct (routing.handler_eq_dec h routing.deleteObjects) as [->|Hne].
  { apply once_calls; [apply deleteObjects_once|]. intros be. by apply deleteObjects_entries. }
  destruct h; try done; unfold serve, uploadPartOrCopy, putObjectOrCopy, uploadPart, uploadPartCopy, putObject, copyObject; each_handler;
    unfold applyObjectLockHeaders; cbv beta iota zeta;
    match goal with |- all_calls _ (?m w) => enough (confined (entries_granted c) m) as Hc by apply Hc end; confine; exact I.
Qed.

(** ** The whole path *)

(** What a handler is run with: the bucket, the requester and the key the
    request was routed to, and the copy source it was authorized to read. *)
Record runs_with (c : ctx) (r : http.Request) (who : s3gw.verifiedRequest) (b : store.Bucket) (op : routing.Op) (src : string) : Prop := {
  rw_op : cop c = {| routing.method := http.Method r; routing.cfg := b; routing.vr := who;
                     routing.hdr := newSignedHeader (http.Header_ r) (verifier.SignedHeaders (s3gw.Verified who));
                     routing.query := url.Query (http.URL r); routing.key := routing.OKey op |};
  rw_source : copySource c = src }.

(** A call the requester holds every permission for. *)
Definition call_granted (st : store.Store) (c : ctx) (X : Type) (k : call X) : Prop :=
  on_request c X k /\
  permitted (fun a => granted (routing.vr (cop c)) (cfg c) a (routing.resource_of (cfg c) (key c))) X k /\
  entries_granted c X k /\
  match k with
  | CopyObject i => readable_source st (cop c) (CopyObjectInput_CopySource i)
  | UploadPartCopy i => readable_source st (cop c) (UploadPartCopyInput_CopySource i)
  | _ => True
  end.

Lemma dispatched g now r who r' b op h src g' :
  routing.handleRequest g now r = (routing.Run who r' (Some b) op h src, g') ->
  exists routes, served routes /\
    routing.dispatch (routing.gstore g) {| routing.method := http.Method r'; routing.cfg := b; routing.vr := who;
      routing.hdr := newSignedHeader (http.Header_ r') (verifier.SignedHeaders (s3gw.Verified who));
      routing.query := url.Query (http.URL r'); routing.key := routing.OKey op |} routes = Ok (op, h, src).
Proof.
  intros H%handleRequest_run. unfold routing.authenticated_request in H.
  destruct (s3gw.verifyRequest _ _ _ _) as [[[who0 r0]|] v]; [|done]. injection H as H _.
  destruct (checkKnownAmzHeaders _ _) as [[]|] in H; [|done]. destruct (requestTarget _ _) as [t|] in H; [|done].
  destruct (bool_decide (tbucket t = "")).
  { unfold routing.list_buckets in H. destruct (negb _); [done|]. destruct (routing.check _ _); [|done]. by destruct (negb _). }
  unfold routing.bucket_request in H. destruct (s3gw.resolveBucket _ _ _) as [bk|]; [|done]. destruct (routing.backendClient _ _); [|done].
  set (c := {| routing.method := _ |}) in H.
  destruct (if bool_decide (tkey t = "") then _ else _) as [[[op0 h0] src0]|] eqn:Hd; [|done]. injection H as <- <- <- <- <- <-.
  assert (exists routes, served routes /\ routing.dispatch (routing.gstore g) c routes = Ok (op0, h0, src0)) as (routes & Hs & Hdisp).
  { unfold routing.handleBucketRequest, routing.handleObjectRequest in Hd. destruct (bool_decide (tkey t = "")).
    - destruct (routing.routes_for routing.bucketRoutes _) as [rs|] eqn:Hf; [|done]. exists rs. split; [eexists; by left|done].
    - destruct (routing.routes_for routing.objectRoutes _) as [rs|] eqn:Hf; [|done]. exists rs. split; [eexists; by right|done]. }
  exists routes. split; [done|]. pose proof Hdisp as Hkey. apply dispatch_route in Hkey as (rt & _ & _ & Hrun & _).
  apply run_route_inv in Hrun as (_ & _ & (_ & _ & _ & _ & ->) & _). exact Hdisp.
Qed.

Lemma all_calls_and {A} P Q (p : prog A) : all_calls P p -> all_calls Q p -> all_calls (fun X k => P X k /\ Q X k) p.
Proof. induction p as [a|X c k IH]; [done|]. intros [? ?] [? ?]. split; [done|]. intros x. by apply IH. Qed.

(** Whatever request is routed to a bucket, and whatever the backend answers,
    every call of its handler is granted. *)
Lemma routed_calls_granted g now r who r' b op h src g' c w :
  policy_validated b ->
  routing.handleRequest g now r = (routing.Run who r' (Some b) op h src, g') -> runs_with c r' who b op src ->
  all_calls (call_granted (routing.gstore g) c) (serve c (routing.gstore g) h w).
Proof.
  intros Hv H [Hop Hsrc]. apply dispatched in H as (routes & Hs & Hd). rewrite <- Hop in Hd.
  assert (policy_validated (cfg c)) as Hvc by (unfold cfg; by rewrite Hop).
  destruct (routed_demands _ _ _ _ _ _ Hs Hd) as [Hr|Hgranted]; [by destruct h|].
  pose proof (routed_source _ _ _ _ _ _ Hs Hd) as Hread. rewrite <- Hsrc in Hread.
  pose proof (all_calls_and _ _ _ (serve_on_request c (routing.gstore g) h w)
    (all_calls_and _ _ _ (serve_permitted c (routing.gstore g) h w) (serve_entries c (routing.gstore g) h w Hvc))) as Hall.
  eapply all_calls_mono; [|exact Hall]. intros X k (H1 & H2 & H3).
  split; [done|]. split; [|split; [done|]].
  - apply (permitted_mono _ _ _ _ (fun a Ha => authorize_granted _ _ _ _ (Hgranted a Ha)) H2).
  - destruct k; try done; destruct H1 as (_ & -> & Hne); by destruct Hread.
Qed.

(** ** A version behind an empty versionId *)

Definition masked_copy : routing.opCtx :=
  {| routing.method := "PUT"; routing.cfg := demo_bucket; routing.vr := demo_carol;
     routing.hdr := newSignedHeader [("X-Amz-Copy-Source", ["photos/a?versionId=&versionId=abc"])] (Some {["x-amz-copy-source"]});
     routing.query := []; routing.key := "b" |}.

Definition copy_routes : list routing.route :=
  filter (fun rt => routing.copy rt <> "") (concat (map snd routing.objectRoutes)).

(** The exception in [readable_source] is real: a copy source that names a
    version behind an empty versionId is authorized as s3:GetObject by both
    operations that copy, and sent on with the version in it. *)
Example copy_version_masked :
  map routing.copy copy_routes = [s3op.OpUploadPartCopy; s3op.OpCopyObject] /\
  map (routing.resolveCopySource demo_store masked_copy) copy_routes =
    replicate 2 (Ok ("photos/a?versionId=&versionId=abc", s3op.ActionGetObject)) /\
  source_action "versionId=&versionId=abc" = s3op.ActionGetObjectVersion.
Proof. split; [|split]; vm_refl. Qed.
