(* ===== verification/PostObject.v ===== *)
(** * Browser-based POST uploads (src/s3gw/postobject.go, verifyPostRequest of
      src/s3gw/auth.go)

    The form is what [multipart.Reader] yields: the parts in order, each with
    its names, its content and the error its content ends with if it is broken,
    then the end of the form or an error.  Printing the redirect target, with
    the user and fragment a URL may have, is left to a function. *)

From S2P Require Import Prelude Unicode GoStrings GoNet GoTime GoError JSON XML Policy Signer Verifier Checksum Chunked PostPolicy Cors Store Authorize Catalog Headers Addressing Routing Body S3XML Sdk Proxy.
Import headers addressing sdk s3xml proxy postpolicy.

Open Scope Z_scope.

Module postobject.

Definition maxPostFieldBytes : Z := 32 * 1024.
Definition maxPostFields : nat := 64.

(** ** Reading the form *)

Record part := { FormName : string; FileName : string; content : string; broken : option string }.

Record form := { reader_error : option string; parts : list part; ending : option string }.

Definition bad_form (m : message) : s3err.Error := s3err.New 400 "InvalidArgument" m.
Definition malformed_form (err : string) : s3err.Error := bad_form [FS "malformed multipart form: "; FS err].

Fixpoint read_parts (fs : fields) (l : list part) (ending : option string) : result s3err.Error (fields * part) :=
  match l with
  | [] => match ending with
          | None => Err (bad_form [FS "Bucket POST must contain a field named 'file'."])
          | Some err => Err (malformed_form err)
          end
  | p :: l =>
    let name := strings.ToLower (FormName p) in
    if bool_decide (name = "") then read_parts fs l ending
    else if bool_decide (name = "file") then Ok (fs, p)
    else if (maxPostFields <=? size fs)%nat then Err (bad_form [FS "too many form fields"])
    else if maxPostFieldBytes <? Z.of_nat (strings.length (content p)) then Err (bad_form [FS "form field "; FS name; FS " is too large"])
    else match broken p with
         | Some err => Err (malformed_form err)
         | None => read_parts (<[name := content p]> fs) l ending
         end
  end.

Definition readPostForm (f : form) : result s3err.Error (fields * part) :=
  match reader_error f with
  | Some err => Err (malformed_form err)
  | None => read_parts ∅ (parts f) (ending f)
  end.

Definition postFieldMapped : list string :=
  ["key"; "bucket"; "acl"; "success_action_redirect"; "success_action_status"; "content-type"; "content-md5"; "cache-control";
   "content-disposition"; "content-encoding"; "content-language"; "expires"; hdrStorageClass; hdrTagging; hdrSSE; hdrSSEKMSKeyID;
   "x-amz-algorithm"; "x-amz-credential"; "x-amz-date"; "x-amz-signature"; "policy"; "x-amz-security-token"].

Definition checkPostFields (fs : fields) : result s3err.Error unit :=
  each (fun name => guard (bool_decide (name ∈ postFieldMapped) || strings.HasPrefix name amzMetaPrefix)
                      (s3err.NotImplemented [FS ("form field " +:+ name)])) (map fst (map_to_list fs)).

(** ** The operation *)

Definition postObjectRoute : option routing.route :=
  routing.bind (routing.mk None None false false s3op.OpPostObject "" (routing.refuse s3op.OpPostObject)).

Definition postFieldMeta (fs : fields) : gmap string string :=
  fold_left (fun md kv => match strings.CutPrefix kv.1 amzMetaPrefix with Some meta => <[meta := kv.2]> md | None => md end) (map_to_list fs) ∅.

Definition postObjectRequest (fs : fields) : option routing.OpRequest :=
  let req := {| routing.SSE := fget fs hdrSSE; routing.SSEKMSKeyID := fget fs hdrSSEKMSKeyID; routing.StorageClass := fget fs hdrStorageClass;
                routing.RMetadata := postFieldMeta fs |} in
  if routing.OpRequest_empty req then None else Some req.

(** [verifyPostRequest]: the identity is that of the key the lookup returned. *)
Definition verifyPostRequest (st : store.Store) (v : verifier.Verifier) (now : Z) (r : http.Request) (fs : fields)
    : result s3err.Error (s3gw.verifiedRequest * PostPolicy) * verifier.Verifier :=
  match VerifyPost v now fs (s3gw.secretLookup st) with
  | (Err e, v) => (Err e, v)
  | (Ok (verified, pp), v) =>
    match store.GetKey st (verifier.AccessKeyID verified) (fget fs "x-amz-security-token") with
    | Err e => (Err (s3err.Internal e "key lookup failed"), v)
    | Ok k =>
      (Ok ({| s3gw.Verified := verified; s3gw.Tenant := store.KTenant k; s3gw.User := store.User k; s3gw.vrPolicy := store.KPolicy k;
              s3gw.KeyMetadata := store.KMetadata k; s3gw.vrSourceIP := s3gw.remoteIP (http.RemoteAddr r) |}, pp), v)
    end
  end.

(** The form as the policy is evaluated on it: ignored fields removed, the file
    name substituted into the key, the bucket of the URL added. *)
Definition prepared (fs : fields) (filename bucket : string) : result s3err.Error (fields * string) :=
  let fs : fields := filter (fun kv : string * string => strings.HasPrefix kv.1 "x-ignore-" = false) fs in
  let keyField := fget fs "key" in
  if bool_decide (keyField = "") then Err (bad_form [FS "Bucket POST must contain a field named 'key'."])
  else
    let k := strings.ReplaceAll keyField "${filename}" filename in
    if bool_decide (k = "") then Err (bad_form [FS "The key must not be empty."])
    else Ok (<["bucket" := bucket]> (<["key" := k]> fs), k).

(** An authorized upload: what [postPutObject] is run with. *)
Record post_run := {
  who : s3gw.verifiedRequest; bucket : store.Bucket; op : routing.Op; form_fields : fields; file : part; limits : PostPolicy;
  cors_header : http.Header }.

(** What follows authentication. *)
Definition authorized_post (g : routing.Gateway) (r : http.Request) (t : target) (h : http.Header) (vr : s3gw.verifiedRequest)
    (pp : PostPolicy) (fs : fields) (k : string) (f : part) : result s3err.Error post_run :=
  _ ← checkKnownAmzHeaders (newSignedHeader (http.Header_ r) None) (routing.checksums g);
  b ← s3gw.resolveBucket (routing.gstore g) vr (tbucket t);
  _ ← match routing.backendClient g (store.BBackend b) with Err err => Err (s3err.Internal err "backend client failed") | Ok _ => Ok tt end;
  let h := cors.SetHeaders h (http.Method r) (http.Header_ r) (store.CORS b) in
  _ ← guard (bool_decide (fget fs "acl" ∈ [""; "private"; "bucket-owner-full-control"])) errACLNotSupported;
  _ ← checkPostFields fs;
  let hd := postFieldHeader (map_to_list fs) in
  _ ← checkSSE hd;
  let c := {| routing.method := http.Method r; routing.cfg := b; routing.vr := vr; routing.hdr := hd;
              routing.query := url.Query (http.URL r); routing.key := k |} in
  rt ← match postObjectRoute with Some rt => Ok rt | None => Err (s3err.NotImplemented []) end;
  actions ← routing.authorizeRoute c rt hd false;
  Ok {| who := vr; bucket := b; form_fields := fs; file := f; limits := pp; cors_header := h;
        op := {| routing.OMethod := http.Method r; routing.Operation := s3op.OpPostObject; routing.Actions := actions;
                 routing.OTenant := s3gw.Tenant vr; routing.OUser := s3gw.User vr; routing.OBucket := store.Name b;
                 routing.BucketOwner := store.Tenant b; routing.OKey := k; routing.ORequest := postObjectRequest fs;
                 routing.BucketMetadata := store.BMetadata b; routing.OKeyMetadata := s3gw.KeyMetadata vr |} |}.

(** [handlePostObject] up to the hooks. *)
Definition handlePostObject (g : routing.Gateway) (now : Z) (r : http.Request) (t : target) (f : form) (h : http.Header)
    : result s3err.Error post_run * routing.Gateway :=
  match (_ ← routing.check [] (url.Query (http.URL r));
         _ ← checkSSEC (newSignedHeader (http.Header_ r) None);
         '(fs, p) ← readPostForm f;
         '(fs, k) ← prepared fs (FileName p) (tbucket t);
         Ok (fs, k, p)) with
  | Err e => (Err e, g)
  | Ok (fs, k, p) =>
    match verifyPostRequest (routing.gstore g) (routing.gverifier g) now r fs with
    | (Err e, v) => (Err e, routing.with_verifier g v)
    | (Ok (vr, pp), v) =>
      let g := routing.with_verifier g v in (authorized_post g r t h vr pp fs k p, g)
    end
  end.

(** ** The upload *)

Definition file_source (p : part) : body.source :=
  {| body.data := content p; body.last := match broken p with Some e => Text [FS e] | None => chunked.EOF end |}.

(** The redirect target with the bucket, key and entity tag added to its query;
    [None] when the form's value is not an absolute URL. *)
Definition redirect_to := string -> string -> string -> string -> option string.

Definition post_input (c : ctx) (fs : fields) (sse : string) (kmsKey : option string) : PutObjectInput :=
  {| PutObjectInput_Bucket := backend_bucket c; PutObjectInput_Key := key c; PutObjectInput_ContentLength := None;
     PutObjectInput_IfMatch := None; PutObjectInput_IfNoneMatch := None; PutObjectInput_ContentType := opt (fget fs "content-type");
     PutObjectInput_ContentMD5 := opt (fget fs "content-md5"); PutObjectInput_CacheControl := opt (fget fs "cache-control");
     PutObjectInput_ContentDisposition := opt (fget fs "content-disposition");
     PutObjectInput_ContentEncoding := opt (fget fs "content-encoding");
     PutObjectInput_ContentLanguage := opt (fget fs "content-language"); PutObjectInput_Expires := opt_time c (fget fs "expires");
     PutObjectInput_StorageClass := backendStorageClass c (fget fs hdrStorageClass) SizeUnknown;
     PutObjectInput_Tagging := opt (fget fs hdrTagging); PutObjectInput_ServerSideEncryption := sse; PutObjectInput_SSEKMSKeyId := kmsKey;
     PutObjectInput_ObjectLockMode := ""; PutObjectInput_ObjectLockRetainUntilDate := None; PutObjectInput_ObjectLockLegalHoldStatus := "";
     PutObjectInput_Metadata := postFieldMeta fs; PutObjectInput_Checksum := setChecksums ∅; PutObjectInput_ChecksumAlgorithm := "" |}.

(** The write undone: the version just written, if the backend named one. *)
Definition undo_input (c : ctx) (out : PutObjectOutput) : DeleteObjectInput :=
  {| DeleteObjectInput_Bucket := backend_bucket c; DeleteObjectInput_Key := key c; DeleteObjectInput_VersionId := PutObjectOutput_VersionId out;
     DeleteObjectInput_BypassGovernanceRetention := None; DeleteObjectInput_IfMatch := None;
     DeleteObjectInput_IfMatchLastModifiedTime := None; DeleteObjectInput_IfMatchSize := None |}.

Definition entity_too_small : s3err.Error :=
  s3err.New 400 "EntityTooSmall" [FS "Your proposed upload is smaller than the minimum allowed size"].

Definition post_answer (c : ctx) (redirect : redirect_to) (fs : fields) (etag : string) : handler unit :=
  let location := objectURL (ctls c) (http.Host (creq c)) (ctarget c) (key c) in
  let plain :=
    _ ← set "Location" location;
    let st := fget fs "success_action_status" in
    if bool_decide (st = "200") then write_header 200
    else if bool_decide (st = "201") then
      _ ← set "Content-Type" "application/xml";
      _ ← write_header 201;
      _ ← write_body (Bytes xml.Header);
      write_body (Document (PostResponse_xml
        {| PostResponse_XMLNS := Namespace; PostResponse_Location := location; PostResponse_Bucket := store.Name (cfg c);
           PostResponse_Key := key c; PostResponse_ETag := etag |}))
    else write_header 204 in
  let target := fget fs "success_action_redirect" in
  if bool_decide (target = "") then plain
  else match redirect target (store.Name (cfg c)) (key c) etag with
       | Some u => _ ← set "Location" u; write_header 303
       | None => plain
       end.

Definition postPutObject (c : ctx) (redirect : redirect_to) (fs : fields) (f : part) (pp : PostPolicy) : handler unit :=
  '(sse, kmsKey) ← lift (headers.applySSE (ckms c) (postFieldHeader (map_to_list fs)));
  '(a, n) ← invoke (PutObject (post_input c fs sse kmsKey)
     (Form {| body.lr := file_source f; body.ln := 0; body.lmax := MaxLength pp |}));
  out ← or_fail (path c) a;
  if n <? MinLength pp then
    _ ← invoke (DeleteObject (undo_input c out));
    fail entity_too_small
  else
    _ ← setResponse {| oSSE := PutObjectOutput_ServerSideEncryption out; oSSEKMSKeyID := toString (PutObjectOutput_SSEKMSKeyId out);
          oStorageClass := ""; oMetadata := ∅; oETag := toString (PutObjectOutput_ETag out); oVersionID := toString (PutObjectOutput_VersionId out) |};
    _ ← set "ETag" (toString (PutObjectOutput_ETag out));
    _ ← set_opt "x-amz-version-id" (PutObjectOutput_VersionId out);
    _ ← upd_header (fun h => setSSEHeaders h (PutObjectOutput_ServerSideEncryption out) (client_kms c (PutObjectOutput_SSEKMSKeyId out)));
    post_answer c redirect fs (toString (PutObjectOutput_ETag out)).

End postobject.
