(* ===== verification/PostObjectFacts.v ===== *)
(** * What a POST upload may do

    The path from the form to the backend: nothing is written that the signed
    policy does not cover and the policies of the key and the bucket do not
    allow, and the size range of the policy holds for what stays written. *)

From S2P Require Import Prelude Unicode GoStrings GoNet GoTime GoError JSON XML Policy Crypto Signer Verifier VerifierFacts Checksum Chunked ChunkedFacts PostPolicy PostPolicyFacts Cors Store Authorize AuthorizeFacts Catalog Headers Addressing Routing RoutingFacts Body BodyFacts S3XML Sdk Proxy ServeFacts PostObject.
Import headers addressing body sdk s3xml proxy postpolicy postobject.

Open Scope Z_scope.

#[local] Arguments bool_decide : simpl never.

(** ** The form *)

Lemma checkPostFields_ok fs :
  checkPostFields fs = Ok tt -> forall name, is_Some (fs !! name) -> name ∈ postFieldMapped \/ strings.HasPrefix name amzMetaPrefix = true.
Proof.
  unfold checkPostFields. rewrite each_ok, Forall_forall. intros H name [v Hv].
  assert (name ∈ map fst (map_to_list fs)) as Hin
    by (apply list_elem_of_fmap; exists (name, v); split; [done|by apply elem_of_map_to_list]).
  specialize (H _ Hin). unfold guard in H. destruct (bool_decide (name ∈ postFieldMapped)) eqn:E; bools; [by left|]. right.
  by destruct (strings.HasPrefix name amzMetaPrefix).
Qed.

Lemma prepared_ok fs filename bucket fs' k :
  prepared fs filename bucket = Ok (fs', k) -> fs' !! "key" = Some k /\ fs' !! "bucket" = Some bucket /\ k <> "".
Proof.
  unfold prepared. cbv zeta. unfold postpolicy.fields in *. intros H. repeat case_bool_decide; try done. injection H as <- <-.
  split; [rewrite lookup_insert_ne by done; apply lookup_insert_eq|]. split; [apply lookup_insert_eq|done].
Qed.

(** The header made of the form fields shows a field under its name, when no
    other field has the same canonical name. *)
Lemma fold_HSet_other n l : forall h, (forall k v, (k, v) ∈ l -> http.CanonicalHeaderKey k <> http.CanonicalHeaderKey n) ->
  http.HGet (fold_left (fun hd f => http.HSet hd f.1 f.2) l h) n = http.HGet h n.
Proof.
  induction l as [|[k v] l IH]; intros h H; [done|]. cbn [fold_left fst snd].
  rewrite IH by (intros k' v' Hin; apply (H k' v'); by right). rewrite cors.HGet_HSet, bool_decide_false; [done|]. apply (H k v). left.
Qed.

Lemma fold_HSet_field n x l : forall h, NoDup (map fst l) ->
  (forall k v, (k, v) ∈ l -> http.CanonicalHeaderKey k = http.CanonicalHeaderKey n -> k = n) -> (n, x) ∈ l ->
  http.HGet (fold_left (fun hd f => http.HSet hd f.1 f.2) l h) n = x.
Proof.
  induction l as [|[k v] l IH]; intros h Hnd Hu Hin; [by apply not_elem_of_nil in Hin|]. cbn [fold_left fst snd map] in *.
  apply NoDup_cons in Hnd as [Hk Hnd]. apply elem_of_cons in Hin as [[= <- <-]|Hin].
  - rewrite fold_HSet_other.
    + rewrite cors.HGet_HSet, bool_decide_true; done.
    + intros k' v' Hin Hc. assert (k' = n) as -> by (apply (Hu k' v'); [by right|done]). apply Hk. apply list_elem_of_fmap. by exists (n, v').
  - apply IH; [done| |done]. intros k' v' Hin'. apply (Hu k' v'). by right.
Qed.

Lemma meta_not_tagging name : strings.HasPrefix name amzMetaPrefix = true ->
  http.CanonicalHeaderKey name <> http.CanonicalHeaderKey hdrTagging.
Proof.
  intros [rest ->]%HasPrefix_true. change (http.CanonicalHeaderKey hdrTagging) with "X-Amz-Tagging".
  unfold http.CanonicalHeaderKey. destruct (url.all_of _ _); unfold amzMetaPrefix; cbn; done.
Qed.

Lemma mapped_tagging name : name ∈ postFieldMapped ->
  http.CanonicalHeaderKey name = http.CanonicalHeaderKey hdrTagging -> name = hdrTagging.
Proof.
  assert (forallb (fun n => negb (bool_decide (http.CanonicalHeaderKey n = http.CanonicalHeaderKey hdrTagging)) || bool_decide (n = hdrTagging))
            postFieldMapped = true) as H by vm_refl.
  intros Hin Hc. apply (proj1 (forallb_elem _ _) H) in Hin. apply orb_true_iff in Hin as [Hn|Hn]; bools; [by destruct Hn|done].
Qed.

Lemma form_tagging fs :
  (forall name, is_Some (fs !! name) -> name ∈ postFieldMapped \/ strings.HasPrefix name amzMetaPrefix = true) ->
  postpolicy.fget fs hdrTagging <> "" -> routing.signedPresent hdrTagging (postFieldHeader (map_to_list fs)) = true.
Proof.
  intros Hf Hne. unfold postpolicy.fget in Hne. destruct (fs !! hdrTagging) as [x|] eqn:Hx; [|done]. cbn in Hne.
  assert ((hdrTagging, x) ∈ map_to_list fs) as Hin by by apply elem_of_map_to_list.
  unfold routing.signedPresent, Signed, postFieldHeader. cbn [headers.signed headers.h].
  rewrite (bool_decide_true (strings.ToLower _ ∈ _)).
  - rewrite (fold_HSet_field _ x); [by rewrite bool_decide_false|apply NoDup_fst_map_to_list| |done].
    intros k v Hk%elem_of_map_to_list Hc. destruct (Hf k) as [Hm|Hm]; [by eexists|by apply mapped_tagging|by destruct (meta_not_tagging k Hm)].
  - apply elem_of_list_to_set, list_elem_of_fmap. by exists (hdrTagging, x).
Qed.

(** The identity is that of the key behind the signature. *)
Lemma verifyPostRequest_ok st v now r fs vr pp v' :
  verifyPostRequest st v now r fs = (Ok (vr, pp), v') ->
  VerifyPost v now fs (s3gw.secretLookup st) = (Ok (s3gw.Verified vr, pp), v') /\
  exists k, store.GetKey st (verifier.AccessKeyID (s3gw.Verified vr)) (fget fs "x-amz-security-token") = Ok k /\
    s3gw.Tenant vr = store.KTenant k /\ s3gw.User vr = store.User k /\ s3gw.vrPolicy vr = store.KPolicy k.
Proof.
  unfold verifyPostRequest. destruct (VerifyPost _ _ _ _) as [[[ver p]|e] v0] eqn:Hv; [|done].
  destruct (store.GetKey st _ _) as [k|e] eqn:Hk; [|done]. intros [= <- <- <-]. simpl. eauto 10.
Qed.

(** The action of the upload, and the one the tagging field adds. *)
Lemma post_route : exists rt, postObjectRoute = Some rt /\ routing.action rt = s3op.ActionPutObject /\
  routing.hdrActions rt = [{| routing.haction := s3op.ActionPutObjectTagging; routing.present := routing.signedPresent hdrTagging |}].
Proof.
  assert ((fun rt => (routing.action rt, routing.hdrActions rt)) <$> postObjectRoute =
    Some (s3op.ActionPutObject, [{| routing.haction := s3op.ActionPutObjectTagging; routing.present := routing.signedPresent hdrTagging |}])) as H by vm_refl.
  destruct postObjectRoute as [rt|]; [|done]. exists rt. split; [done|]. by injection H.
Qed.

(** What an upload was allowed by. *)
Record post_allowed (t : target) (run : post_run) : Prop := {
  pl_bucket : store.Name (bucket run) = tbucket t /\ visible (who run) (bucket run);
  pl_form : form_fields run !! "bucket" = Some (store.Name (bucket run)) /\ form_fields run !! "key" = Some (routing.OKey (op run)) /\
    routing.OKey (op run) <> "";
  pl_actions : s3op.ActionPutObject ∈ routing.Actions (op run) /\
    forall a, a ∈ routing.Actions (op run) ->
      s3gw.authorize (who run) (bucket run) a (store.Name (bucket run) +:+ "/" +:+ routing.OKey (op run)) = Ok tt;
  pl_tagging : fget (form_fields run) hdrTagging <> "" -> s3op.ActionPutObjectTagging ∈ routing.Actions (op run);
  pl_fields : forall name, is_Some (form_fields run !! name) -> name ∈ postFieldMapped \/ strings.HasPrefix name amzMetaPrefix = true }.

Lemma authorized_post_ok g r t h vr pp fs k f run :
  store.StoreLaws (routing.gstore g) ->
  fs !! "key" = Some k -> fs !! "bucket" = Some (tbucket t) -> k <> "" ->
  authorized_post g r t h vr pp fs k f = Ok run ->
  who run = vr /\ limits run = pp /\ form_fields run = fs /\ routing.OKey (op run) = k /\ post_allowed t run.
Proof.
  intros HL Hkey Hbucket Hk H. unfold authorized_post in H.
  destruct (checkKnownAmzHeaders _ _) as [[]|]; [|done]. cbn [mbind result_bind] in H.
  destruct (s3gw.resolveBucket _ _ _) as [b|] eqn:Hb; [|done]. cbn [mbind result_bind] in H.
  destruct (routing.backendClient _ _) as [[]|]; [|done]. cbn [mbind result_bind] in H. cbv zeta in H.
  destruct (guard _ _) as [[]|]; [|done]. cbn [mbind result_bind] in H.
  destruct (checkPostFields fs) as [[]|] eqn:Hf; [|done]. cbn [mbind result_bind] in H.
  destruct (checkSSE _) as [[]|]; [|done]. cbn [mbind result_bind] in H.
  destruct post_route as (rt & Hrt & Hact & Hhdr). rewrite Hrt in H. cbn [mbind result_bind] in H.
  destruct (routing.authorizeRoute _ _ _ _) as [acts|] eqn:Ha; [|done]. cbn [mbind result_bind] in H. injection H as <-. cbn.
  apply resolveBucket_ok in Hb as [Hname Hvis]; [|done].
  apply authorizeRoute_sound in Ha as (Hall & Hin & Hpresent). rewrite Hact in Hin. specialize (Hin ltac:(done)).
  do 4 (split; [done|]). constructor; cbn; [done| | | |by apply checkPostFields_ok].
  - rewrite Hname. done.
  - split; [exact Hin|]. intros a Hina. specialize (Hall a Hina). unfold routing.ctx_authorize, routing.resource_of in Hall. cbn in Hall.
    rewrite bool_decide_false in Hall by done. exact Hall.
  - intros Htag. rewrite Hhdr in Hpresent. refine (Hpresent _ ltac:(left) _). apply form_tagging; [by apply checkPostFields_ok|done].
Qed.

(** The operation is the requester's. *)
Lemma post_op_owner g r t h vr pp fs k f run :
  authorized_post g r t h vr pp fs k f = Ok run ->
  routing.OTenant (op run) = s3gw.Tenant (who run) /\ routing.OUser (op run) = s3gw.User (who run).
Proof.
  unfold authorized_post. intros H.
  repeat match type of H with
  | mbind _ ?x = Ok _ => destruct x; [|done]; cbn [mbind result_bind] in H; cbv zeta in H
  end. by injection H as <-.
Qed.

(** C8. A POST upload reaches the backend only when all of it is authorized:
    the form's policy is signed by the credential it names and covers every
    field, the bucket of the URL and the key with the file name substituted
    included; the identity is that of the key the store returns for it; that
    identity sees the bucket and holds s3:PutObject, and whatever more its
    form fields require, on this very key; and every field is one the upload
    handles. *)
Theorem handlePostObject_secure keyfn g now r t f h run g' :
  store.StoreLaws (routing.gstore g) ->
  sigv4.reachable keyfn (verifier.signers (routing.gverifier g)) -> versioned_lookup keyfn (s3gw.secretLookup (routing.gstore g)) ->
  handlePostObject g now r t f h = (Ok run, g') ->
  post_authenticated keyfn (routing.gverifier g) now (s3gw.secretLookup (routing.gstore g)) (form_fields run) (s3gw.Verified (who run)) (limits run) /\
  (exists k, store.GetKey (routing.gstore g) (verifier.AccessKeyID (s3gw.Verified (who run))) (fget (form_fields run) "x-amz-security-token") = Ok k /\
     s3gw.Tenant (who run) = store.KTenant k /\ s3gw.User (who run) = store.User k /\ s3gw.vrPolicy (who run) = store.KPolicy k) /\
  post_allowed t run.
Proof.
  intros HL Hc Hl H. unfold handlePostObject in H.
  destruct (routing.check _ _) as [[]|]; [|done]. cbn [mbind result_bind] in H.
  destruct (checkSSEC _) as [[]|]; [|done]. cbn [mbind result_bind] in H.
  destruct (readPostForm f) as [[fs0 p]|]; [|done]. cbn [mbind result_bind] in H.
  destruct (prepared fs0 (FileName p) (tbucket t)) as [[fs k]|] eqn:Hp; [|done]. cbn [mbind result_bind] in H.
  destruct (verifyPostRequest _ _ _ _ _) as [[[vr pp]|] v] eqn:Hv; [|done]. cbv zeta in H.
  injection H as H _. apply prepared_ok in Hp as (Hkey & Hbucket & Hk).
  apply authorized_post_ok in H as (-> & -> & -> & _ & Hallowed); [|done..].
  apply verifyPostRequest_ok in Hv as [Hv Hid].
  split; [|split; [exact Hid|exact Hallowed]]. exact (proj1 (post_sound _ _ _ _ _ _ _ _ Hc Hl Hv)).
Qed.


(** ** The size range *)

(** Reading a bounded file: the bytes are counted, they are a prefix of the
    file, and the end is reached only with all of it read and within the
    bound. *)
Record bounded_after (b : lengthBoundedBody source) (g : string) (err : option goerror) (b' : lengthBoundedBody source) : Prop := {
  ba_count : ln b' = ln b + Z.of_nat (strings.length g);
  ba_max : lmax b' = lmax b;
  ba_split : data (lr b) = g +:+ data (lr b');
  ba_last : last (lr b') = last (lr b);
  ba_end : forall e, err = Some e -> chunked.is_EOF e = true -> data (lr b') = "" /\ e = last (lr b) /\ ln b' <= lmax b }.

Lemma bounded_read_ok (b : lengthBoundedBody source) len c got err b' :
  read b len c = (got, err, b') -> bounded_after b got err b'.
Proof.
  unfold read at 1, bounded_reader, bounded_read. destruct (read (lr b) len c) as [[g e] r] eqn:Hr.
  apply source_read_ok in Hr as (Hs & Hl & _ & He). cbv zeta. cbn [lmax ln].
  destruct (Z.ltb_spec (lmax b) (ln b + Z.of_nat (strings.length g))); intros [= <- <- <-]; constructor; cbn [ln lmax lr]; try done.
  - intros e' [= <-] H'. done.
  - intros e' -> _. destruct He as [He|[[= ->] He]]; done.
Qed.

Lemma bounded_reads_ok l : forall (b : lengthBoundedBody source) g err b', reads b l = (g, err, b') -> bounded_after b g err b'.
Proof.
  induction l as [|[len c] l IH]; intros b g err b' H; cbn [reads] in H.
  { injection H as <- <- <-. constructor; cbn; try done. lia. }
  destruct (read b len c) as [[got e] b1] eqn:Hr. apply bounded_read_ok in Hr as [Hc Hm Hs Hl He].
  destruct e as [e|]; [injection H as <- <- <-; constructor; auto|].
  destruct (reads b1 l) as [[more e] b2] eqn:Hl2. injection H as <- <- <-. apply IH in Hl2 as [Hc' Hm' Hs' Hl' He'].
  constructor; [rewrite length_append, Nat2Z.inj_add; lia|congruence|by rewrite append_assoc, <- Hs'|congruence|].
  intros e' Ee Eof. destruct (He' e' Ee Eof) as (-> & -> & Hle). rewrite Hl, <- Hm. auto.
Qed.

(** What the upload relies on in the backend's client: it reads the body it is
    given, says how much it read, and reports success only for a body it read
    to the end. *)
Definition reads_the_body (be : client) : Prop :=
  forall i b a n, be _ (PutObject i (Form b)) = (a, n) ->
    exists l g err b', reads b l = (g, err, b') /\ n = ln b' /\ (is_ok a = true -> exists e, err = Some e /\ chunked.is_EOF e = true).

(** The upload's steps, on every answer of the backend. *)
Definition post_body (f : part) (pp : PostPolicy) : upload := Form {| lr := file_source f; ln := 0; lmax := MaxLength pp |}.

Definition put_call (c : ctx) (fs : fields) (f : part) (pp : PostPolicy) (enc : string * option string) : call (answer PutObjectOutput * Z) :=
  PutObject (post_input c fs enc.1 enc.2) (post_body f pp).

Lemma post_answer_ok c redirect fs etag be w :
  trace be (post_answer c redirect fs etag w) = [] /\ (run be (post_answer c redirect fs etag w)).1 = Ok tt.
Proof. unfold post_answer. cbv zeta. repeat case_match; done. Qed.

Definition post_outcome (c : ctx) (fs : fields) (f : part) (pp : PostPolicy) (be : client)
    (calls : list {X & call X}) (out : result s3err.Error unit) : Prop :=
  match headers.applySSE (ckms c) (postFieldHeader (map_to_list fs)) with
  | Err e => calls = [] /\ out = Err e
  | Ok enc =>
    match be _ (put_call c fs f pp enc) with
    | (Err e, _) => calls = [existT _ (put_call c fs f pp enc)] /\ out = Err (s3err.FromSDKError (ferr e) (path c))
    | (Ok o, n) =>
      if n <? MinLength pp
      then calls = [existT _ (put_call c fs f pp enc); existT _ (DeleteObject (undo_input c o))] /\ out = Err entity_too_small
      else calls = [existT _ (put_call c fs f pp enc)] /\ out = Ok tt
    end
  end.

Lemma postPutObject_outcome c redirect fs f pp be w :
  post_outcome c fs f pp be (trace be (postPutObject c redirect fs f pp w)) (run be (postPutObject c redirect fs f pp w)).1.
Proof.
  unfold post_outcome, postPutObject, mbind, handler_bind, lift. cbn [bind].
  destruct (headers.applySSE _ _) as [[sse kms]|e]; [|done]. cbn [bind]. unfold invoke. cbn [bind trace run].
  unfold put_call, post_body. cbn [fst snd]. destruct (be _ (PutObject _ _)) as [[o|e] n]; [|done]. cbn [or_fail mret handler_ret bind].
  destruct (n <? MinLength pp); [done|]. cbn [bind]. unfold setResponse. cbn [bind].
  set (w1 := if OpResponse_empty _ then _ else _).
  unfold set, set_opt. destruct (PutObjectOutput_VersionId o); unfold set, upd_header; cbn [bind mret handler_ret];
    match goal with |- context [post_answer ?a ?b ?d ?e ?x] => destruct (post_answer_ok a b d e be x) as [-> ->] end; done.
Qed.

(** C10. The size range of the policy bounds what a POST upload leaves behind:
    an upload answered with success stored the whole file of the form, of at
    least the minimum and at most the maximum size; one that the backend took
    below the minimum is deleted again, the very version written, and refused;
    and no other call is made. *)
Theorem postPutObject_sized c redirect fs f pp be w :
  reads_the_body be ->
  let calls := trace be (postPutObject c redirect fs f pp w) in
  let out := (run be (postPutObject c redirect fs f pp w)).1 in
  post_outcome c fs f pp be calls out /\
  (out = Ok tt -> broken f = None /\ MinLength pp <= Z.of_nat (strings.length (content f)) <= MaxLength pp).
Proof.
  intros Hbe. cbv zeta. pose proof (postPutObject_outcome c redirect fs f pp be w) as Hout. split; [exact Hout|].
  unfold post_outcome in Hout. intros Hok. rewrite Hok in Hout.
  destruct (headers.applySSE _ _) as [enc|e]; [|by destruct Hout].
  destruct (be _ (put_call c fs f pp enc)) as [[o|e] n] eqn:Hput; [|by destruct Hout].
  destruct (Z.ltb_spec n (MinLength pp)) as [|Hmin]; [by destruct Hout|].
  apply Hbe in Hput as (l & g & err & b' & Hr & -> & Hend). destruct (Hend eq_refl) as (e & -> & He).
  apply bounded_reads_ok in Hr as [Hc Hm Hs Hl Hf]. destruct (Hf e eq_refl He) as (Hd & -> & Hle). cbn [ln lmax lr] in *.
  unfold file_source in *. cbn [data last] in *. rewrite Hd, append_nil_r in Hs. subst g.
  destruct (broken f); [done|]. split; [done|]. lia.
Qed.

(** ** An upload on which the theorems apply *)

(** The tenant's own bucket. *)
Definition own_bucket : store.Bucket :=
  {| store.Tenant := "tenant-b"; store.Name := "photos"; store.BBackend := demo_backend; store.CreatedAt := 0;
     store.PolicyText := ""; store.BPolicy := None; store.CORS := []; store.BMetadata := None |}.

Definition own_store : store.Store :=
  {| store.GetKey := store.GetKey demo_store;
     store.GetBucket t n := if bool_decide (t = "tenant-b") && bool_decide (n = "photos") then Ok own_bucket else Err (Sentinel store.ErrNotFound);
     store.GetBucketByName n := if bool_decide (n = "photos") then Ok own_bucket else Err (Sentinel store.ErrNotFound);
     store.ListBuckets t := Ok [] |}.

Lemma own_store_laws : store.StoreLaws own_store.
Proof.
  constructor; simpl; intros.
  - case_bool_decide; simpl in *; [|done]. case_bool_decide; simpl in *; [|done]. by simplify_eq.
  - case_bool_decide; by simplify_eq.
  - case_bool_decide; by simplify_eq.
  - case_bool_decide; simplify_eq. rewrite bool_decide_false by (simpl in *; congruence). simpl. eauto.
  - case_bool_decide; simplify_eq. rewrite andb_false_r. eauto.
Qed.

Definition own_gateway : routing.Gateway :=
  {| routing.gstore := own_store; routing.gverifier := demo_verifier; routing.vhostSuffix := ""; routing.checksums := demo_checksums;
     routing.backendClient := fun _ => Ok tt |}.

Definition field_part (kv : string * string) : part := {| FormName := kv.1; FileName := ""; content := kv.2; broken := None |}.
Definition demo_file : part := {| FormName := "file"; FileName := "a.png"; content := "image"; broken := None |}.

(** The key of the form names the uploaded file. *)
Definition demo_form : form :=
  {| reader_error := None; ending := None;
     parts := map field_part (map_to_list (<["key" := "user/${filename}"]> (delete "bucket" demo_fields))) ++ [demo_file] |}.

Definition demo_target : target := {| tbucket := "photos"; tkey := ""; vhost := false |}.

#[local] Notation demo_post := (handlePostObject own_gateway demo_now (demo_request "" []) demo_target demo_form []).

Lemma handlePostObject_secure_witness :
  match demo_post.1 with
  | Ok run => routing.OKey (op run) = "user/a.png" /\ s3gw.User (who run) = "bob" /\ post_allowed demo_target run
  | Err _ => False
  end.
Proof.
  assert (match demo_post.1 with
          | Ok run => bool_decide (routing.OKey (op run) = "user/a.png") && bool_decide (s3gw.User (who run) = "bob")
          | Err _ => false end = true) as H by vm_refl.
  destruct demo_post as [[run|e] g'] eqn:E; simpl in H; [|discriminate H].
  apply andb_true_iff in H as [H1%bool_decide_eq_true H2%bool_decide_eq_true]. split; [exact H1|]. split; [exact H2|].
  exact (proj2 (proj2 (handlePostObject_secure sigv4.demo_keyfn own_gateway demo_now (demo_request "" []) demo_target demo_form [] run g'
    own_store_laws (sigv4.reach_new _ _ _) demo_store_versioned E))).
Defined.

(** A backend that reads what it is given, and stores it if it reads to the
    end. *)
Definition storing : client := fun X k =>
  match k in call X return X with
  | PutObject _ (Form b) =>
    let '(g, err, b') := reads b one_read in
    (match err with
     | Some e => if chunked.is_EOF e then Ok {| PutObjectOutput_ETag := Some "etag"; PutObjectOutput_VersionId := None;
         PutObjectOutput_ServerSideEncryption := ""; PutObjectOutput_SSEKMSKeyId := None; PutObjectOutput_Checksum := setChecksums ∅;
         PutObjectOutput_ChecksumType := "" |}
                 else Err {| ferr := e; fheaders := None |}
     | None => Err outage
     end, ln b')
  | PutObject _ _ => (Err outage, 0)
  | _ => Err outage
  end.

Lemma storing_reads : reads_the_body storing.
Proof.
  intros i b a n H. unfold storing in H. destruct (reads b one_read) as [[g err] b'] eqn:E. injection H as <- <-.
  exists one_read, g, err, b'. split; [done|]. split; [done|]. destruct err as [e|]; [|done]. destruct (chunked.is_EOF e) eqn:He; [eauto|done].
Qed.

Definition range (min max : Z) : PostPolicy := {| Expiration := 0; MinLength := min; MaxLength := max |}.

Lemma postPutObject_sized_witness :
  (run storing (postPutObject (demo_ctx demo_carol "user/a.png" "") (fun _ _ _ _ => None) demo_fields demo_file (range 1 1024) empty_writer)).1 = Ok tt /\
  1 <= Z.of_nat (strings.length (content demo_file)) <= 1024.
Proof.
  assert ((run storing (postPutObject (demo_ctx demo_carol "user/a.png" "") (fun _ _ _ _ => None) demo_fields demo_file (range 1 1024) empty_writer)).1 = Ok tt)
    as H by vm_refl.
  split; [exact H|].
  exact (proj2 (proj2 (postPutObject_sized (demo_ctx demo_carol "user/a.png" "") (fun _ _ _ _ => None) demo_fields demo_file (range 1 1024) storing empty_writer
    storing_reads) H)).
Defined.
