(* ===== verification/Pipeline.v ===== *)
(** * Serving one request (src/s3gw/handler.go, intercept.go, observe.go,
      panic.go)

    The wrappers every handler runs under: the response writer that counts and
    paces, the counting request body, the hooks around an operation, and the
    boundary that answers, records and recovers.

    A handler, or a hook, is a program over the connection and the backend: the
    steps it can take are the constructors of [prog], and what it does between
    them is any function.  The connection itself, the backend and the service's
    limiters are the environment, a record of operations with the laws
    [io.Writer] and [io.Reader] document. *)

From S2P Require Import Prelude Unicode GoStrings GoNet GoError JSON XML Signer Store Authorize Routing Sdk.

Open Scope Z_scope.

Module pipeline.

Inductive panic_value := ErrAbortHandler | PanicValue (v : string).

(** ** The environment *)

Record Env (E : Type) := {
  wait_in : E -> Z -> option goerror * E;
  wait_out : E -> Z -> option goerror * E;
  send_header : E -> http.Header -> Z -> E;
  send : E -> string -> nat * option goerror * E;
  recv : E -> nat -> string * option goerror * E;
  backend : forall X, E -> sdk.call X -> X * E }.
Arguments wait_in {E}. Arguments wait_out {E}. Arguments send_header {E}. Arguments send {E}. Arguments recv {E}. Arguments backend {E} _ {X}.

Class EnvLaws {E} (io : Env E) : Prop := {
  send_len e p n err e' : send io e p = (n, err, e') -> (n <= strings.length p)%nat;
  send_short e p n err e' : send io e p = (n, err, e') -> (n < strings.length p)%nat -> err <> None;
  recv_len e k s err e' : recv io e k = (s, err, e') -> (strings.length s <= k)%nat }.

Definition kib : Z := 1024.
Definition waitChunk : Z := 32 * kib.

(** What a request leaves for the record: the identity proved, or the key that
    was presented. *)
Record identity := { rTenant : string; rUser : string; rAccessKeyID : string; rOp : option routing.Op }.

(** [statusWriter], [countingBody], the byte counts of the operation and the
    record being assembled; [sent] is the status line net/http has sent, the
    [wroteHeader] of the writer underneath. *)
Record conn (E : Type) := {
  env : E;
  hdrs : http.Header;
  status : Z;
  started : bool;
  sent : option Z;
  written : Z;
  out_limited : bool;
  nread : Z;
  in_limited : bool;
  BytesIn : Z;
  BytesOut : Z;
  who : identity }.
Arguments env {E}. Arguments hdrs {E}. Arguments status {E}. Arguments started {E}. Arguments sent {E}. Arguments written {E}. Arguments out_limited {E}.
Arguments nread {E}. Arguments in_limited {E}. Arguments BytesIn {E}. Arguments BytesOut {E}. Arguments who {E}.

Section Serve.
Context {E : Type} (io : Env E).

Definition set_env (w : conn E) (e : E) : conn E :=
  {| env := e; hdrs := hdrs w; status := status w; started := started w; sent := sent w; written := written w; out_limited := out_limited w;
     nread := nread w; in_limited := in_limited w; BytesIn := BytesIn w; BytesOut := BytesOut w; who := who w |}.

(** ** Pacing *)

(** [waitBandwidth]; one step per chunk. *)
Fixpoint waitBandwidth (fuel : nat) (wait : E -> Z -> option goerror * E) (e : E) (n : Z) : option goerror * E :=
  match fuel with
  | O => (None, e)
  | S f =>
    if 0 <? n then
      let c := Z.min n waitChunk in
      match wait e c with
      | (Some err, e) => (Some err, e)
      | (None, e) => waitBandwidth f wait e (n - c)
      end
    else (None, e)
  end.

(** ** The response writer *)

Definition start (w : conn E) : conn E :=
  {| env := env w; hdrs := hdrs w; status := status w; started := true; sent := sent w; written := written w; out_limited := out_limited w;
     nread := nread w; in_limited := in_limited w; BytesIn := BytesIn w; BytesOut := BytesOut w; who := who w |}.

(** net/http's own [WriteHeader]: a second status line is logged and dropped, a
    code outside 100..999 panics, and an informational one (1xx but 101) goes
    out without being the status line of the response. *)
Definition informational (st : Z) : bool := (100 <=? st) && (st <=? 199) && negb (st =? 101).

Definition http_WriteHeader (w : conn E) (st : Z) : option panic_value * conn E :=
  match sent w with
  | Some _ => (None, w)
  | None =>
    if (st <? 100) || (999 <? st) then (Some (PanicValue ("invalid WriteHeader code " +:+ strconv.FormatInt st)), w)
    else (None, {| env := send_header io (env w) (hdrs w) st; hdrs := hdrs w; status := status w; started := started w;
                   sent := if informational st then None else Some st; written := written w; out_limited := out_limited w;
                   nread := nread w; in_limited := in_limited w; BytesIn := BytesIn w; BytesOut := BytesOut w; who := who w |})
  end.

Definition WriteHeader (w : conn E) (st : Z) : option panic_value * conn E :=
  http_WriteHeader
    {| env := env w; hdrs := hdrs w; status := st; started := true; sent := sent w; written := written w; out_limited := out_limited w;
       nread := nread w; in_limited := in_limited w; BytesIn := BytesIn w; BytesOut := BytesOut w; who := who w |} st.

(** The underlying [Write], which sends the status line 200 if none was sent,
    counted. *)
Definition send_counted (w : conn E) (p : string) : nat * option goerror * conn E :=
  let w := (http_WriteHeader w 200).2 in
  let '(n, err, e) := send io (env w) p in
  (n, err, {| env := e; hdrs := hdrs w; status := status w; started := started w; sent := sent w; written := wrap64 (written w + Z.of_nat n);
              out_limited := out_limited w; nread := nread w; in_limited := in_limited w; BytesIn := BytesIn w; BytesOut := BytesOut w; who := who w |}).

Definition chunk_len : nat := Z.to_nat waitChunk.

(** The paced loop of [Write] over what is left of [p]. *)
Fixpoint write_loop (fuel : nat) (w : conn E) (p : string) (total : nat) : nat * option goerror * conn E :=
  match fuel with
  | O => (total, None, w)
  | S f =>
    if (strings.length p =? 0)%nat then (total, None, w)
    else
      let len := Nat.min chunk_len (strings.length p) in
      match wait_out io (env w) (Z.of_nat len) with
      | (Some err, e) => (total, Some err, set_env w e)
      | (None, e) =>
        let '(n, err, w) := send_counted (set_env w e) (strings.take len p) in
        match err with
        | Some err => ((total + n)%nat, Some err, w)
        | None => write_loop f w (strings.drop n p) (total + n)
        end
      end
  end.

Definition Write (w : conn E) (p : string) : nat * option goerror * conn E :=
  let w := start w in
  if negb (out_limited w) then send_counted w p
  else write_loop (strings.length p) w p 0.

(** ** The request body *)

Definition Read (w : conn E) (k : nat) : string * option goerror * conn E :=
  let '(s, err, e) := recv io (env w) k in
  let n := strings.length s in
  let w := {| env := e; hdrs := hdrs w; status := status w; started := started w; sent := sent w; written := written w; out_limited := out_limited w;
              nread := wrap64 (nread w + Z.of_nat n); in_limited := in_limited w; BytesIn := BytesIn w; BytesOut := BytesOut w; who := who w |} in
  if (0 <? n)%nat && in_limited w then
    match waitBandwidth n (wait_in io) e (Z.of_nat n) with
    | (Some werr, e) => (s, Some werr, set_env w e)
    | (None, e) => (s, err, set_env w e)
    end
  else (s, err, w).

(** ** Programs *)

Inductive prog (A : Type) :=
| Ret (a : A)
| Raise (v : panic_value)
| DoHeader (f : http.Header -> http.Header) (next : prog A)
| DoPeek (next : http.Header -> prog A)
| DoWriteHeader (st : Z) (next : prog A)
| DoWrite (p : string) (next : nat -> option goerror -> prog A)
| DoRead (k : nat) (next : string -> option goerror -> prog A)
| DoLimit (lin lout : bool) (next : prog A)
| DoCount (next : prog A)
| DoLoad (next : Z -> Z -> prog A)
| DoRecord (i : identity) (next : prog A)
| DoCall {X : Type} (c : sdk.call X) (next : X -> prog A).
Arguments Ret {A}. Arguments Raise {A}. Arguments DoHeader {A}. Arguments DoPeek {A}. Arguments DoWriteHeader {A}. Arguments DoWrite {A}. Arguments DoRead {A}.
Arguments DoLimit {A}. Arguments DoCount {A}. Arguments DoLoad {A}. Arguments DoRecord {A}. Arguments DoCall {A X}.

Fixpoint bind {A B} (p : prog A) (k : A -> prog B) : prog B :=
  match p with
  | Ret a => k a
  | Raise v => Raise v
  | DoHeader f p => DoHeader f (bind p k)
  | DoPeek f => DoPeek (fun h => bind (f h) k)
  | DoWriteHeader st p => DoWriteHeader st (bind p k)
  | DoWrite s f => DoWrite s (fun n e => bind (f n e) k)
  | DoRead n f => DoRead n (fun s e => bind (f s e) k)
  | DoLimit i o p => DoLimit i o (bind p k)
  | DoCount p => DoCount (bind p k)
  | DoLoad f => DoLoad (fun i o => bind (f i o) k)
  | DoRecord i p => DoRecord i (bind p k)
  | DoCall c f => DoCall c (fun x => bind (f x) k)
  end.

Definition upd_header (w : conn E) (f : http.Header -> http.Header) : conn E :=
  {| env := env w; hdrs := f (hdrs w); status := status w; started := started w; sent := sent w; written := written w; out_limited := out_limited w;
     nread := nread w; in_limited := in_limited w; BytesIn := BytesIn w; BytesOut := BytesOut w; who := who w |}.

Definition set_header (w : conn E) (k v : string) : conn E := upd_header w (fun h => http.HSet h k v).

(** [setBandwidthLimiters]: a nil limiter leaves the direction as it is. *)
Definition setBandwidthLimiters (w : conn E) (lin lout : bool) : conn E :=
  {| env := env w; hdrs := hdrs w; status := status w; started := started w; sent := sent w; written := written w; out_limited := lout || out_limited w;
     nread := nread w; in_limited := lin || in_limited w; BytesIn := BytesIn w; BytesOut := BytesOut w; who := who w |}.

(** [transferred], assigned to the operation. *)
Definition transferred (w : conn E) : conn E :=
  {| env := env w; hdrs := hdrs w; status := status w; started := started w; sent := sent w; written := written w; out_limited := out_limited w;
     nread := nread w; in_limited := in_limited w; BytesIn := nread w; BytesOut := written w; who := who w |}.

Definition set_who (w : conn E) (i : identity) : conn E :=
  {| env := env w; hdrs := hdrs w; status := status w; started := started w; sent := sent w; written := written w; out_limited := out_limited w;
     nread := nread w; in_limited := in_limited w; BytesIn := BytesIn w; BytesOut := BytesOut w; who := i |}.

Fixpoint exec {A} (p : prog A) (w : conn E) : (A + panic_value) * conn E :=
  match p with
  | Ret a => (inl a, w)
  | Raise v => (inr v, w)
  | DoHeader f p => exec p (upd_header w f)
  | DoPeek f => exec (f (hdrs w)) w
  | DoWriteHeader st p =>
    match WriteHeader w st with
    | (None, w) => exec p w
    | (Some v, w) => (inr v, w)
    end
  | DoWrite s f => let '(n, err, w) := Write w s in exec (f n err) w
  | DoRead k f => let '(s, err, w) := Read w k in exec (f s err) w
  | DoLimit i o p => exec p (setBandwidthLimiters w i o)
  | DoCount p => exec p (transferred w)
  | DoLoad f => exec (f (BytesIn w) (BytesOut w)) w
  | DoRecord i p => exec p (set_who w i)
  | DoCall c f => let '(x, e) := backend io (env w) c in exec (f x) (set_env w e)
  end.

(** ** Hooks around an operation *)

Definition handlerFunc := prog (option goerror).
Definition Interceptor := handlerFunc -> handlerFunc.

(** [wrapInterceptor]. *)
Definition wrapInterceptor (i : Interceptor) (next : handlerFunc) : handlerFunc := i next.

(** [runOp]; [bandwidthLimit] is which of the limiters the service's hook
    returned, when it has one. *)
Definition runOp (authorizer : option handlerFunc) (bandwidthLimit : option (bool * bool)) (interceptors : list Interceptor) (run : handlerFunc) : handlerFunc :=
  bind (match authorizer with Some a => a | None => Ret None end) (fun err =>
    match err with
    | Some err => Ret (Some err)
    | None =>
      let next := bind run (fun err => DoCount (Ret err)) in
      let chain := fold_left (fun next i => wrapInterceptor i next) (rev interceptors) next in
      match bandwidthLimit with
      | Some (i, o) => DoLimit i o chain
      | None => chain
      end
    end).

(** ** The request boundary *)

(** [redactQuery]. *)
Definition redacted_key (k : string) : bool :=
  bool_decide (strings.ToLower k ∈ ["x-amz-signature"; "x-amz-security-token"]).
Definition redactQuery (q : values) : string :=
  url.Encode (map (fun '(k, vs) => (k, if redacted_key k then ["REDACTED"] else vs)) q).

Record RequestInfo := {
  IMethod : string;
  IPath : string;
  IRemoteAddr : string;
  IRawQuery : string;
  IRequestID : string;
  IStatus : Z;
  ICode : string;
  IWho : identity;
  IErr : option goerror;
  IBytesIn : Z;
  IBytesOut : Z }.

(** [recordPresentedKey] on the record, for a refused authentication: the key
    that was claimed, which proves nothing. *)
Definition recordPresentedKey (i : identity) (s3e : s3err.Error) : identity :=
  match errors.As (fun x => match x with Auth _ akid _ _ => Some akid | _ => None end) (s3err.as_error s3e) with
  | Some akid => {| rTenant := rTenant i; rUser := rUser i; rAccessKeyID := akid; rOp := rOp i |}
  | None => i
  end.

(** What the record is told once the signature has verified. *)
Definition recordIdentity (i : identity) (tenant user akid : string) : identity :=
  {| rTenant := tenant; rUser := user; rAccessKeyID := akid; rOp := rOp i |}.

(** [newRequestID]: the service's id unless it is empty. *)
Definition newRequestID (requestID : option (http.Request -> string)) (random : string) (r : http.Request) : string :=
  match requestID with
  | Some f => if bool_decide (f r = "") then random else f r
  | None => random
  end.

(** The text of a message; [quoted] is [strconv.Quote]. *)
Definition message_text (quoted : string -> string) (m : message) : string :=
  foldr (fun x acc => match x with FS s => s | FQ s => quoted s | FD n => strconv.FormatInt n end +:+ acc) "" m.

Definition error_xml (quoted : string -> string) (e : s3err.Error) : xml.node :=
  xml.Elem "Error" [] (xml.text "Code" (s3err.Code e) ++ xml.text "Message" (message_text quoted (s3err.Message e)) ++
    xml.omitempty "Resource" (s3err.Resource e) ++ xml.omitempty "RequestId" (s3err.RequestID e)).

(** [s3err.Write] on the counting writer; its [WriteHeader] may panic. *)
Definition write_error (quoted : string -> string) (w : conn E) (r : http.Request) (e : s3err.Error) (requestID : string)
    : option panic_value * conn E :=
  let reply := s3err.Write (http.Method r) (url.Path (http.URL r)) e requestID in
  match s3err.RBody reply with
  | None => WriteHeader w (s3err.RStatus reply)
  | Some doc =>
    match WriteHeader (set_header w "Content-Type" "application/xml") (s3err.RStatus reply) with
    | (Some v, w) => (Some v, w)
    | (None, w) =>
      let '(_, _, w) := Write w xml.Header in
      let '(_, _, w) := Write w (xml.Marshal (error_xml quoted doc)) in
      (None, w)
    end
  end.

(** What [report] tells: the S3 error the failure is answered as. *)
Definition answered (err : goerror) : s3err.Error :=
  match s3err.AsError err with
  | Some e => e
  | None => s3err.Internal err "We encountered an internal error. Please try again."
  end.

(** [report]: the record the observer was handed, if it has one, or the panic
    of the writer, before which nothing is recorded. *)
Definition report (quoted : string -> string) (observer : bool) (r : http.Request) (requestID : string) (err : option goerror) (w : conn E)
    : (option RequestInfo + panic_value) * conn E :=
  let '(code, cause, panicked, w) :=
    match err with
    | None => ("", None, None, w)
    | Some err =>
      let s3e := answered err in
      if started w then ("", s3err.Unwrap s3e, None, w)
      else
        let '(panicked, w) := write_error quoted w r s3e requestID in
        (s3err.Code s3e, s3err.Unwrap s3e, panicked, w)
    end in
  match panicked with
  | Some v => (inr v, w)
  | None =>
    (inl (if observer then Some
       {| IMethod := http.Method r; IPath := url.Path (http.URL r); IRemoteAddr := http.RemoteAddr r;
          IRawQuery := redactQuery (url.Query (http.URL r)); IRequestID := requestID; IStatus := status w; ICode := code;
          IWho := who w; IErr := cause; IBytesIn := nread w; IBytesOut := written w |}
     else None), w)
  end.

Inductive served := Served | Aborted.

(** [PanicError] as the cause. *)
Definition panic_error (v : panic_value) : goerror :=
  match v with PanicValue s => Panic s | ErrAbortHandler => Panic "net/http: abort Handler" end.

(** [wrapHandler]: how the connection ends, the record handed to the observer,
    and the connection.  The observer's own panic is swallowed, so it changes
    nothing here.  A panic of [report] itself is recovered too, but [reported]
    is set by then: nothing more is told, and a response that has begun is cut
    off; one out of the deferred function goes to net/http, which drops the
    connection. *)
Definition wrapHandler (quoted : string -> string) (observer : bool) (r : http.Request) (requestID : string) (h : handlerFunc) (w : conn E)
    : served * option RequestInfo * conn E :=
  let w := set_header w "x-amz-request-id" requestID in
  match exec h w with
  | (inl err, w) =>
    match report quoted observer r requestID err w with
    | (inl info, w) => (Served, info, w)
    | (inr ErrAbortHandler, w) => (Aborted, None, w)
    | (inr _, w) => (if started w then Aborted else Served, None, w)
    end
  | (inr ErrAbortHandler, w) => (Aborted, None, w)
  | (inr v, w) =>
    let began := started w in
    match report quoted observer r requestID (Some (panic_error v)) w with
    | (inl info, w) => (if began then Aborted else Served, info, w)
    | (inr _, w) => (Aborted, None, w)
    end
  end.

(** What net/http does when the handler has returned: the status line 200 if
    none was sent. *)
Definition finishRequest (w : conn E) : conn E := (http_WriteHeader w 200).2.

(** The connection a request starts with. *)
Definition new_conn (e : E) : conn E :=
  {| env := e; hdrs := []; status := 200; started := false; sent := None; written := 0; out_limited := false; nread := 0; in_limited := false;
     BytesIn := 0; BytesOut := 0; who := {| rTenant := ""; rUser := ""; rAccessKeyID := ""; rOp := None |} |}.

End Serve.

Arguments Ret {A}. Arguments Raise {A}. Arguments DoHeader {A}. Arguments DoPeek {A}. Arguments DoWriteHeader {A}. Arguments DoWrite {A}. Arguments DoRead {A}.
Arguments DoLimit {A}. Arguments DoCount {A}. Arguments DoLoad {A}. Arguments DoRecord {A}. Arguments DoCall {A X}.

End pipeline.
