(* ===== verification/PipelineFacts.v ===== *)
(** * Correctness of the request boundary and the hooks

    Every request is answered at most once and recorded exactly once, a
    response that has begun is never followed by an error document, paced
    bodies never run ahead of their limiter, and the hooks run in order around
    the operation. *)

From S2P Require Import Prelude Unicode GoStrings GoNet GoError JSON XML Signer Store Authorize Routing Sdk Pipeline.
Import pipeline.

Open Scope Z_scope.

(** ** A connection that keeps a log *)

(** A wait is logged with whether the limiter granted it, a backend call with
    its answer. *)
Inductive event :=
| EvWait (n : Z) (granted : bool)
| EvWaitIn (n : Z) (granted : bool)
| EvHeader (st : Z)
| EvBody (s : string)
| EvCall (c : {X & (sdk.call X * X)%type}).

Definition wait_ok (err : option goerror) : bool := match err with None => true | Some _ => false end.

Definition logged {E} (io : Env E) : Env (E * list event) := {|
  wait_in := fun e n => let '(err, e') := wait_in io e.1 n in (err, (e', e.2 ++ [EvWaitIn n (wait_ok err)]));
  wait_out := fun e n => let '(err, e') := wait_out io e.1 n in (err, (e', e.2 ++ [EvWait n (wait_ok err)]));
  send_header := fun e h st => (send_header io e.1 h st, e.2 ++ [EvHeader st]);
  send := fun e p => let '(n, err, e') := send io e.1 p in (n, err, (e', e.2 ++ [EvBody (strings.take n p)]));
  recv := fun e k => let '(s, err, e') := recv io e.1 k in (s, err, (e', e.2));
  backend := fun X e c => let '(x, e') := backend io e.1 c in (x, (e', e.2 ++ [EvCall (existT X (c, x))])) |}.

Definition log {E} (w : conn (E * list event)) : list event := (env w).2.

(** What the client was sent: the status lines and the body. *)
Definition is_answer (ev : event) : bool := match ev with EvHeader _ | EvBody _ => true | _ => false end.
Definition answer (l : list event) : list event := filter (fun ev => is_answer ev = true) l.
Definition body (l : list event) : string := foldr (fun ev acc => match ev with EvBody s => s | _ => "" end +:+ acc) "" l.
(** The status lines of the response, informational ones left out. *)
Definition statuses (l : list event) : list Z :=
  omap (fun ev => match ev with EvHeader st => if informational st then None else Some st | _ => None end) l.
Definition body_bytes (l : list event) : Z := Z.of_nat (strings.length (body l)).

Lemma body_app a b : body (a ++ b) = body a +:+ body b.
Proof. induction a as [|ev a IH]; [done|]. cbn [app body foldr]. fold (body (a ++ b)). rewrite IH. fold (body a). by rewrite append_assoc. Qed.

Lemma body_bytes_app a b : body_bytes (a ++ b) = body_bytes a + body_bytes b.
Proof. unfold body_bytes. rewrite body_app, length_append. lia. Qed.

Lemma answer_app a b : answer (a ++ b) = answer a ++ answer b.
Proof. apply filter_app. Qed.

Lemma statuses_app a b : statuses (a ++ b) = statuses a ++ statuses b.
Proof. apply omap_app. Qed.

Lemma statuses_answer l : answer l = [] -> statuses l = [].
Proof.
  induction l as [|ev l IH]; [done|]. unfold answer. rewrite filter_cons. destruct (decide _) as [|Hn]; [done|]. intros H.
  change (statuses (ev :: l)) with (statuses ([ev] ++ l)). rewrite statuses_app, IH by done. by destruct ev.
Qed.

Lemma wrap64_add a b : wrap64 (wrap64 a + b) = wrap64 (a + b).
Proof.
  unfold wrap64. f_equal. replace ((a + 2 ^ 63) `mod` 2 ^ 64 - 2 ^ 63 + b + 2 ^ 63) with ((a + 2 ^ 63) `mod` 2 ^ 64 + b) by lia.
  rewrite Zplus_mod_idemp_l. f_equal. lia.
Qed.

Lemma length_take n s : strings.length (strings.take n s) = Nat.min n (strings.length s).
Proof. revert s. induction n as [|n IH]; intros [|c s]; [done..|]. change (S (strings.length (strings.take n s)) = S (Nat.min n (strings.length s))). by rewrite IH. Qed.

Lemma length_drop n s : strings.length (strings.drop n s) = (strings.length s - n)%nat.
Proof. revert s. induction n as [|n IH]; intros [|c s]; [done..|]. change (strings.length (strings.drop n s) = strings.length s - n)%nat. apply IH. Qed.

Lemma take_take_drop n m s : strings.take n s +:+ strings.take m (strings.drop n s) = strings.take (n + m) s.
Proof.
  revert s. induction n as [|n IH]; intros s; [done|]. destruct s as [|c s].
  - by destruct m.
  - cbn [Nat.add strings.take strings.drop]. rewrite append_cons. by rewrite IH.
Qed.

Lemma take_short n m s : (n <= m)%nat -> strings.take n (strings.take m s) = strings.take n s.
Proof. revert m s. induction n as [|n IH]; intros [|m] [|c s] H; try done; [lia|]. cbn. f_equal. apply IH. lia. Qed.

Lemma take_all n s : (strings.length s <= n)%nat -> strings.take n s = s.
Proof. revert s. induction n as [|n IH]; intros [|c s] H; try done; [cbn in H; lia|]. cbn. f_equal. apply IH. change (S (strings.length s) <= S n)%nat in H. lia. Qed.

Section Facts.
Context {E : Type} (io : Env E) {HL : EnvLaws io}.
Notation lio := (logged io).
Notation C := (conn (E * list event)).

#[export] Instance logged_laws : EnvLaws lio.
Proof.
  constructor; cbn.
  - intros [e l] p n err e' H. cbn [fst snd] in H. destruct (send io e p) as [[n0 err0] e0] eqn:Hs. injection H as -> -> <-. exact (send_len _ _ _ _ _ Hs).
  - intros [e l] p n err e' H Hn. cbn [fst snd] in H. destruct (send io e p) as [[n0 err0] e0] eqn:Hs. injection H as -> -> <-. exact (send_short _ _ _ _ _ Hs Hn).
  - intros [e l] k s err e' H. cbn [fst snd] in H. destruct (recv io e k) as [[s0 err0] e0] eqn:Hs. injection H as -> -> <-. exact (recv_len _ _ _ _ _ Hs).
Qed.

(** *** Pacing *)

(** Slices, each sent after a wait for at least its size was granted, the first
    with the status line if that is still to be sent; a refused wait ends the
    body. *)
Inductive paced : list event -> Prop :=
| paced_nil : paced []
| paced_refused k : 0 < k <= waitChunk -> paced [EvWait k false]
| paced_slice k hd s l : 0 < k <= waitChunk -> hd = [] \/ hd = [EvHeader 200] -> Z.of_nat (strings.length s) <= k -> paced l ->
    paced (EvWait k true :: hd ++ EvBody s :: l).

Lemma wrap64_idem z : wrap64 (wrap64 z) = wrap64 z.
Proof. pose proof (wrap64_add z 0) as H. by rewrite !Z.add_0_r in H. Qed.

Definition same_rest (w w' : C) : Prop :=
  status w' = status w /\ started w' = started w /\ nread w' = nread w /\ who w' = who w /\ out_limited w' = out_limited w.

(** What a write leaves: the bytes accepted appended to the log and counted,
    after the status line 200 if none was sent; the rest of the connection as
    it was. *)
Record wrote (w w' : C) (evs : list event) (out : string) : Prop := {
  wr_log : log w' = log w ++ evs;
  wr_body : body evs = out;
  wr_answer : Forall (fun ev => is_answer ev = true -> (exists s, ev = EvBody s) \/ ev = EvHeader 200) evs;
  wr_status : option_list (sent w') = option_list (sent w) ++ statuses evs;
  wr_written : wrap64 (written w) = written w -> written w' = wrap64 (written w + Z.of_nat (strings.length out));
  wr_rest : same_rest w w' }.

Lemma wrote_none (w w' : C) evs : log w' = log w ++ evs -> Forall (fun ev => is_answer ev = false) evs ->
  written w' = written w -> sent w' = sent w -> same_rest w w' -> wrote w w' evs "".
Proof.
  intros Hl Ha Hw Hs Hr. constructor; [done| | | |intros Hi; rewrite Hw; cbn; by rewrite Z.add_0_r|done].
  - clear Hl. induction Ha as [|ev evs Hev _ IH]; [done|]. cbn [body foldr]. fold (body evs). rewrite IH. by destruct ev.
  - eapply Forall_impl; [exact Ha|]. intros ev Hev Ht. congruence.
  - rewrite Hs. clear Hl. replace (statuses evs) with (@nil Z); [by rewrite app_nil_r|].
    induction Ha as [|ev evs Hev _ IH]; [done|]. by destruct ev.
Qed.

Lemma wrote_app (w1 w2 w3 : C) evs1 evs2 s1 s2 : wrote w1 w2 evs1 s1 -> wrote w2 w3 evs2 s2 -> wrote w1 w3 (evs1 ++ evs2) (s1 +:+ s2).
Proof.
  intros [L1 B1 A1 T1 W1 (R1 & R2 & R3 & R4 & R5)] [L2 B2 A2 T2 W2 (Q1 & Q2 & Q3 & Q4 & Q5)]. constructor.
  - by rewrite L2, L1, app_assoc.
  - by rewrite body_app, B1, B2.
  - by rewrite Forall_app.
  - by rewrite T2, T1, statuses_app, app_assoc.
  - intros Hi. specialize (W1 Hi). rewrite W2, W1, wrap64_add, length_append; [f_equal; lia|]. by rewrite W1, wrap64_idem.
  - unfold same_rest. split_and!; congruence.
Qed.

(** Once the status line was sent only the body follows. *)
Lemma wrote_bodies (w w' : C) evs out st : wrote w w' evs out -> sent w = Some st ->
  sent w' = Some st /\ Forall (fun ev => is_answer ev = true -> exists s, ev = EvBody s) evs.
Proof.
  intros [_ _ Ha Ht _ _] Hs. rewrite Hs in Ht. cbn in Ht.
  assert (statuses evs = [] /\ sent w' = Some st) as [Hn Hs'].
  { destruct (sent w'); [|done]. cbn in Ht. injection Ht as -> Hn. done. }
  split; [done|]. clear Ht. induction Ha as [|ev evs Hev _ IH]; [constructor|].
  change (ev :: evs) with ([ev] ++ evs) in Hn. rewrite statuses_app in Hn. apply app_nil in Hn as [H1 H2].
  constructor; [|auto]. intros H. destruct (Hev H) as [?| ->]; done.
Qed.

(** *** Sending *)

(** net/http's [WriteHeader] either drops the call, panics on the code, or
    sends it. *)
Lemma http_WriteHeader_log (w : C) st v w' : http_WriteHeader lio w st = (v, w') ->
  (exists evs, (evs = [] \/ evs = [EvHeader st]) /\ log w' = log w ++ evs /\ option_list (sent w') = option_list (sent w) ++ statuses evs /\
     (sent w = None -> v = None -> evs = [EvHeader st]) /\ (v <> None -> evs = [])) /\
  same_rest w w' /\ written w' = written w /\ v <> Some ErrAbortHandler /\
  (sent w = None -> v <> None <-> ~ (100 <= st <= 999)).
Proof.
  unfold http_WriteHeader. destruct (sent w) as [s0|] eqn:Hs.
  - intros [= <- <-]. split; [|done]. exists []. rewrite Hs, app_nil_r. by repeat (split; [by left|]).
  - destruct (_ || _) eqn:Hr; intros [= <- <-]; (split; [|split; [done|split; [done|split; [done|]]]]).
    + exists []. rewrite Hs, app_nil_r. by repeat (split; [by left|]).
    + intros _. split; [intros _|done]. apply orb_true_iff in Hr as [Hr|Hr]; bools; lia.
    + exists [EvHeader st]. split; [by right|]. split; [done|]. split; [|done]. cbn. by destruct (informational st).
    + intros _. split; [done|]. intros Hn. apply orb_false_iff in Hr as [? ?]. bools. destruct Hn. lia.
Qed.

Lemma http_sent (w : C) st v w' : http_WriteHeader lio w st = (v, w') ->
  sent w = None -> v = None -> informational st = false -> sent w' = Some st.
Proof. unfold http_WriteHeader. intros H Hs -> Hi. rewrite Hs in H. destruct (_ || _); [done|]. injection H as <-. cbn. by rewrite Hi. Qed.

Lemma send_counted_wrote (w : C) p n err w' : send_counted lio w p = (n, err, w') ->
  (n <= strings.length p)%nat /\ (err = None -> n = strings.length p) /\
  exists hd, (hd = [] \/ hd = [EvHeader 200]) /\ wrote w w' (hd ++ [EvBody (strings.take n p)]) (strings.take n p).
Proof.
  unfold send_counted. destruct (http_WriteHeader lio w 200) as [v w1] eqn:Hh.
  apply http_WriteHeader_log in Hh as ((hd & Hhd & Hl & Ht & _) & Hr & Hw & _). cbn [snd send logged].
  destruct (send io (env w1).1 p) as [[n0 err0] e0] eqn:Hs. intros [= -> -> <-].
  assert (n <= strings.length p)%nat as Hn by exact (send_len _ _ _ _ _ Hs). split; [done|]. split.
  { intros ->. destruct (decide (n < strings.length p)%nat) as [Hlt|]; [|lia]. exfalso. exact (send_short _ _ _ _ _ Hs Hlt eq_refl). }
  exists hd. split; [done|]. apply (wrote_app _ w1 _ _ _ "" _).
  - constructor; [done| | |done|intros Hi; rewrite Hw; cbn; by rewrite Z.add_0_r|done].
    + by destruct Hhd as [-> | ->].
    + destruct Hhd as [-> | ->]; [constructor|]. constructor; [by right|constructor].
  - constructor; [done| | | |intros _|done].
    + cbn. by rewrite append_nil_r.
    + constructor; [|constructor]. intros _. left. eauto.
    + cbn. by rewrite app_nil_r.
    + cbn. rewrite length_take. do 3 f_equal. lia.
Qed.

Lemma write_loop_paced fuel : forall (w : C) p total n err w',
  (strings.length p <= fuel)%nat -> write_loop lio fuel w p total = (n, err, w') ->
  exists evs m, n = (total + m)%nat /\ (m <= strings.length p)%nat /\ (err = None -> m = strings.length p) /\ paced evs /\ wrote w w' evs (strings.take m p).
Proof.
  assert (forall w : C, wrote w w [] "") as Hid by (intros w; apply wrote_none; [by rewrite app_nil_r|constructor|done|done|done]).
  induction fuel as [|fuel IH]; intros w p total n err w' Hf H; cbn [write_loop] in H.
  { simplify_eq. exists [], 0%nat. split_and!; [lia|lia|intros; lia|constructor|done]. }
  destruct (strings.length p =? 0)%nat eqn:Hz; bools.
  { simplify_eq. exists [], 0%nat. split_and!; [lia|lia|intros; lia|constructor|done]. }
  set (len := Nat.min chunk_len (strings.length p)) in *.
  assert (0 < Z.of_nat len <= waitChunk /\ (len <= strings.length p)%nat) as [Hk Hlen].
  { assert (Z.of_nat chunk_len = waitChunk) by (apply Z2Nat.id; done). assert (0 < waitChunk) by done. subst len. lia. }
  cbn [wait_out logged] in H. destruct (wait_out io (env w).1 (Z.of_nat len)) as [[werr|] e] eqn:Hwait.
  { simplify_eq. exists [EvWait (Z.of_nat len) false], 0%nat. split_and!; [lia|lia|done|by constructor|].
    apply wrote_none; [done|by repeat constructor|done|done|done]. }
  cbn [wait_ok] in H. set (w0 := set_env w (e, (env w).2 ++ [EvWait (Z.of_nat len) true])) in *.
  assert (wrote w w0 [EvWait (Z.of_nat len) true] "") as Hw0 by (apply wrote_none; [done|by repeat constructor|done|done|done]).
  destruct (send_counted lio w0 (strings.take len p)) as [[k serr] w1] eqn:Hs.
  apply send_counted_wrote in Hs as (Hkl & Hfull & hd & Hhd & Hwr). rewrite length_take in Hkl, Hfull. rewrite take_short in Hwr by lia.
  pose proof (wrote_app _ _ _ _ _ _ _ Hw0 Hwr) as Hw1. cbn [app] in Hw1. rewrite append_nil_l in Hw1.
  assert (Z.of_nat (strings.length (strings.take k p)) <= Z.of_nat len) as Hsz by (rewrite length_take; lia).
  destruct serr as [serr|].
  - simplify_eq. eexists _, k. split_and!; [lia|lia|done| |exact Hw1]. constructor; [done..|constructor].
  - assert (k = len) as -> by (rewrite Hfull by done; lia).
    apply IH in H as (evs & m & Hn & Hm & Hall & Hp & Hwr2); [|rewrite length_drop; lia]. rewrite length_drop in Hm, Hall.
    eexists _, (len + m)%nat. split_and!; [lia|lia|intros He; specialize (Hall He); lia| |].
    2:{ rewrite <- take_take_drop. eapply wrote_app; [exact Hw1|exact Hwr2]. }
    cbn [app]. rewrite <- app_assoc. by constructor.
Qed.

Lemma Write_wrote (w : C) p n err w' : Write lio w p = (n, err, w') ->
  exists evs, (n <= strings.length p)%nat /\ (err = None -> n = strings.length p) /\ wrote (start w) w' evs (strings.take n p) /\ (out_limited w = true -> paced evs).
Proof.
  unfold Write. intros H. change (out_limited (start w)) with (out_limited w) in H. destruct (out_limited w); cbn [negb] in H.
  - apply write_loop_paced in H as (evs & m & -> & Hm & Hall & Hp & Hw); [|lia]. exists evs. cbn [Nat.add]. done.
  - apply send_counted_wrote in H as (? & ? & hd & _ & Hwr). exists (hd ++ [EvBody (strings.take n p)]). done.
Qed.

(** *** What any program keeps *)

(** Nothing was sent before the response started, the bytes sent are counted,
    and the status lines sent are the one net/http keeps. *)
Definition conn_inv (w : C) : Prop :=
  (started w = false -> answer (log w) = []) /\ written w = wrap64 (body_bytes (log w)) /\ statuses (log w) = option_list (sent w).

Lemma conn_inv_unsent (w : C) : conn_inv w -> started w = false -> sent w = None.
Proof. intros (Ha & _ & Hs) Hst. rewrite (statuses_answer _ (Ha Hst)) in Hs. by destruct (sent w). Qed.

Lemma wrote_inv (w w' : C) evs s : wrote w w' evs s -> started w' = true -> conn_inv w -> conn_inv w'.
Proof.
  intros [Hl Hb _ Ht Hw _] Hst (_ & Hc & Hs). split; [by rewrite Hst|]. split; [|by rewrite Hl, statuses_app, Hs, Ht].
  rewrite Hw by (by rewrite Hc, wrap64_idem). rewrite Hl, body_bytes_app, Hc, wrap64_add. unfold body_bytes at 3. by rewrite Hb.
Qed.

Lemma start_inv (w : C) : conn_inv w -> conn_inv (start w).
Proof. intros (_ & H). by split. Qed.

Lemma Write_inv (w : C) p n err w' : Write lio w p = (n, err, w') -> conn_inv w -> conn_inv w'.
Proof.
  intros (evs & _ & _ & Hw & _)%Write_wrote Hi. eapply wrote_inv; [exact Hw| |by apply start_inv]. destruct Hw as [_ _ _ _ _ (_ & -> & _)]. done.
Qed.

Lemma http_WriteHeader_inv (w : C) st : started w = true -> conn_inv w -> conn_inv (http_WriteHeader lio w st).2.
Proof.
  intros Hst (_ & Hc & Hs). destruct (http_WriteHeader lio w st) as [v w'] eqn:Hh. cbn [snd].
  apply http_WriteHeader_log in Hh as ((evs & Hevs & Hl & Ht & _) & (_ & Hst' & _) & Hw & _). split; [congruence|].
  rewrite Hl, statuses_app, body_bytes_app, Hw, Hs, Ht. split; [|done].
  replace (body_bytes evs) with 0 by (by destruct Hevs as [-> | ->]). by rewrite Z.add_0_r.
Qed.

Lemma WriteHeader_inv (w : C) st : conn_inv w -> conn_inv (WriteHeader lio w st).2.
Proof. intros (_ & H). apply http_WriteHeader_inv; [done|]. by split. Qed.

(** The waits of a paced read: the granted ones, and a refused one if that is
    how it ended. *)
Definition waits (ns : list Z) (refused : option Z) : list event :=
  map (fun n => EvWaitIn n true) ns ++ match refused with Some k => [EvWaitIn k false] | None => [] end.

Lemma waitBandwidth_log fuel : forall e n err e', waitBandwidth fuel (wait_in lio) e n = (err, e') ->
  exists ns refused, e'.2 = e.2 ++ waits ns refused /\ Forall (fun k => 0 < k <= waitChunk) ns /\
    (err <> None <-> refused <> None) /\
    ((Z.to_nat n <= fuel)%nat -> refused = None -> 0 <= n -> foldr Z.add 0 ns = n) /\
    (0 <= n -> foldr Z.add 0 ns + default 0 refused <= n).
Proof.
  induction fuel as [|f IH]; intros e n err e' H; cbn [waitBandwidth] in H.
  { simplify_eq. exists [], None. rewrite app_nil_r. split_and!; [done|constructor|done|cbn; lia|cbn; lia]. }
  destruct (0 <? n) eqn:Hn; bools; [|simplify_eq; exists [], None; rewrite app_nil_r; split_and!; [done|constructor|done|cbn; lia|cbn; lia]].
  cbn [wait_in logged] in H. assert (0 < waitChunk) by done. destruct (wait_in io e.1 (Z.min n waitChunk)) as [[werr|] e1].
  - simplify_eq. exists [], (Some (Z.min n waitChunk)). cbn. split_and!; [done|constructor|done|done|lia].
  - apply IH in H as (ns & refused & He & Hns & Href & Hsum & Hle). cbn [snd wait_ok] in He. exists (Z.min n waitChunk :: ns), refused.
    unfold waits in *. cbn [map foldr]. split_and!.
    + rewrite He, <- app_assoc. done.
    + constructor; [lia|done].
    + done.
    + intros Hf Herr _. rewrite Hsum; [lia|lia|done|lia].
    + intros _. specialize (Hle ltac:(lia)). lia.
Qed.

Lemma no_answer_waits ns refused : answer (waits ns refused) = [] /\ body (waits ns refused) = "" /\ statuses (waits ns refused) = [].
Proof.
  unfold waits. rewrite answer_app, body_app, statuses_app.
  assert (answer (map (fun n => EvWaitIn n true) ns) = [] /\ body (map (fun n => EvWaitIn n true) ns) = "" /\
          statuses (map (fun n => EvWaitIn n true) ns) = []) as (-> & -> & ->).
  { induction ns as [|n ns (IH1 & IH2 & IH3)]; [done|]. cbn. fold (body (map (fun n => EvWaitIn n true) ns)). by rewrite IH2. }
  by destruct refused.
Qed.

Lemma Read_log (w : C) k s err w' : Read lio w k = (s, err, w') ->
  exists ns refused, log w' = log w ++ waits ns refused /\ started w' = started w /\ sent w' = sent w /\ written w' = written w /\ status w' = status w.
Proof.
  unfold Read. cbn [recv logged]. destruct (recv io (env w).1 k) as [[s0 err0] e0]. intros H. cbn [in_limited] in H.
  destruct ((0 <? strings.length s0)%nat && in_limited w).
  - destruct (waitBandwidth _ _ (e0, (env w).2) _) as [werr e1] eqn:Hw. apply waitBandwidth_log in Hw as (ns & refused & He & _). cbn [snd] in He.
    exists ns, refused. destruct werr; injection H as <- <- <-; (split; [exact He|done]).
  - injection H as <- <- <-. exists [], None. split; [unfold log; cbn; by rewrite app_nil_r|done].
Qed.

Lemma conn_read_inv (w : C) k s err w' : Read lio w k = (s, err, w') -> conn_inv w -> conn_inv w'.
Proof.
  intros (ns & refused & Hl & Hst & Hse & Hw & _)%Read_log (H1 & H2 & H3). destruct (no_answer_waits ns refused) as (Ha & Hb & Hs). split_and!.
  - rewrite Hst. intros Hf. rewrite Hl, answer_app, Ha, app_nil_r. by apply H1.
  - assert (body_bytes (waits ns refused) = 0) as Hz by (unfold body_bytes; by rewrite Hb). rewrite Hw, Hl, body_bytes_app, H2, Hz. f_equal. lia.
  - by rewrite Hl, statuses_app, Hs, app_nil_r, Hse.
Qed.

Lemma call_inv {X} (c : sdk.call X) (w : C) x e : backend lio (env w) c = (x, e) -> conn_inv w -> conn_inv (set_env w e).
Proof.
  cbn [backend logged]. destruct (backend io (env w).1 c) as [y e'] eqn:Hy. intros [= -> <-] (H1 & H2 & H3). unfold conn_inv, log. cbn.
  rewrite answer_app, body_bytes_app, statuses_app. fold (log w). split_and!.
  - intros Hs. by rewrite H1.
  - change (body_bytes [EvCall (existT X (c, x))]) with 0. by rewrite Z.add_0_r.
  - by rewrite H3, app_nil_r.
Qed.

Lemma exec_inv {A} (p : prog A) : forall w res w', exec lio p w = (res, w') -> conn_inv w -> conn_inv w'.
Proof.
  induction p as [a|v|h p IH|f IH|st p IH|s f IH|k f IH|i o p IH|p IH|f IH|i p IH|X c f IH]; intros w res w' H Hi; cbn [exec] in H; simplify_eq; try done.
  - eapply IH; [exact H|]. done.
  - eapply IH; [exact H|]. done.
  - pose proof (WriteHeader_inv w st Hi) as Hw. destruct (WriteHeader lio w st) as [[v|] w1]; cbn [snd] in Hw; [by simplify_eq|].
    eapply IH; [exact H|done].
  - destruct (Write lio w s) as [[n err] w1] eqn:Hw. eapply IH; [exact H|]. by eapply Write_inv.
  - destruct (Read lio w k) as [[s err] w1] eqn:Hr. eapply IH; [exact H|]. by eapply conn_read_inv.
  - eapply IH; [exact H|]. done.
  - eapply IH; [exact H|]. done.
  - eapply IH; [exact H|]. done.
  - eapply IH; [exact H|]. done.
  - destruct (backend lio (env w) c) as [x e] eqn:Hb. eapply IH; [exact H|]. by eapply call_inv.
Qed.

End Facts.

(** ** The error document *)

Section Boundary.
Context {E : Type} (io : Env E) {HL : EnvLaws io} (quoted : string -> string).
Notation lio := (logged io).
Notation C := (conn (E * list event)).

(** The body of the document, as far as the connection took it. *)
Definition document_of (r : http.Request) (e : s3err.Error) (id : string) : option (string * string) :=
  (fun doc => (xml.Header, xml.Marshal (error_xml quoted doc))) <$> s3err.RBody (s3err.Write (http.Method r) (url.Path (http.URL r)) e id).

Lemma answer_bodies evs : Forall (fun ev => is_answer ev = true -> exists s, ev = EvBody s) evs ->
  Forall (fun ev => exists s, ev = EvBody s) (answer evs).
Proof.
  intros H. apply Forall_forall. intros ev [Ha Hin]%list_elem_of_filter. rewrite Forall_forall in H. by apply H.
Qed.

(** An error can be answered with any status a status line can carry, and is
    answered with that line and its document; with another one the writer
    panics, and nothing is sent. *)
Lemma write_error_log (w : C) r e id v w' : write_error lio quoted w r e id = (v, w') -> sent w = None ->
  started w' = true /\ status w' = s3err.status e /\ who w' = who w /\ nread w' = nread w /\ v <> Some ErrAbortHandler /\
  (v <> None <-> ~ (100 <= s3err.status e <= 999)) /\ (v <> None -> log w' = log w) /\
  (v = None -> exists evs, log w' = log w ++ EvHeader (s3err.status e) :: evs /\
     (informational (s3err.status e) = false -> Forall (fun ev => exists s, ev = EvBody s) (answer evs)) /\
     match document_of r e id with
     | None => body evs = ""
     | Some (h, d) => exists n m, body evs = strings.take n h +:+ strings.take m d
     end).
Proof.
  unfold write_error, document_of. set (reply := s3err.Write _ _ _ _).
  assert (s3err.RStatus reply = s3err.status e) as -> by (subst reply; unfold s3err.Write; cbn; by destruct (_ || _)).
  unfold WriteHeader. intros H Hun.
  destruct (s3err.RBody reply) as [doc|]; cbn [fmap option_fmap option_map] in *; revert H;
    match goal with |- context [http_WriteHeader lio ?x ?st] => destruct (http_WriteHeader lio x st) as [v1 w1] eqn:Hh end;
    pose proof (http_sent io _ _ _ _ Hh) as Hsent;
    apply http_WriteHeader_log in Hh as ((evs & _ & Hl & _ & Hsome & Hnone) & (Hst & Hgo & Hn & Hwho & _) & _ & Hab & Hv); cbn in *;
    specialize (Hv Hun); specialize (Hsome Hun).
  - destruct v1 as [v1|].
    { intros [= <- <-]. rewrite Hnone, app_nil_r in Hl by done. split_and!; done. }
    destruct (Write lio w1 xml.Header) as [[n1 e1] w2] eqn:H1. destruct (Write lio w2 _) as [[n2 e2] w3] eqn:H2. intros [= <- <-].
    apply Write_wrote in H1 as (evs1 & _ & _ & Hw1 & _); [|done]. apply Write_wrote in H2 as (evs2 & _ & _ & Hw2 & _); [|done].
    pose proof Hw1 as [L1 B1 _ T1 _ (S1 & G1 & N1 & I1 & _)]. pose proof Hw2 as [L2 B2 _ _ _ (S2 & G2 & N2 & I2 & _)]. cbn in *.
    split_and!; try congruence. intros _. exists (evs1 ++ evs2). split_and!.
    + rewrite L2. change (log (start w2)) with (log w2). rewrite L1. change (log (start w1)) with (log w1). rewrite Hl, (Hsome eq_refl).
      by rewrite <- !app_assoc.
    + intros Hinf. rewrite answer_app. specialize (Hsent Hun eq_refl Hinf).
      destruct (wrote_bodies _ _ _ _ _ Hw1 Hsent) as [Hse Hb1]. destruct (wrote_bodies _ _ _ _ _ Hw2 Hse) as [_ Hb2].
      apply Forall_app. split; by apply answer_bodies.
    + exists n1, n2. by rewrite body_app, B1, B2.
  - intros [= <- <-]. split_and!; try done.
    + intros Hp. by rewrite Hl, Hnone, app_nil_r.
    + intros ->. exists []. rewrite Hl, (Hsome eq_refl). split_and!; try done.
Qed.

Lemma write_error_inv (w : C) r e id : conn_inv w -> conn_inv (write_error lio quoted w r e id).2.
Proof.
  intros Hi. unfold write_error. destruct (s3err.RBody _); [|by apply WriteHeader_inv].
  match goal with |- context [WriteHeader lio ?x ?st] => pose proof (WriteHeader_inv io x st Hi) as Hh; destruct (WriteHeader lio x st) as [[v|] w0] end; [done|].
  destruct (Write lio _ xml.Header) as [[n1 e1] w1] eqn:H1. destruct (Write lio w1 _) as [[n2 e2] w2] eqn:H2.
  eapply Write_inv; [exact HL|exact H2|]. by eapply Write_inv; [exact HL|exact H1|].
Qed.

(** The failure a handler's end is, if it is one that is answered. *)
Definition failure (res : option goerror + panic_value) : option goerror :=
  match res with inl err => err | inr v => Some (panic_error v) end.

Lemma new_conn_inv e id : conn_inv (set_header (new_conn (E := E * list event) (e, [])) "x-amz-request-id" id).
Proof. by split. Qed.

(** A status that a response can have: one of three digits that is not
    informational. *)
Definition final_status (st : Z) : Prop := 100 <= st <= 999 /\ informational st = false.

(** What is sent for the failure [err] of a handler that had sent nothing: the
    status line of its error, and as much of its document as the connection
    takes. *)
Definition answered_by (r : http.Request) (id : string) (err : goerror) (l : list event) : Prop :=
  exists evs, answer l = EvHeader (s3err.status (answered err)) :: answer evs /\
    Forall (fun ev => exists s, ev = EvBody s) (answer evs) /\
    match document_of r (answered err) id with
    | None => body evs = ""
    | Some (x, d) => exists n m, body evs = strings.take n x +:+ strings.take m d
    end.

(** What [report] owes on a connection as a handler leaves it. *)
Definition reported (observer : bool) (r : http.Request) (id : string) (err : option goerror) (wh : C)
    (out : option RequestInfo + panic_value) (w : C) : Prop :=
  conn_inv w /\ out <> inr ErrAbortHandler /\
  ((exists v, out = inr v) <-> started wh = false /\ exists e, err = Some e /\ ~ (100 <= s3err.status (answered e) <= 999)) /\
  ((exists v, out = inr v) -> started w = true /\ answer (log w) = []) /\
  (forall info, out = inl info -> (info = None <-> observer = false) /\
     forall i, info = Some i -> IStatus i = status w /\ IBytesOut i = wrap64 (body_bytes (log w)) /\ IRequestID i = id) /\
  (started wh = true \/ err = None -> answer (log w) = answer (log wh) /\ forall i, out = inl (Some i) -> ICode i = "") /\
  (started wh = false -> forall e, err = Some e -> final_status (s3err.status (answered e)) ->
     answered_by r id e (log w) /\ status w = s3err.status (answered e) /\ forall i, out = inl (Some i) -> ICode i = s3err.Code (answered e)).

(** Nothing more is sent after a response that began, or without a failure. *)
Lemma report_silent observer r id err (wh : C) i : conn_inv wh -> started wh = true \/ err = None ->
  (forall x, i = Some x -> IStatus x = status wh /\ IBytesOut x = written wh /\ IRequestID x = id /\ ICode x = "") -> (i = None <-> observer = false) ->
  reported observer r id err wh (inl i) wh.
Proof.
  intros Hinv Hq Hx Hn. pose proof Hinv as (_ & Hw & _). split; [done|]. split; [done|].
  split; [split; [intros [v Hv]; done|intros (Hs & e & -> & _); destruct Hq; congruence]|]. split; [intros [v Hv]; done|].
  split; [intros info [= <-]; split; [done|]; intros x Hi; rewrite <- Hw; by destruct (Hx x Hi) as (? & ? & ? & ?)|].
  split; [intros _; split; [done|]; intros x [= ->]; by apply Hx|]. intros Hs e -> _. destruct Hq; congruence.
Qed.

Lemma report_spec observer r id err (wh : C) out w : conn_inv wh -> report lio quoted observer r id err wh = (out, w) ->
  reported observer r id err wh out w.
Proof.
  intros Hinv. unfold report. destruct err as [e|]; [destruct (started wh) eqn:Hst|].
  - intros [= <- <-]. apply report_silent; [done|by left| |by destruct observer]. intros x Hx. destruct observer; [|done]. by injection Hx as <-.
  - pose proof (write_error_inv wh r (answered e) id Hinv) as Hi. pose proof (conn_inv_unsent wh Hinv Hst) as Hun.
    destruct (write_error lio quoted wh r (answered e) id) as [v w1] eqn:He. cbn [snd] in Hi.
    apply write_error_log in He as (Hgo & Hs & _ & _ & Hab & Hv & Hnone & Hsome); [|done].
    pose proof Hinv as (Hnil & _ & _). specialize (Hnil Hst). destruct v as [v|]; intros [= <- <-]; unfold reported; (split; [done|]).
    + split; [congruence|]. split; [split; [intros _; split; [done|]; exists e; split; [done|exact (proj1 Hv ltac:(done))]|eauto]|].
      split; [intros _; split; [done|]; by rewrite (Hnone ltac:(done))|]. split; [done|]. split; [intros [?|?]; congruence|].
      intros _ e1 [= <-] [Hr _]. exfalso. exact (proj1 Hv ltac:(done) Hr).
    + pose proof Hi as (_ & Hw & _). split; [done|].
      split; [split; [intros [v Hx]; done|intros (_ & e1 & [= <-] & Hn); by destruct (proj2 Hv Hn)]|]. split; [intros [v Hx]; done|].
      split; [intros info [= <-]; split; [by destruct observer|]; intros i Hx; destruct observer; [|done]; by injection Hx as <-|].
      split; [intros [?|?]; congruence|]. intros _ e1 [= <-] [_ Hf]. destruct (Hsome eq_refl) as (evs & Hl & Hb & Hd). split_and!; [|done|].
      * exists evs. rewrite Hl, answer_app, Hnil. split_and!; [done|by apply Hb|done].
      * intros i Hx. destruct observer; [|done]. by injection Hx as <-.
  - intros [= <- <-]. apply report_silent; [done|by right| |by destruct observer]. intros x Hx. destruct observer; [|done]. by injection Hx as <-.
Qed.

Lemma finishRequest_status (w : C) : conn_inv w -> exists st, statuses (log (finishRequest lio w)) = [st].
Proof.
  intros (_ & _ & Hs). unfold finishRequest, http_WriteHeader. destruct (sent w) as [st|]; cbn [snd].
  - exists st. exact Hs.
  - exists 200. unfold log. cbn. rewrite statuses_app. fold (log w). by rewrite Hs.
Qed.

(** The errors a handler can return that no status line can carry, when it has
    sent nothing itself. *)
Definition unanswerable (res : option goerror + panic_value) (wh : C) : Prop :=
  started wh = false /\ exists err, res = inl (Some err) /\ ~ (100 <= s3err.status (answered err) <= 999).

End Boundary.

(** ** Hooks *)

Section Hooks.
Context {E : Type} (io : Env E).

Lemma exec_bind {A B} (p : prog A) (k : A -> prog B) : forall w,
  exec io (bind p k) w = match exec io p w with (inl a, w') => exec io (k a) w' | (inr v, w') => (inr v, w') end.
Proof.
  induction p as [a|v|h p IH|f IH|st p IH|s f IH|n f IH|i o p IH|p IH|f IH|i p IH|X c f IH]; intros w; cbn [bind exec]; try done.
  - destruct (WriteHeader io w st) as [[v|] w1]; [done|apply IH].
  - destruct (Write io w s) as [[n err] w1]. apply IH.
  - destruct (Read io w n) as [[s err] w1]. apply IH.
  - destruct (backend io (env w) c) as [x e]. apply IH.
Qed.

Lemma chain_outermost (l : list Interceptor) next :
  fold_left (fun next i => wrapInterceptor i next) (rev l) next = foldr (fun i next => i next) next l.
Proof. rewrite <- fold_left_rev_right, List.rev_involutive. done. Qed.

(** An interceptor that runs something before and after what it wraps. *)
Definition around (pre post : prog unit) : Interceptor :=
  fun next => bind pre (fun _ => bind next (fun err => bind post (fun _ => Ret err))).

Fixpoint sequence (l : list (prog unit)) : prog unit :=
  match l with [] => Ret tt | p :: l => bind p (fun _ => sequence l) end.

Definition finish (run : handlerFunc) (posts : list (prog unit)) : handlerFunc :=
  bind run (fun err => bind (sequence posts) (fun _ => Ret err)).

Lemma sequence_app l1 l2 w : exec io (sequence (l1 ++ l2)) w =
  match exec io (sequence l1) w with (inl _, w') => exec io (sequence l2) w' | r => r end.
Proof.
  revert w. induction l1 as [|p l1 IH]; intros w; [done|]. cbn [sequence app]. rewrite !exec_bind. destruct (exec io p w) as [[[]|v] w']; [apply IH|done].
Qed.

Lemma around_chain l : forall run w,
  exec io (foldr (fun i next => i next) run (map (fun pp => around pp.1 pp.2) l)) w =
  exec io (bind (sequence (map fst l)) (fun _ => finish run (rev (map snd l)))) w.
Proof.
  induction l as [|[pre post] l IH]; intros run w.
  - cbn. unfold finish. rewrite exec_bind. cbn [sequence]. destruct (exec io run w) as [[e|v] w'] eqn:Hr; cbn [rev sequence bind]; [|done]. by cbn.
  - cbn [map foldr fst snd sequence]. unfold around at 1. rewrite !exec_bind. destruct (exec io pre w) as [[[]|v] w1]; [|done].
    rewrite !exec_bind, IH, !exec_bind. destruct (exec io (sequence (map fst l)) w1) as [[[]|v] w2]; [|done].
    unfold finish. rewrite !exec_bind. destruct (exec io run w2) as [[err|v] w3]; [|done].
    cbn [rev]. rewrite !exec_bind, sequence_app. destruct (exec io (sequence (rev (map snd l))) w3) as [[[]|v] w4]; [|done].
    cbn [exec sequence]. rewrite !exec_bind. by destruct (exec io post w4) as [[[]|v] w5].
Qed.

End Hooks.

(** ** Theorems *)

(** C27. What the client and the observer get of a request, whatever the
    handler does.  At most one status line goes out, the handler's own calls
    counted, and exactly one once net/http has finished a request that was not
    cut off.  When the handler has sent nothing and fails with an error whose
    status a response can have, or panics, the client gets the status line of
    that error and at most the bytes of its one document, and the record names
    its code and status; once a response has begun, nothing of an error document
    follows it and the record names no code.  The observer gets one record, with
    the status the writer was last given and the body bytes that went out, save
    in three cases: there is no observer, the handler ended in net/http's own
    abort signal, or it returned, having sent nothing, an error whose status is
    not one of three digits, on which net/http's WriteHeader panics before the
    record is made.  The connection is cut exactly in the last two cases and
    after a panic in the middle of a response; in the last one nothing was
    sent. *)
Theorem wrapHandler_single_answer {E} (io : Env E) {HL : EnvLaws io} quoted observer r id h e0 out info w :
  wrapHandler (logged io) quoted observer r id h (new_conn (e0, [])) = (out, info, w) ->
  exists res wh, exec (logged io) h (set_header (new_conn (e0, [])) "x-amz-request-id" id) = (res, wh) /\
    (length (statuses (log w)) <= 1)%nat /\
    (out = Served -> exists st, statuses (log (finishRequest (logged io) w)) = [st]) /\
    (info = None <-> observer = false \/ res = inr ErrAbortHandler \/ unanswerable res wh) /\
    (forall i, info = Some i -> IStatus i = status w /\ IBytesOut i = wrap64 (body_bytes (log w)) /\ IRequestID i = id) /\
    (started wh = true \/ failure res = None -> answer (log w) = answer (log wh) /\ forall i, info = Some i -> ICode i = "") /\
    (started wh = false -> res <> inr ErrAbortHandler -> forall err, failure res = Some err -> final_status (s3err.status (answered err)) ->
       answered_by quoted r id err (log w) /\ status w = s3err.status (answered err) /\
       forall i, info = Some i -> ICode i = s3err.Code (answered err)) /\
    (unanswerable res wh -> answer (log w) = []) /\
    (out = Aborted <-> res = inr ErrAbortHandler \/ (started wh = true /\ exists v, res = inr v) \/ unanswerable res wh).
Proof.
  unfold wrapHandler. destruct (exec (logged io) h _) as [res wh] eqn:Hex. intros H. exists res, wh. split; [done|].
  assert (conn_inv wh) as Hinv by (eapply exec_inv; [exact HL|exact Hex|apply new_conn_inv]).
  assert (conn_inv w -> (length (statuses (log w)) <= 1)%nat /\ (out = Served -> exists st, statuses (log (finishRequest (logged io) w)) = [st])) as Hone.
  { intros Hw. split; [destruct Hw as (_ & _ & ->); destruct (sent w); cbn; lia|]. intros _. by apply finishRequest_status. }
  destruct res as [err|[|v]].
  - destruct (report (logged io) quoted observer r id err wh) as [o wr] eqn:Hr.
    apply report_spec in Hr as (Hi & Hna & Hp & Hcut & Hinfo & Hst & Hfail); [|done..].
    assert (unanswerable (inl err) wh <-> exists v, o = inr v) as Hun by (rewrite Hp; unfold unanswerable; naive_solver).
    rewrite Hun. destruct o as [i|v].
    + injection H as <- <- <-. destruct (Hinfo i eq_refl) as [Hn Hx]. split_and!; [by apply Hone..|naive_solver|done| | |naive_solver|naive_solver].
      * intros Hs. destruct (Hst Hs) as [Ha Hc]. split; [done|]. intros x ->. by apply Hc.
      * intros Hs _ e He Hf. destruct (Hfail Hs e He Hf) as (Ha & Hb & Hc). split_and!; [done..|]. intros x ->. by apply Hc.
    + destruct (Hcut ltac:(eauto)) as [Hgo Hno]. destruct v as [|v]; [done|]. rewrite Hgo in H. injection H as <- <- <-.
      assert (started wh = false /\ exists e, err = Some e /\ ~ (100 <= s3err.status (answered e) <= 999)) as (Hs & e & -> & Hr) by (apply Hp; eauto).
      split_and!; [by apply Hone..|naive_solver|done| | |naive_solver|naive_solver].
      * intros [Hs'|]; [congruence|done].
      * intros _ _ e1 [= <-] [Hf _]. done.
  - injection H as <- <- <-. assert (~ unanswerable (inr ErrAbortHandler) wh) by (intros (_ & e & He & _); done).
    split_and!; [by apply Hone..|naive_solver|done| |done|done|naive_solver]. intros _. by split.
  - destruct (report (logged io) quoted observer r id (Some (panic_error (PanicValue v))) wh) as [o wr] eqn:Hr.
    apply report_spec in Hr as (Hi & Hna & Hp & _ & Hinfo & Hst & Hfail); [|done..].
    assert (~ unanswerable (inr (PanicValue v)) wh) by (intros (_ & e & He & _); done).
    destruct o as [i|v']; [|exfalso; destruct (proj1 Hp ltac:(eauto)) as (_ & e & [= <-] & Hn); apply Hn; cbn; lia].
    injection H as <- <- <-. destruct (Hinfo i eq_refl) as [Hn Hx]. split_and!; [by apply Hone..|naive_solver|done| | |done|].
    + intros [Hs|]; [|done]. destruct (Hst (or_introl Hs)) as [Ha Hc]. split; [done|]. intros x ->. by apply Hc.
    + intros Hs _ e He Hf. destruct (Hfail Hs e He Hf) as (Ha & Hb & Hc). split_and!; [done..|]. intros x ->. by apply Hc.
    + destruct (started wh); split; [intros _; right; left; eauto|done|done|naive_solver].
Qed.

(** C32. Pacing is exact.  A paced response body is sent in slices of at most
    32 KiB, each after the limiter granted a wait of at least its size (a status
    line still to be sent goes out with the first slice), and nothing is sent
    after a wait the limiter refused, whose error is returned; the bytes sent
    are a prefix of the body, the count returned is theirs, and without an error
    it is all of it.  A paced request body asks, in pieces a 32 KiB burst can
    grant, for the bytes it hands out: all of them are granted unless a wait is
    refused, which ends the asking and makes the read fail. *)
Theorem body_pacing {E} (io : Env E) {HL : EnvLaws io} (w : conn (E * list event)) :
  (forall p n err w', out_limited w = true -> Write (logged io) w p = (n, err, w') ->
     exists evs, log w' = log w ++ evs /\ paced evs /\ body evs = strings.take n p /\ (n <= strings.length p)%nat /\
       (err = None -> body evs = p)) /\
  (forall k s err w', in_limited w = true -> Read (logged io) w k = (s, err, w') ->
     exists ns refused, log w' = log w ++ waits ns refused /\ Forall (fun n => 0 < n <= waitChunk) ns /\
       foldr Z.add 0 ns + default 0 refused <= Z.of_nat (strings.length s) /\
       (refused = None -> foldr Z.add 0 ns = Z.of_nat (strings.length s)) /\ (refused <> None -> err <> None)).
Proof.
  split.
  - intros p n err w' Ho H. apply Write_wrote in H as (evs & Hn & Hall & [Hl Hb _ _ _ _] & Hp); [|done]. exists evs.
    split_and!; [exact Hl|by apply Hp|done|done|]. intros He. rewrite Hb, (Hall He). by apply take_all.
  - intros k s err w' Hi. unfold Read. cbn [recv logged]. destruct (recv io (env w).1 k) as [[s0 err0] e0]. intros H. cbn [in_limited] in H. rewrite Hi, andb_true_r in H.
    destruct (0 <? strings.length s0)%nat eqn:Hpos.
    + destruct (waitBandwidth _ _ (e0, (env w).2) _) as [werr e1] eqn:Hw.
      apply waitBandwidth_log in Hw as (ns & refused & He & Hns & Href & Hsum & Hle). cbn [snd] in He.
      exists ns, refused. destruct werr as [werr|]; injection H as <- <- <-; (split_and!; [exact He|done|apply Hle; lia|intros Hr; apply Hsum; [lia|done|lia]|]).
      * done.
      * intros Hr. exfalso. apply Href in Hr. done.
    + injection H as <- <- <-. exists [], None. bools. split_and!; [unfold log; cbn; by rewrite app_nil_r|constructor|cbn; lia|intros _; cbn; lia|done].
Qed.

(** The connection with the limiters the service's hook returned. *)
Definition armed {E} (limits : option (bool * bool)) (w : conn E) : conn E :=
  match limits with Some (i, o) => setBandwidthLimiters w i o | None => w end.

(** C31. The hooks run in order, whatever limits and interceptors are
    installed.  An authorizer that refuses ends the request with its error, and
    one that panics with its panic, and nothing else runs, no limiter being
    armed.  Otherwise the limiters are armed next, then the chain runs: each
    interceptor is given the rest of the chain as its continuation, the first
    installed being the outermost, around the operation followed by the count
    of its bytes.  For interceptors that do something before and after what
    they wrap, everything before runs in installation order, then the
    operation, then the byte counts are taken, then everything after in the
    reverse order. *)
Theorem runOp_order {E} (io : Env E) authorizer limits run w :
  let admission := default (Ret None) authorizer in
  (forall e w1, exec io admission w = (inl (Some e), w1) ->
     forall interceptors, exec io (runOp authorizer limits interceptors run) w = (inl (Some e), w1)) /\
  (forall v w1, exec io admission w = (inr v, w1) ->
     forall interceptors, exec io (runOp authorizer limits interceptors run) w = (inr v, w1)) /\
  (forall w1, exec io admission w = (inl None, w1) ->
     (forall interceptors, exec io (runOp authorizer limits interceptors run) w =
        exec io (foldr (fun i next => i next) (bind run (fun err => DoCount (Ret err))) interceptors) (armed limits w1)) /\
     (forall hooks : list (prog unit * prog unit),
        exec io (runOp authorizer limits (map (fun pp => around pp.1 pp.2) hooks) run) w =
        exec io (bind (sequence (map fst hooks)) (fun _ =>
          bind run (fun err => DoCount (bind (sequence (rev (map snd hooks))) (fun _ => Ret err))))) (armed limits w1))).
Proof.
  intros admission.
  assert (forall ics, exec io (runOp authorizer limits ics run) w =
    match exec io admission w with
    | (inl (Some e), w1) => (inl (Some e), w1)
    | (inl None, w1) => exec io (foldr (fun i next => i next) (bind run (fun err => DoCount (Ret err))) ics) (armed limits w1)
    | (inr v, w1) => (inr v, w1)
    end) as Hrun.
  { intros ics. unfold runOp. rewrite exec_bind. subst admission. unfold default, id. rewrite chain_outermost.
    destruct authorizer; match goal with |- context [exec io ?a w] => destruct (exec io a w) as [[[e|]|v] w1] end; try done;
      by destruct limits as [[i o]|]. }
  split_and!; [intros e w1 H ics; by rewrite Hrun, H..|]. intros w1 H. split; [intros ics; by rewrite Hrun, H|].
  intros hooks. rewrite Hrun, H, around_chain, !exec_bind.
  destruct (exec io (sequence (map fst hooks)) (armed limits w1)) as [[[]|v] w2]; [|done]. unfold finish. rewrite !exec_bind.
  by destruct (exec io run w2) as [[err|v] w3].
Qed.

(** A presigned credential never reaches the record: the query it holds is
    the same for any two requests that differ only in the values of signature
    and security-token parameters, however their names are spelled. *)
Theorem redactQuery_hides q q' :
  Forall2 (fun a b : string * list string => a.1 = b.1 /\ (redacted_key a.1 = true \/ a.2 = b.2)) q q' -> redactQuery q = redactQuery q'.
Proof.
  intros H. unfold redactQuery. f_equal. induction H as [|[k vs] [k' vs'] q q' [Hk Hv] _ IH]; [done|]. cbn [fst snd map] in *. subst k'. rewrite IH. f_equal. f_equal.
  destruct Hv as [-> | ->]; done.
Qed.

(** ** Witnesses *)

(** A connection that takes everything and a limiter that grants everything. *)
Definition demo_io : Env unit := {|
  wait_in := fun e _ => (None, e);
  wait_out := fun e _ => (None, e);
  send_header := fun e _ _ => e;
  send := fun e p => (strings.length p, None, e);
  recv := fun e _ => ("abc", None, e);
  backend := fun X e c => (sdk.down X c, e) |}.

Definition demo_taker : Env unit := {|
  wait_in := wait_in demo_io; wait_out := wait_out demo_io; send_header := send_header demo_io; send := send demo_io;
  recv := fun e k => (strings.take k "abc", None, e); backend := fun X e c => backend demo_io e c |}.

#[export] Instance demo_taker_laws : EnvLaws demo_taker.
Proof.
  constructor; cbn.
  - intros e p n err e' [= <- <- <-]. lia.
  - intros e p n err e' [= <- <- <-]. lia.
  - intros e k s err e' [= <- <- <-]. rewrite length_take. lia.
Qed.

Definition demo_served : http.Request :=
  {| http.Method := "GET"; http.RequestURI := "/b/k"; http.URL := {| url.Scheme := ""; url.Opaque := ""; url.Host := ""; url.Path := "/b/k"; url.RawPath := ""; url.RawQuery := "" |};
     http.Header_ := []; http.Host := "h"; http.ContentLength := 0; http.RemoteAddr := "192.0.2.1:1" |}.

(** A handler that fails before it has written anything. *)
Definition demo_failing : handlerFunc := Ret (Some (s3err.as_error s3err.AccessDenied)).

Notation demo_outcome := (wrapHandler (logged demo_taker) (fun s => s) true demo_served "ID" demo_failing (new_conn (tt, []))).

Lemma wrapHandler_single_answer_witness :
  exists i, demo_outcome.1.2 = Some i /\ ICode i = "AccessDenied" /\ IStatus i = status demo_outcome.2.
Proof.
  destruct (wrapHandler_single_answer demo_taker (fun s => s) true demo_served "ID" demo_failing tt demo_outcome.1.1 demo_outcome.1.2 demo_outcome.2) as (res & wh & _ & _ & _ & _ & Hi & _).
  { by destruct demo_outcome as [[? ?] ?]. }
  eexists. split; [vm_compute; reflexivity|]. split; [reflexivity|]. refine (proj1 (Hi _ _)). vm_compute. reflexivity.
Defined.

(** An operation behind an authorizer that admits it, with the outgoing limiter
    armed and an interceptor on either side. *)
Definition demo_hooks : list (prog unit * prog unit) :=
  [(DoHeader (fun h => http.HSet h "a" "1") (Ret tt), DoWrite "after" (fun _ _ => Ret tt))].
Definition demo_run : handlerFunc := DoWriteHeader 200 (DoWrite "body" (fun _ _ => Ret None)).

Lemma runOp_order_witness :
  exec (logged demo_taker) (runOp (Some (Ret None)) (Some (false, true)) (map (fun pp => around pp.1 pp.2) demo_hooks) demo_run) (new_conn (tt, [])) =
  exec (logged demo_taker) (bind (sequence (map fst demo_hooks)) (fun _ =>
    bind demo_run (fun err => DoCount (bind (sequence (rev (map snd demo_hooks))) (fun _ => Ret err))))) (setBandwidthLimiters (new_conn (tt, [])) false true) /\
  log (exec (logged demo_taker) (runOp (Some (Ret None)) (Some (false, true)) (map (fun pp => around pp.1 pp.2) demo_hooks) demo_run) (new_conn (tt, []))).2 =
    [EvHeader 200; EvWait 4 true; EvBody "body"; EvWait 5 true; EvBody "after"] /\
  exec (logged demo_taker) (runOp (Some (Ret (Some (Text [FS "no"])))) (Some (false, true)) [] demo_run) (new_conn (tt, [])) =
    (inl (Some (Text [FS "no"])), new_conn (tt, [])).
Proof.
  split; [|split].
  - exact (proj2 (proj2 (proj2 (runOp_order (logged demo_taker) (Some (Ret None)) (Some (false, true)) demo_run (new_conn (tt, [])))) _ eq_refl) demo_hooks).
  - vm_compute. reflexivity.
  - exact (proj1 (runOp_order (logged demo_taker) (Some (Ret (Some (Text [FS "no"])))) (Some (false, true)) demo_run (new_conn (tt, []))) _ _ eq_refl []).
Defined.

Lemma body_pacing_witness :
  let w := {| env := (tt, []); hdrs := []; status := 200; started := false; sent := None; written := 0; out_limited := true; nread := 0; in_limited := true;
              BytesIn := 0; BytesOut := 0; who := {| rTenant := ""; rUser := ""; rAccessKeyID := ""; rOp := None |} |} in
  exists evs, log (Write (logged demo_taker) w "hello").2 = evs /\ paced evs /\ body evs = "hello".
Proof.
  intros w. destruct (proj1 (body_pacing demo_taker w) "hello" (Write (logged demo_taker) w "hello").1.1 (Write (logged demo_taker) w "hello").1.2
    (Write (logged demo_taker) w "hello").2 eq_refl) as (evs & Hl & Hp & _ & _ & Hb).
  { by destruct (Write (logged demo_taker) w "hello") as [[? ?] ?]. }
  exists evs. split; [exact Hl|]. split; [exact Hp|]. apply Hb. vm_compute. reflexivity.
Defined.

Lemma redactQuery_hides_witness :
  redactQuery [("X-Amz-Signature", ["secret"]); ("a", ["1"])] = redactQuery [("X-Amz-Signature", ["other"]); ("a", ["1"])].
Proof.
  apply redactQuery_hides. constructor; [split; [reflexivity|left; vm_refl]|]. constructor; [split; [reflexivity|right; reflexivity]|]. constructor.
Defined.

Example redacted : redactQuery [("x-amz-signature", ["secret"]); ("a", ["1"])] = "a=1&x-amz-signature=REDACTED".
Proof. vm_refl. Qed.
