(* ===== verification/Telemetry.v ===== *)
(** * Metrics and the access log (src/s3gw/otelmetric/otelmetric.go,
      src/s3gw/semconv/semconv_gen.go, src/s3rp.go, src/metrics.go)

    What the service makes of the record of a finished request: measurements
    with their attributes, and log lines.  Attributes are kept in a Go slice
    that two appends share, so slices and the arrays behind them are explicit.
    The OpenTelemetry API copies the attributes it is given, as it documents:
    a measurement holds what the slice showed when the call was made. *)

From S2P Require Import Prelude Unicode GoStrings GoNet GoError JSON XML Signer Store Authorize Addressing Routing Pipeline Config Clients Breaker.

Open Scope Z_scope.

Module semconv.

Definition AttrAWSS3Bucket : string := "aws.s3.bucket".
Definition AttrErrorType : string := "error.type".
Definition AttrHTTPRequestMethod : string := "http.request.method".
Definition AttrHTTPResponseStatusCode : string := "http.response.status_code".
Definition AttrNetworkIODirection : string := "network.io.direction".
Definition AttrS3GWCacheName : string := "s3gw.cache.name".
Definition AttrS3GWCacheResult : string := "s3gw.cache.result".
Definition AttrS3GWOperation : string := "s3gw.operation".
Definition AttrS3GWTenant : string := "s3gw.tenant".
Definition NetworkIODirectionTransmit : string := "transmit".
Definition NetworkIODirectionReceive : string := "receive".
Definition S3GWCacheNameSigner : string := "signer".
Definition S3GWCacheNameClient : string := "client".
Definition S3GWCacheResultHit : string := "hit".
Definition S3GWCacheResultMiss : string := "miss".
Definition MetricS3GWCacheCapacity : string := "s3gw.cache.capacity".
Definition MetricS3GWCacheEntries : string := "s3gw.cache.entries".
Definition MetricS3GWCacheEvictions : string := "s3gw.cache.evictions".
Definition MetricS3GWCacheLookups : string := "s3gw.cache.lookups".
Definition MetricS3GWIO : string := "s3gw.io".
Definition MetricS3GWRequestDuration : string := "s3gw.request.duration".

End semconv.

(** ** Slices *)

Module slices.

(** The arrays allocated so far. *)
Notation heap A := (list (list A)).

Section Slices.
Context {A : Type} (zero : A) (grow : nat -> nat).

(** A slice of an array from its start; [grow] is by how much [append] grows a
    full array. *)
Record slice := { base : nat; len : nat; cap : nat }.

Definition make (h : heap A) (n c : nat) : heap A * slice :=
  (h ++ [replicate c zero], {| base := length h; len := n; cap := c |}).

Definition contents (h : heap A) (s : slice) : list A := take (len s) (default [] (h !! base s)).

(** [append] writes behind the slice when there is room, and moves to a larger
    array otherwise. *)
Definition append (h : heap A) (s : slice) (xs : list A) : heap A * slice :=
  if (len s + length xs <=? cap s)%nat then
    (alter (list_inserts (len s) xs) (base s) h, {| base := base s; len := len s + length xs; cap := cap s |})
  else
    let c := (len s + length xs + grow (cap s))%nat in
    (h ++ [contents h s ++ xs ++ replicate (c - (len s + length xs)) zero], {| base := length h; len := len s + length xs; cap := c |}).

End Slices.
End slices.

Module otelmetric.
Import pipeline semconv.

Inductive value := VInvalid | VString (s : string) | VInt (n : Z).
Notation KeyValue := (string * value)%type.
Definition zeroKV : KeyValue := ("", VInvalid).

Definition errorTypeOther : string := "_OTHER".

Record Recorder := { tenant : bool; bucket : bool }.
Definition Option_ := Recorder -> Recorder.
Definition WithTenant : Option_ := fun r => {| tenant := true; bucket := bucket r |}.
Definition WithBucket : Option_ := fun r => {| tenant := tenant r; bucket := true |}.

Definition methods : list string := ["GET"; "HEAD"; "PUT"; "POST"; "DELETE"; "OPTIONS"; "PATCH"; "CONNECT"; "TRACE"].
Definition method (m : string) : string := if bool_decide (m ∈ methods) then m else "_OTHER".

(** What is recorded: a duration in nanoseconds, or an amount. *)
Record measurement := { instrument : string; amount : Z; attrs : list KeyValue }.

Section Record_.
Context (grow : nat -> nat).

Notation heap := (slices.heap KeyValue).
Notation append := (slices.append zeroKV grow).

Definition attributes (r : Recorder) (info : RequestInfo) (h : heap) : heap * slices.slice :=
  let '(h, attrs) := slices.make zeroKV h 0 7 in
  let '(h, attrs) := append h attrs [(AttrHTTPRequestMethod, VString (method (IMethod info)));
                                     (AttrHTTPResponseStatusCode, VInt (IStatus info))] in
  let '(h, attrs) :=
    match rOp (IWho info) with
    | Some op => append h attrs [(AttrS3GWOperation, VString (routing.Operation op))]
    | None => (h, attrs)
    end in
  let '(h, attrs) :=
    if negb (bool_decide (ICode info = "")) then append h attrs [(AttrErrorType, VString (ICode info))]
    else match IErr info with
         | Some _ => append h attrs [(AttrErrorType, VString errorTypeOther)]
         | None => (h, attrs)
         end in
  let '(h, attrs) :=
    if tenant r && negb (bool_decide (rTenant (IWho info) = "")) then append h attrs [(AttrS3GWTenant, VString (rTenant (IWho info)))]
    else (h, attrs) in
  match rOp (IWho info) with
  | Some op =>
    if bucket r && negb (bool_decide (routing.OBucket op = "")) then append h attrs [(AttrAWSS3Bucket, VString (routing.OBucket op))]
    else (h, attrs)
  | None => (h, attrs)
  end.

(** [Observe]: the measurements in order; [duration] is [info.Duration]. *)
Definition Observe (r : Recorder) (info : RequestInfo) (duration : Z) (h : heap) : heap * list measurement :=
  let '(h, attrs) := attributes r info h in
  let m0 := {| instrument := MetricS3GWRequestDuration; amount := duration; attrs := slices.contents h attrs |} in
  let '(h, m1) :=
    if 0 <? IBytesIn info then
      let '(h, s) := append h attrs [(AttrNetworkIODirection, VString NetworkIODirectionReceive)] in
      (h, [{| instrument := MetricS3GWIO; amount := IBytesIn info; attrs := slices.contents h s |}])
    else (h, []) in
  let '(h, m2) :=
    if 0 <? IBytesOut info then
      let '(h, s) := append h attrs [(AttrNetworkIODirection, VString NetworkIODirectionTransmit)] in
      (h, [{| instrument := MetricS3GWIO; amount := IBytesOut info; attrs := slices.contents h s |}])
    else (h, []) in
  (h, m0 :: m1 ++ m2).

End Record_.

(** ** The reference: the attributes of a request as a value *)

Definition series (r : Recorder) (info : RequestInfo) : list KeyValue :=
  [(AttrHTTPRequestMethod, VString (method (IMethod info))); (AttrHTTPResponseStatusCode, VInt (IStatus info))] ++
  match rOp (IWho info) with Some op => [(AttrS3GWOperation, VString (routing.Operation op))] | None => [] end ++
  (if negb (bool_decide (ICode info = "")) then [(AttrErrorType, VString (ICode info))]
   else match IErr info with Some _ => [(AttrErrorType, VString errorTypeOther)] | None => [] end) ++
  (if tenant r && negb (bool_decide (rTenant (IWho info) = "")) then [(AttrS3GWTenant, VString (rTenant (IWho info)))] else []) ++
  match rOp (IWho info) with
  | Some op => if bucket r && negb (bool_decide (routing.OBucket op = "")) then [(AttrAWSS3Bucket, VString (routing.OBucket op))] else []
  | None => []
  end.

Definition measurements (r : Recorder) (info : RequestInfo) (duration : Z) : list measurement :=
  {| instrument := MetricS3GWRequestDuration; amount := duration; attrs := series r info |} ::
  (if 0 <? IBytesIn info
   then [{| instrument := MetricS3GWIO; amount := IBytesIn info; attrs := series r info ++ [(AttrNetworkIODirection, VString NetworkIODirectionReceive)] |}] else []) ++
  (if 0 <? IBytesOut info
   then [{| instrument := MetricS3GWIO; amount := IBytesOut info; attrs := series r info ++ [(AttrNetworkIODirection, VString NetworkIODirectionTransmit)] |}] else []).

(** ** Cache statistics *)

Definition SignerCacheStats (c : sigv4.signerCache) : clients.CacheStats :=
  let s := sigv4.stats c in
  {| clients.Hits := sigv4.Hits s; clients.Misses := sigv4.Misses s; clients.Evictions := sigv4.Evictions s;
     clients.Entries := sigv4.Len s; clients.Capacity := Z.of_nat (sigv4.Capacity s) |}.

(** The counters are converted to [int64]. *)
Definition observe_cache (name : string) (s : clients.CacheStats) : list measurement :=
  let n := (AttrS3GWCacheName, VString name) in
  [{| instrument := MetricS3GWCacheLookups; amount := wrap64 (clients.Hits s); attrs := [n; (AttrS3GWCacheResult, VString S3GWCacheResultHit)] |};
   {| instrument := MetricS3GWCacheLookups; amount := wrap64 (clients.Misses s); attrs := [n; (AttrS3GWCacheResult, VString S3GWCacheResultMiss)] |};
   {| instrument := MetricS3GWCacheEvictions; amount := wrap64 (clients.Evictions s); attrs := [n] |};
   {| instrument := MetricS3GWCacheEntries; amount := Z.of_nat (clients.Entries s); attrs := [n] |};
   {| instrument := MetricS3GWCacheCapacity; amount := clients.Capacity s; attrs := [n] |}].

(** The callback [RegisterCacheStats] registers. *)
Definition observe_caches (signer client : clients.CacheStats) : list measurement :=
  observe_cache S3GWCacheNameSigner signer ++ observe_cache S3GWCacheNameClient client.

(** ** Instruments

    [create] is the meter's answer for an instrument name. *)

Definition created (create : string -> option goerror) (names : list string) : result goerror unit :=
  each (fun n => match create n with Some e => Err e | None => Ok tt end) names.

Definition New (create : string -> option goerror) (opts : list Option_) : result goerror Recorder :=
  let r := fold_left (fun r o => o r) opts {| tenant := false; bucket := false |} in
  match created create [MetricS3GWRequestDuration; MetricS3GWIO] with
  | Err e => Err e
  | Ok _ => Ok r
  end.

Definition RegisterCacheStats (create : string -> option goerror) (register : option goerror) : result goerror unit :=
  match created create [MetricS3GWCacheLookups; MetricS3GWCacheEvictions; MetricS3GWCacheEntries; MetricS3GWCacheCapacity] with
  | Err e => Err e
  | Ok _ => match register with Some e => Err e | None => Ok tt end
  end.

End otelmetric.

Module s3rp.
Import pipeline.

(** ** The access log *)

Inductive Level := LevelInfo | LevelError.

(** An attribute of a log line; [LStack] is the stack captured with a panic. *)
Inductive lvalue := LStr (s : string) | LInt (n : Z) | LErr (e : goerror) | LStrs (l : list string) | LDuration (ns : Z) | LStack (v : string).
Record line := { level : Level; msg : string; attrs : list (string * lvalue) }.

(** [errors.As(err, &pe)]. *)
Definition as_panic (err : option goerror) : option string :=
  match err with
  | None => None
  | Some e => errors.As (fun x => match x with Panic v => Some v | _ => None end) e
  end.

(** The first half of [logRequest]; [||] stops at a server-side status, and
    [pe] is then not assigned. *)
Definition failed_line (info : RequestInfo) : line :=
  let '(level, pe) :=
    if 500 <=? IStatus info then (LevelError, None)
    else match as_panic (IErr info) with
         | Some v => (LevelError, Some v)
         | None => (LevelInfo, None)
         end in
  {| level := level; msg := "request failed";
     attrs := [("code", LStr (ICode info)); ("status", LInt (IStatus info)); ("request_id", LStr (IRequestID info))] ++
       match IErr info with Some e => [("error", LErr e)] | None => [] end ++
       match pe with Some v => [("stack", LStack v)] | None => [] end |}.

Definition failed (info : RequestInfo) : bool := negb (bool_decide (ICode info = "")) || bool_decide (is_Some (IErr info)).

Definition access_line (info : RequestInfo) (duration : Z) : line :=
  {| level := LevelInfo; msg := "request";
     attrs := [("remote", LStr (IRemoteAddr info)); ("method", LStr (IMethod info)); ("path", LStr (IPath info)); ("query", LStr (IRawQuery info));
               ("status", LInt (IStatus info)); ("code", LStr (ICode info)); ("bytes_in", LInt (IBytesIn info)); ("bytes_out", LInt (IBytesOut info));
               ("duration", LDuration duration); ("request_id", LStr (IRequestID info))] ++
       (if bool_decide (rTenant (IWho info) = "") then []
        else [("tenant", LStr (rTenant (IWho info))); ("user", LStr (rUser (IWho info))); ("access_key_id", LStr (rAccessKeyID (IWho info)))]) ++
       match rOp (IWho info) with
       | Some op => [("operation", LStr (routing.Operation op)); ("actions", LStrs (routing.Actions op)); ("bucket", LStr (routing.OBucket op))]
       | None => []
       end |}.

Definition logRequest (info : RequestInfo) (duration : Z) : list line :=
  (if failed info then [failed_line info] else []) ++ [access_line info duration].

(** ** Metrics *)

Inductive Exporter := OTLPHTTP | OTLPGRPC.

(** [dial] is the answer of the exporter's constructor. *)
Definition newMetricExporter (getenv : string -> string) (dial : Exporter -> option goerror) : result goerror Exporter :=
  let specific := getenv "OTEL_EXPORTER_OTLP_METRICS_PROTOCOL" in
  let protocol := if bool_decide (specific = "") then getenv "OTEL_EXPORTER_OTLP_PROTOCOL" else specific in
  let start x := match dial x with Some e => Err e | None => Ok x end in
  if bool_decide (protocol = "") || bool_decide (protocol = "http/protobuf") then start OTLPHTTP
  else if bool_decide (protocol = "grpc") then start OTLPGRPC
  else Err (Text [FS "unsupported OTLP protocol "; FQ protocol; FS " (grpc or http/protobuf)"]).

(** What the OpenTelemetry SDK answers while metrics are set up. *)
Record otel := {
  getenv : string -> string; dial : Exporter -> option goerror; new_resource : option goerror;
  create : string -> option goerror; register : option goerror }.

Definition setupMetrics (o : otel) (cfg : config.MetricsConfig) : result goerror (Exporter * otelmetric.Recorder) :=
  match newMetricExporter (getenv o) (dial o) with
  | Err e => Err e
  | Ok exp =>
    match new_resource o with
    | Some e => Err e
    | None =>
      let opts := (if config.MTenant cfg then [otelmetric.WithTenant] else []) ++ (if config.MBucket cfg then [otelmetric.WithBucket] else []) in
      match otelmetric.New (create o) opts with
      | Err e => Err e
      | Ok rec =>
        match otelmetric.RegisterCacheStats (create o) (register o) with
        | Err e => Err e
        | Ok _ => Ok (exp, rec)
        end
      end
    end
  end.

(** ** The service *)

Inductive emitted := Measured (m : otelmetric.measurement) | Logged (l : line).

(** [S3RP]: what [NewWithStore] installs on the gateway. *)
Record S3RP := {
  meterProvider : option (Exporter * otelmetric.Recorder);
  vhostSuffix : string;
  newBreaker : option (store.Backend -> breaker.ConsecutiveFailures) }.

Definition NewWithStore (o : otel) (cfg : config.Config) : result goerror S3RP :=
  let finish mp :=
    Ok {| meterProvider := mp;
          vhostSuffix := if bool_decide (config.VirtualHostSuffix cfg = "") then "" else addressing.SetVirtualHostSuffix (config.VirtualHostSuffix cfg);
          newBreaker := match config.CircuitBreaker cfg with
                        | Some cb => Some (fun _ => breaker.NewConsecutiveFailures (config.Failures cb) (config.Cooldown cb))
                        | None => None
                        end |} in
  match config.Metrics cfg with
  | Some m =>
    match setupMetrics o m with
    | Err e => Err (Wrap [FS "failed to set up metrics: "] [e])
    | Ok mp => finish (Some mp)
    end
  | None => finish None
  end.

(** The observer it installs: the measurements first, then the log. *)
Definition observer (grow : nat -> nat) (app : S3RP) (info : RequestInfo) (duration : Z) (h : slices.heap otelmetric.KeyValue) :
    slices.heap otelmetric.KeyValue * list emitted :=
  match meterProvider app with
  | Some (_, rec) =>
    let '(h, ms) := otelmetric.Observe grow rec info duration h in
    (h, map Measured ms ++ map Logged (logRequest info duration))
  | None => (h, map Logged (logRequest info duration))
  end.

(** ** Running

    [Run] as the order of its effects.  Deferred calls run last in, first
    out.  The store of a loaded configuration always exists, as
    [ConfigFacts] shows. *)

Inductive event := EServe (listen : string) | EFlush | ECloseStore.

Record CLI := { CConfig : string; CListen : string; CLogLevel : string }.

(** [closes] is whether the store is an [io.Closer], [serve] how serving ended,
    [flush] how the last export did (an error is only logged). *)
Definition Run (cli : CLI) (load : string -> result goerror config.Config) (o : otel) (closes : bool) (serve : string -> option goerror) :
    list event * option goerror :=
  match load (CConfig cli) with
  | Err e => ([], Some e)
  | Ok cfg =>
    let listen := if bool_decide (CListen cli = "") then config.Listen cfg else CListen cli in
    match NewWithStore o cfg with
    | Err e => ([], Some e)
    | Ok app =>
      ([EServe listen] ++ match meterProvider app with Some _ => [EFlush] | None => [] end ++ (if closes then [ECloseStore] else []), serve listen)
    end
  end.

End s3rp.
