(* ===== verification/TelemetryFacts.v ===== *)
(** * Facts about metrics and the access log

    The two appends that share an array give the measurements of the reference;
    attributes stay bounded; every request that is not aborted by its handler
    is measured and logged once, with what the client was told. *)

From S2P Require Import Prelude Unicode GoStrings GoNet GoError JSON XML Signer Store Authorize Routing Pipeline Config Clients Breaker Telemetry.

Open Scope Z_scope.

(** ** Slices *)

Section Slices.
Context {A : Type} (zero : A) (grow : nat -> nat).

(** [s] shows [xs], in the one array allocated since [h0]. *)
Definition shows (h0 h : slices.heap A) (s : slices.slice) (xs : list A) : Prop :=
  exists a, h = h0 ++ [a] /\ length a = slices.cap s /\ slices.base s = length h0 /\ slices.len s = length xs /\ take (length xs) a = xs.

Lemma shows_contents h0 h s xs : shows h0 h s xs -> slices.contents h s = xs.
Proof.
  intros (a & -> & _ & Hb & Hl & Ht). unfold slices.contents.
  rewrite Hb, (list_lookup_middle h0 [] a) by done. simpl. by rewrite Hl.
Qed.

Lemma shows_make h n c : n = 0%nat -> shows h (slices.make zero h n c).1 (slices.make zero h n c).2 [].
Proof. intros ->. exists (replicate c zero). unfold slices.make. simpl. rewrite length_replicate. done. Qed.

Lemma take_inserts (xs ys : list A) a :
  (length xs + length ys <= length a)%nat -> take (length xs) a = xs -> take (length xs + length ys) (list_inserts (length xs) ys a) = xs ++ ys.
Proof.
  intros Hlen Ht. rewrite <- (take_drop (length xs) a), Ht.
  rewrite <- (Nat.add_0_r (length xs)) at 2. rewrite list_inserts_app_r.
  rewrite <- (take_drop (length ys) (drop (length xs) a)).
  rewrite list_inserts_0_r by (rewrite length_take, length_drop; lia).
  rewrite app_assoc, <- length_app. apply take_app_length.
Qed.

Lemma shows_append h0 h s xs ys : shows h0 h s xs -> (length xs + length ys <= slices.cap s)%nat ->
  shows h0 (slices.append zero grow h s ys).1 (slices.append zero grow h s ys).2 (xs ++ ys) /\
  shows h0 (slices.append zero grow h s ys).1 s xs /\
  slices.cap (slices.append zero grow h s ys).2 = slices.cap s.
Proof.
  intros (a & -> & Hc & Hb & Hl & Ht) Hroom. unfold slices.append. rewrite Hl, (proj2 (Nat.leb_le _ _) Hroom). simpl.
  assert (alter (list_inserts (length xs) ys) (slices.base s) (h0 ++ [a]) = h0 ++ [list_inserts (length xs) ys a]) as ->.
  { rewrite Hb, <- (Nat.add_0_r (length h0)). apply (alter_app_r _ h0 [a] 0). }
  split_and!; [| |done].
  - exists (list_inserts (length xs) ys a). rewrite length_inserts, length_app. simpl. split_and!; [done..|].
    apply take_inserts; [lia|done].
  - exists (list_inserts (length xs) ys a). rewrite length_inserts. split_and!; [done..|].
    replace (take (length xs) (list_inserts (length xs) ys a)) with (take (length xs) (take (length xs + length ys) (list_inserts (length xs) ys a)))
      by (rewrite take_take; f_equal; lia).
    rewrite take_inserts by (done || lia). by rewrite take_app_length.
Qed.

End Slices.

(** ** Measurements *)

From S2P Require Import PipelineFacts.
Import pipeline.

Section Measured.
Import semconv otelmetric.
Context (grow : nat -> nat).

(** Runs the next [append] in the goal. *)
Ltac appended :=
  match goal with
  | Hs : shows ?h0 ?h ?s ?xs, Hc : slices.cap ?s = 7%nat |- context [slices.append zeroKV grow ?h ?s ?ys] =>
    let H1 := fresh "Hshows" in let H2 := fresh in let H3 := fresh "Hcap" in
    destruct (shows_append zeroKV grow h0 h s xs ys Hs ltac:(rewrite Hc; simpl; lia)) as (H1 & H2 & H3);
    clear H2; rewrite Hc in H3; destruct (slices.append zeroKV grow h s ys) as [? ?]; simpl in H1, H3; clear Hs Hc; try clear h s; cbn beta iota
  end.

Lemma attributes_shows r info h :
  shows h (attributes grow r info h).1 (attributes grow r info h).2 (series r info) /\ slices.cap (attributes grow r info h).2 = 7%nat.
Proof.
  unfold attributes, series. pose proof (shows_make zeroKV h 0 7 eq_refl) as Hs.
  assert (slices.cap (slices.make zeroKV h 0 7).2 = 7%nat) as Hc by done.
  destruct (slices.make zeroKV h 0 7) as [h1 s1]. cbn [fst snd] in *.
  destruct (rOp (IWho info)) as [op|], (bool_decide (ICode info = "")), (IErr info), (tenant r && _); cbn [negb];
    try destruct (bucket r && _); repeat appended; cbn [fst snd app] in *; done.
Qed.

Lemma series_room r info : (length (series r info) < 7)%nat.
Proof.
  unfold series. rewrite !length_app.
  destruct (rOp (IWho info)) as [op|], (bool_decide (ICode info = "")), (IErr info), (tenant r && _); cbn [negb];
    try destruct (bucket r && _); simpl; lia.
Qed.

(** The appends write to one array, yet neither measurement sees the other's
    direction, and no append grows the array. *)
Lemma Observe_measurements r info d h :
  (Observe grow r info d h).2 = measurements r info d /\ exists a, (Observe grow r info d h).1 = h ++ [a].
Proof.
  unfold Observe, measurements. destruct (attributes_shows r info h) as [Hs Hc].
  pose proof (series_room r info) as Hroom.
  destruct (attributes grow r info h) as [h1 s]. cbn [fst snd] in *.
  assert (slices.contents h1 s = series r info) as -> by (by eapply shows_contents).
  assert (forall h1 x, shows h h1 s (series r info) ->
    shows h (slices.append zeroKV grow h1 s [x]).1 (slices.append zeroKV grow h1 s [x]).2 (series r info ++ [x]) /\
    shows h (slices.append zeroKV grow h1 s [x]).1 s (series r info)) as Happ.
  { intros h2 x H2. destruct (shows_append zeroKV grow h h2 s _ [x] H2 ltac:(rewrite Hc; change (length [x]) with 1%nat; lia)) as (? & ? & _). done. }
  assert (forall h2 s2 xs, shows h h2 s2 xs -> exists a, h2 = h ++ [a]) as Hone by (intros h2 s2 xs (a & -> & _); by exists a).
  destruct (0 <? IBytesIn info), (0 <? IBytesOut info);
    repeat match goal with
    | Hs : shows h ?h1 s _ |- context [slices.append zeroKV grow ?h1 s [?x]] =>
      let H := fresh in let H' := fresh in let E := fresh in
      destruct (Happ h1 x Hs) as [H H']; apply shows_contents in H;
      destruct (slices.append zeroKV grow h1 s [x]) as [? ?] eqn:E; try rewrite E in H; try rewrite E in H'; cbn [fst snd app] in *
    end; cbn [fst snd app]; (split; [congruence | by eapply Hone]).
Qed.

End Measured.

(** ** Labels *)

Section Labels.
Import semconv otelmetric.

(** The attributes a measurement of the request may carry, and their values. *)
Inductive label (r : Recorder) (info : RequestInfo) : KeyValue -> Prop :=
| label_method m : m ∈ "_OTHER" :: methods -> label r info (AttrHTTPRequestMethod, VString m)
| label_status : label r info (AttrHTTPResponseStatusCode, VInt (IStatus info))
| label_operation op : rOp (IWho info) = Some op -> label r info (AttrS3GWOperation, VString (routing.Operation op))
| label_error c : c ∈ [ICode info; errorTypeOther] -> c <> "" -> label r info (AttrErrorType, VString c)
| label_tenant : tenant r = true -> rTenant (IWho info) <> "" -> label r info (AttrS3GWTenant, VString (rTenant (IWho info)))
| label_bucket op : bucket r = true -> rOp (IWho info) = Some op -> routing.OBucket op <> "" ->
    label r info (AttrAWSS3Bucket, VString (routing.OBucket op))
| label_direction d : d ∈ [NetworkIODirectionReceive; NetworkIODirectionTransmit] -> label r info (AttrNetworkIODirection, VString d).

Lemma method_bounded m : method m ∈ "_OTHER" :: methods.
Proof. unfold method. case_bool_decide; [by right|left]. Qed.

Lemma series_labels r info : Forall (label r info) (series r info).
Proof.
  unfold series. rewrite !Forall_app. split_and!.
  - apply Forall_cons_2; [apply label_method, method_bounded|]. apply Forall_cons_2; [apply label_status|apply Forall_nil_2].
  - destruct (rOp (IWho info)) eqn:Hop; [|apply Forall_nil_2]. apply Forall_singleton. by apply label_operation.
  - destruct (bool_decide_reflect (ICode info = "")) as [Hc|Hc]; cbn [negb].
    + destruct (IErr info); [|apply Forall_nil_2]. apply Forall_singleton. apply label_error; [set_solver|done].
    + apply Forall_singleton. apply label_error; [set_solver|done].
  - destruct (tenant r) eqn:Ht, (bool_decide_reflect (rTenant (IWho info) = "")); cbn [negb andb]; try apply Forall_nil_2.
    apply Forall_singleton. by apply label_tenant.
  - destruct (rOp (IWho info)) as [op|] eqn:Hop; [|apply Forall_nil_2].
    destruct (bucket r) eqn:Hb, (bool_decide_reflect (routing.OBucket op = "")); cbn [negb andb]; try apply Forall_nil_2.
    apply Forall_singleton. by apply label_bucket.
Qed.

Lemma series_nodup r info : NoDup ((series r info).*1 ++ [AttrNetworkIODirection]).
Proof.
  unfold series.
  destruct (rOp (IWho info)) as [op|], (bool_decide (ICode info = "")), (IErr info), (tenant r && _); cbn [negb];
    try destruct (bucket r && _); cbn [app fmap list_fmap fst]; by apply (bool_decide_unpack _).
Qed.

(** Recording a request gives exactly the measurements of the reference:
    one duration and one amount per direction that carried bytes, each with the
    attributes of the request and its own direction, although the two appends
    write to one array (the only one allocated).  The attributes stay bounded:
    each occurs once, the method is one of nine names or _OTHER whatever the
    client sent, tenant and bucket appear only when the service opted in, and
    nothing else of the request is an attribute. *)
Theorem metrics_exact grow r info d h :
  (Observe grow r info d h).2 = measurements r info d /\
  (exists a, (Observe grow r info d h).1 = h ++ [a]) /\
  forall m, m ∈ (Observe grow r info d h).2 -> NoDup (attrs m).*1 /\ Forall (label r info) (attrs m).
Proof.
  destruct (Observe_measurements grow r info d h) as [He Ha]. split_and!; [done..|]. intros m. rewrite He. unfold measurements.
  pose proof (series_labels r info) as Hl. pose proof (series_nodup r info) as Hn.
  assert (forall x, x ∈ [NetworkIODirectionReceive; NetworkIODirectionTransmit] ->
    NoDup (series r info ++ [(AttrNetworkIODirection, VString x)]).*1 /\ Forall (label r info) (series r info ++ [(AttrNetworkIODirection, VString x)])) as Hio.
  { intros x Hx. rewrite fmap_app. split; [exact Hn|]. rewrite Forall_app. split; [done|]. apply Forall_singleton. by apply label_direction. }
  rewrite elem_of_cons, elem_of_app. intros [->|[Hm|Hm]].
  - split; [|done]. by apply NoDup_app in Hn as [? _].
  - destruct (0 <? IBytesIn info); [|by apply elem_of_nil in Hm]. apply list_elem_of_singleton in Hm as ->. apply Hio. set_solver.
  - destruct (0 <? IBytesOut info); [|by apply elem_of_nil in Hm]. apply list_elem_of_singleton in Hm as ->. apply Hio. set_solver.
Qed.

End Labels.

(** ** Every request is accounted for *)

Section Accounted.
Import s3rp.
Context {E : Type} (io : Env E).

Lemma http_WriteHeader_status w st : status (http_WriteHeader io w st).2 = status w.
Proof. unfold http_WriteHeader. destruct (sent w); [done|]. by destruct (_ || _). Qed.

Lemma send_counted_status w p : status (send_counted io w p).2 = status w.
Proof.
  unfold send_counted. destruct (send io (env (http_WriteHeader io w 200).2) p) as [[n err] e]. exact (http_WriteHeader_status w 200).
Qed.

Lemma write_loop_status fuel : forall w p total, status (write_loop io fuel w p total).2 = status w.
Proof.
  induction fuel as [|f IH]; intros w p total; [done|]. cbn [write_loop].
  destruct (strings.length p =? 0)%nat; [done|]. destruct (wait_out io (env w) _) as [[err|] e]; [done|].
  match goal with |- context [send_counted io ?x ?y] => pose proof (send_counted_status x y) as Hs; destruct (send_counted io x y) as [[n [err|]] w1] end;
    cbn [snd] in *; [by rewrite Hs|by rewrite IH, Hs].
Qed.

Lemma Write_status w p : status (Write io w p).2 = status w.
Proof.
  unfold Write. destruct (negb (out_limited (start w))); [|by rewrite write_loop_status]. by rewrite send_counted_status.
Qed.

(** An error is answered with its status, or the writer panics on it. *)
Lemma write_error_status quoted w r e id : status (write_error io quoted w r e id).2 = s3err.status e.
Proof.
  assert (forall x, status (WriteHeader io x (s3err.status e)).2 = s3err.status e) as Hh by (intros x; unfold WriteHeader; by rewrite http_WriteHeader_status).
  unfold write_error, s3err.Write. destruct (_ || _); [apply Hh|]. cbn [s3err.RBody s3err.RStatus s3err.status].
  specialize (Hh (set_header w "Content-Type" "application/xml")). destruct (WriteHeader io _ _) as [[v|] w0]; [done|]. cbn [snd] in Hh.
  pose proof (Write_status w0 xml.Header) as Hs. destruct (Write io _ xml.Header) as [[n1 e1] w1]. cbn [snd] in Hs.
  match goal with |- context [Write io w1 ?p] => pose proof (Write_status w1 p) as Hs1; destruct (Write io w1 p) as [[n2 e2] w2] end.
  cbn [snd] in *. by rewrite Hs1, Hs.
Qed.

Lemma WriteHeader_panic w st : sent w = None -> (WriteHeader io w st).1 <> None <-> ~ (100 <= st <= 999).
Proof.
  intros Hs. unfold WriteHeader, http_WriteHeader. cbn [sent]. rewrite Hs. destruct (_ || _) eqn:Hr; cbn [fst].
  - split; [intros _|done]. apply orb_true_iff in Hr as [Hr|Hr]; bools; lia.
  - split; [done|]. intros Hn. apply orb_false_iff in Hr as [? ?]. bools. destruct Hn. lia.
Qed.

Lemma write_error_panic quoted w r e id : sent w = None -> (write_error io quoted w r e id).1 <> None <-> ~ (100 <= s3err.status e <= 999).
Proof.
  intros Hs. unfold write_error, s3err.Write. destruct (_ || _); [by apply WriteHeader_panic|]. cbn [s3err.RBody s3err.RStatus s3err.status].
  pose proof (WriteHeader_panic (set_header w "Content-Type" "application/xml") (s3err.status e) Hs) as Hp.
  destruct (WriteHeader io _ _) as [[v|] w0]; [exact Hp|]. cbn [fst] in Hp.
  destruct (Write io w0 xml.Header) as [[n1 e1] w1]. by destruct (Write io w1 _) as [[n2 e2] w2].
Qed.

(** net/http has sent nothing before the response started. *)
Definition unsent (w : conn E) : Prop := started w = false -> sent w = None.

Lemma exec_unsent {A} (p : prog A) : forall w, unsent w -> unsent (exec io p w).2.
Proof.
  assert (forall w st, started (http_WriteHeader io w st).2 = started w) as Hh
    by (intros w st; unfold http_WriteHeader; destruct (sent w); [done|]; by destruct (_ || _)).
  assert (forall w s, started (send_counted io w s).2 = started w) as Hc.
  { intros w s. unfold send_counted. destruct (send io (env (http_WriteHeader io w 200).2) s) as [[n err] e]. exact (Hh w 200). }
  assert (forall f w s t, started (write_loop io f w s t).2 = started w) as Hl.
  { induction f as [|f IH]; intros w s t; [done|]. cbn [write_loop]. destruct (_ =? 0)%nat; [done|].
    destruct (wait_out io (env w) _) as [[err|] e]; [done|].
    match goal with |- context [send_counted io ?x ?y] => pose proof (Hc x y) as Hs; destruct (send_counted io x y) as [[n [err|]] w1] end;
      cbn [snd] in *; [by rewrite Hs|by rewrite IH, Hs]. }
  induction p as [a|v|h p IH|f IH|st p IH|s f IH|k f IH|i o p IH|p IH|f IH|i p IH|X c f IH]; intros w Hi; cbn [exec]; try done.
  - by apply IH.
  - by apply IH.
  - pose proof (Hh {| env := env w; hdrs := hdrs w; status := st; started := true; sent := sent w; written := written w; out_limited := out_limited w;
       nread := nread w; in_limited := in_limited w; BytesIn := BytesIn w; BytesOut := BytesOut w; who := who w |} st) as Hs. fold (WriteHeader io w st) in Hs.
    destruct (WriteHeader io w st) as [[v|] w1]; cbn [snd started] in Hs; [unfold unsent; cbn; by rewrite Hs|].
    apply IH. unfold unsent. by rewrite Hs.
  - assert (started (Write io w s).2 = true) as Hs by (unfold Write; destruct (negb _); [by rewrite Hc|by rewrite Hl]).
    destruct (Write io w s) as [[n err] w1]. cbn [snd] in Hs. apply IH. unfold unsent. by rewrite Hs.
  - assert (unsent (Read io w k).2) as Hr.
    { unfold Read. destruct (recv io (env w) k) as [[s err] e]. cbn zeta. destruct (_ && _); [|done]. by destruct (waitBandwidth _ _ _ _) as [[werr|] e1]. }
    destruct (Read io w k) as [[s err] w1]. by apply IH.
  - by apply IH.
  - by apply IH.
  - by apply IH.
  - by apply IH.
  - destruct (backend io (env w) c) as [x e]. by apply IH.
Qed.

(** How the handler ended: without an error, with one, or in a panic. *)
Definition ended (res : option goerror + panic_value) : option goerror :=
  match res with inl err => err | inr v => Some (panic_error v) end.

(** The record of a request whose handler ended in [err]. *)
Lemma wrapHandler_record quoted r id h w e info w' :
  wrapHandler io quoted true r id h w = (e, Some info, w') ->
  let after := exec io h (set_header w "x-amz-request-id" id) in
  match ended after.1 with
  | None => ICode info = "" /\ IErr info = None
  | Some err =>
    IErr info = s3err.Unwrap (answered err) /\
    ICode info = (if started after.2 then "" else s3err.Code (answered err)) /\
    IStatus info = (if started after.2 then status after.2 else s3err.status (answered err))
  end.
Proof.
  intros H after. subst after. unfold wrapHandler in H. unfold ended.
  destruct (exec io h (set_header w "x-amz-request-id" id)) as [[[err|]|v] w1]; cbn [fst snd].
  - unfold report in H. destruct (started w1); [simplify_eq; done|].
    pose proof (write_error_status quoted w1 r (answered err) id) as Hs. destruct (write_error _ _ _ _ _ _) as [[[|v]|] w2]; [done|done|].
    simplify_eq. done.
  - unfold report in H. simplify_eq. done.
  - destruct v as [|v]; [done|]. unfold report in H. destruct (started w1); [simplify_eq; done|].
    pose proof (write_error_status quoted w1 r (answered (panic_error (PanicValue v))) id) as Hs. destruct (write_error _ _ _ _ _ _) as [[v1|] w2]; [done|].
    simplify_eq. done.
Qed.

Lemma failed_spec info : failed info = true <-> ICode info <> "" \/ IErr info <> None.
Proof.
  unfold failed. rewrite orb_true_iff, negb_true_iff, bool_decide_eq_false, bool_decide_eq_true. 
  destruct (IErr info); split; intros [?|?]; try done; auto; by destruct H.
Qed.

Lemma failed_line_level info :
  level (failed_line info) = LevelError <-> 500 <= IStatus info \/ as_panic (IErr info) <> None.
Proof.
  unfold failed_line. destruct (Z.leb_spec 500 (IStatus info)) as [Hs|Hs]; [naive_solver|].
  destruct (as_panic (IErr info)); naive_solver lia.
Qed.

Lemma failed_line_names info :
  ("code", LStr (ICode info)) ∈ attrs (failed_line info) /\ ("status", LInt (IStatus info)) ∈ attrs (failed_line info).
Proof. unfold failed_line. cbn [attrs]. repeat case_match; set_solver. Qed.

(** The error.type of a failed request: its code, or the fallback value when it
    has none. *)
Definition error_type (info : RequestInfo) : string := if bool_decide (ICode info = "") then otelmetric.errorTypeOther else ICode info.

Lemma series_error rec info x : (semconv.AttrErrorType, x) ∈ otelmetric.series rec info <-> failed info = true /\ x = otelmetric.VString (error_type info).
Proof.
  rewrite failed_spec. unfold otelmetric.series, error_type.
  destruct (rOp (IWho info)) as [op|], (bool_decide_reflect (ICode info = "")) as [Hc|Hc], (IErr info), (otelmetric.tenant rec && _); cbn [negb];
    try destruct (otelmetric.bucket rec && _); cbn [app]; rewrite ?elem_of_cons, ?elem_of_nil;
    (split; [intros H; destruct_or!; try done; injection H as ->; (split; [by (left + right)|done])|intros [[H|H] ->]; naive_solver]).
Qed.

Lemma logRequest_failed info d : logRequest info d = if failed info then [failed_line info; access_line info d] else [access_line info d].
Proof. unfold logRequest. by destruct (failed info). Qed.

(** What the record can tell of the failure [err]: a code the client was told,
    or a cause. *)
Definition recorded (err : goerror) (began : bool) : Prop :=
  (began = false /\ s3err.Code (answered err) <> "") \/ s3err.Unwrap (answered err) <> None.

(** C28. With the observer the service installs, a request that gets a record
    is measured (when metrics are configured) and logged once.  One that ended
    well has neither a failure line nor an error.type.  One that failed has
    both, when the client was told a code or the failure has a cause: the line
    names the code, cause and status, at the error level exactly for
    server-side statuses and panics, and error.type is the code the client was
    told, or the fallback value after a response that had begun.  A failure
    that leaves neither (one without a cause after the response began) reads as
    a success.  A request gets no record only when its handler aborts the
    connection on purpose, or returns, having sent nothing, an error with a
    status that is not of three digits, on which the writer panics. *)
Theorem request_accounted grow app quoted r id h e0 d hp :
  let after := exec io h (set_header (new_conn e0) "x-amz-request-id" id) in
  match wrapHandler io quoted true r id h (new_conn e0) with
  | (_, None, _) => after.1 = inr ErrAbortHandler \/
      (started after.2 = false /\ exists err, after.1 = inl (Some err) /\ ~ (100 <= s3err.status (answered err) <= 999))
  | (_, Some info, _) =>
    (observer grow app info d hp).2 =
      map Measured (match meterProvider app with Some (_, rec) => otelmetric.measurements rec info d | None => [] end) ++
      map Logged (logRequest info d) /\
    match ended after.1 with
    | None => logRequest info d = [access_line info d] /\ forall rec x, (semconv.AttrErrorType, x) ∉ otelmetric.series rec info
    | Some err =>
      ICode info = (if started after.2 then "" else s3err.Code (answered err)) /\ IErr info = s3err.Unwrap (answered err) /\
      (recorded err (started after.2) ->
       logRequest info d = [failed_line info; access_line info d] /\
       ("code", LStr (ICode info)) ∈ attrs (failed_line info) /\ ("status", LInt (IStatus info)) ∈ attrs (failed_line info) /\
       (level (failed_line info) = LevelError <-> 500 <= IStatus info \/ as_panic (IErr info) <> None) /\
       forall rec x, (semconv.AttrErrorType, x) ∈ otelmetric.series rec info <->
         x = otelmetric.VString (if bool_decide (ICode info = "") then otelmetric.errorTypeOther else s3err.Code (answered err))) /\
      (~ recorded err (started after.2) ->
       logRequest info d = [access_line info d] /\ forall rec x, (semconv.AttrErrorType, x) ∉ otelmetric.series rec info)
    end
  end.
Proof.
  intros after. pose proof (exec_unsent h (set_header (new_conn e0) "x-amz-request-id" id) (fun _ => eq_refl)) as Hun. fold after in Hun.
  assert (forall info, failed info = false -> logRequest info d = [access_line info d] /\ forall rec x, (semconv.AttrErrorType, x) ∉ otelmetric.series rec info) as Hok.
  { intros info Hf. rewrite logRequest_failed, Hf. split; [done|]. intros rec x. rewrite series_error, Hf. naive_solver. }
  destruct (wrapHandler io quoted true r id h (new_conn e0)) as [[e [info|]] w'] eqn:Hw.
  - split.
    { unfold observer. destruct (meterProvider app) as [[x rec]|]; [|done].
      pose proof (proj1 (Observe_measurements grow rec info d hp)) as Hm.
      destruct (otelmetric.Observe grow rec info d hp) as [h1 ms]. cbn [snd] in *. by subst. }
    pose proof (wrapHandler_record quoted r id h (new_conn e0) e info w' Hw) as Hr. cbn zeta in Hr. fold after in Hr.
    destruct (ended after.1) as [err|].
    + destruct Hr as (He & Hc & _). split; [done|]. split; [done|].
      assert (failed info = true <-> recorded err (started after.2)) as Hf.
      { rewrite failed_spec, He, Hc. unfold recorded. destruct (started after.2); naive_solver. }
      split; [|intros Hn; apply Hok; apply not_true_iff_false; by rewrite Hf].
      intros Ht%Hf. rewrite logRequest_failed, Ht. destruct (failed_line_names info) as [Hcode Hst].
      split_and!; [done|done|done|apply failed_line_level|]. intros rec x.
      rewrite series_error. unfold error_type. destruct (bool_decide_reflect (ICode info = "")) as [|Hne]; [naive_solver|].
      assert (ICode info = s3err.Code (answered err)) as <- by (destruct (started after.2); congruence). naive_solver.
    + apply Hok. destruct Hr as [Hc He]. apply not_true_iff_false. rewrite failed_spec, Hc, He. naive_solver.
  - unfold wrapHandler in Hw. subst after. destruct (exec io h _) as [[[err|]|[|v]] w1]; cbn [fst snd] in *; unfold report in Hw; [|done|by left|].
    + right. destruct (started w1) eqn:Hst; [done|]. split; [done|]. exists err. split; [done|].
      apply (write_error_panic quoted w1 r (answered err) id (Hun Hst)). by destruct (write_error _ _ _ _ _ _) as [[v|] w2].
    + exfalso. destruct (started w1) eqn:Hst; [done|].
      pose proof (write_error_panic quoted w1 r (answered (panic_error (PanicValue v))) id (Hun Hst)) as Hp.
      destruct (write_error _ _ _ _ _ _) as [[v1|] w2]; [|done]. cbn [fst] in Hp. apply (proj1 Hp); [done|]. cbn. lia.
Qed.

(** A panic before anything was sent is answered with status 500, at which
    [logRequest] stops before it looks for the panic: its stack, which nothing
    else prints, is not logged. *)
Theorem panic_stack_lost quoted r id h w v w1 e info w' d :
  exec io h (set_header w "x-amz-request-id" id) = (inr (PanicValue v), w1) -> started w1 = false ->
  wrapHandler io quoted true r id h w = (e, Some info, w') ->
  as_panic (IErr info) = Some v /\ Forall (fun l => "stack" ∉ (attrs l).*1) (logRequest info d).
Proof.
  intros Hx Hst Hw. pose proof (wrapHandler_record quoted r id h w e info w' Hw) as Hr. cbn zeta in Hr.
  rewrite Hx in Hr. cbn [fst snd ended] in Hr. rewrite Hst in Hr. destruct Hr as (He & _ & Hs).
  split; [by rewrite He|].
  assert (500 <= IStatus info) as H5 by (rewrite Hs; done).
  unfold logRequest. rewrite Forall_app. split.
  - destruct (failed info); [|done]. apply Forall_singleton. unfold failed_line. rewrite (proj2 (Z.leb_le _ _) H5). cbn [attrs].
    rewrite He. cbn. by apply (bool_decide_unpack _).
  - apply Forall_singleton. unfold access_line. cbn [attrs].
    destruct (bool_decide (rTenant (IWho info) = "")), (rOp (IWho info)); cbn [app fmap list_fmap fst]; by apply (bool_decide_unpack _).
Qed.

End Accounted.

(** A failure without a cause after the response has started leaves neither a
    code nor an error: the record reads as a success. *)
Theorem failure_unrecorded :
  exists info, (wrapHandler (logged demo_taker) (fun s => s) true demo_served "ID"
    (DoWriteHeader 200 (Ret (Some (s3err.as_error s3err.AccessDenied)))) (new_conn (tt, []))).1.2 = Some info /\
    ICode info = "" /\ IErr info = None /\ s3rp.logRequest info 0 = [s3rp.access_line info 0].
Proof. eexists. split; [reflexivity|]. done. Qed.
