(* ===== verification/Server.v ===== *)
(** * The server process (Run and Serve of src/s3rp.go, src/cmd/s3rp/main.go)

    The process from the start of the server to its exit, as a step relation:
    the main goroutine in ListenAndServe and then in the deferred calls of Run,
    the goroutine that waits for the signal and calls Shutdown, and the
    requests being served, one goroutine each.  Of net/http the documented
    behaviour is modelled: Shutdown closes the listener at once, returns when
    no request is being served or its context ends, and ListenAndServe returns
    ErrServerClosed as soon as Shutdown has been called, or the error of its
    listener, which it closes. *)

From S2P Require Import Prelude Unicode GoStrings GoError Config Pipeline Telemetry.

Open Scope Z_scope.

Module server.

(** The goroutine that calls [srv.Shutdown]. *)
Inductive drain := Waiting | Draining | DrainOver (timed_out : bool).

(** The main goroutine: in ListenAndServe, in the deferred calls of [Run] with
    what Serve returned, or gone with the exit code. *)
Inductive phase := Listening | Deferred (todo : list s3rp.event) (err : option goerror) | Exited (code : Z).

Record process := {
  canceled : bool;                (* the context of the signals is done *)
  listening : bool;               (* the listener is open *)
  broken : option goerror;        (* the listener failed *)
  accepted : list nat;            (* every request accepted so far *)
  active : list nat;              (* requests being served *)
  observed : list nat;            (* requests whose record the observer has had *)
  exported : list nat;            (* records in the last export of the metrics *)
  store_closed : bool;
  drainer : drain;
  main : phase;
  cut : list nat }.               (* requests that ended with the process *)

Definition start : process :=
  {| canceled := false; listening := true; broken := None; accepted := []; active := []; observed := []; exported := []; store_closed := false; drainer := Waiting;
     main := Listening; cut := [] |}.

Definition alive (p : process) : Prop := forall c, main p <> Exited c.

(** [main]: the exit code of what [Run] returned. *)
Definition exit_code (err : option goerror) : Z := match err with Some _ => 1 | None => 0 end.

(** One deferred call of [Run]. *)
Definition deferred (p : process) (ev : s3rp.event) (rest : list s3rp.event) (err : option goerror) : process :=
  {| canceled := canceled p; listening := listening p; broken := broken p; accepted := accepted p; active := active p; observed := observed p;
     exported := match ev with s3rp.EFlush => observed p | _ => exported p end;
     store_closed := match ev with s3rp.ECloseStore => true | _ => store_closed p end;
     drainer := drainer p; main := Deferred rest err; cut := cut p |}.

Definition with_main (p : process) (m : phase) : process :=
  {| canceled := canceled p; listening := listening p; broken := broken p; accepted := accepted p; active := active p; observed := observed p; exported := exported p;
     store_closed := store_closed p; drainer := drainer p; main := m; cut := cut p |}.

Definition with_drainer (p : process) (l : bool) (d : drain) : process :=
  {| canceled := canceled p; listening := l; broken := broken p; accepted := accepted p; active := active p; observed := observed p; exported := exported p;
     store_closed := store_closed p; drainer := d; main := main p; cut := cut p |}.

Definition with_requests (p : process) (act obs : list nat) : process :=
  {| canceled := canceled p; listening := listening p; broken := broken p; accepted := accepted p; active := act; observed := obs; exported := exported p;
     store_closed := store_closed p; drainer := drainer p; main := main p; cut := cut p |}.

Section Steps.
(** What [Run] defers, in the order it runs. *)
Context (deferrals : list s3rp.event).

Inductive step (p : process) : process -> Prop :=
(** ListenAndServe accepts a request; its goroutine ends with the record. *)
| step_accept id : main p = Listening -> listening p = true -> id ∉ active p -> id ∉ observed p ->
    step p {| canceled := canceled p; listening := listening p; broken := broken p; accepted := id :: accepted p; active := id :: active p;
              observed := observed p; exported := exported p; store_closed := store_closed p; drainer := drainer p; main := main p; cut := cut p |}
| step_finish l1 id l2 : alive p -> active p = l1 ++ id :: l2 ->
    step p (with_requests p (l1 ++ l2) (id :: observed p))
(** The signal. *)
| step_signal : alive p ->
    step p {| canceled := true; listening := listening p; broken := broken p; accepted := accepted p; active := active p; observed := observed p; exported := exported p;
              store_closed := store_closed p; drainer := drainer p; main := main p; cut := cut p |}
(** [srv.Shutdown], called and returning. *)
| step_shutdown : alive p -> canceled p = true -> drainer p = Waiting -> step p (with_drainer p false Draining)
| step_drained : alive p -> drainer p = Draining -> active p = [] -> step p (with_drainer p (listening p) (DrainOver false))
| step_deadline : alive p -> drainer p = Draining -> step p (with_drainer p (listening p) (DrainOver true))
(** ListenAndServe returns: ErrServerClosed once Shutdown was called, which
    [Serve] turns into no error, or the failure of the listener, which it closes
    as it returns. *)
| step_closed : main p = Listening -> drainer p <> Waiting -> step p (with_main p (Deferred deferrals None))
| step_failed e : main p = Listening -> drainer p = Waiting ->
    step p {| canceled := canceled p; listening := false; broken := Some e; accepted := accepted p; active := active p; observed := observed p;
              exported := exported p; store_closed := store_closed p; drainer := drainer p; main := Deferred deferrals (Some e); cut := cut p |}
(** The deferred calls of [Run], then the exit, which ends every goroutine. *)
| step_deferred ev l err : main p = Deferred (ev :: l) err -> step p (deferred p ev l err)
| step_exit err : main p = Deferred [] err ->
    step p {| canceled := canceled p; listening := listening p; broken := broken p; accepted := accepted p; active := []; observed := observed p; exported := exported p;
              store_closed := store_closed p; drainer := drainer p; main := Exited (exit_code err); cut := active p |}.

Definition reachable : process -> Prop := rtc step start.

End Steps.

(** [Run] up to the server: its deferrals, or the error it ends with before. *)
Definition deferrals (events : list s3rp.event) : list s3rp.event := match events with s3rp.EServe _ :: l => l | _ => [] end.

(** [setupLogger]: the level named, [LevelInfo] for one that does not parse.
    [slog.Level.UnmarshalText] is a name with an optional offset. *)
Definition LevelDebug : Z := -4.
Definition LevelInfo : Z := 0.
Definition LevelWarn : Z := 4.
Definition LevelError : Z := 8.

Fixpoint cut_sign (s : string) : string * string :=
  match s with
  | EmptyString => ("", "")
  | String c r => if bool_decide (c = "+"%char) || bool_decide (c = "-"%char) then ("", s) else let '(a, b) := cut_sign r in (String c a, b)
  end.

Definition level_name (n : string) : option Z :=
  let u := strings.ToUpper n in
  if bool_decide (u = "DEBUG") then Some LevelDebug
  else if bool_decide (u = "INFO") then Some LevelInfo
  else if bool_decide (u = "WARN") then Some LevelWarn
  else if bool_decide (u = "ERROR") then Some LevelError else None.

Definition UnmarshalLevel (s : string) : option Z :=
  let '(n, off) := cut_sign s in
  off ← (if bool_decide (off = "") then Some 0 else strconv.ParseInt off 10 64);
  base ← level_name n;
  Some (wrap64 (base + off)).

Definition setupLogger (level : string) : Z := default LevelInfo (UnmarshalLevel level).

(** ** Facts *)

Section Facts.
Context (dl : list s3rp.event).
#[local] Notation step := (step dl).
#[local] Notation reachable := (reachable dl).

(** A request can still be accepted. *)
Definition accepting (p : process) : Prop := main p = Listening /\ listening p = true.

(** Shutdown was called, on the signal. *)
Definition signalled (p : process) : Prop := canceled p = true /\ drainer p <> Waiting.

(** What Serve ends with: no error when it was shut down and the listener had
    not failed, the failure of the listener otherwise. *)
Definition outcome (p : process) (err : option goerror) : Prop := broken p = err /\ (err = None -> signalled p).

(** What holds all along. *)
Record orderly (p : process) : Prop := {
  od_shutdown : drainer p <> Waiting -> canceled p = true;
  od_listening : main p = Listening -> store_closed p = false /\ exported p = [] /\ broken p = None /\ (listening p = false -> signalled p);
  od_deferred : forall todo err, main p = Deferred todo err -> outcome p err /\ exists done, dl = done ++ todo /\
    (store_closed p = true -> s3rp.ECloseStore ∈ done) /\ (exported p <> [] -> s3rp.EFlush ∈ done);
  od_exited : forall c, main p = Exited c -> active p = [] /\ exists err, outcome p err /\ c = exit_code err;
  od_exported : exported p ⊆ observed p;
  od_cut : alive p -> cut p = [];
  od_accounted : accepted p ≡ₚ active p ++ cut p ++ observed p }.

Lemma start_orderly : orderly start.
Proof. by constructor. Qed.

Lemma main_alive p m : main p = m -> (forall c, m <> Exited c) -> alive p.
Proof. by intros <-. Qed.

(** A step of another goroutine than the main one: it keeps what the main one
    has done, and a shutdown stays one. *)
Definition aside (p q : process) : Prop :=
  main q = main p /\ store_closed q = store_closed p /\ exported q = exported p /\ broken q = broken p /\ cut q = cut p /\
  (signalled p -> signalled q) /\ (listening q = false -> listening p = false \/ signalled q).

Lemma aside_orderly p q : alive p -> aside p q -> (drainer q <> Waiting -> canceled q = true) -> exported p ⊆ observed q ->
  accepted q ≡ₚ active q ++ cut q ++ observed q -> orderly p -> orderly q.
Proof.
  intros Ha (Hm & Hc & He & Hb & Hcut & Hs & Hl) Hd Hx Hacc [H1 H2 H3 H4 H5 H6 H7]. unfold outcome in *. constructor; [done| | | | | |done].
  - rewrite Hm, Hc, He, Hb. intros Hm'. destruct (H2 Hm') as (? & ? & ? & Hls). split_and!; try done. intros [Hp|Hq]%Hl; [by apply Hs, Hls|done].
  - rewrite Hm, Hc, He. unfold outcome. rewrite Hb. intros todo err Hm'. destruct (H3 _ _ Hm') as ([? Ho] & ?). split; [|done]. split; [done|]. intros E. by apply Hs, Ho.
  - intros c Hm'. rewrite Hm in Hm'. by destruct (Ha c).
  - by rewrite He.
  - intros _. rewrite Hcut. by apply H6.
Qed.

(** The deferred calls, one further. *)
Lemma deferred_orderly p ev l err : main p = Deferred (ev :: l) err -> orderly p -> orderly (deferred p ev l err).
Proof.
  intros Hm [H1 H2 H3 H4 H5 H6 H7]. assert (alive p) as Ha by (apply (main_alive p _ Hm); done). constructor; cbn; try done.
  - intros todo err' [= <- <-]. destruct (H3 _ _ Hm) as (Ho & d & -> & Hc & He). split; [exact Ho|].
    exists (d ++ [ev]). split; [by rewrite <- app_assoc|].
    split; intros Hx; apply elem_of_app; destruct ev; (try (left; by apply Hc)); (try (left; by apply He)); right; left.
  - by destruct ev.
  - intros _. by apply H6.
Qed.

(** ListenAndServe returns; nothing deferred has run. *)
Lemma returned_orderly p q err : main p = Listening -> main q = Deferred dl err -> broken q = err -> (err = None -> signalled q) ->
  (drainer q <> Waiting -> canceled q = true) -> store_closed q = store_closed p -> exported q = exported p -> observed q = observed p ->
  cut q = cut p -> active q = active p -> accepted q = accepted p -> orderly p -> orderly q.
Proof.
  intros Hm Hq Hb Hs Hd Hc He Ho Hcut Hact Hacc [H1 H2 H3 H4 H5 H6 H7]. assert (alive p) as Ha by (apply (main_alive p _ Hm); done).
  destruct (H2 Hm) as (Hc' & He' & _). constructor; rewrite ?Hq, ?Hc, ?He, ?Ho, ?Hcut, ?Hact, ?Hacc; try done.
  - intros todo err' [= <- <-]. split; [done|]. exists []. rewrite Hc', He'. done.
  - intros _. by apply H6.
Qed.

Lemma step_orderly p q : step p q -> orderly p -> orderly q.
Proof.
  intros Hs H. pose proof H as [H1 H2 H3 H4 H5 H6 H7].
  destruct Hs as [id Hm Hl Hi Ho|l1 id l2 Ha Hact|Ha|Ha Hc Hd|Ha Hd Hact|Ha Hd|Hm Hl|e Hm Hl|ev l err Hm|err Hm].
  - assert (alive p) as Ha by (apply (main_alive p _ Hm); done). apply (aside_orderly p); try done; [by split_and!; auto|]. cbn. by rewrite H7.
  - apply (aside_orderly p); try done; [by split_and!; auto|cbn; set_solver|]. cbn. rewrite H7, (H6 Ha), Hact. cbn. solve_Permutation.
  - apply (aside_orderly p); try done. unfold aside, signalled. cbn. naive_solver.
  - apply (aside_orderly p); try done. unfold aside, signalled. cbn. naive_solver.
  - assert (canceled p = true) by (apply H1; by rewrite Hd). apply (aside_orderly p); try done. unfold aside, signalled. cbn. naive_solver.
  - assert (canceled p = true) by (apply H1; by rewrite Hd). apply (aside_orderly p); try done. unfold aside, signalled. cbn. naive_solver.
  - apply (returned_orderly p _ None); try done; [by apply H2|]. intros _. split; [by apply H1|done].
  - apply (returned_orderly p _ (Some e)); done.
  - by apply deferred_orderly.
  - assert (alive p) as Ha by (apply (main_alive p _ Hm); done). destruct (H3 _ _ Hm) as (Ho & _). constructor; cbn; try done.
    + intros c [= <-]. split; [done|]. exists err. done.
    + intros Hx. by destruct (Hx (exit_code err)).
    + by rewrite H7, (H6 Ha).
Qed.

Lemma reachable_orderly p : reachable p -> orderly p.
Proof.
  intros H. refine (rtc_ind_r (R := step) orderly start start_orderly _ p H). intros q q' _ Hs Hq. exact (step_orderly q q' Hs Hq).
Qed.

(** Closing the store is the last of the deferred calls. *)
Lemma close_last (flush close : bool) (d todo : list s3rp.event) :
  (if flush then [s3rp.EFlush] else []) ++ (if close then [s3rp.ECloseStore] else []) = d ++ todo -> s3rp.ECloseStore ∈ d -> todo = [].
Proof.
  intros E Hin. destruct flush, close; cbn in E; (destruct d as [|a [|b [|c d]]]; simplify_eq/=; try done;
    by repeat apply elem_of_cons in Hin as [?|Hin]; try apply not_elem_of_nil in Hin).
Qed.

(** A burst of requests, all accepted before the signal. *)
Definition burst (ids : list nat) : process :=
  {| canceled := false; listening := true; broken := None; accepted := ids; active := ids; observed := []; exported := []; store_closed := false;
     drainer := Waiting; main := Listening; cut := [] |}.

Lemma accept_all ids : NoDup ids -> reachable (burst ids).
Proof.
  induction ids as [|id ids IH]; intros Hn; [apply rtc_refl|]. apply NoDup_cons in Hn as [Hi Hn].
  eapply rtc_r; [exact (IH Hn)|]. exact (step_accept dl (burst ids) id eq_refl eq_refl Hi (not_elem_of_nil _)).
Qed.

(** The deferred calls and the exit need no step of another goroutine. *)
Lemma run_deferred todo : forall p err, main p = Deferred todo err ->
  exists q, rtc step p q /\ main q = Exited (exit_code err) /\ cut q = active p /\ drainer q = drainer p /\ observed q = observed p /\
    (exported q = exported p \/ exported q = observed p).
Proof.
  induction todo as [|ev todo IH]; intros p err Hm.
  - eexists. split; [apply rtc_once; by apply step_exit|]. cbn. split_and!; auto.
  - destruct (IH (deferred p ev todo err) err eq_refl) as (q & Hr & Hq & Hc & Hd & Ho & He). exists q.
    split; [eapply rtc_l; [by apply step_deferred|exact Hr]|]. cbn in *. split_and!; try done. destruct ev, He; auto.
Qed.

End Facts.


(** C30. The shutdown does not wait for the requests in progress: whatever is
    being served when the signal arrives can be cut off by an exit with code
    0, while Shutdown is still draining and before its deadline; what was cut
    is in no export. *)
Theorem Serve_does_not_drain deferred ids :
  NoDup ids ->
  exists p, reachable deferred p /\ main p = Exited 0 /\ cut p = ids /\ drainer p = Draining /\ exported p = [].
Proof.
  intros Hn. set (p0 := burst ids).
  set (p1 := {| canceled := true; listening := true; broken := None; accepted := ids; active := ids; observed := []; exported := []; store_closed := false; drainer := Waiting;
                main := Listening; cut := [] |}).
  set (p2 := with_drainer p1 false Draining). set (p3 := with_main p2 (Deferred deferred None)).
  destruct (run_deferred deferred deferred p3 None eq_refl) as (q & Hr & Hm & Hc & Hd & Ho & He). exists q. split_and!; try done; [|by destruct He].
  unfold reachable. etransitivity; [apply (accept_all deferred ids Hn)|].
  eapply rtc_l; [exact (step_signal deferred p0 ltac:(done))|]. eapply rtc_l; [exact (step_shutdown deferred p1 ltac:(done) eq_refl eq_refl)|].
  eapply rtc_l; [exact (step_closed deferred p2 eq_refl ltac:(done))|exact Hr].
Qed.

(** ** Witnesses *)

Definition demo_run : list s3rp.event :=
  (s3rp.Run {| s3rp.CConfig := "s3rp.yaml"; s3rp.CListen := ""; s3rp.CLogLevel := "info" |}
     (fun _ => Ok {| config.Listen := ":9000"; config.VirtualHostSuffix := ""; config.CircuitBreaker := None; config.Metrics := None;
                     config.StrictActions := false; config.Tenants := [] |})
     {| s3rp.getenv := fun _ => ""; s3rp.dial := fun _ => None; s3rp.new_resource := None; s3rp.create := fun _ => None; s3rp.register := None |}
     true (fun _ => None)).1.


Lemma Serve_does_not_drain_witness :
  exists p, reachable [s3rp.EFlush; s3rp.ECloseStore] p /\ main p = Exited 0 /\ cut p = [1; 2]%nat /\ drainer p = Draining /\ exported p = [].
Proof. apply (Serve_does_not_drain [s3rp.EFlush; s3rp.ECloseStore] [1; 2]%nat). repeat constructor; set_solver. Defined.

End server.
