(* ===== verification/ErrorText.v ===== *)
(** * What an operator reads (the Error methods of src/s3gw, src/s3err and
      src/sigv4, Password of src/store/store.go)

    The texts of the typed errors, which reach the observer and the log but
    never the client, and the text a secret is marshalled to.  [quoted] is
    [strconv.Quote] and [text] the message of an error that is wrapped. *)

From S2P Require Import Prelude Unicode GoStrings GoError Policy Store Authorize Pipeline.

Open Scope Z_scope.

Module errortext.

Section Text.
Context (quoted : string -> string) (text : goerror -> string).

(** [s3err.Error.Error]. *)
Definition Error_Error (e : s3err.Error) : string :=
  let msg := s3err.Code e +:+ ": " +:+ pipeline.message_text quoted (s3err.Message e) in
  match s3err.cause e with
  | Some c => msg +:+ ": " +:+ text c
  | None => msg
  end.

(** [AuthFailure.Error]. *)
Definition AuthFailure_Error (reason akid : string) (detail : message) (err : option goerror) : string :=
  let detail := pipeline.message_text quoted detail in
  reason +:+ (if bool_decide (akid = "") then "" else " (access key " +:+ akid +:+ ")") +:+
  (if bool_decide (detail = "") then "" else ": " +:+ detail) +:+
  match err with Some e => ": " +:+ text e | None => "" end.

(** [DenyReason.Error]. *)
Definition DenyReason_Error (r : s3gw.DenyReason) : string :=
  let stmt := "statement[" +:+ strconv.FormatInt (s3gw.RStatement r) +:+ "]" +:+
              (if bool_decide (s3gw.RSid r = "") then "" else " " +:+ quoted (s3gw.RSid r)) in
  let act := s3gw.RAction r in let res := s3gw.RResource r in let pr := s3gw.RPrincipal r in
  if bool_decide (s3gw.Layer r = s3gw.LayerUserPolicy) then
    if s3gw.RStatement r <? 0 then "user policy allows nothing for " +:+ act +:+ " (" +:+ pr +:+ ")"
    else "user policy " +:+ stmt +:+ " denies " +:+ act +:+ " (" +:+ pr +:+ ")"
  else if bool_decide (s3gw.Layer r = s3gw.LayerBucketPolicy) then
    "bucket policy " +:+ stmt +:+ " denies " +:+ act +:+ " on " +:+ res +:+ " (" +:+ pr +:+ ")"
  else if bool_decide (s3gw.Layer r = s3gw.LayerCrossTenant) then
    "bucket policy grants " +:+ pr +:+ " nothing for " +:+ act +:+ " on " +:+ res +:+ " (cross-tenant)"
  else if bool_decide (s3gw.Layer r = s3gw.LayerVisibility) then
    "bucket " +:+ res +:+ " belongs to another tenant and its policy never mentions " +:+ pr
  else if bool_decide (s3gw.Layer r = s3gw.LayerCopySource) then
    "copy source " +:+ res +:+ " does not resolve in tenant of " +:+ pr +:+ ": " +:+
    match s3gw.rerr r with Some e => text e | None => "<nil>" end
  else s3gw.Layer r +:+ " denies " +:+ act +:+ " on " +:+ res +:+ " (" +:+ pr +:+ ")".

Definition BreakerOpen_Error (backend : string) : string := "backend circuit open: " +:+ backend.
Definition PanicError_Error (value : string) : string := "panic: " +:+ value.

End Text.

(** [Password.MarshalJSON] and [MarshalYAML]. *)
Definition Password_Marshal (p : string) : string :=
  if bool_decide (p = "") then dquote +:+ dquote else dquote +:+ "********" +:+ dquote.

(** ** Facts *)

(** A text that has another in it. *)
Definition mentions (s sub : string) : Prop := exists a b, s = a +:+ sub +:+ b.

Lemma mentions_here sub b : mentions (sub +:+ b) sub.
Proof. exists "", b. done. Qed.
Lemma mentions_end sub : mentions sub sub.
Proof. exists "", "". by rewrite append_nil_l, append_nil_r. Qed.
Lemma mentions_later a s sub : mentions s sub -> mentions (a +:+ s) sub.
Proof. intros (x & y & ->). exists (a +:+ x), y. by rewrite append_assoc. Qed.

(** Finds a part of a text written as a concatenation. *)
Ltac mentioned := solve [repeat first [apply mentions_here | apply mentions_end | apply mentions_later]].

(** A refusal is explained: whatever layer decided, the text names the
    requester; where an action was decided on it names the action, and where a
    resource of a bucket was it names the resource. *)
Theorem refusal_explained quoted text r :
  mentions (DenyReason_Error quoted text r) (s3gw.RPrincipal r) /\
  (s3gw.Layer r <> s3gw.LayerVisibility -> s3gw.Layer r <> s3gw.LayerCopySource -> mentions (DenyReason_Error quoted text r) (s3gw.RAction r)) /\
  (s3gw.Layer r <> s3gw.LayerUserPolicy -> mentions (DenyReason_Error quoted text r) (s3gw.RResource r)).
Proof.
  unfold DenyReason_Error. cbv zeta. destruct r as [layer n sid pr act res err]. cbn [s3gw.Layer s3gw.RStatement s3gw.RSid s3gw.RPrincipal s3gw.RAction s3gw.RResource s3gw.rerr].
  repeat match goal with |- context [if ?b then _ else _] => lazymatch b with
    | bool_decide (sid = "") => fail
    | _ => destruct b eqn:?
    end end; bools; split_and!; intros; try (exfalso; congruence); rewrite ?append_assoc; mentioned.
Qed.

(** The text a secret is marshalled to says only whether there is one. *)
Theorem Password_hidden p q : (p = "" <-> q = "") -> Password_Marshal p = Password_Marshal q.
Proof. intros H. unfold Password_Marshal. do 2 case_bool_decide; naive_solver. Qed.

End errortext.
