(* ===== verification/ChecksumGen.v ===== *)
(** * The generator of the checksum conversions (src/s3gw/internal/checksumgen)

    What the two templates print for a table of algorithms, as declarations:
    the conversions of each SDK type and of the response bodies, statement by
    statement, and the structure of the response bodies.  Running a generated
    body on a structure, a map from its fields to their values, gives the
    conversion it is; go/format and the writing of the files are outside. *)

From S2P Require Import Prelude Unicode GoStrings GoError XML Checksum S3XML Sdk Proxy ListingFacts.

Open Scope Z_scope.

Module checksumgen.

Record sdkType := { Name : string; Func : string }.

Definition readTypes : list sdkType := [
  {| Name := "s3.GetObjectOutput"; Func := "GetObjectOutput" |};
  {| Name := "s3.HeadObjectOutput"; Func := "HeadObjectOutput" |};
  {| Name := "s3.PutObjectOutput"; Func := "PutObjectOutput" |};
  {| Name := "s3.UploadPartOutput"; Func := "UploadPartOutput" |};
  {| Name := "s3.CompleteMultipartUploadOutput"; Func := "CompleteMultipartUploadOutput" |};
  {| Name := "types.CopyObjectResult"; Func := "CopyObjectResult" |};
  {| Name := "types.CopyPartResult"; Func := "CopyPartResult" |};
  {| Name := "types.Part"; Func := "Part" |};
  {| Name := "types.Checksum"; Func := "Checksum" |};
  {| Name := "types.ObjectPart"; Func := "ObjectPart" |}].

Definition writeTypes : list sdkType := [
  {| Name := "s3.PutObjectInput"; Func := "PutObjectInput" |};
  {| Name := "s3.UploadPartInput"; Func := "UploadPartInput" |};
  {| Name := "s3.CompleteMultipartUploadInput"; Func := "CompleteMultipartUploadInput" |};
  {| Name := "types.CompletedPart"; Func := "CompletedPart" |}].

Definition GatewayFile : string := "checksums_gen.go".
Definition XMLFile : string := "../s3xml/checksums_gen.go".

(** ** The templates *)

(** [addChecksum(&v, "name", x.field)] and [x.field = checksumPtr(v, "name")]. *)
Record add := { add_name : string; add_field : string }.
Record assign := { set_field : string; set_name : string }.

Inductive decl :=
| ReadFunc (fname : string) (param : string) (body : list add)
| WriteFunc (fname : string) (param : string) (body : list assign)
| XMLFunc (fname : string) (fields : list assign)
| FromXMLFunc (fname : string) (body : list add)
| Struct (name : string) (fields : list (string * string)).

Definition field (name : string) : string := "Checksum" +:+ name.

Definition adds (algorithms : list string) : list add := map (fun n => {| add_name := n; add_field := field n |}) algorithms.
Definition assigns (algorithms : list string) : list assign := map (fun n => {| set_field := field n; set_name := n |}) algorithms.

Definition gatewayTmpl (algorithms : list string) (read write : list sdkType) : list decl :=
  map (fun t => ReadFunc ("checksumsFrom" +:+ Func t) (Name t) (adds algorithms)) read ++
  map (fun t => WriteFunc ("setChecksums" +:+ Func t) (Name t) (assigns algorithms)) write ++
  [XMLFunc "xmlChecksums" (assigns algorithms); FromXMLFunc "checksumsFromXML" (adds algorithms)].

(** The element name and the option of the tag. *)
Definition xmlTmpl (algorithms : list string) : list decl :=
  [Struct "Checksums" (map (fun n => (field n, field n +:+ ",omitempty")) algorithms)].

Definition Files : list (string * list decl) :=
  let algorithms := map checksum.Name checksum.algorithms in
  [(GatewayFile, gatewayTmpl algorithms readTypes writeTypes); (XMLFile, xmlTmpl algorithms)].

(** ** Running what is generated *)

(** A structure with one member per algorithm: the values of the pointers that
    are not nil, or of the strings. *)
Notation structure := (gmap string string).

Definition run_read (body : list add) (x : structure) : checksum.Values :=
  fold_left (fun v a => proxy.addChecksum v (add_name a, x !! add_field a)) body ∅.

(** Assigning each field what [g] has for the name: nil removes the value. *)
Definition write_with (g : string -> option string) (body : list assign) (x : structure) : structure :=
  fold_left (fun (x : structure) a => match g (set_name a) with
                                      | Some s => <[set_field a := s]> x
                                      | None => delete (set_field a) x
                                      end) body x.

Definition run_write (body : list assign) (v : checksum.Values) (x : structure) : structure := write_with (proxy.checksumPtr v) body x.

(** A composite literal starts from the zero value. *)
Definition run_xml (fields : list assign) (v : checksum.Values) : structure := write_with (fun n => Some (proxy.vget v n)) fields ∅.

Definition run_from_xml (body : list add) (x : structure) : checksum.Values :=
  fold_left (fun v a => proxy.addChecksum v (add_name a, Some (default "" (x !! add_field a)))) body ∅.

(** ** Facts *)

(** The structures of the SDK and of the response bodies, by their fields. *)
Definition put (p : string * option string) (x : structure) : structure := match p.2 with Some s => <[field p.1 := s]> x | None => x end.
Definition to_structure (l : list (string * option string)) : structure := foldr put ∅ l.

Definition xml_members (c : s3xml.Checksums) : list (string * option string) :=
  [("CRC32", Some (s3xml.ChecksumCRC32 c)); ("CRC32C", Some (s3xml.ChecksumCRC32C c)); ("CRC64NVME", Some (s3xml.ChecksumCRC64NVME c));
   ("SHA1", Some (s3xml.ChecksumSHA1 c)); ("SHA256", Some (s3xml.ChecksumSHA256 c)); ("SHA512", Some (s3xml.ChecksumSHA512 c));
   ("MD5", Some (s3xml.ChecksumMD5 c)); ("XXHASH64", Some (s3xml.ChecksumXXHASH64 c)); ("XXHASH3", Some (s3xml.ChecksumXXHASH3 c));
   ("XXHASH128", Some (s3xml.ChecksumXXHASH128 c))].

Lemma field_inj a b : field a = field b -> a = b.
Proof. unfold field. rewrite !append_cons, !append_nil_l. by intros [= ->]. Qed.

Lemma put_lookup p x f : put p x !! f = if decide (f = field p.1) then match p.2 with Some s => Some s | None => x !! f end else x !! f.
Proof.
  unfold put. destruct p as [n [s|]]; cbn; [|by destruct (decide _)]. destruct (decide (f = field n)) as [->|Hne];
    [apply lookup_insert_eq|apply lookup_insert_ne; congruence].
Qed.

Lemma to_structure_other l f : (forall p, p ∈ l -> f <> field p.1) -> to_structure l !! f = None.
Proof.
  induction l as [|p l IH]; intros H; [done|]. cbn. rewrite put_lookup, decide_False by (apply H; left). apply IH. intros q Hq. apply H. by right.
Qed.

Lemma to_structure_lookup l : NoDup (map fst l) -> Forall (fun p => to_structure l !! field p.1 = p.2) l.
Proof.
  induction l as [|[n o] l IH]; [constructor|]. cbn [map fst]. intros [Hn Hnd]%NoDup_cons.
  assert (to_structure l !! field n = None) as Hnone.
  { apply to_structure_other. intros q Hq E%field_inj. apply Hn. apply list_elem_of_fmap. eauto. }
  constructor; cbn; [rewrite put_lookup, decide_True by done; by destruct o|].
  specialize (IH Hnd). rewrite Forall_forall in IH |- *. intros q Hq. cbn. rewrite put_lookup, decide_False; [by apply IH|].
  cbn. intros E%field_inj. apply Hn. apply list_elem_of_fmap. eauto.
Qed.

(** Reading a structure back gives its members. *)
Lemma read_members l : NoDup (map fst l) -> map (fun n => (n, to_structure l !! field n)) (map fst l) = l.
Proof.
  intros H%to_structure_lookup. rewrite map_map. etransitivity; [|apply map_id]. apply map_ext_in. intros [n o] Hin.
  rewrite Forall_forall in H. specialize (H (n, o) (proj2 (list_elem_of_In _ _) Hin)). cbn in *. by rewrite H.
Qed.

Lemma run_read_adds names x : run_read (adds names) x = fold_left proxy.addChecksum (map (fun n => (n, x !! field n)) names) ∅.
Proof. unfold run_read, adds. generalize (∅ : checksum.Values). induction names as [|n names IH]; intros v; [done|]. cbn. apply IH. Qed.

Lemma run_from_xml_adds names x :
  run_from_xml (adds names) x = fold_left proxy.addChecksum (map (fun n => (n, Some (default "" (x !! field n)))) names) ∅.
Proof. unfold run_from_xml, adds. generalize (∅ : checksum.Values). induction names as [|n names IH]; intros v; [done|]. cbn. apply IH. Qed.

Lemma write_lookup g names : forall x f,
  (forall n, n ∈ names -> f = field n -> write_with g (assigns names) x !! f = g n) /\
  ((forall n, n ∈ names -> f <> field n) -> write_with g (assigns names) x !! f = x !! f).
Proof.
  unfold write_with, assigns. induction names as [|n names IH]; intros x f; [split; [by intros n ?%not_elem_of_nil|done]|]. cbn [map fold_left].
  set (x' := match g _ with Some s => _ | None => _ end).
  assert (f = field n -> x' !! f = g n) as Hx.
  { intros ->. subst x'. cbn. destruct (g n); [apply lookup_insert_eq|apply lookup_delete_eq]. }
  assert (f <> field n -> x' !! f = x !! f) as Hx'.
  { intros Hf. subst x'. cbn. destruct (g n); [by apply lookup_insert_ne|by apply lookup_delete_ne]. }
  destruct (IH x' f) as [I1 I2]. split.
  - intros m Hm Hf. apply elem_of_cons in Hm as [->|Hm]; [|by apply I1]. destruct (decide (n ∈ names)); [by apply I1|].
    rewrite I2; [by apply Hx|]. intros k Hk E. rewrite Hf in E. apply field_inj in E as ->. done.
  - intros Hf. rewrite I2 by (intros m Hm; apply Hf; by right). apply Hx', Hf. left.
Qed.

Lemma write_structure g names : NoDup names -> write_with g (assigns names) ∅ = to_structure (map (fun n => (n, g n)) names).
Proof.
  intros Hnd. apply map_eq. intros f. destruct (write_lookup g names ∅ f) as [I1 I2].
  assert (NoDup (map fst (map (fun n => (n, g n)) names))) as Hd%to_structure_lookup by (by rewrite map_map, map_id).
  rewrite Forall_forall in Hd. destruct (decide (Exists (fun n => f = field n) names)) as [(n & Hn & ->)%Exists_exists|Hno].
  - rewrite (I1 n Hn eq_refl). symmetry. apply (Hd (n, g n)). apply list_elem_of_fmap. eauto.
  - assert (forall n, n ∈ names -> f <> field n) as H by (intros n Hn ->; apply Hno, Exists_exists; eauto).
    rewrite (I2 H), to_structure_other; [done|]. intros p (n & -> & Hn)%list_elem_of_fmap. by apply H.
Qed.

(** What [addChecksum] keeps of the members read, for distinct names. *)
Lemma add_members (g : string -> option string) names : NoDup names -> forall (acc : checksum.Values) k,
  (forall n, n ∈ names -> acc !! n = None) ->
  fold_left proxy.addChecksum (map (fun n => (n, g n)) names) acc !! k =
  if decide (k ∈ names) then match g k with Some s => if bool_decide (s = "") then None else Some s | None => None end else acc !! k.
Proof.
  intros Hnd. induction Hnd as [|n names Hn Hnd IH]; intros acc k Hacc; [done|]. cbn [map fold_left].
  rewrite IH.
  - rewrite addChecksum_lookup. cbn [fst snd]. destruct (decide (n = k)) as [->|Hne].
    + rewrite (decide_False (P := k ∈ names)) by done. rewrite decide_True by left. rewrite (Hacc k) by left. done.
    + destruct (decide (k ∈ names)), (decide (k ∈ n :: names)); try done; set_solver.
  - intros m Hm. rewrite addChecksum_lookup. cbn [fst]. rewrite decide_False by (by intros ->). apply Hacc. by right.
Qed.

Lemma names_distinct : NoDup (map checksum.Name checksum.algorithms).
Proof. by apply (bool_decide_unpack _). Qed.

(** The declarations of the two files. *)
Notation gateway_decls := (gatewayTmpl (map checksum.Name checksum.algorithms) readTypes writeTypes).
Notation xml_decls := (xmlTmpl (map checksum.Name checksum.algorithms)).

(** Running a generated declaration is the conversion the gateway is modelled
    with. *)
Definition generated_right (d : decl) : Prop :=
  match d with
  | ReadFunc _ _ body => forall x, run_read body (to_structure (proxy.checksum_members x)) = proxy.checksumsFrom x
  | WriteFunc _ _ body => forall v, run_write body v ∅ = to_structure (proxy.checksum_members (proxy.setChecksums v))
  | XMLFunc _ fields => forall v, run_xml fields v = to_structure (xml_members (proxy.xmlChecksums v))
  | FromXMLFunc _ body => forall c, run_from_xml body (to_structure (xml_members c)) = proxy.checksumsFromXML c
  | Struct _ fields => forall c, s3xml.Checksums_children c =
      concat (zip_with (fun f m => xml.omitempty f.1 (default "" m.2)) fields (xml_members c)) /\
      Forall2 (fun f m => f = (field m.1, field m.1 +:+ ",omitempty")) fields (xml_members c)
  end.

(** The conversions between checksum values and the per-algorithm fields are
    the generated ones: for each SDK type read or written there is one
    function, and running it, statement by statement, is the conversion.  For
    any table of distinct algorithms, no value is dropped or added on the way
    to a structure and back. *)
Theorem checksums_generated :
  Forall generated_right (concat (map snd Files)) /\
  map (fun d => match d with ReadFunc n _ _ | WriteFunc n _ _ | XMLFunc n _ | FromXMLFunc n _ | Struct n _ => n end) gateway_decls =
    map (fun t => "checksumsFrom" +:+ Func t) readTypes ++ map (fun t => "setChecksums" +:+ Func t) writeTypes ++ ["xmlChecksums"; "checksumsFromXML"] /\
  forall algorithms, NoDup algorithms -> forall v x k,
    run_read (adds algorithms) (run_write (assigns algorithms) v x) !! k = (if decide (k ∈ algorithms) then proxy.checksumPtr v k else None) /\
    run_from_xml (adds algorithms) (run_xml (assigns algorithms) v) !! k = (if decide (k ∈ algorithms) then proxy.checksumPtr v k else None).
Proof.
  split; [|split; [reflexivity|]].
  - assert (forall x, NoDup (map fst (proxy.checksum_members x))) as Hm by (intros x; exact names_distinct).
    assert (generated_right (ReadFunc "" "" (adds (map checksum.Name checksum.algorithms)))) as HR.
    { intros x. rewrite run_read_adds. change (map checksum.Name checksum.algorithms) with (map fst (proxy.checksum_members x)). by rewrite read_members. }
    assert (generated_right (WriteFunc "" "" (assigns (map checksum.Name checksum.algorithms)))) as HW by (intros v; apply write_structure, names_distinct).
    repeat (apply Forall_cons_2; [first [exact HR|exact HW|idtac]|]); [..|constructor].
    + intros v. apply write_structure, names_distinct.
    + intros c. rewrite run_from_xml_adds. change (map checksum.Name checksum.algorithms) with (map fst (xml_members c)).
      unfold proxy.checksumsFromXML. f_equal.
    + intros c. split; [cbn; by rewrite app_nil_r|repeat constructor].
  - intros algs Hnd v x k. split.
    + rewrite run_read_adds.
      rewrite (add_members (fun n => run_write (assigns algs) v x !! field n)) by (done || by intros).
      destruct (decide (k ∈ algs)) as [Hk|]; [|done]. unfold run_write. rewrite (proj1 (write_lookup _ algs x (field k)) k Hk eq_refl).
      unfold proxy.checksumPtr, proxy.opt. destruct (v !! k) as [s|]; [|done]. case_bool_decide; [done|]. by rewrite bool_decide_false.
    + rewrite run_from_xml_adds. rewrite (add_members (fun n => Some (default "" (run_xml (assigns algs) v !! field n)))) by (done || by intros).
      destruct (decide (k ∈ algs)) as [Hk|]; [|done]. unfold run_xml. rewrite (proj1 (write_lookup _ algs ∅ (field k)) k Hk eq_refl).
      unfold proxy.checksumPtr, proxy.opt, proxy.vget. cbn. destruct (v !! k) as [s|]; cbn; case_bool_decide; done.
Qed.

End checksumgen.
