(* ===== verification/Gateway.v ===== *)
(** * The gateway's handler (Handler and handleRequest of src/s3gw/handler.go,
      handlePostObject of src/s3gw/postobject.go), end to end

    One request from the server to the backend and back: the ServeMux the
    handler is wrapped in, the request boundary, authentication, routing, the
    hooks, the operation with its backend calls, and the response, as one
    program over the connection and the backend.  The steps follow the source:
    what the record is told and which headers are set before a refusal is part
    of the program.  A response is sent once the operation has made its calls;
    no operation calls the backend after it has begun to answer. *)

From S2P Require Import Prelude Unicode GoStrings GoNet GoTime GoError JSON XML Policy Signer Verifier Checksum Chunked PostPolicy Cors Store Authorize Catalog Headers Addressing Routing Body S3XML Sdk Proxy Multipart Objects PostObject Pipeline.
Import pipeline.

Open Scope Z_scope.

(** ** http.ServeMux with the one pattern /

    Whatever its patterns, the mux cleans the escaped path of a request and
    redirects when that changes it; only CONNECT is matched as it is. *)

Module mux.

(** [path.Clean] of a rooted path, element by element. *)
Definition clean_step (acc : list string) (seg : string) : list string :=
  if bool_decide (seg = "") || bool_decide (seg = ".") then acc
  else if bool_decide (seg = "..") then removelast acc
  else acc ++ [seg].

Definition Clean (p : string) : string := "/" +:+ strings.Join (fold_left clean_step (strings.Split p "/") []) "/".

Definition cleanPath (p : string) : string :=
  if bool_decide (p = "") then "/"
  else
    let p := if strings.HasPrefix p "/" then p else "/" +:+ p in
    let np := Clean p in
    if strings.HasSuffix p "/" && negb (bool_decide (np = "/")) then np +:+ "/" else np.

Inductive match_ := BadRequest | Unmatched | Redirect (path : string) | Matched.

(** [ServeHTTP] up to the handler it calls: the one pattern matches every
    path that is not empty. *)
Definition serve (r : http.Request) : match_ :=
  if bool_decide (http.RequestURI r = "*") then BadRequest
  else if bool_decide (http.Method r = "CONNECT") then
    (if bool_decide (url.EscapedPath (http.URL r) = "") then Unmatched else Matched)
  else
    let path := cleanPath (url.EscapedPath (http.URL r)) in
    if bool_decide (path = url.EscapedPath (http.URL r)) then Matched else Redirect path.

End mux.

Module gateway.

(** ** What a service installs, and what a request brings *)

Record hooks := {
  authorizer : option (routing.Op -> handlerFunc);
  bandwidthLimit : option (routing.Op -> bool * bool);
  interceptors : list (routing.Op -> Interceptor);
  kmsKey : option headers.KMSKeyMapper;
  storageClass : option proxy.StorageClassMapper }.

(** The body as it arrives, or the form it is, and the decoders of the
    standard library. *)
Record input := {
  in_body : body.source;
  in_reads : list (nat * chunked.choice);
  in_form : postobject.form;
  in_tls : bool;
  in_decoders : proxy.decoders;
  in_redirect : postobject.redirect_to }.

Section Handle.
Context (g : routing.Gateway) (region : string) (hk : hooks) (inp : input).

(** ** Operations as programs *)

Fixpoint embed {A} (p : sdk.prog A) : prog A :=
  match p with
  | sdk.Ret a => Ret a
  | sdk.Call c k => DoCall c (fun x => embed (k x))
  end.

Definition piece_text (p : sdk.piece) : string := match p with sdk.Document n => xml.Marshal n | sdk.Bytes s => s end.

(** An error of [Write] is dropped, as the source does. *)
Fixpoint send_pieces (l : list sdk.piece) (next : handlerFunc) : handlerFunc :=
  match l with
  | [] => next
  | p :: l => DoWrite (piece_text p) (fun _ _ => send_pieces l next)
  end.

Definition respond (res : result s3err.Error unit) (w : sdk.writer) : handlerFunc :=
  let finish := send_pieces (sdk.wbody w) (Ret (match res with Ok _ => None | Err e => Some (s3err.as_error e) end)) in
  DoHeader (fun _ => sdk.whdr w) (match sdk.wstatus w with Some st => DoWriteHeader st finish | None => finish end).

Definition fresh (h : http.Header) : sdk.writer :=
  {| sdk.whdr := h; sdk.wstatus := None; sdk.wbody := []; sdk.wresponse := None; sdk.wdenials := [] |}.

Definition operate (h : sdk.handler unit) : handlerFunc :=
  DoPeek (fun hd => bind (embed (h (fresh hd))) (fun '(res, w) => respond res w)).

Definition refuse (e : s3err.Error) : handlerFunc := Ret (Some (s3err.as_error e)).

(** ** The record *)

Definition no_identity : identity := {| rTenant := ""; rUser := ""; rAccessKeyID := ""; rOp := None |}.

Definition identified (vr : s3gw.verifiedRequest) : identity :=
  recordIdentity no_identity (s3gw.Tenant vr) (s3gw.User vr) (verifier.AccessKeyID (s3gw.Verified vr)).

Definition with_op (i : identity) (op : routing.Op) : identity :=
  {| rTenant := rTenant i; rUser := rUser i; rAccessKeyID := rAccessKeyID i; rOp := Some op |}.

(** An operation under the hooks, once the record knows it. *)
Definition run_op (vr : s3gw.verifiedRequest) (op : routing.Op) (h : sdk.handler unit) : handlerFunc :=
  DoRecord (with_op (identified vr) op)
    (runOp ((fun a => a op) <$> authorizer hk) ((fun l => l op) <$> bandwidthLimit hk) (map (fun i => i op) (interceptors hk)) (operate h)).

(** ** Requests *)

Definition context (r : http.Request) (c : routing.opCtx) (t : addressing.target) (src : string) : proxy.ctx :=
  {| proxy.cop := c; proxy.creq := r; proxy.ctarget := t; proxy.ctls := in_tls inp; proxy.cbody := in_body inp; proxy.creads := in_reads inp;
     proxy.copySource := src; proxy.cchecksums := routing.checksums g; proxy.ckms := kmsKey hk; proxy.cclass := storageClass hk;
     proxy.cregion := region; proxy.cdec := in_decoders inp |}.

(** ListBuckets has neither a bucket nor a key. *)
Definition list_context (r : http.Request) (vr : s3gw.verifiedRequest) (b : store.Bucket) : routing.opCtx :=
  {| routing.method := http.Method r; routing.cfg := b; routing.vr := vr;
     routing.hdr := headers.newSignedHeader (http.Header_ r) (verifier.SignedHeaders (s3gw.Verified vr));
     routing.query := url.Query (http.URL r); routing.key := "" |}.

Definition bucket_context (r : http.Request) (vr : s3gw.verifiedRequest) (b : store.Bucket) (t : addressing.target) : routing.opCtx :=
  {| routing.method := http.Method r; routing.cfg := b; routing.vr := vr;
     routing.hdr := headers.newSignedHeader (http.Header_ r) (verifier.SignedHeaders (s3gw.Verified vr));
     routing.query := url.Query (http.URL r); routing.key := addressing.tkey t |}.

Definition no_bucket : store.Bucket :=
  {| store.Tenant := ""; store.Name := "";
     store.BBackend := {| store.Endpoint := ""; store.Region := ""; store.BBucket := ""; store.BAccessKeyID := ""; store.BSecretAccessKey := ""; store.UsePathStyle := None |};
     store.CreatedAt := 0; store.PolicyText := ""; store.BPolicy := None; store.CORS := []; store.BMetadata := None |}.

(** [handleRequest] from the bucket on. *)
Definition on_bucket (r : http.Request) (vr : s3gw.verifiedRequest) (t : addressing.target) : handlerFunc :=
  match s3gw.resolveBucket (routing.gstore g) vr (addressing.tbucket t) with
  | Err e => refuse e
  | Ok b =>
    match routing.backendClient g (store.BBackend b) with
    | Err err => refuse (s3err.Internal err "backend client failed")
    | Ok _ =>
      DoHeader (fun h => cors.SetHeaders h (http.Method r) (http.Header_ r) (store.CORS b))
        (let c := bucket_context r vr b t in
         match (if bool_decide (addressing.tkey t = "") then routing.handleBucketRequest (routing.gstore g) c
                else routing.handleObjectRequest (routing.gstore g) c) with
         | Err e => refuse e
         | Ok (op, hd, src) => run_op vr op (objects.serve (context r c t src) (routing.gstore g) hd)
         end)
    end
  end.

(** [handleRequest] from [verifyRequest] on. *)
Definition authenticated (now : Z) (r : http.Request) : handlerFunc :=
  match s3gw.verifyRequest (routing.gstore g) (routing.gverifier g) now r with
  | (Err e, _) => DoRecord (recordPresentedKey no_identity e) (refuse e)
  | (Ok (vr, r), _) =>
    DoRecord (identified vr)
      match headers.checkKnownAmzHeaders (headers.newSignedHeader (http.Header_ r) (verifier.SignedHeaders (s3gw.Verified vr))) (routing.checksums g) with
      | Err e => refuse e
      | Ok _ =>
        match addressing.requestTarget (routing.vhostSuffix g) r with
        | None => refuse routing.invalid_uri
        | Some t =>
          if bool_decide (addressing.tbucket t = "") then
            match routing.list_buckets r vr with
            | routing.Run _ _ _ op hd src =>
              run_op vr op (objects.serve (context r (list_context r vr no_bucket) t src) (routing.gstore g) hd)
            | routing.Refused e => refuse e
            | _ => refuse routing.invalid_uri
            end
          else on_bucket r vr t
        end
      end
  end.

(** The context of a POST upload: the form fields take the place of headers. *)
Definition post_context (r : http.Request) (t : addressing.target) (run : postobject.post_run) : proxy.ctx :=
  context r {| routing.method := http.Method r; routing.cfg := postobject.bucket run; routing.vr := postobject.who run;
               routing.hdr := headers.postFieldHeader (map_to_list (postobject.form_fields run)); routing.query := url.Query (http.URL r);
               routing.key := routing.OKey (postobject.op run) |} t "".

(** The form of an upload and the key it names. *)
Definition post_form (r : http.Request) (t : addressing.target) : result s3err.Error (postpolicy.fields * string * postobject.part) :=
  _ ← routing.check [] (url.Query (http.URL r));
  _ ← headers.checkSSEC (headers.newSignedHeader (http.Header_ r) None);
  '(fs, p) ← postobject.readPostForm (in_form inp);
  '(fs, k) ← postobject.prepared fs (postobject.FileName p) (addressing.tbucket t);
  Ok (fs, k, p).

(** [handlePostObject]; [authorized_post] repeats the checks before it. *)
Definition post_object (now : Z) (r : http.Request) (t : addressing.target) : handlerFunc :=
  match post_form r t with
  | Err e => refuse e
  | Ok (fs, k, p) =>
    match postobject.verifyPostRequest (routing.gstore g) (routing.gverifier g) now r fs with
    | (Err e, _) => DoRecord (recordPresentedKey no_identity e) (refuse e)
    | (Ok (vr, pp), v) =>
      match headers.checkKnownAmzHeaders (headers.newSignedHeader (http.Header_ r) None) (routing.checksums g) with
      | Err e => refuse e
      | Ok _ =>
        DoRecord (identified vr)
          match s3gw.resolveBucket (routing.gstore g) vr (addressing.tbucket t) with
          | Err e => refuse e
          | Ok b =>
            match routing.backendClient g (store.BBackend b) with
            | Err err => refuse (s3err.Internal err "backend client failed")
            | Ok _ =>
              DoHeader (fun h => cors.SetHeaders h (http.Method r) (http.Header_ r) (store.CORS b))
                match postobject.authorized_post (routing.with_verifier g v) r t [] vr pp fs k p with
                | Err e => refuse e
                | Ok run => run_op vr (postobject.op run)
                    (postobject.postPutObject (post_context r t run) (in_redirect inp) (postobject.form_fields run) (postobject.file run) (postobject.limits run))
                end
            end
          end
      end
    end
  end.

Definition preflight (r : http.Request) : handlerFunc :=
  DoPeek (fun h =>
    match objects.handlePreflight (routing.gstore g) (routing.vhostSuffix g) r h with
    | Err e => refuse e
    | Ok h => DoHeader (fun _ => h) (Ret None)
    end).

Definition handleRequest (now : Z) (r : http.Request) : handlerFunc :=
  if bool_decide (http.Method r = "OPTIONS") then preflight r
  else if bool_decide (http.Method r = "POST") && addressing.isMultipartForm (http.Header_ r) then
    match addressing.requestTarget (routing.vhostSuffix g) r with
    | None => refuse routing.invalid_uri
    | Some t => if negb (bool_decide (addressing.tbucket t = "")) && bool_decide (addressing.tkey t = "") then post_object now r t
                else authenticated now r
    end
  else authenticated now r.

(** [Handler]: what the mux answered itself, or the request served. *)
Definition Handler {E} (io : Env E) (quoted : string -> string) (observer : bool) (now : Z) (id : string) (r : http.Request) (w : conn E)
    : mux.match_ + (served * option RequestInfo * conn E) :=
  match mux.serve r with
  | mux.Matched => inr (wrapHandler io quoted observer r id (handleRequest now r) w)
  | m => inl m
  end.

End Handle.

End gateway.
