(* ===== verification/GatewayFacts.v ===== *)
(** * One request, from the wire to the backend and back

    The whole handler is one program over the connection and the backend, so
    what it does is read off its log: every backend call had its permissions
    granted by the policies, and the record the observer gets names only what
    was proven.  The hooks of a service are any programs that, like Go code
    outside the package, can neither reach the gateway's backend client nor
    write its record. *)

From S2P Require Import Prelude Unicode GoStrings GoNet GoTime GoError JSON XML Policy PolicyFacts Signer Verifier VerifierFacts Checksum Chunked PostPolicy Cors Store Authorize AuthorizeFacts Catalog Headers Addressing Routing RoutingFacts Body BodyFacts S3XML Sdk Proxy Multipart Objects ServeFacts EndToEnd PostObject PostObjectFacts Pipeline PipelineFacts Gateway.
Import pipeline gateway.

Open Scope Z_scope.

#[local] Arguments bool_decide : simpl never.
#[local] Existing Instance sdk.handler_bind.

(** ** Programs kept within bounds *)

(** A backend call with its answer. *)
Definition made : Type := {X & (sdk.call X * X)%type}.

(** Every backend call of the program satisfies [C], given the one made just
    before it with its answer, everything it tells the record satisfies [I]. *)
Fixpoint within_from {A} (C : option made -> forall X, sdk.call X -> Prop) (I : identity -> Prop) (last : option made) (p : prog A) : Prop :=
  match p with
  | Ret _ | Raise _ => True
  | DoHeader _ p | DoWriteHeader _ p | DoLimit _ _ p | DoCount p => within_from C I last p
  | DoPeek f => forall h, within_from C I last (f h)
  | DoWrite _ f => forall n err, within_from C I last (f n err)
  | DoRead _ f => forall s err, within_from C I last (f s err)
  | DoLoad f => forall i o, within_from C I last (f i o)
  | DoRecord i p => I i /\ within_from C I last p
  | DoCall c f => C last _ c /\ forall x, within_from C I (Some (existT _ (c, x))) (f x)
  end.

(** Whatever was called before the program. *)
Definition within {A} (C : option made -> forall X, sdk.call X -> Prop) (I : identity -> Prop) (p : prog A) : Prop :=
  forall last, within_from C I last p.

(** The same of the calls of a handler. *)
Fixpoint calls_from {A} (C : option made -> forall X, sdk.call X -> Prop) (last : option made) (p : sdk.prog A) : Prop :=
  match p with
  | sdk.Ret _ => True
  | sdk.Call c k => C last _ c /\ forall x, calls_from C (Some (existT _ (c, x))) (k x)
  end.

Section Within.
Context (C : option made -> forall X, sdk.call X -> Prop) (I : identity -> Prop).

Lemma within_bind {A B} (p : prog A) (k : A -> prog B) : within C I p -> (forall a, within C I (k a)) -> within C I (bind p k).
Proof.
  intros Hp Hk last. specialize (Hp last). revert last Hp.
  induction p as [a|v|h p IH|f IH|st p IH|s f IH|n f IH|i o p IH|p IH|f IH|i p IH|X c f IH]; intros last Hp; cbn in *; auto.
  - by apply Hk.
  - by destruct Hp; auto.
  - by destruct Hp; auto.
Qed.

Lemma within_mono {A} (C' : option made -> forall X, sdk.call X -> Prop) (I' : identity -> Prop) (p : prog A) :
  (forall last X c, C last X c -> C' last X c) -> (forall i, I i -> I' i) -> within C I p -> within C' I' p.
Proof.
  intros HC HI Hp last. specialize (Hp last). revert last Hp.
  induction p as [a|v|h p IH|f IH|st p IH|s f IH|n f IH|i o p IH|p IH|f IH|i p IH|X c f IH]; intros last Hp; cbn in *; auto.
  - by destruct Hp; auto.
  - by destruct Hp; auto.
Qed.

Lemma within_embed {A} (p : sdk.prog A) : (forall last, calls_from C last p) -> within C I (embed p).
Proof.
  intros H last. specialize (H last). revert last H. induction p as [a|X c k IH]; intros last; [done|]. cbn. intros [Hc Hk]. auto.
Qed.

Lemma within_pieces l next : within C I next -> within C I (send_pieces l next).
Proof. intros Hn last. induction l as [|p l IH]; cbn; [apply Hn|]. auto. Qed.

Lemma within_operate (h : sdk.handler unit) : (forall w last, calls_from C last (h w)) -> within C I (operate h).
Proof.
  intros Hh last hd. revert last. apply within_bind; [apply within_embed, Hh|]. intros [res w]. unfold respond. intros last. cbn.
  destruct (sdk.wstatus w); revert last; by apply within_pieces.
Qed.

(** *** Handlers step by step *)

Definition hfrom {A} (last : option made) (m : sdk.handler A) : Prop := forall w, calls_from C last (m w).

Lemma calls_from_all {A} (P : forall X, sdk.call X -> Prop) (p : sdk.prog A) : (forall last X k, P X k -> C last X k) -> sdk.all_calls P p -> forall last, calls_from C last p.
Proof. intros HP. induction p as [a|X c k IH]; [done|]. intros [Hc Hk] last. split; [by apply HP|]. intros x. by apply IH. Qed.

Lemma calls_from_mono {A} (C' : option made -> forall X, sdk.call X -> Prop) last (p : sdk.prog A) :
  (forall last X k, C last X k -> C' last X k) -> calls_from C last p -> calls_from C' last p.
Proof. intros HC. revert last. induction p as [a|X c k IH]; intros last; [done|]. intros [Hc Hk]. split; [by apply HC|]. intros x. by apply IH. Qed.

Lemma hfrom_silent {A} (m : sdk.handler A) last : sdk.confined (fun _ _ => False) m -> hfrom last m.
Proof. intros Hm w. by apply (calls_from_all (fun _ _ => False)). Qed.

Lemma hfrom_lift {A B} last (r : result s3err.Error A) (f : A -> sdk.handler B) : (forall a, r = Ok a -> hfrom last (f a)) -> hfrom last (sdk.lift r ≫= f).
Proof. intros Hf w. unfold mbind, sdk.handler_bind, sdk.lift. cbn. destruct r as [a|e]; [by apply Hf|done]. Qed.

Lemma hfrom_or_fail {X B} last path (a : sdk.answer X) (f : X -> sdk.handler B) :
  (forall out, a = Ok out -> hfrom last (f out)) -> hfrom last (sdk.or_fail path a ≫= f).
Proof. intros Hf w. unfold mbind, sdk.handler_bind, sdk.or_fail. cbn. destruct a as [out|e]; cbn; [by apply Hf|done]. Qed.

Lemma hfrom_invoke {X B} last (c : sdk.call X) (f : X -> sdk.handler B) :
  C last X c -> (forall x, hfrom (Some (existT _ (c, x))) (f x)) -> hfrom last (sdk.invoke c ≫= f).
Proof. intros Hc Hf w. split; [exact Hc|]. intros x. apply Hf. Qed.

End Within.

(** ** Running such a program *)

(** The backend calls of a log, in order, with their answers. *)
Definition calls (l : list event) : list made := omap (fun ev => match ev with EvCall k => Some k | _ => None end) l.

Lemma exists_last_or_nil {A} (l : list A) : l = [] \/ exists l' x, l = l' ++ [x].
Proof. destruct l as [|a l]; [by left|right]. destruct (exists_last (l := a :: l)) as (l' & x & ->); [done|]. eauto. Qed.

(** Each call of a list satisfies [C] after the one before it. *)
Definition chained (C : option made -> forall X, sdk.call X -> Prop) (l : list made) : Prop :=
  forall pre k post, l = pre ++ k :: post -> C (list.last pre) _ (projT2 k).1.

Lemma chained_nil C : chained C [].
Proof. intros [|] k post H; discriminate H. Qed.

Lemma chained_snoc C l k : chained C l -> C (list.last l) _ (projT2 k).1 -> chained C (l ++ [k]).
Proof.
  intros Hl Hk pre k' post H. destruct (exists_last_or_nil post) as [->|(post' & x & ->)].
  - apply app_inj_tail in H as [-> ->]. exact Hk.
  - rewrite app_comm_cons, app_assoc in H. apply app_inj_tail in H as [-> ->]. by eapply Hl.
Qed.

Section Run.
Context {E : Type} (io : Env E).
Notation lio := (logged io).
Notation conn := (conn (E * list event)).

(** What leaves the calls made and the record as they are. *)
Definition kept (w w' : conn) : Prop := calls (log w') = calls (log w) /\ who w' = who w.

Lemma calls_app l1 l2 : calls (l1 ++ l2) = calls l1 ++ calls l2.
Proof. apply omap_app. Qed.

Lemma kept_trans w1 w2 w3 : kept w1 w2 -> kept w2 w3 -> kept w1 w3.
Proof. intros [H1 H2] [H3 H4]. split; congruence. Qed.

Lemma http_kept w st : kept w (http_WriteHeader lio w st).2.
Proof.
  unfold http_WriteHeader. destruct (sent w); [done|]. destruct (_ || _); [done|]. split; [|done].
  unfold log. cbn. rewrite calls_app. apply app_nil_r.
Qed.

Lemma send_kept w p : kept w (send_counted lio w p).2.
Proof.
  unfold send_counted. pose proof (http_kept w 200) as [Hc Hw]. set (w1 := (http_WriteHeader lio w 200).2) in *. cbn [send logged].
  destruct (send io (env w1).1 p) as [[n err] e]. split; [|exact Hw]. unfold log. cbn. rewrite calls_app. cbn. rewrite app_nil_r. exact Hc.
Qed.

Lemma write_loop_kept fuel : forall w p total, kept w (write_loop lio fuel w p total).2.
Proof.
  induction fuel as [|f IH]; intros w p total; [done|]. cbn [write_loop].
  destruct (strings.length p =? 0)%nat; [done|]. cbn [wait_out logged].
  destruct (wait_out io (env w).1 _) as [err e]. set (w0 := set_env w _).
  assert (kept w w0) as H0 by (split; [unfold log; cbn; rewrite calls_app; cbn; by rewrite app_nil_r|done]).
  destruct err as [err|]; [done|].
  match goal with |- context [send_counted lio w0 ?s] => pose proof (send_kept w0 s) as Hs; destruct (send_counted lio w0 s) as [[n [err|]] w1] end.
  - exact (kept_trans _ _ _ H0 Hs).
  - exact (kept_trans _ _ _ (kept_trans _ _ _ H0 Hs) (IH _ _ _)).
Qed.

Lemma Write_kept w p : kept w (Write lio w p).2.
Proof. unfold Write. destruct (negb _); [exact (send_kept (start w) p)|exact (write_loop_kept _ (start w) p 0)]. Qed.

Lemma WriteHeader_kept w st : kept w (WriteHeader lio w st).2.
Proof. unfold WriteHeader. exact (http_kept _ st). Qed.

Lemma waits_no_calls ns refused : calls (waits ns refused) = [].
Proof. unfold waits. rewrite calls_app. replace (calls (map _ ns)) with (@nil made) by (by induction ns). by destruct refused. Qed.

Lemma Read_kept w k : kept w (Read lio w k).2.
Proof.
  unfold Read. cbn [recv logged]. destruct (recv io (env w).1 k) as [[s err] e]. cbn [in_limited].
  destruct ((0 <? strings.length s)%nat && in_limited w); [|done].
  destruct (waitBandwidth _ _ (e, (env w).2) _) as [werr e'] eqn:Hw. apply waitBandwidth_log in Hw as (ns & refused & He & _).
  destruct werr; (split; [|done]); unfold log; cbn; rewrite He, calls_app, waits_no_calls; apply app_nil_r.
Qed.

Lemma write_error_kept quoted w r e id : kept w (write_error lio quoted w r e id).2.
Proof.
  unfold write_error. destruct (s3err.RBody _); [|apply WriteHeader_kept].
  match goal with |- context [WriteHeader lio ?x ?st] => assert (kept w (WriteHeader lio x st).2) as H0 by exact (WriteHeader_kept x st);
    destruct (WriteHeader lio x st) as [[v|] w0] end; [done|]. cbn [snd] in H0.
  pose proof (Write_kept w0 xml.Header) as H1. destruct (Write lio w0 xml.Header) as [[n1 e1] w1].
  match goal with |- context [Write lio w1 ?p] => pose proof (Write_kept w1 p) as H2; destruct (Write lio w1 p) as [[n2 e2] w2] end.
  exact (kept_trans _ _ _ (kept_trans _ _ _ H0 H1) H2).
Qed.

Section Bounds.
Context (C : option made -> forall X, sdk.call X -> Prop) (I : identity -> Prop).

(** The calls made so far and the record are within bounds. *)
Definition bounded (w : conn) : Prop := chained C (calls (log w)) /\ I (who w).

Lemma kept_bounded w w' : kept w w' -> bounded w -> bounded w'.
Proof. intros [Hc Hw] [H1 H2]. split; [by rewrite Hc|by rewrite Hw]. Qed.

Lemma exec_within {A} (p : prog A) : forall w res w', within_from C I (list.last (calls (log w))) p -> exec lio p w = (res, w') -> bounded w -> bounded w'.
Proof.
  induction p as [a|v|h p IH|f IH|st p IH|s f IH|n f IH|i o p IH|p IH|f IH|i p IH|X c f IH]; intros w res w' Hp H Hb; cbn in Hp, H; simplify_eq; try done.
  - refine (IH _ _ _ _ H Hb). exact Hp.
  - refine (IH _ _ _ _ _ H Hb). exact (Hp _).
  - pose proof (WriteHeader_kept w st) as Hk. destruct (WriteHeader lio w st) as [[v|] w1]; cbn [snd] in Hk; [simplify_eq; exact (kept_bounded _ _ Hk Hb)|].
    refine (IH _ _ _ _ H (kept_bounded _ _ Hk Hb)). by rewrite (proj1 Hk).
  - pose proof (Write_kept w s) as Hk. destruct (Write lio w s) as [[n err] w1]. cbn [snd] in Hk.
    refine (IH _ _ _ _ _ _ H (kept_bounded _ _ Hk Hb)). rewrite (proj1 Hk). apply Hp.
  - pose proof (Read_kept w n) as Hk. destruct (Read lio w n) as [[s err] w1]. cbn [snd] in Hk.
    refine (IH _ _ _ _ _ _ H (kept_bounded _ _ Hk Hb)). rewrite (proj1 Hk). apply Hp.
  - refine (IH _ _ _ _ H Hb). exact Hp.
  - refine (IH _ _ _ _ H Hb). exact Hp.
  - refine (IH _ _ _ _ _ _ H Hb). exact (Hp _ _).
  - destruct Hp as [Hi Hp]. destruct Hb as [Hb _]. refine (IH _ _ _ _ H (conj Hb Hi)). exact Hp.
  - destruct Hp as [Hc Hp]. destruct (backend io (env w).1 c) as [x e]. revert H. set (w1 := set_env w _). intros H.
    assert (calls (log w1) = calls (log w) ++ [existT _ (c, x)]) as Hl by (subst w1; unfold log; cbn; by rewrite calls_app).
    refine (IH x w1 _ _ _ H _); [rewrite Hl, last_snoc; apply Hp|]. split; [|apply Hb]. rewrite Hl. apply chained_snoc; [apply Hb|exact Hc].
Qed.

(** A request starts with nothing called and nobody known. *)
Lemma wrapHandler_within quoted observer r id h e out info w :
  I no_identity -> within C I h -> wrapHandler lio quoted observer r id h (new_conn (e, [])) = (out, info, w) ->
  chained C (calls (log w)) /\ forall i, info = Some i -> I (IWho i).
Proof.
  intros H0 Hh H. unfold wrapHandler in H. destruct (exec lio h _) as [res wh] eqn:Hex.
  assert (bounded wh) as Hb by (refine (exec_within h _ _ _ (Hh _) Hex _); split; [apply chained_nil|exact H0]).
  assert (forall err o wr, report lio quoted observer r id err wh = (o, wr) -> bounded wr /\ forall x, o = inl (Some x) -> I (IWho x)) as Hrep.
  { intros err o wr. unfold report. destruct err as [err|]; [destruct (started wh)|];
      [| |intros [= <- <-]; (split; [exact Hb|]); intros x Hx; destruct observer; [|done]; injection Hx as <-; apply Hb].
    - intros [= <- <-]. split; [exact Hb|]. intros x Hx. destruct observer; [|done]. injection Hx as <-. apply Hb.
    - pose proof (kept_bounded _ _ (write_error_kept quoted wh r (answered err) id) Hb) as Hk.
      destruct (write_error _ _ _ _ _ _) as [[v|] w1]; intros [= <- <-]; (split; [exact Hk|done || idtac]).
      intros x Hx. destruct observer; [|done]. injection Hx as <-. apply Hk. }
  destruct res as [err|[|v]]; [|injection H as <- <- <-; split; [apply Hb|done]|];
    match type of H with context [report lio quoted observer r id ?e wh] => destruct (report lio quoted observer r id e wh) as [o wr] eqn:Hr end;
    apply Hrep in Hr as [[H1 H2] H3]; destruct o as [i|v1]; try destruct v1; injection H as <- <- <-; (split; [exact H1|]); try done;
    intros x ->; by apply H3.
Qed.

End Bounds.

End Run.

(** ** Hooks *)

(** The hooks of a service stay outside: they make no backend call and tell
    the record nothing, apart from running what they wrap. *)
Record outside (hk : hooks) : Prop := {
  out_authorizer a op : authorizer hk = Some a -> within (fun _ _ _ => False) (fun _ => False) (a op);
  out_interceptor i op (C : option made -> forall X, sdk.call X -> Prop) (I : identity -> Prop) next :
    i ∈ interceptors hk -> within C I next -> within C I (i op next) }.

Lemma within_run_op C I hk vr op h :
  outside hk -> I (with_op (identified vr) op) -> (forall w last, calls_from C last (h w)) -> within C I (run_op hk vr op h).
Proof.
  intros [Ha Hi] Hop Hh last. split; [exact Hop|]. revert last. change (within C I (runOp ((fun a => a op) <$> authorizer hk) ((fun l => l op) <$> bandwidthLimit hk) (map (fun i => i op) (interceptors hk)) (operate h))).
  unfold runOp. apply within_bind.
  { destruct (authorizer hk) as [a|] eqn:E; [|done]. exact (within_mono _ _ _ _ _ (fun _ _ _ F => False_ind _ F) (fun _ F => False_ind _ F) (Ha a op eq_refl)). }
  intros [err|]; [done|]. cbv zeta.
  set (next := bind (operate h) _). assert (within C I next) as Hn by (apply within_bind; [by apply within_operate|done]).
  assert (within C I (fold_left (fun next i => wrapInterceptor i next) (rev (map (fun i => i op) (interceptors hk))) next)) as Hc.
  { rewrite <- fold_left_rev_right, List.rev_involutive. clear Ha. revert Hi. induction (interceptors hk) as [|i l IH]; [done|]. intros Hi.
    cbn [map foldr]. apply Hi; [left|]. apply IH. intros j op' C' I' nx Hj. apply Hi. by right. }
  destruct (bandwidthLimit hk) as [l|]; cbn; [destruct (l op)|]; exact Hc.
Qed.

(** Hooks of the shape the package documentation shows do. *)
Lemma around_outside C I (pre post : prog unit) next :
  within (fun _ _ _ => False) (fun _ => False) pre -> within (fun _ _ _ => False) (fun _ => False) post ->
  within C I next -> within C I (around pre post next).
Proof.
  intros H1 H2 Hn. pose proof (fun p => within_mono (A := unit) _ _ C I p (fun _ _ _ F => False_ind _ F) (fun _ F => False_ind _ F)) as Hm.
  unfold around. apply within_bind; [by apply Hm|]. intros _. apply within_bind; [done|]. intros err. apply within_bind; [by apply Hm|done].
Qed.

(** ** POST uploads *)

(** The calls of an upload.  The write needs the permissions of what it
    carries.  No permission is asked for undoing it: that is the removal of the
    very version the write just before it was answered with, on the same
    object, of a file smaller than the policy of the form allows, which skips
    no retention and carries no condition. *)
Definition upload_granted (run : postobject.post_run) (prev : option made) (X : Type) (k : sdk.call X) : Prop :=
  match k with
  | sdk.PutObject i _ =>
    sdk.PutObjectInput_Bucket i = store.BBucket (store.BBackend (postobject.bucket run)) /\
    sdk.PutObjectInput_Key i = routing.OKey (postobject.op run) /\
    permitted (fun a => granted (postobject.who run) (postobject.bucket run) a
                          (store.Name (postobject.bucket run) +:+ "/" +:+ routing.OKey (postobject.op run))) X k
  | sdk.DeleteObject i => exists put file out n,
    prev = Some (existT _ (sdk.PutObject put file, (Ok out, n))) /\ n < postpolicy.MinLength (postobject.limits run) /\
    sdk.PutObjectInput_Bucket put = store.BBucket (store.BBackend (postobject.bucket run)) /\
    sdk.PutObjectInput_Key put = routing.OKey (postobject.op run) /\
    i = {| sdk.DeleteObjectInput_Bucket := sdk.PutObjectInput_Bucket put; sdk.DeleteObjectInput_Key := sdk.PutObjectInput_Key put;
           sdk.DeleteObjectInput_VersionId := sdk.PutObjectOutput_VersionId out; sdk.DeleteObjectInput_BypassGovernanceRetention := None;
           sdk.DeleteObjectInput_IfMatch := None; sdk.DeleteObjectInput_IfMatchLastModifiedTime := None; sdk.DeleteObjectInput_IfMatchSize := None |}
  | _ => False
  end.

Lemma authorized_granted t run a : post_allowed t run -> a ∈ routing.Actions (postobject.op run) ->
  granted (postobject.who run) (postobject.bucket run) a (store.Name (postobject.bucket run) +:+ "/" +:+ routing.OKey (postobject.op run)).
Proof. intros Ha Hin. apply authorize_granted. by apply (pl_actions _ _ Ha). Qed.

Lemma post_confined g region hk inp r t run last :
  post_allowed t run ->
  hfrom (upload_granted run) last
    (postobject.postPutObject (post_context g region hk inp r t run) (in_redirect inp) (postobject.form_fields run) (postobject.file run) (postobject.limits run)).
Proof.
  intros Ha. unfold postobject.postPutObject. apply hfrom_lift. intros [sse kms] _. apply hfrom_invoke.
  - split; [done|]. split; [done|]. cbn. split; [apply (authorized_granted t run _ Ha), (pl_actions _ _ Ha)|].
    split; [|split; [intros [|[]]; done|done]]. intros Htag. apply (authorized_granted t run _ Ha), (pl_tagging _ _ Ha).
    intros E. rewrite E in Htag. by destruct Htag.
  - intros [a n]. apply hfrom_or_fail. intros out ->. destruct (n <? postpolicy.MinLength (postobject.limits run)) eqn:Hn; bools.
    + apply hfrom_invoke; [|intros x; apply hfrom_silent; confine]. do 4 eexists. split; [reflexivity|]. split; [exact Hn|]. done.
    + apply hfrom_silent. unfold postobject.post_answer. cbv zeta. confine; done.
Qed.

(** ** One request *)

Section Request.
Context (g : routing.Gateway) (region : string) (hk : hooks) (inp : input) (now : Z) (r : http.Request).
#[local] Notation st := (routing.gstore g).

(** The requester behind a signature on the request, or on the policy of its
    form. *)
Definition verified_as (vr : s3gw.verifiedRequest) : Prop :=
  (exists r' v, s3gw.verifyRequest st (routing.gverifier g) now r = (Ok (vr, r'), v)) \/
  (exists t fs k p pp v, post_form inp r t = Ok (fs, k, p) /\ postobject.verifyPostRequest st (routing.gverifier g) now r fs = (Ok (vr, pp), v)).

(** The operation the policies let the requester have. *)
Definition admitted (vr : s3gw.verifiedRequest) (op : routing.Op) : Prop :=
  (exists r' b h src g', routing.handleRequest g now r = (routing.Run vr r' b op h src, g')) \/
  (exists t run g', (routing.handleRequest g now r).1 = routing.PostUpload t /\
     postobject.handlePostObject g now r t (in_form inp) [] = (Ok run, g') /\ postobject.who run = vr /\ postobject.op run = op).

(** A backend call of a routed operation or of a POST upload, granted; [prev]
    is the call made just before it. *)
Inductive call_justified (prev : option made) (X : Type) (k : sdk.call X) : Prop :=
| justified_route vr r' b op h src g' c :
    routing.handleRequest g now r = (routing.Run vr r' (Some b) op h src, g') -> runs_with c r' vr b op src -> call_granted st c X k -> call_justified prev X k
| justified_post t run g' :
    (routing.handleRequest g now r).1 = routing.PostUpload t ->
    postobject.handlePostObject g now r t (in_form inp) [] = (Ok run, g') -> upload_granted run prev X k -> call_justified prev X k.

(** A verified requester is the holder of the key in the store. *)
Lemma verified_key vr : verified_as vr ->
  exists token key, store.GetKey st (verifier.AccessKeyID (s3gw.Verified vr)) token = Ok key /\ s3gw.Tenant vr = store.KTenant key /\ s3gw.User vr = store.User key.
Proof.
  intros [(r' & v & (key & Hk & Ht & Hu & _)%verifyRequest_inv)|(t & fs & k & p & pp & v & _ & [_ (key & Hk & Ht & Hu & _)]%verifyPostRequest_ok)]; eauto.
Qed.

(** What the record may say of the requester. *)
Inductive truthful : identity -> Prop :=
| nobody akid : truthful {| rTenant := ""; rUser := ""; rAccessKeyID := akid; rOp := None |}
| requester vr : verified_as vr -> truthful (identified vr)
| operation vr op : verified_as vr -> admitted vr op -> routing.OTenant op = s3gw.Tenant vr -> routing.OUser op = s3gw.User vr ->
    truthful (with_op (identified vr) op).

Lemma presented_truthful e : truthful (recordPresentedKey no_identity e).
Proof. unfold recordPresentedKey. destruct (errors.As _ _); constructor. Qed.

(** The policies of the buckets a store holds are those it validated. *)
Definition policies_validated : Prop :=
  (forall t n b, store.GetBucket st t n = Ok b -> policy_validated b) /\ (forall n b, store.GetBucketByName st n = Ok b -> policy_validated b).

Lemma resolved_validated vr n b : policies_validated -> s3gw.resolveBucket st vr n = Ok b -> policy_validated b.
Proof.
  intros [H1 H2]. unfold s3gw.resolveBucket. destruct (store.GetBucket st _ n) as [b1|e] eqn:Hg; [intros [= <-]; by apply (H1 _ _ _ Hg)|].
  destruct (negb _); [done|]. destruct (store.GetBucketByName st n) as [b1|e'] eqn:Hn; [|by destruct (errors.Is e' _)].
  destruct (store.BPolicy b1) as [p|]; [|done]. destruct (policy.MentionsPrincipal p _); [|done]. intros [= <-]. by apply (H2 _ _ Hn).
Qed.

Context (HL : store.StoreLaws st) (HV : policies_validated) (HO : outside hk).
#[local] Notation bound := (within call_justified truthful).

(** Listing the buckets is answered from the store. *)
Lemma listBuckets_silent c last : hfrom call_justified last (objects.serve c st routing.listBuckets).
Proof. apply hfrom_silent. unfold objects.serve. each_handler. confine. Qed.

Lemma dispatched_op c t op hd src :
  (if bool_decide (addressing.tkey t = "") then routing.handleBucketRequest st c else routing.handleObjectRequest st c) = Ok (op, hd, src) ->
  routing.OTenant op = s3gw.Tenant (routing.vr c) /\ routing.OUser op = s3gw.User (routing.vr c) /\ routing.OKey op = routing.key c.
Proof.
  unfold routing.handleBucketRequest, routing.handleObjectRequest. intros H.
  assert (exists routes, routing.dispatch st c routes = Ok (op, hd, src)) as [routes Hd]
    by (destruct (bool_decide _); destruct (routing.routes_for _ _) as [rs|]; [eauto|done|eauto|done]).
  apply dispatch_route in Hd as (rt & _ & _ & Hrun & _). by apply run_route_inv in Hrun as (_ & _ & (-> & -> & _ & _ & ->) & _).
Qed.

Lemma authenticated_within : routing.handleRequest g now r = routing.authenticated_request g now r -> bound (authenticated g region hk inp now r).
Proof.
  intros Heq last. unfold authenticated. unfold routing.authenticated_request in Heq.
  destruct (s3gw.verifyRequest st (routing.gverifier g) now r) as [[[vr r']|e] v] eqn:Hv; [|split; [apply presented_truthful|done]].
  assert (verified_as vr) as Hvr by (left; eauto). split; [by constructor|]. cbn [routing.checksums routing.vhostSuffix routing.with_verifier] in Heq.
  destruct (headers.checkKnownAmzHeaders _ _) as [[]|]; [|done]. destruct (addressing.requestTarget _ _) as [t|]; [|done].
  destruct (bool_decide (addressing.tbucket t = "")).
  - destruct (routing.list_buckets r' vr) as [e| |t'|who r1 b op hd src] eqn:Hl; try done. unfold routing.list_buckets in Hl.
    destruct (negb _); [done|]. destruct (routing.check _ _); [|done]. destruct (negb _); [done|]. injection Hl as <- <- <- <- <- <-.
    refine (within_run_op _ _ _ _ _ _ HO _ (fun w last => listBuckets_silent _ last w) last). constructor; [done| |done|done]. left. eauto 10.
  - unfold on_bucket. unfold routing.bucket_request in Heq. cbn [routing.gstore routing.with_verifier routing.backendClient] in Heq.
    destruct (s3gw.resolveBucket st vr _) as [b|] eqn:Hb; [|done]. destruct (routing.backendClient g _); [|done].
    fold (bucket_context r' vr b t) in Heq. cbn [within_from].
    destruct (if bool_decide (addressing.tkey t = "") then _ else _) as [[[op hd] src]|] eqn:Hd; [|done].
    destruct (dispatched_op _ _ _ _ _ Hd) as (Ht & Hu & Hk).
    refine (within_run_op _ _ _ _ _ _ HO _ _ last); [constructor; [done|left; eauto 10|done|done]|]. intros w. clear last.
    assert (runs_with (context g region hk inp r' (bucket_context r' vr b t) t src) r' vr b op src) as Hrun
      by (constructor; [cbn; unfold bucket_context; by rewrite Hk|done]).
    pose proof (routed_calls_granted _ _ _ _ _ _ _ _ _ _ _ w (resolved_validated _ _ _ HV Hb) Heq Hrun) as Hc.
    apply (calls_from_all _ (call_granted st (context g region hk inp r' (bucket_context r' vr b t) t src))); [|exact Hc].
    intros last X k Hg. exact (justified_route _ _ _ _ _ _ _ _ _ _ _ Heq Hrun Hg).
Qed.

Lemma post_within t : (routing.handleRequest g now r).1 = routing.PostUpload t -> bound (post_object g region hk inp now r t).
Proof.
  intros Heq last. unfold post_object. destruct (post_form inp r t) as [[[fs k] p]|] eqn:Hf; [|done].
  destruct (postobject.verifyPostRequest st _ now r fs) as [[[vr pp]|e] v] eqn:Hv; [|split; [apply presented_truthful|done]].
  destruct (headers.checkKnownAmzHeaders _ _) as [[]|]; [|done].
  assert (verified_as vr) as Hvr by (right; eauto 10). split; [by constructor|].
  destruct (s3gw.resolveBucket st vr _) as [b|]; [|done]. destruct (routing.backendClient g _); [|done]. cbn [within_from].
  destruct (postobject.authorized_post _ r t [] vr pp fs k p) as [run|] eqn:Hrun; [|done].
  assert (postobject.handlePostObject g now r t (in_form inp) [] = (Ok run, routing.with_verifier g v)) as Hh.
  { unfold postobject.handlePostObject. unfold post_form in Hf. rewrite Hf, Hv. cbv zeta. by rewrite Hrun. }
  unfold post_form in Hf. destruct (routing.check _ _) as [[]|]; [|done]. cbn [mbind result_bind] in Hf.
  destruct (headers.checkSSEC _) as [[]|]; [|done]. cbn [mbind result_bind] in Hf.
  destruct (postobject.readPostForm _) as [[fs0 p0]|]; [|done]. cbn [mbind result_bind] in Hf.
  destruct (postobject.prepared _ _ _) as [[fs1 k1]|] eqn:Hp; [|done]. cbn [mbind result_bind] in Hf. injection Hf as -> -> ->.
  apply prepared_ok in Hp as (Hkey & Hbucket & Hk).
  assert (routing.OTenant (postobject.op run) = s3gw.Tenant (postobject.who run) /\ routing.OUser (postobject.op run) = s3gw.User (postobject.who run)) as [Ht Hu]
    by exact (post_op_owner _ _ _ _ _ _ _ _ _ _ Hrun).
  apply authorized_post_ok in Hrun as (<- & _ & _ & _ & Hallowed); [|done..].
  refine (within_run_op _ _ _ _ _ _ HO _ _ last); [constructor; [done|right; eauto 10|done|done]|]. intros w last'.
  eapply calls_from_mono; [|exact (post_confined _ _ _ _ _ _ _ last' Hallowed w)]. intros prev X c Hg. exact (justified_post _ _ _ _ _ _ Heq Hh Hg).
Qed.

Lemma handleRequest_within : bound (handleRequest g region hk inp now r).
Proof.
  unfold handleRequest. pose proof (eq_refl (routing.handleRequest g now r)) as Heq. unfold routing.handleRequest in Heq at 2.
  destruct (bool_decide (http.Method r = "OPTIONS")).
  { intros last h. destruct (objects.handlePreflight _ _ _ _); done. }
  destruct (_ && _) in Heq |- *; [|by apply authenticated_within].
  destruct (addressing.requestTarget _ _) as [t|]; [|done].
  destruct (_ && _) in Heq |- *; [|by apply authenticated_within]. apply post_within. by rewrite Heq.
Qed.

End Request.

(** ** The mux in front *)

(** A path segment that means itself to [path.Clean]. *)
Definition plain_segment (s : string) : Prop := s <> "" /\ s <> "." /\ s <> "..".

(** A rooted path with no empty segment but a last one, and no dot segment. *)
Definition canonical_path (p : string) : Prop :=
  exists l, Forall plain_segment l /\ (strings.Split p "/" = "" :: l ++ [""] \/ l <> [] /\ strings.Split p "/" = "" :: l).

Lemma Split_segments c s : Forall (fun x => no_char c x = true) (strings.Split s c).
Proof.
  induction s as [|d s IH]; [by repeat constructor|]. simpl. destruct (ascii_dec d c) as [->|Hne]; [by constructor|].
  destruct (strings.Split s c) as [|x l]; [repeat constructor|]; simpl; [by destruct (ascii_dec d c)|].
  apply Forall_cons in IH as [Hx Hl]. constructor; [|done]. simpl. by destruct (ascii_dec d c).
Qed.

Lemma clean_plain l : forall acc, Forall plain_segment l -> fold_left mux.clean_step l acc = acc ++ l.
Proof.
  induction l as [|s l IH]; intros acc H; [by rewrite app_nil_r|]. apply Forall_cons in H as [(H1 & H2 & H3) Hl]. cbn [fold_left].
  rewrite IH by done. unfold mux.clean_step. rewrite !bool_decide_false by done. cbn. by rewrite <- app_assoc.
Qed.

Lemma Forall_removelast {A} (P : A -> Prop) l : Forall P l -> Forall P (removelast l).
Proof. induction 1 as [|x l Hx Hl IH]; [constructor|]. cbn. destruct l; [constructor|]. by constructor. Qed.

(** What cleaning leaves is plain. *)
Lemma clean_result segs : forall acc, Forall (fun x => no_char "/" x = true) segs ->
  Forall (fun x => plain_segment x /\ no_char "/" x = true) acc ->
  Forall (fun x => plain_segment x /\ no_char "/" x = true) (fold_left mux.clean_step segs acc).
Proof.
  induction segs as [|s segs IH]; intros acc Hs Ha; [done|]. apply Forall_cons in Hs as [Hs Hss]. cbn [fold_left]. apply IH; [done|].
  unfold mux.clean_step. repeat case_bool_decide; cbn; try done; [by apply Forall_removelast|]. apply Forall_app. split; [done|]. by repeat constructor.
Qed.

Lemma Join_cons s l : l <> [] -> strings.Join (s :: l) "/" = s +:+ "/" +:+ strings.Join l "/".
Proof. by destruct l. Qed.

Lemma Join_snoc l : l <> [] -> strings.Join (l ++ [""]) "/" = strings.Join l "/" +:+ "/".
Proof.
  induction l as [|s l IH]; [done|]. intros _. destruct l as [|s' l]; [done|]. rewrite <- app_comm_cons, !Join_cons by done.
  rewrite IH by done. by rewrite !append_assoc.
Qed.

Lemma Split_inj p q : strings.Split p "/" = strings.Split q "/" -> p = q.
Proof. intros H. by rewrite <- (Join_Split "/" p), H, Join_Split. Qed.

(** The cleaned path, by the segments it keeps. *)
Lemma clean_split l : Forall (fun x => plain_segment x /\ no_char "/" x = true) l ->
  strings.Split ("/" +:+ strings.Join l "/") "/" = match l with [] => ["" ; ""] | _ => "" :: l end /\
  (l <> [] -> strings.Split (("/" +:+ strings.Join l "/") +:+ "/") "/" = "" :: l ++ [""]).
Proof.
  intros H. assert (Forall (fun x => no_char "/" x = true) l) as Hn by (eapply Forall_impl; [exact H|]; by intros x [_ ?]).
  assert (forall m, m <> [] -> Forall (fun x => no_char "/" x = true) m -> strings.Split ("/" +:+ strings.Join m "/") "/" = "" :: m) as Hj.
  { intros m Hm Hf. change ("/" +:+ strings.Join m "/") with ("" +:+ "/" +:+ strings.Join m "/"). rewrite <- Join_cons by done.
    apply Split_Join; [done|]. by constructor. }
  split; [destruct l; [done|by apply Hj]|]. intros Hl. rewrite append_assoc, <- Join_snoc by done. apply Hj; [by destruct l|].
  apply Forall_app. split; [done|]. by repeat constructor.
Qed.

Lemma rooted_split p l : strings.Split p "/" = "" :: l -> l <> [] -> strings.HasPrefix p "/" = true.
Proof. intros H Hl. rewrite <- (Join_Split "/" p), H. rewrite Join_cons by done. done. Qed.

(** A path ends in a slash when its last segment is empty. *)
Lemma ends_in_slash p : strings.HasSuffix p "/" = true <-> exists l, l <> [] /\ strings.Split p "/" = l ++ [""].
Proof.
  rewrite HasSuffix_true. split.
  - intros [r ->]. exists (strings.Split r "/"). split; [apply Split_not_nil|].
    rewrite <- (Join_Split "/" r) at 1. rewrite <- Join_snoc by apply Split_not_nil.
    apply Split_Join; [by destruct (strings.Split r "/")|]. apply Forall_app. split; [apply Split_segments|by repeat constructor].
  - intros (l & Hl & H). exists (strings.Join l "/"). rewrite <- Join_snoc, <- H by done. by rewrite Join_Split.
Qed.

Lemma cleanPath_fixed p : mux.cleanPath p = p <-> canonical_path p.
Proof.
  unfold mux.cleanPath. split.
  - case_bool_decide as He; [rewrite He; done|]. cbv zeta. set (p' := if strings.HasPrefix p "/" then p else _).
    unfold mux.Clean. set (l := fold_left mux.clean_step _ []). intros H.
    assert (Forall (fun x => plain_segment x /\ no_char "/" x = true) l) as Hl by (apply clean_result; [apply Split_segments|constructor]).
    destruct (clean_split l Hl) as [H1 H2]. exists l. split; [eapply Forall_impl; [exact Hl|]; by intros x [? _]|].
    destruct (_ && _) eqn:Hs in H.
    + left. rewrite <- H. apply H2. intros ->. apply andb_true_iff in Hs as [_ Hs]. bools. done.
    + rewrite <- H, H1. destruct l as [|x l']; [by left|by right].
  - intros (l & Hl & Hsp). pose proof (clean_plain l [] Hl) as Hc. rewrite app_nil_l in Hc.
    assert (exists m, strings.Split p "/" = "" :: m /\ m <> []) as (m & Hm & Hne)
      by (destruct Hsp as [H|[H0 H]]; eexists; (split; [exact H|]); [by destruct l|done]).
    rewrite bool_decide_false by (intros ->; by destruct m). cbv zeta. rewrite (rooted_split _ _ Hm Hne). unfold mux.Clean.
    assert (fold_left mux.clean_step (strings.Split p "/") [] = l) as ->.
    { destruct Hsp as [->|[_ ->]]; [|exact Hc]. cbn [fold_left]. change (mux.clean_step [] "") with (@nil string). rewrite fold_left_app, Hc. done. }
    rewrite <- (Join_Split "/" p) at 2. destruct Hsp as [H|[Hnl H]]; rewrite H.
    + assert (strings.HasSuffix p "/" = true) as -> by (apply ends_in_slash; exists ("" :: l); done). cbn [andb].
      destruct l as [|x l]; [done|]. apply Forall_cons in Hl as [[Hx _] _].
      rewrite bool_decide_false by (destruct x as [|a x]; [congruence|destruct l; discriminate]).
      cbn [negb]. rewrite app_comm_cons. rewrite Join_snoc by done. rewrite (Join_cons "") by done. done.
    + destruct (strings.HasSuffix p "/") eqn:Hsuf; cbn [andb]; [|by rewrite Join_cons].
      apply ends_in_slash in Hsuf as (l' & Hl' & Hs). rewrite H in Hs. exfalso.
      assert (last ("" :: l) = Some "") as Hlast by (rewrite Hs; apply last_snoc).
      destruct (exists_last Hnl) as (l1 & x & ->). rewrite app_comm_cons, last_snoc in Hlast. injection Hlast as ->.
      apply Forall_app in Hl as [_ Hl]. apply Forall_cons in Hl as [[Hx _] _]. done.
Qed.

(** ** Theorems *)

(** C1. Nothing happens on a backend that was not granted.  Whatever arrives
    at the handler, whatever the hooks of the service do around the operation
    and whatever the backend and the client's connection answer, every backend
    call made for the request is one of two kinds.

    It is a call of the operation the request was routed to, on the backend
    bucket and key it addresses, and every permission it needs there is granted
    to the verified requester by the identity policy and the policy of the
    bucket: that of the version for a call naming one, those of the tags, the
    retention, the legal hold and the bypass it carries, and those on each entry
    of a multi-object delete.  The source of a copy is an object of the
    requester's own tenant whose read was granted, with s3:GetObjectVersion when
    its query names a version and s3:GetObject otherwise, but for one case: for
    a query that names a version behind an empty versionId only s3:GetObject was
    asked for, although the whole query is sent on.

    Or it is a call of a POST upload: its write, on the very key of the form,
    with s3:PutObject, and s3:PutObjectTagging when it carries tags, granted
    there; or, for which no permission is asked, the removal of the very version
    that the write just before it was answered with, the file having turned out
    smaller than the policy of the form allows. *)
Theorem gateway_calls_granted {E} (io : Env E) g region hk inp quoted observer now id r e out info w :
  store.StoreLaws (routing.gstore g) -> policies_validated g -> outside hk ->
  Handler g region hk inp (logged io) quoted observer now id r (new_conn (e, [])) = inr (out, info, w) ->
  chained (call_justified g inp now r) (calls (log w)).
Proof.
  intros HL HV HO H. unfold Handler in H. destruct (mux.serve r); try done. injection H as H.
  refine (proj1 (wrapHandler_within io (call_justified g inp now r) (truthful g inp now r) quoted observer r id _ e out info w _ _ H)).
  - apply nobody.
  - by apply handleRequest_within.
Qed.


(** C33. Which requests reach the gateway: with the catch-all pattern, exactly
    those whose escaped path is already clean.  A path with an empty segment
    (other than a last one), or with a segment that is one or two dots, is
    answered by the mux with a redirect to another path, so an object whose
    key has such a segment cannot be reached under its own name. *)
Theorem Handler_redirects {E} (io : Env E) g region hk inp quoted observer now id r (w : conn E) :
  http.RequestURI r <> "*" -> http.Method r <> "CONNECT" ->
  let p := url.EscapedPath (http.URL r) in
  let res := Handler g region hk inp io quoted observer now id r w in
  (canonical_path p -> res = inr (wrapHandler io quoted observer r id (handleRequest g region hk inp now r) w)) /\
  (~ canonical_path p -> res = inl (mux.Redirect (mux.cleanPath p)) /\ mux.cleanPath p <> p).
Proof.
  intros Hu Hm. cbv zeta. unfold Handler, mux.serve. rewrite !bool_decide_false by done. cbv zeta. rewrite <- cleanPath_fixed.
  split; intros H; [by rewrite bool_decide_true|by rewrite bool_decide_false].
Qed.

(** ** A request on which the theorems apply *)

(** A service with an authorizer that lets everything pass and an interceptor
    around the operation. *)
Definition demo_hooks : hooks :=
  {| authorizer := Some (fun _ => Ret None); bandwidthLimit := None; interceptors := [fun _ => around (Ret tt) (Ret tt)];
     kmsKey := None; storageClass := None |}.

Definition demo_input : input :=
  {| in_body := {| body.data := ""; body.last := chunked.EOF |}; in_reads := one_read;
     in_form := {| postobject.reader_error := None; postobject.parts := []; postobject.ending := None |}; in_tls := false;
     in_decoders := demo_decoders; in_redirect := fun _ _ _ _ => None |}.

Lemma demo_outside : outside demo_hooks.
Proof.
  constructor.
  - intros a op [= <-]. intros last. exact I.
  - intros i op C Q next Hi Hn. apply list_elem_of_singleton in Hi as ->. by apply around_outside.
Qed.

Lemma demo_validated : policies_validated demo_gateway.
Proof.
  split; cbn.
  - intros t n b H. destruct (_ && _); [|done]. injection H as <-. exact demo_policy_validated.
  - intros n b H. case_bool_decide; [|done]. injection H as <-. exact demo_policy_validated.
Qed.

#[local] Notation demo_handled r :=
  (Handler demo_gateway "us-east-1" demo_hooks demo_input (logged demo_taker) (fun s => s) true demo_now "ID" r (new_conn (tt, []))).

Lemma gateway_calls_granted_witness :
  match demo_handled demo_signed with
  | inr (_, _, w) => length (calls (log w)) = 1%nat /\ chained (call_justified demo_gateway demo_input demo_now demo_signed) (calls (log w))
  | inl _ => False
  end.
Proof.
  assert (match demo_handled demo_signed with inr (_, _, w) => length (calls (log w)) | inl _ => 0%nat end = 1%nat) as H by vm_refl.
  destruct (demo_handled demo_signed) as [m|[[out info] w]] eqn:E; [discriminate H|]. split; [exact H|].
  exact (gateway_calls_granted demo_taker demo_gateway _ _ _ _ _ _ _ _ _ _ _ _ demo_store_laws demo_validated demo_outside E).
Defined.


Definition demo_at (path : string) : http.Request :=
  {| http.Method := "GET"; http.RequestURI := path;
     http.URL := {| url.Scheme := ""; url.Opaque := ""; url.Host := ""; url.Path := path; url.RawPath := ""; url.RawQuery := "" |};
     http.Header_ := []; http.Host := "h"; http.ContentLength := 0; http.RemoteAddr := "192.0.2.1:1" |}.

(** The three keys a//b, a/./b and a/../b. *)
Lemma Handler_redirects_witness :
  demo_handled (demo_at "/photos/a//b") = inl (mux.Redirect "/photos/a/b") /\
  demo_handled (demo_at "/photos/a/./b") = inl (mux.Redirect "/photos/a/b") /\
  demo_handled (demo_at "/photos/a/../b") = inl (mux.Redirect "/photos/b").
Proof.
  assert (forall p, p <> "*" -> mux.cleanPath (url.EscapedPath (http.URL (demo_at p))) <> url.EscapedPath (http.URL (demo_at p)) ->
    demo_handled (demo_at p) = inl (mux.Redirect (mux.cleanPath (url.EscapedPath (http.URL (demo_at p)))))) as H.
  { intros p Hp Hc. refine (proj1 (proj2 (Handler_redirects (logged demo_taker) _ _ _ _ _ _ _ _ (demo_at p) _ Hp _) _)); [discriminate|].
    intros Hk. apply Hc, cleanPath_fixed, Hk. }
  split; [|split]; (rewrite H; [vm_refl|discriminate|vm_compute; discriminate]).
Defined.
