(* ===== verification/Service.v ===== *)
(** * A configured service over its life (New and the setters of src/s3gw)

    A gateway as a service builds and configures it, and the requests it then
    serves one after another: what a request leaves behind is the signing-key
    cache of the verifier.  The theorems on single requests assume a cache
    that could have come about; here every state a service can get to has
    one. *)

From S2P Require Import Prelude Unicode GoStrings GoNet GoTime GoError JSON XML Policy PolicyFacts Signer Canonical Verifier VerifierFacts Checksum Chunked PostPolicy PostPolicyFacts Cors Store Authorize AuthorizeFacts Catalog Headers Addressing Routing RoutingFacts Body S3XML Sdk Proxy Multipart Objects PostObject PostObjectFacts Pipeline Gateway.
From stdpp Require Import relations.

Open Scope Z_scope.

Module service.

Definition NewVerifier (seed : string -> Z) : verifier.Verifier :=
  {| verifier.signers := sigv4.newSignerCache seed sigv4.defaultSignerSlots; verifier.region := "" |}.

Definition SetSignerCacheSize (v : verifier.Verifier) (seed : string -> Z) (n : Z) : verifier.Verifier :=
  verifier.with_cache v (sigv4.resizeCache (verifier.signers v) seed n).

Definition verifier_SetRegion (v : verifier.Verifier) (region : string) : verifier.Verifier :=
  {| verifier.signers := verifier.signers v; verifier.region := region |}.

(** [now]: the clock that was set, or that of the host. *)
Definition now (clock : option (Z -> Z)) (host : Z) : Z := match clock with Some f => f host | None => host end.

(** [None] is the panic of a default that does not validate. *)
Definition mustChecksumPolicy (m : list (string * headers.ChecksumSupport)) : option headers.checksumPolicy :=
  match headers.newChecksumPolicy m with Ok p => Some p | Err _ => None end.

Record Gateway := {
  core : routing.Gateway;
  region : string;
  hooks : gateway.hooks;
  observer : bool;
  requestID : option (http.Request -> string);
  clock : option (Z -> Z) }.

Definition no_hooks : gateway.hooks :=
  {| gateway.authorizer := None; gateway.bandwidthLimit := None; gateway.interceptors := []; gateway.kmsKey := None; gateway.storageClass := None |}.

Definition New (st : store.Store) (seed : string -> Z) (newClient : store.Backend -> result goerror unit) : option Gateway :=
  p ← mustChecksumPolicy (map_to_list headers.defaultChecksumSupport);
  Some {| core := {| routing.gstore := st; routing.gverifier := NewVerifier seed; routing.vhostSuffix := ""; routing.checksums := p;
                     routing.backendClient := newClient |};
          region := ""; hooks := no_hooks; observer := false; requestID := None; clock := None |}.

Definition with_core (g : Gateway) (c : routing.Gateway) : Gateway :=
  {| core := c; region := region g; hooks := hooks g; observer := observer g; requestID := requestID g; clock := clock g |}.

Definition with_hooks (g : Gateway) (h : gateway.hooks) : Gateway :=
  {| core := core g; region := region g; hooks := h; observer := observer g; requestID := requestID g; clock := clock g |}.

(** ** The setters *)

Inductive setting :=
| SetAuthorizer (a : routing.Op -> pipeline.handlerFunc)
| Use (i : routing.Op -> pipeline.Interceptor)
| SetBandwidthLimit (f : routing.Op -> bool * bool)
| SetKMSKeyMapper (m : headers.KMSKeyMapper)
| SetStorageClassMapper (m : proxy.StorageClassMapper)
| SetObserver
| SetRequestID (f : http.Request -> string)
| SetRegion (r : string)
| SetNow (f : Z -> Z)
| SetSignerCache (seed : string -> Z) (n : Z)
| SetVirtualHostSuffix (s : string)
| SetChecksumSupport (m : list (string * headers.ChecksumSupport)).

Definition set (g : Gateway) (s : setting) : Gateway :=
  let h := hooks g in
  let c := core g in
  match s with
  | SetAuthorizer a => with_hooks g {| gateway.authorizer := Some a; gateway.bandwidthLimit := gateway.bandwidthLimit h;
      gateway.interceptors := gateway.interceptors h; gateway.kmsKey := gateway.kmsKey h; gateway.storageClass := gateway.storageClass h |}
  | Use i => with_hooks g {| gateway.authorizer := gateway.authorizer h; gateway.bandwidthLimit := gateway.bandwidthLimit h;
      gateway.interceptors := gateway.interceptors h ++ [i]; gateway.kmsKey := gateway.kmsKey h; gateway.storageClass := gateway.storageClass h |}
  | SetBandwidthLimit f => with_hooks g {| gateway.authorizer := gateway.authorizer h; gateway.bandwidthLimit := Some f;
      gateway.interceptors := gateway.interceptors h; gateway.kmsKey := gateway.kmsKey h; gateway.storageClass := gateway.storageClass h |}
  | SetKMSKeyMapper m => with_hooks g {| gateway.authorizer := gateway.authorizer h; gateway.bandwidthLimit := gateway.bandwidthLimit h;
      gateway.interceptors := gateway.interceptors h; gateway.kmsKey := Some m; gateway.storageClass := gateway.storageClass h |}
  | SetStorageClassMapper m => with_hooks g {| gateway.authorizer := gateway.authorizer h; gateway.bandwidthLimit := gateway.bandwidthLimit h;
      gateway.interceptors := gateway.interceptors h; gateway.kmsKey := gateway.kmsKey h; gateway.storageClass := Some m |}
  | SetObserver => {| core := c; region := region g; hooks := h; observer := true; requestID := requestID g; clock := clock g |}
  | SetRequestID f => {| core := c; region := region g; hooks := h; observer := observer g; requestID := Some f; clock := clock g |}
  | SetRegion r => {| core := routing.with_verifier c (verifier_SetRegion (routing.gverifier c) r); region := r; hooks := h; observer := observer g;
                      requestID := requestID g; clock := clock g |}
  | SetNow f => {| core := c; region := region g; hooks := h; observer := observer g; requestID := requestID g; clock := Some f |}
  | SetSignerCache seed n => with_core g (routing.with_verifier c (SetSignerCacheSize (routing.gverifier c) seed n))
  | SetVirtualHostSuffix s => with_core g {| routing.gstore := routing.gstore c; routing.gverifier := routing.gverifier c;
      routing.vhostSuffix := addressing.SetVirtualHostSuffix s; routing.checksums := routing.checksums c; routing.backendClient := routing.backendClient c |}
  | SetChecksumSupport m => with_core g {| routing.gstore := routing.gstore c; routing.gverifier := routing.gverifier c;
      routing.vhostSuffix := routing.vhostSuffix c; routing.checksums := (headers.SetChecksumSupport (routing.checksums c) m).2;
      routing.backendClient := routing.backendClient c |}
  end.

(** ** Requests *)

(** A request served with all of it. *)
Definition serve {E} (io : pipeline.Env E) (quoted : string -> string) (g : Gateway) (inp : gateway.input) (host : Z) (random : string) (r : http.Request)
    (w : pipeline.conn E) :=
  gateway.Handler (core g) (region g) (hooks g) inp io quoted (observer g) (now (clock g) host) (pipeline.newRequestID (requestID g) random r) r w.

(** The gateway afterwards. *)
Definition after (g : Gateway) (inp : gateway.input) (host : Z) (r : http.Request) : Gateway :=
  match mux.serve r with
  | mux.Matched =>
    with_core g match routing.handleRequest (core g) (now (clock g) host) r with
                | (routing.PostUpload t, c) => (postobject.handlePostObject c (now (clock g) host) r t (gateway.in_form inp) []).2
                | (_, c) => c
                end
  | _ => g
  end.

Inductive step : Gateway -> Gateway -> Prop :=
| step_set g s : step g (set g s)
| step_request g inp host r : step g (after g inp host r).

(** ** What every request leaves behind *)

(** The cache stays one that lookups bring about, and the region pinned. *)
Definition keeps (keyfn : sigv4.signingKeyID -> string) (v v' : verifier.Verifier) : Prop :=
  sigv4.reachable keyfn (verifier.signers v') /\ verifier.region v' = verifier.region v.

Section Keeps.
Context (keyfn : sigv4.signingKeyID -> string) (v : verifier.Verifier) (lookup : verifier.SecretLookup).
Context (Hr : sigv4.reachable keyfn (verifier.signers v)) (Hl : versioned_lookup keyfn lookup).

Lemma keeps_same : keeps keyfn v v.
Proof. by split. Qed.

Lemma signingKey_keeps akid token cred date reg :
  verifier.lookupSecret lookup akid token = Ok cred ->
  sigv4.reachable keyfn (verifier.signingKey (verifier.signers v) akid cred date reg).2.
Proof.
  intros [Hlk Hver]%lookupSecret_ok. unfold verifier.signingKey.
  destruct (sigv4.get (verifier.signers v) (verifier.signing_key_id akid cred date reg) (verifier.SigningKey cred)) as [res c] eqn:Hg.
  assert (sigv4.reachable keyfn c) by (eapply get_reachable; [exact Hr|apply Hver| |exact Hg]; intros k Hk; by eapply Hl).
  by destruct res.
Qed.

Lemma checkSignature_keeps r akid token cred date reg t sh drop ph presented :
  verifier.lookupSecret lookup akid token = Ok cred ->
  sigv4.reachable keyfn (verifier.checkSignature (verifier.signers v) r akid cred date reg t sh drop ph presented).2.
Proof.
  intros Hlk. unfold verifier.checkSignature. cbv zeta. destruct (canonical.checkSignedHeaderList sh); [|done].
  destruct (canonical.canonicalRequest r sh drop ph) as [canon|e]; [|by destruct e].
  pose proof (signingKey_keeps akid token cred date reg Hlk) as Hk. destruct (verifier.signingKey _ _ _ _ _) as [[k|e] c]; [|exact Hk].
  by destruct (bool_decide _).
Qed.

(** Every way out of a verification. *)
Ltac every_exit :=
  repeat match goal with
  | |- keeps _ _ (snd (match ?x with _ => _ end)) =>
    lazymatch x with
    | verifier.checkSignature _ _ _ _ _ _ _ _ _ _ _ => fail
    | verifier.signingKey _ _ _ _ _ => fail
    | _ => destruct x eqn:?
    end
  end; try exact keeps_same.

Lemma header_keeps t r : keeps keyfn v (verifier.verifyHeaderRequest v t r lookup).2.
Proof.
  unfold verifier.verifyHeaderRequest. cbv zeta. every_exit.
  match goal with Hlk : verifier.lookupSecret _ ?a ?tok = Ok ?c |- context [verifier.checkSignature _ ?r ?a ?c ?d ?g ?t ?sh ?dr ?ph ?pr] =>
    pose proof (checkSignature_keeps r a tok c d g t sh dr ph pr Hlk) as Hk end.
  destruct (verifier.checkSignature _ _ _ _ _ _ _ _ _ _ _) as [[k|e] c]; by split.
Qed.

Lemma presigned_keeps t r : keeps keyfn v (verifier.verifyPresignedRequest v t r lookup).2.
Proof.
  unfold verifier.verifyPresignedRequest. cbv zeta. every_exit.
  match goal with Hlk : verifier.lookupSecret _ ?a ?tok = Ok ?c |- context [verifier.checkSignature _ ?r ?a ?c ?d ?g ?t ?sh ?dr ?ph ?pr] =>
    pose proof (checkSignature_keeps r a tok c d g t sh dr ph pr Hlk) as Hk end.
  destruct (verifier.checkSignature _ _ _ _ _ _ _ _ _ _ _) as [[k|e] c]; [|by split]. destruct (verifier.promoteHoistedQueryParams r). by split.
Qed.

Lemma Verify_keeps t r : keeps keyfn v (verifier.Verify v t r lookup).2.
Proof.
  unfold verifier.Verify. cbv zeta. destruct (_ && _); [exact keeps_same|]. destruct (negb _); [apply presigned_keeps|].
  destruct (negb _); [apply header_keeps|exact keeps_same].
Qed.

Lemma VerifyPost_keeps t fs : keeps keyfn v (postpolicy.VerifyPost v t fs lookup).2.
Proof.
  unfold postpolicy.VerifyPost. cbv zeta. every_exit.
  match goal with Hlk : verifier.lookupSecret _ ?a ?tok = Ok ?c |- context [verifier.signingKey _ ?a ?c ?d ?g] =>
    pose proof (signingKey_keeps a tok c d g Hlk) as Hk end.
  destruct (verifier.signingKey _ _ _ _ _) as [[k|e] c]; [|by split].
  repeat match goal with |- keeps _ _ (snd (match ?x with _ => _ end)) => destruct x end; by split.
Qed.

End Keeps.

Definition core_verifier (g : Gateway) : verifier.Verifier := routing.gverifier (core g).
Definition lookup_of (g : Gateway) : verifier.SecretLookup := s3gw.secretLookup (routing.gstore (core g)).

Section After.
Context (keyfn : sigv4.signingKeyID -> string) (g : routing.Gateway).
Context (Hr : sigv4.reachable keyfn (verifier.signers (routing.gverifier g))) (Hl : versioned_lookup keyfn (s3gw.secretLookup (routing.gstore g))).

(** A request changes no more than the verifier. *)
Definition kept_core (g' : routing.Gateway) : Prop :=
  keeps keyfn (routing.gverifier g) (routing.gverifier g') /\ routing.gstore g' = routing.gstore g.

Lemma kept_self : kept_core g.
Proof. by repeat split. Qed.

Lemma verifyRequest_keeps t r : keeps keyfn (routing.gverifier g) (s3gw.verifyRequest (routing.gstore g) (routing.gverifier g) t r).2.
Proof.
  pose proof (Verify_keeps keyfn _ _ Hr Hl t r) as Hk. unfold s3gw.verifyRequest.
  destruct (verifier.Verify _ _ _ _) as [[[ver r']|e] v]; [|exact Hk]. by destruct (store.GetKey _ _ _).
Qed.

Lemma handleRequest_keeps t r : kept_core (routing.handleRequest g t r).2.
Proof.
  assert (kept_core (routing.authenticated_request g t r).2) as Ha.
  { unfold routing.authenticated_request. pose proof (verifyRequest_keeps t r) as Hk.
    destruct (s3gw.verifyRequest _ _ _ _) as [[[who r']|e] v]; by split. }
  unfold routing.handleRequest. destruct (bool_decide _); [exact kept_self|]. destruct (_ && _); [|exact Ha].
  destruct (addressing.requestTarget _ _) as [tg|]; [|exact kept_self]. destruct (_ && _); [exact kept_self|exact Ha].
Qed.

Lemma handlePostObject_keeps t r tg f h : kept_core (postobject.handlePostObject g t r tg f h).2.
Proof.
  unfold postobject.handlePostObject. destruct (mbind _ _) as [[[fs k] p]|e]; [|exact kept_self].
  pose proof (VerifyPost_keeps keyfn _ _ Hr Hl t fs) as Hk. unfold postobject.verifyPostRequest.
  destruct (postpolicy.VerifyPost _ _ _ _) as [[[ver pp]|e] v]; [|by split]. destruct (store.GetKey _ _ _); by split.
Qed.

End After.

(** Requests and settings keep the store, the cache and the region. *)
Record sound (keyfn : sigv4.signingKeyID -> string) (st : store.Store) (g : Gateway) : Prop := {
  so_store : routing.gstore (core g) = st;
  so_cache : sigv4.reachable keyfn (verifier.signers (core_verifier g));
  so_region : verifier.region (core_verifier g) = region g }.

Lemma after_sound keyfn st g inp host r :
  versioned_lookup keyfn (s3gw.secretLookup st) -> sound keyfn st g -> sound keyfn st (after g inp host r).
Proof.
  intros Hl [<- Hc Hreg]. unfold after. destruct (mux.serve r); try done.
  pose proof (handleRequest_keeps keyfn (core g) Hc Hl (now (clock g) host) r) as [[H1 H2] H3].
  destruct (routing.handleRequest _ _ _) as [out c]. cbn [snd] in *.
  assert (sound keyfn (routing.gstore (core g)) (with_core g c)) as Hs by (constructor; [exact H3|exact H1|exact (eq_trans H2 Hreg)]).
  destruct out as [e| |t|]; try exact Hs.
  assert (versioned_lookup keyfn (s3gw.secretLookup (routing.gstore c))) as Hl' by (by rewrite H3).
  destruct (handlePostObject_keeps keyfn c H1 Hl' (now (clock g) host) r t (gateway.in_form inp) []) as [[K1 K2] K3].
  destruct Hs as [_ _ Hreg']. constructor; [exact (eq_trans K3 H3)|exact K1|exact (eq_trans K2 Hreg')].
Qed.

Lemma set_sound keyfn st g s : sound keyfn st g -> sound keyfn st (set g s).
Proof. intros [H1 H2 H3]. destruct s; constructor; try done. cbn. by apply sigv4.reach_resize. Qed.

Lemma service_step keyfn st g g' : versioned_lookup keyfn (s3gw.secretLookup st) -> step g g' -> sound keyfn st g -> sound keyfn st g'.
Proof. intros Hl [g0 s|g0 inp host r]; [apply set_sound|by apply after_sound]. Qed.

Lemma steps_sound keyfn st g g' : versioned_lookup keyfn (s3gw.secretLookup st) -> rtc step g g' -> sound keyfn st g -> sound keyfn st g'.
Proof. intros Hl. induction 1 as [|g1 g2 g3 Hs _ IH]; [done|]. intros H. apply IH. by eapply service_step. Qed.

Lemma New_sound keyfn st seed client g : New st seed client = Some g -> sound keyfn st g.
Proof. unfold New. destruct (mustChecksumPolicy _); [|done]. intros [= <-]. constructor; [done|apply sigv4.reach_new|done]. Qed.

Lemma New_total st seed client : New st seed client <> None.
Proof.
  unfold New. destruct (mustChecksumPolicy (map_to_list headers.defaultChecksumSupport)) as [p|] eqn:E; [done|].
  assert (match mustChecksumPolicy (map_to_list headers.defaultChecksumSupport) with Some _ => true | None => false end = true) as H by vm_refl.
  by rewrite E in H.
Qed.

(** ** Theorems *)

(** C3. Whatever a service does with a gateway and whatever it is sent: New
    never panics, and in every state reached by setting options and serving
    requests, however they ended, the signing-key cache is one that lookups
    bring about, the region reported is the region pinned, and a request that
    reaches an operation presents a signature made with the credential the
    store has for the key it names, for the pinned region if there is one. *)
Theorem service_authenticates keyfn st seed client :
  store.StoreLaws st -> versioned_lookup keyfn (s3gw.secretLookup st) ->
  exists g0, New st seed client = Some g0 /\ forall g, rtc step g0 g ->
    sigv4.reachable keyfn (verifier.signers (core_verifier g)) /\ verifier.region (core_verifier g) = region g /\
    forall host r who r' b op h src c',
      routing.handleRequest (core g) (now (clock g) host) r = (routing.Run who r' b op h src, c') ->
      (exists sh drop, presents (now (clock g) host) r sh drop (s3gw.Verified who) /\
         authenticated keyfn (core_verifier g) r (s3gw.secretLookup st) (s3gw.presented_token r) sh drop (s3gw.Verified who)) /\
      (region g <> "" -> verifier.Region (s3gw.Verified who) = region g).
Proof.
  intros HL Hl. destruct (New st seed client) as [g0|] eqn:H0; [|by destruct (New_total st seed client)].
  exists g0. split; [done|]. intros g Hg. destruct (steps_sound keyfn st g0 g Hl Hg (New_sound keyfn st seed client g0 H0)) as [<- Hc Hreg].
  split; [done|]. split; [done|]. intros host r who r' b op h src c' H%handleRequest_run.
  apply authenticated_request_run in H as (Hv & _ & _); [|done]. apply verifyRequest_inv in Hv as (key & _ & _ & _ & _ & _ & Hver).
  destruct (Verify_authenticated keyfn _ _ _ _ _ _ _ Hc Hl Hver) as (Ha & _). split; [exact Ha|]. intros Hne.
  destruct Ha as (sh & drop & _ & Ha). rewrite <- Hreg in Hne |- *. destruct (au_region _ _ _ _ _ _ _ _ Ha) as [E|E]; [contradiction|exact E].
Qed.

(** ** Witness *)

Lemma demo_store_lookup : versioned_lookup sigv4.demo_keyfn (s3gw.secretLookup demo_store).
Proof.
  intros akid token cred date reg k H. unfold s3gw.secretLookup in H. simpl in H. case_bool_decide; simpl in H; [|done].
  injection H as <-. apply sigv4.demo_keyfn_ok. done.
Qed.

(** A gateway that has served a signed request after its region was pinned. *)
Lemma service_authenticates_witness :
  exists g, sigv4.Misses (sigv4.stats (verifier.signers (core_verifier g))) = 1 /\ region g = "us-east-1" /\
    sigv4.reachable sigv4.demo_keyfn (verifier.signers (core_verifier g)) /\ verifier.region (core_verifier g) = region g.
Proof.
  destruct (service_authenticates sigv4.demo_keyfn demo_store (fun _ => 3) (fun _ => Ok tt) demo_store_laws demo_store_lookup) as (g0 & H0 & Hall).
  set (inp := {| gateway.in_body := {| body.data := ""; body.last := chunked.EOF |}; gateway.in_reads := [];
                 gateway.in_form := {| postobject.reader_error := None; postobject.parts := []; postobject.ending := None |}; gateway.in_tls := false;
                 gateway.in_decoders := {| proxy.ParseTime := fun _ => None; proxy.dDelete := fun _ => None; proxy.dComplete := fun _ => None;
                                           proxy.dTagging := fun _ => None; proxy.dRetention := fun _ => None; proxy.dLegalHold := fun _ => None |};
                 gateway.in_redirect := fun _ _ _ _ => None |}).
  set (last := fun g => after (set g (SetRegion "us-east-1")) inp demo_now demo_signed).
  assert (match New demo_store (fun _ => 3) (fun _ => Ok tt) with
          | Some g => (sigv4.Misses (sigv4.stats (verifier.signers (core_verifier (last g)))), region (last g))
          | None => (0, "") end = (1, "us-east-1")) as Hc by vm_refl.
  rewrite H0 in Hc. assert (rtc step g0 (last g0)) as Hs by (apply (rtc_l _ _ (set g0 (SetRegion "us-east-1"))); [apply step_set|apply rtc_once, step_request]).
  revert Hc Hs. generalize (last g0). intros g Hc Hs. exists g. injection Hc as Hm Hreg. split; [exact Hm|]. split; [exact Hreg|].
  destruct (Hall g Hs) as (Ha & Hb & _). split; [exact Ha|exact Hb].
Defined.

End service.
