(* ===== verification/Harness.v ===== *)
(** * The control plane of the conformance tests (src/s3tests/harness)

    The mutable in-memory store, CreateBucket and DeleteBucket in front of the
    gateway, and the interleaving of such requests: between the change of the
    store and the backend call it goes with, a request holds no lock. *)

From S2P Require Import Prelude Unicode GoStrings GoNet GoError GoTime Signer Canonical Policy Verifier Cors Store Authorize AuthorizeFacts Addressing Proxy Service.
From stdpp Require Import relations.

Open Scope Z_scope.

Module harness.

(** ** The store *)

Record backendConfig := { endpoint : string; accessKeyID : string; secretAccessKey : string }.
Record bucketRec := { tenant : string; createdAt : Z }.

Record memStore := { keys : gmap string store.Key; backend : backendConfig; buckets : gmap string bucketRec }.

Definition newMemStore (be : backendConfig) (ks : list store.Key) : memStore :=
  {| keys := fold_left (fun m k => <[store.AccessKeyID k := k]> m) ks ∅; backend := be; buckets := ∅ |}.

Definition not_found (what : list frag) : goerror := Wrap what [Sentinel store.ErrNotFound].

Definition GetKey (m : memStore) (akid sessionToken : string) : result goerror store.Key :=
  match keys m !! akid with
  | Some k => Ok k
  | None => Err (not_found [FS "access key "; FQ akid])
  end.

Definition bucketFor (m : memStore) (name : string) (rec : bucketRec) : store.Bucket :=
  {| store.Tenant := tenant rec; store.Name := name;
     store.BBackend := store.SetDefaults
       {| store.Endpoint := endpoint (backend m); store.Region := ""; store.BBucket := ""; store.BAccessKeyID := accessKeyID (backend m);
          store.BSecretAccessKey := secretAccessKey (backend m); store.UsePathStyle := None |} name;
     store.CreatedAt := createdAt rec; store.PolicyText := ""; store.BPolicy := None; store.CORS := []; store.BMetadata := None |}.

Definition GetBucket (m : memStore) (t bucket : string) : result goerror store.Bucket :=
  match buckets m !! bucket with
  | Some rec => if bool_decide (tenant rec = t) then Ok (bucketFor m bucket rec)
                else Err (not_found [FS "bucket "; FQ bucket; FS " of tenant "; FQ t])
  | None => Err (not_found [FS "bucket "; FQ bucket; FS " of tenant "; FQ t])
  end.

Definition GetBucketByName (m : memStore) (bucket : string) : result goerror store.Bucket :=
  match buckets m !! bucket with
  | Some rec => Ok (bucketFor m bucket rec)
  | None => Err (not_found [FS "bucket "; FQ bucket])
  end.

(** Sorted by name. *)
Definition ListBuckets (m : memStore) (t : string) : result goerror (list store.BucketEntry) :=
  Ok (merge_sort proxy.entry_le
    (omap (fun e : string * bucketRec =>
       if bool_decide (tenant e.2 = t) then Some {| store.EName := e.1; store.ECreatedAt := createdAt e.2 |} else None) (map_to_list (buckets m)))).

Definition as_store (m : memStore) : store.Store :=
  {| store.GetKey := GetKey m; store.GetBucket := GetBucket m; store.GetBucketByName := GetBucketByName m; store.ListBuckets := ListBuckets m |}.

Definition with_buckets (m : memStore) (b : gmap string bucketRec) : memStore := {| keys := keys m; backend := backend m; buckets := b |}.

(** The owner, and whether the claim won. *)
Definition claim (m : memStore) (now : Z) (name t : string) : string * bool * memStore :=
  match buckets m !! name with
  | Some rec => (tenant rec, false, m)
  | None => (t, true, with_buckets m (<[name := {| tenant := t; createdAt := now |}]> (buckets m)))
  end.

Definition owner (m : memStore) (name : string) : option string := tenant <$> buckets m !! name.

Definition remove (m : memStore) (name : string) : memStore := with_buckets m (delete name (buckets m)).

(** ** Requests *)

Definition interceptedBucket (r : http.Request) : option string :=
  if negb (bool_decide (http.Method r = "PUT")) && negb (bool_decide (http.Method r = "DELETE")) then None
  else
    let '(rawBucket, rawKey, _) := strings.Cut (strings.TrimPrefix (url.EscapedPath (http.URL r)) "/") "/" in
    if bool_decide (rawBucket = "") || negb (bool_decide (rawKey = "")) then None
    else match url.PathUnescape rawBucket with
         | None => None
         | Some bucket =>
           if forallb (fun kv : string * list string => bool_decide (kv.1 = "x-id") || strings.HasPrefix (strings.ToLower kv.1) "x-amz-")
                (url.Query (http.URL r))
           then Some bucket else None
         end.

(** How the backend answers a creation. *)
Inductive created := Created | AlreadyOwnedByYou | Failed (err : goerror).

(** What a request is answered: a status, or an error document. *)
Definition reply : Type := Z + s3err.Error.

Definition invalid_name (err : goerror) : s3err.Error :=
  s3err.WithCause (s3err.New 400 "InvalidBucketName" [FS "The specified bucket is not valid."]) err.
Definition taken (own : bool) : s3err.Error :=
  if own then s3err.New 409 "BucketAlreadyOwnedByYou" [FS "The bucket that you tried to create already exists, and you own it."]
  else s3err.New 409 "BucketAlreadyExists" [FS "The requested bucket name is not available."].

(** A creation up to its backend call: refused, or claimed. *)
Definition create_begin (m : memStore) (now : Z) (bucket t : string) : option s3err.Error * memStore :=
  match store.ValidateBucketName bucket with
  | Err err => (Some (invalid_name err), m)
  | Ok _ =>
    let '(o, claimed, m) := claim m now bucket t in
    if claimed then (None, m) else (Some (taken (bool_decide (o = t))), m)
  end.

(** From the backend's answer on. *)
Definition create_end (m : memStore) (bucket : string) (answer : created) : reply * memStore :=
  match answer with
  | Failed err => (inr (s3err.FromSDKError err ("/" +:+ bucket)), remove m bucket)
  | _ => (inl 200, m)
  end.

Definition createBucket (m : memStore) (now : Z) (bucket t : string) (lock : bool) (backend_create : string -> bool -> created) : reply * memStore :=
  match create_begin m now bucket t with
  | (Some e, m) => (inr e, m)
  | (None, m) => create_end m bucket (backend_create bucket lock)
  end.

Definition delete_begin (m : memStore) (bucket t : string) : option s3err.Error :=
  match owner m bucket with
  | None => Some (s3err.New 404 "NoSuchBucket" [FS "The specified bucket does not exist."])
  | Some o => if bool_decide (o = t) then None else Some s3err.AccessDenied
  end.

Definition delete_end (m : memStore) (bucket : string) (err : option goerror) : reply * memStore :=
  match err with
  | Some err => (inr (s3err.FromSDKError err ("/" +:+ bucket)), m)
  | None => (inl 204, remove m bucket)
  end.

Definition deleteBucket (m : memStore) (bucket t : string) (backend_delete : string -> option goerror) : reply * memStore :=
  match delete_begin m bucket t with
  | Some e => (inr e, m)
  | None => delete_end m bucket (backend_delete bucket)
  end.

(** The lookup the verifier is given. *)
Definition lookup (m : memStore) : verifier.SecretLookup := fun akid token =>
  match GetKey m akid token with
  | Err err => if errors.Is err store.ErrNotFound then Err (Wrap [] [Sentinel sigv4.ErrUnknownKey; err]) else Err err
  | Ok k => Ok {| verifier.SecretAccessKey := store.SecretAccessKey k; verifier.SigningKey := None; verifier.SecretVersion := "";
                  verifier.SessionToken := store.SessionToken k |}
  end.

(** [ServeHTTP]: [None] when the request goes on to the gateway. *)
Definition ServeHTTP (v : verifier.Verifier) (now : Z) (m : memStore) (r : http.Request)
    (backend_create : string -> bool -> created) (backend_delete : string -> option goerror) : option (reply * memStore * verifier.Verifier) :=
  match interceptedBucket r with
  | None => None
  | Some bucket =>
    match verifier.Verify v now r (lookup m) with
    | (Err e, v) => Some (inr e, m, v)
    | (Ok (verified, _), v) =>
      match GetKey m (verifier.AccessKeyID verified) (s3gw.presented_token r) with
      | Err e => Some (inr (s3err.Internal e "key lookup failed"), m, v)
      | Ok k =>
        if bool_decide (http.Method r = "PUT")
        then let '(rep, m) := createBucket m now bucket (store.KTenant k)
               (strings.EqualFold (http.HGet (http.Header_ r) "x-amz-bucket-object-lock-enabled") "true") backend_create in Some (rep, m, v)
        else let '(rep, m) := deleteBucket m bucket (store.KTenant k) backend_delete in Some (rep, m, v)
      end
    end
  end.

(** ** The log line of a request *)

Record line := { lMethod : string; lPath : string; lRequestID : string; lStatus : Z; lCode : string; lTenant : string; lBucket : string; lError : string }.

(** [finish]: the error document it writes, if any, and the line it logs;
    [text] is the message of an error. *)
Definition finish (text : s3err.Error -> string) (r : http.Request) (bucket t requestID : string) (s3e : option s3err.Error) : option s3err.Reply * line :=
  let log st code msg :=
    {| lMethod := http.Method r; lPath := url.Path (http.URL r); lRequestID := requestID; lStatus := st; lCode := code; lTenant := t; lBucket := bucket;
       lError := msg |} in
  match s3e with
  | Some e => (Some (s3err.Write (http.Method r) (url.Path (http.URL r)) e requestID), log (s3err.Status e) (s3err.Code e) (text e))
  | None => (None, log (if bool_decide (http.Method r = "DELETE") then 204 else 200) "" "")
  end.

(** ** Putting it together *)

Definition MainAccessKeyID : string := "S3RPMAINKEY000000000".
Definition MainSecretAccessKey : string := "s3rpmainsecret0000000000000000000000000k".
Definition AltAccessKeyID : string := "S3RPALTKEY0000000000".
Definition AltSecretAccessKey : string := "s3rpaltsecret00000000000000000000000000k".
Definition TenantAccessKeyID : string := "S3RPTENANTKEY0000000".
Definition TenantSecretAccessKey : string := "s3rptenantsecret00000000000000000000000k".

Definition fixed_key (akid secret t : string) : store.Key :=
  {| store.AccessKeyID := akid; store.SecretAccessKey := secret; store.SigningKey := None; store.SecretVersion := ""; store.KTenant := t;
     store.User := "tester"; store.SessionToken := ""; store.KPolicy := None; store.KMetadata := None |}.

Definition defaultKeys : list store.Key :=
  [fixed_key MainAccessKeyID MainSecretAccessKey "main"; fixed_key AltAccessKeyID AltSecretAccessKey "alt";
   fixed_key TenantAccessKeyID TenantSecretAccessKey "tenanted"].

Record Config := { BackendEndpoint : string; BackendAccessKeyID : string; BackendSecretAccessKey : string }.

(** The interceptor in front of the gateway, both over one store. *)
Record bucketInterceptor := { iverifier : verifier.Verifier; istore : memStore; next : service.Gateway }.

(** [New]; [load] is how the SDK loads its configuration, and [None] below the
    panic of [s3gw.New]. *)
Definition New (seed : string -> Z) (client : store.Backend -> result goerror unit) (load : option goerror) (cfg : Config) : result goerror (option bucketInterceptor) :=
  if bool_decide (BackendEndpoint cfg = "") then Err (Text [FS "BackendEndpoint is required"])
  else if bool_decide (BackendAccessKeyID cfg = "") || bool_decide (BackendSecretAccessKey cfg = "") then Err (Text [FS "backend credentials are required"])
  else match load with
  | Some err => Err (Wrap [FS "failed to load backend client config: "] [err])
  | None =>
    let st := newMemStore {| endpoint := BackendEndpoint cfg; accessKeyID := BackendAccessKeyID cfg; secretAccessKey := BackendSecretAccessKey cfg |} defaultKeys in
    Ok (g ← service.New (as_store st) seed client;
        Some {| iverifier := service.NewVerifier seed; istore := st; next := service.set g service.SetObserver |})
  end.

(** ** Requests side by side *)

Inductive flight := Creating (bucket t : string) | Deleting (bucket t : string).

Definition flight_of (f : flight) : string * string := match f with Creating b t | Deleting b t => (b, t) end.

Record state := { mem : memStore; flying : list flight }.

(** A step and the tenant it is of. *)
Inductive step : string -> state -> state -> Prop :=
| begin_create s now b t m : create_begin (mem s) now b t = (None, m) -> step t s {| mem := m; flying := Creating b t :: flying s |}
| refuse_create s now b t e m : create_begin (mem s) now b t = (Some e, m) -> step t s {| mem := m; flying := flying s |}
| end_create s b t a rep m rest : flying s ≡ₚ Creating b t :: rest -> create_end (mem s) b a = (rep, m) -> step t s {| mem := m; flying := rest |}
| begin_delete s b t : delete_begin (mem s) b t = None -> step t s {| mem := mem s; flying := Deleting b t :: flying s |}
| refuse_delete s b t e : delete_begin (mem s) b t = Some e -> step t s s
| end_delete s b t a rep m rest : flying s ≡ₚ Deleting b t :: rest -> delete_end (mem s) b a = (rep, m) -> step t s {| mem := m; flying := rest |}.

End harness.
