(* ===== verification/HarnessFacts.v ===== *)
(** * What the test control plane guarantees

    Its store is a faithful implementation of the interface; its requests keep
    to their own tenant's buckets as long as no tenant has two of them in
    flight on one bucket, and not otherwise. *)

From S2P Require Import Prelude Unicode GoStrings GoNet GoError GoTime Signer Canonical Policy Verifier Cors Store Authorize Addressing Proxy ListingFacts Service Harness.
From stdpp Require Import relations.
Import harness.

Open Scope Z_scope.

(** ** The store *)

Lemma memStore_laws m : store.StoreLaws (as_store m).
Proof.
  constructor; cbn; unfold GetBucket, GetBucketByName.
  - intros t n b. destruct (buckets m !! n) as [rec|]; [|done]. case_bool_decide as Ht; [|done]. intros [= <-]. done.
  - intros n b. destruct (buckets m !! n) as [rec|]; [|done]. by intros [= <-].
  - intros n b. destruct (buckets m !! n) as [rec|]; [|done]. intros [= <-]. by rewrite bool_decide_true.
  - intros t n b. destruct (buckets m !! n) as [rec|]; [|done]. intros [= <-] Hne. rewrite bool_decide_false by done. eauto.
  - intros t n e. destruct (buckets m !! n) as [rec|]; [done|]. eauto.
Qed.

(** The listing before it is sorted. *)
Definition own_entry (t : string) (e : string * bucketRec) : option store.BucketEntry :=
  if bool_decide (tenant e.2 = t) then Some {| store.EName := e.1; store.ECreatedAt := createdAt e.2 |} else None.

Lemma own_names t (l : list (string * bucketRec)) : map store.EName (omap (own_entry t) l) `sublist_of` map fst l.
Proof.
  induction l as [|[n rec] l IH]; [constructor|]. cbn. unfold own_entry at 1. cbn [fst snd]. case_bool_decide; cbn; by constructor.
Qed.

Lemma own_entries m t name : name ∈ map store.EName (omap (own_entry t) (map_to_list (buckets m))) <-> owner m name = Some t.
Proof.
  unfold owner. rewrite list_elem_of_fmap. setoid_rewrite list_elem_of_omap. split.
  - intros (e & -> & [n rec] & Hin & He). apply elem_of_map_to_list in Hin. unfold own_entry in He. cbn [fst snd] in He.
    case_bool_decide as Ht; [|done]. injection He as <-. cbn. by rewrite Hin, <- Ht.
  - intros (rec & Ht & Hn)%fmap_Some. exists {| store.EName := name; store.ECreatedAt := createdAt rec |}. split; [done|].
    exists (name, rec). split; [by apply elem_of_map_to_list|]. unfold own_entry. cbn. by rewrite bool_decide_true.
Qed.

(** The harness's store implements the [Store] interface: whatever was
    claimed and removed, the laws the gateway relies on hold of it, a lookup
    finds exactly the buckets registered, under their owner, and a tenant's
    listing has exactly its own buckets, each once and in the order of the
    names. *)
Theorem memStore_refines m :
  store.StoreLaws (as_store m) /\
  (forall t name b, GetBucket m t name = Ok b <-> exists rec, buckets m !! name = Some rec /\ tenant rec = t /\ b = bucketFor m name rec) /\
  (forall t, exists l, ListBuckets m t = Ok l /\ StronglySorted proxy.entry_le l /\ NoDup (map store.EName l) /\
     forall name, name ∈ map store.EName l <-> owner m name = Some t).
Proof.
  split; [apply memStore_laws|]. split.
  - intros t name b. unfold GetBucket. destruct (buckets m !! name) as [rec|]; [|naive_solver].
    case_bool_decide; naive_solver.
  - intros t. eexists. split; [reflexivity|]. fold (own_entry t).
    pose proof (merge_sort_Permutation proxy.entry_le (omap (own_entry t) (map_to_list (buckets m)))) as Hp.
    split; [apply StronglySorted_merge_sort; apply _|]. split.
    + rewrite Hp. eapply sublist_NoDup; [|apply own_names]. apply NoDup_fst_map_to_list.
    + intros name. rewrite Hp. apply own_entries.
Qed.

(** ** Putting it together *)

(** A harness that starts has the three tenants of the suite, each under its
    own key and no bucket yet, and never fails to build its gateway. *)
Theorem New_serves seed client load cfg i :
  New seed client load cfg = Ok i ->
  exists h, i = Some h /\ buckets (istore h) = ∅ /\
    forall akid token k, GetKey (istore h) akid token = Ok k <-> k ∈ defaultKeys /\ store.AccessKeyID k = akid.
Proof.
  unfold New. destruct (bool_decide _); [done|]. destruct (_ || _); [done|]. destruct load; [done|]. cbv zeta.
  destruct (service.New _ seed client) as [g|] eqn:Hg; [|by destruct (service.New_total _ seed client Hg)].
  cbn [mbind option_bind]. intros [= <-]. eexists. split; [reflexivity|]. split; [reflexivity|]. intros akid token k. unfold GetKey. cbn.
  set (k1 := fixed_key MainAccessKeyID _ _). set (k2 := fixed_key AltAccessKeyID _ _). set (k3 := fixed_key TenantAccessKeyID _ _).
  assert (forall x, (<[TenantAccessKeyID := k3]> (<[AltAccessKeyID := k2]> (<[MainAccessKeyID := k1]> (∅ : gmap string store.Key)))) !! akid = Some x <->
    x ∈ [k1; k2; k3] /\ store.AccessKeyID x = akid) as Hk.
  { intros x. rewrite !lookup_insert_Some, lookup_empty, !elem_of_cons, elem_of_nil. split.
    - intros [[<- <-]|[_ [[<- <-]|[_ [[<- <-]|[_ H]]]]]]; [tauto..|discriminate H].
    - intros [[->|[->|[->|[]]]] <-]; cbn [k1 k2 k3 fixed_key store.AccessKeyID].
      + right. split; [discriminate|]. right. split; [discriminate|]. left. split; reflexivity.
      + right. split; [discriminate|]. left. split; reflexivity.
      + left. split; reflexivity. }
  specialize (Hk k). destruct (_ !! akid) as [x|]; (split; [intros [= <-]; by apply Hk|]); intros [= <-]%Hk; done.
Qed.

(** What is logged of a request is what it was answered. *)
Theorem finish_truthful text v now m r create delete rep m' v' bucket t id :
  ServeHTTP v now m r create delete = Some (rep, m', v') ->
  let '(doc, l) := finish text r bucket t id (match rep with inr e => Some e | inl _ => None end) in
  match rep with
  | inl st => doc = None /\ lStatus l = st /\ lCode l = ""
  | inr e => lStatus l = s3err.Status e /\ lCode l = s3err.Code e /\ exists d, doc = Some d /\ s3err.RStatus d = lStatus l
  end.
Proof.
  intros H. destruct rep as [st|e]; cbn.
  - unfold ServeHTTP in H. destruct (interceptedBucket r) as [b|] eqn:Hb; [|done].
    destruct (verifier.Verify _ _ _ _) as [[[ver r']|e] v0]; [|done]. destruct (GetKey _ _ _) as [k|e]; [|done].
    assert (http.Method r = "PUT" \/ http.Method r = "DELETE") as Hm.
    { unfold interceptedBucket in Hb. case_bool_decide; [by left|]. case_bool_decide; [by right|done]. }
    destruct Hm as [Hm|Hm]; rewrite Hm in H |- *; [rewrite bool_decide_true in H by done|rewrite bool_decide_false in H by done]; cbn in H |- *.
    + unfold createBucket in H. destruct (create_begin _ _ _ _) as [[e|] m0]; [done|]. unfold create_end in H.
      destruct (create _ _); simplify_eq; split_and!; reflexivity.
    + unfold deleteBucket in H. destruct (delete_begin _ _ _) as [e|]; [done|]. unfold delete_end in H. destruct (delete _); simplify_eq; split_and!; reflexivity.
  - split; [done|]. split; [done|]. eexists. split; [reflexivity|]. unfold s3err.Write. by destruct (_ || _).
Qed.

(** ** Requests side by side *)

Lemma owner_claim m now b t b' :
  owner (with_buckets m (<[b := {| tenant := t; createdAt := now |}]> (buckets m))) b' = if decide (b = b') then Some t else owner m b'.
Proof. unfold owner. cbn. case_decide as E; [subst; by rewrite lookup_insert_eq|by rewrite lookup_insert_ne]. Qed.

Lemma owner_remove m b b' : owner (remove m b) b' = if decide (b = b') then None else owner m b'.
Proof. unfold owner. cbn. case_decide as E; [subst; by rewrite lookup_delete_eq|by rewrite lookup_delete_ne]. Qed.

Lemma create_begin_claims m now b t m' : create_begin m now b t = (None, m') -> owner m b = None /\ forall b', owner m' b' = if decide (b = b') then Some t else owner m b'.
Proof.
  unfold create_begin, claim, owner. destruct (store.ValidateBucketName b); [|done]. destruct (buckets m !! b) eqn:E; [done|].
  intros [= <-]. split; [done|]. intros b'. apply owner_claim.
Qed.

Lemma create_begin_refuses m now b t e m' : create_begin m now b t = (Some e, m') -> m' = m.
Proof.
  unfold create_begin, claim. destruct (store.ValidateBucketName b); [|by intros [= _ <-]]. destruct (buckets m !! b); by intros [= _ <-].
Qed.

Lemma create_end_owner m b a rep m' b' : create_end m b a = (rep, m') -> b' <> b \/ owner m' b' <> None -> owner m' b' = owner m b'.
Proof. destruct a; intros [= _ <-]; try done. rewrite owner_remove. case_decide; naive_solver. Qed.

Lemma delete_end_owner m b a rep m' b' : delete_end m b a = (rep, m') -> b' <> b \/ owner m' b' <> None -> owner m' b' = owner m b'.
Proof. destruct a; intros [= _ <-]; try done. rewrite owner_remove. case_decide; naive_solver. Qed.

(** Steps of a system in which no tenant has two requests in flight on one
    bucket. *)
Definition orderly (t : string) (s s' : state) : Prop := step t s s' /\ NoDup (map flight_of (flying s')).
Definition reachable (m : memStore) : state -> Prop := rtc (fun s s' => exists t, orderly t s s') {| mem := m; flying := [] |}.

(** A request in flight is on a bucket of its tenant. *)
Record flights_ok (s : state) : Prop := {
  fo_own f : f ∈ flying s -> owner (mem s) (flight_of f).1 = Some (flight_of f).2;
  fo_once : NoDup (map flight_of (flying s)) }.

(** Ending a flight leaves the others on the buckets of their tenants. *)
Lemma flights_end s f rest m :
  flights_ok s -> flying s ≡ₚ f :: rest -> (forall b', b' <> (flight_of f).1 -> owner m b' = owner (mem s) b') ->
  forall f', f' ∈ rest -> owner m (flight_of f').1 = Some (flight_of f').2.
Proof.
  intros [Hown Hnd] Hp Hm f' Hin. assert (owner (mem s) (flight_of f').1 = Some (flight_of f').2) as Ho by (apply Hown; rewrite Hp; by right).
  destruct (decide ((flight_of f').1 = (flight_of f).1)) as [He|Hne]; [|by rewrite Hm].
  exfalso. assert (owner (mem s) (flight_of f).1 = Some (flight_of f).2) as Ho' by (apply Hown; rewrite Hp; by left).
  rewrite Hp in Hnd. cbn in Hnd. apply NoDup_cons in Hnd as [Hnd _]. apply Hnd.
  replace (flight_of f) with (flight_of f'); [by apply list_elem_of_fmap_2|].
  destruct (flight_of f), (flight_of f'). cbn in *. congruence.
Qed.

Lemma orderly_ok t s s' : orderly t s s' -> flights_ok s -> flights_ok s'.
Proof.
  intros [Hs Hnd] Hok. constructor; [|exact Hnd]. clear Hnd.
  destruct Hs as [s now b t m Hb|s now b t e m Hb|s b t a rep m rest Hp He|s b t Hb|s b t e Hb|s b t a rep m rest Hp He]; cbn.
  - apply create_begin_claims in Hb as [Hnone Ho]. intros f [->|Hin]%elem_of_cons; cbn; rewrite Ho; [by rewrite decide_True|].
    apply (fo_own _ Hok) in Hin. case_decide as E; [|done]. rewrite <- E in Hin. congruence.
  - apply create_begin_refuses in Hb as ->. apply Hok.
  - intros f' Hin. eapply (flights_end s (Creating b t)); [done|exact Hp| |exact Hin]. intros b' Hne. by eapply create_end_owner; [|left].
  - intros f [->|Hin]%elem_of_cons; [|by apply Hok]. cbn. unfold delete_begin in Hb. destruct (owner (mem s) b) as [o|]; [|done].
    case_bool_decide; [congruence|done].
  - apply Hok.
  - intros f' Hin. eapply (flights_end s (Deleting b t)); [done|exact Hp| |exact Hin]. intros b' Hne. by eapply delete_end_owner; [|left].
Qed.

Lemma reachable_ok m s : reachable m s -> flights_ok s.
Proof.
  unfold reachable. intros H. remember {| mem := m; flying := [] |} as s0 eqn:E.
  assert (flights_ok s0) as H0 by (subst s0; constructor; cbn; [intros f Hf; by apply not_elem_of_nil in Hf|constructor]). clear E.
  induction H as [|s1 s2 s3 [t Ht] _ IH]; [done|]. apply IH. by eapply orderly_ok.
Qed.

(** What a step changes of who owns what. *)
Lemma step_changes t s s' b :
  step t s s' -> owner (mem s') b <> owner (mem s) b ->
  (owner (mem s) b = None /\ owner (mem s') b = Some t) \/
  owner (mem s') b = None /\ exists f, f ∈ flying s /\ flight_of f = (b, t).
Proof.
  intros Hs Hne.
  destruct Hs as [s now b0 t m Hb|s now b0 t e m Hb|s b0 t a rep m rest Hp He|s b0 t Hb|s b0 t e Hb|s b0 t a rep m rest Hp He]; cbn in *; try done.
  - apply create_begin_claims in Hb as [Hnone Ho]. rewrite Ho in *. case_decide; [subst; by left|done].
  - by apply create_begin_refuses in Hb as ->.
  - right. assert (b = b0) as -> by (destruct (decide (b = b0)); [done|]; exfalso; apply Hne; by eapply create_end_owner; [|left]).
    split; [|exists (Creating b0 t); split; [rewrite Hp; by left|done]].
    destruct (owner m b0) eqn:E; [|done]. exfalso. apply Hne. rewrite <- E. eapply create_end_owner; [exact He|right; congruence].
  - right. assert (b = b0) as -> by (destruct (decide (b = b0)); [done|]; exfalso; apply Hne; by eapply delete_end_owner; [|left]).
    split; [|exists (Deleting b0 t); split; [rewrite Hp; by left|done]].
    destruct (owner m b0) eqn:E; [|done]. exfalso. apply Hne. rewrite <- E. eapply delete_end_owner; [exact He|right; congruence].
Qed.

(** Tenants keep their buckets: in a system where no tenant has two
    requests in flight on one bucket, however the requests of all tenants
    interleave and whatever the backend answers, a step that changes who owns a
    bucket is a claim of a free name for the tenant of the step, or a removal
    of a bucket that tenant owns. *)
Theorem control_plane_ownership m s t s' b :
  reachable m s -> step t s s' -> owner (mem s') b <> owner (mem s) b ->
  (owner (mem s) b = None /\ owner (mem s') b = Some t) \/ (owner (mem s) b = Some t /\ owner (mem s') b = None).
Proof.
  intros Hr Hs Hne. destruct (step_changes _ _ _ _ Hs Hne) as [H|(Hnone & f & Hf & Hfo)]; [by left|]. right. split; [|done].
  apply (fo_own _ (reachable_ok _ _ Hr)) in Hf. by rewrite Hfo in Hf.
Qed.

(** ** A race *)

Definition demo_mem : memStore := newMemStore {| endpoint := "http://127.0.0.1:9000"; accessKeyID := "k"; secretAccessKey := "s" |} [].
Definition owned_by (o : option string) (fl : list flight) : state :=
  {| mem := match o with Some t => with_buckets demo_mem {["photos" := {| tenant := t; createdAt := 0 |}]} | None => demo_mem end; flying := fl |}.

Lemma first_create t fl : step t (owned_by None fl) (owned_by (Some t) (Creating "photos" t :: fl)).
Proof. refine (begin_create (owned_by None fl) 0 "photos" t _ _). reflexivity. Qed.

Lemma create_done t fl : step t (owned_by (Some t) (Creating "photos" t :: fl)) (owned_by (Some t) fl).
Proof. refine (end_create (owned_by (Some t) (Creating "photos" t :: fl)) "photos" t Created (inl 200) _ fl _ _); reflexivity. Qed.

Lemma delete_starts t fl : step t (owned_by (Some t) fl) (owned_by (Some t) (Deleting "photos" t :: fl)).
Proof.
  assert (delete_begin (mem (owned_by (Some t) fl)) "photos" t = None) as H; [|exact (begin_delete _ _ _ H)].
  unfold delete_begin. replace (owner (mem (owned_by (Some t) fl)) "photos") with (Some t) by done. by rewrite bool_decide_true.
Qed.

Lemma delete_done t o fl : step t (owned_by (Some o) (Deleting "photos" t :: fl)) (owned_by None fl).
Proof. refine (end_delete (owned_by (Some o) (Deleting "photos" t :: fl)) "photos" t None (inl 204) demo_mem fl _ _); reflexivity. Qed.

Lemma control_plane_ownership_witness :
  owner (mem (owned_by (Some "a") [Deleting "photos" "a"])) "photos" = Some "a" /\ owner (mem (owned_by None [])) "photos" = None.
Proof.
  assert (reachable demo_mem (owned_by (Some "a") [Deleting "photos" "a"])) as Hr.
  { unfold reachable. change {| mem := demo_mem; flying := [] |} with (owned_by None []).
    eapply rtc_l; [exists "a"; split; [apply first_create|apply NoDup_singleton]|].
    eapply rtc_l; [exists "a"; split; [apply create_done|constructor]|].
    apply rtc_once. exists "a". split; [apply delete_starts|apply NoDup_singleton]. }
  destruct (control_plane_ownership demo_mem _ "a" (owned_by None []) "photos" Hr (delete_done "a" "a" [])) as [[H _]|H].
  - vm_compute. discriminate.
  - vm_compute in H. discriminate H.
  - exact H.
Defined.

(** Without that order the guarantee fails: a tenant's second delete, checked
    before its first one finished, removes the bucket another tenant created
    in between. *)
Theorem control_plane_race :
  exists s s', rtc (fun s s' => exists t, step t s s') {| mem := demo_mem; flying := [] |} s /\
    step "a" s s' /\ owner (mem s) "photos" = Some "b" /\ owner (mem s') "photos" = None.
Proof.
  exists (owned_by (Some "b") [Deleting "photos" "a"]), (owned_by None []).
  split; [|split; [apply delete_done|done]]. change {| mem := demo_mem; flying := [] |} with (owned_by None []).
  eapply rtc_l; [exists "a"; apply first_create|]. eapply rtc_l; [exists "a"; apply create_done|].
  eapply rtc_l; [exists "a"; apply delete_starts|]. eapply rtc_l; [exists "a"; apply delete_starts|].
  eapply rtc_l; [exists "a"; apply delete_done|]. eapply rtc_l; [exists "b"; apply first_create|].
  eapply rtc_l; [exists "b"; apply create_done|]. apply rtc_refl.
Qed.
